(* ===== verification/_CoqProject ===== *)
-Q . S2P
Prelude.v
Bytes.v
Digest.v
Text.v
Times.v
Frames.v
Order.v
Version.v
Actions.v
ActionTables.v
Capability.v
CapabilityProps.v
Registry.v
RegistryProps.v
AuthzTables.v
Authz.v
AuthzProps.v
Expect.v
ExpectProps.v
Messages.v
Payloads.v
Binding.v
Canonical.v
Orders.v
BindingProps.v
Consent.v
Signer.v
Trust.v
TrustProps.v
TrustLaws.v
Dispatch.v
Acks.v
SpoolRecord.v
ResultSpool.v
ResultSpoolProps.v
ResultOffers.v
ResultRestart.v
Replay.v
ReplayProps.v
ReplayAnswers.v
Verifier.v
VerifierProps.v
Accepted.v
ServedDemo.v
JobState.v
Jobs.v
JobSteps.v
JobProps.v
GatewayResults.v
ResultPath.v
ResultDemo.v
Budgets.v
BudgetProps.v
BudgetKeys.v
Selector.v
SelectorProps.v
SelectorSql.v
SpoolSegment.v
Spool.v
SpoolAccount.v
SpoolSteps.v
SpoolFindings.v
CampaignStates.v
Campaigns.v
CampaignStore.v
CampaignPass.v
CampaignAdvance.v
CampaignSteps.v
CampaignMemory.v
CampaignRuns.v
CampaignRollout.v
CampaignTicks.v
CampaignStops.v
CampaignProps.v
CampaignDemo.v
