(* ===== verification/Prelude.v ===== *)
(** * Prelude (header to be completed below) *)
From Stdlib Require Export ZArith Lia Strings.Byte.
From stdpp Require Export base list gmap strings sorting.

#[global] Set Default Goal Selector "!".
#[global] Unset Program Cases.
#[global] Set Warnings "-clear-no-such-hyp".

(** ** Results and the state-and-error monad

    A Go function [func (s *T) op(...) (A, error)] becomes [M T E A]: the
    state is threaded through, and an error does not roll the state back,
    because a Go method that returns an error keeps what it already changed. *)

Inductive result (E A : Type) : Type :=
| Ok (a : A)
| Err (e : E).
Arguments Ok {E A} a.
Arguments Err {E A} e.

Definition M (S E A : Type) : Type := S → result E A * S.

#[export] Instance result_ret E : MRet (result E) := λ A a, Ok a.
#[export] Instance result_bind E : MBind (result E) := λ A B f m,
  match m with Ok a => f a | Err e => Err e end.

#[export] Instance M_ret S E : MRet (M S E) := λ A a s, (Ok a, s).
#[export] Instance M_bind S E : MBind (M S E) := λ A B f m s,
  match m s with
  | (Ok a, s') => f a s'
  | (Err e, s') => (Err e, s')
  end.

Definition fail {S E A} (e : E) : M S E A := λ s, (Err e, s).
Definition gets {S E A} (f : S → A) : M S E A := λ s, (Ok (f s), s).
Definition modify {S E} (f : S → S) : M S E unit := λ s, (Ok tt, f s).
(** [try m] is Go's [if err := m(); err != nil]: the outcome is a value. *)
Definition try {S E A} (m : M S E A) : M S E (result E A) := λ s,
  let '(r, s') := m s in (Ok r, s').

Definition is_ok {E A} (r : result E A) : bool :=
  match r with Ok _ => true | Err _ => false end.

(** The equation a Go [for range] over a slice becomes. *)
Fixpoint mfor {S E A} (l : list A) (body : A → M S E unit) : M S E unit :=
  match l with
  | [] => mret tt
  | x :: l' => body x ;; mfor l' body
  end.

(** A loop that fills a slice and threads a value: Go's [for range] with an
    early return, over an error type alone. *)
Section thread.
Context {A B S E : Type} (f : A → S → result E (B * S)).

Fixpoint thread (l : list A) (s : S) : result E (list B * S) :=
  match l with
  | [] => Ok ([], s)
  | x :: l' => '(y, s) ← f x s; '(ys, s) ← thread l' s; Ok (y :: ys, s)
  end.
End thread.

Section pass.
Context {A S E : Type} (f : A → S → result E S).

Fixpoint pass (l : list A) (s : S) : result E S :=
  match l with
  | [] => Ok s
  | x :: l' => s ← f x s; pass l' s
  end.
End pass.

Lemma result_bind_Ok {E A B} (m : result E A) (k : A → result E B) b :
  (m ≫= k) = Ok b ↔ ∃ a, m = Ok a ∧ k a = Ok b.
Proof. destruct m; cbn; split; [eauto|by intros (? & [= ->] & ?)|done|by intros (? & ? & ?)]. Qed.

Section thread_lemmas.
Context {A B S E : Type}.

Lemma thread_Forall2 (Q : A → B → Prop) (f : A → S → result E (B * S)) l s l' s' :
  Forall (λ x, ∀ s y s', f x s = Ok (y, s') → Q x y) l → thread f l s = Ok (l', s') → Forall2 Q l l'.
Proof.
  intros H. revert s l' s'. induction H as [|x l Hx _ IH]; cbn; intros s l' s' Ht; [by injection Ht as <- <-|].
  apply result_bind_Ok in Ht as ([y s1] & H1 & Ht). apply result_bind_Ok in Ht as ([ys s2] & H2 & Ht).
  injection Ht as <- <-. constructor; eauto.
Qed.

(** An error of the loop is an error of one of its rounds. *)
Lemma thread_Err (f : A → S → result E (B * S)) l s e :
  thread f l s = Err e → ∃ x s, x ∈ l ∧ f x s = Err e.
Proof.
  revert s. induction l as [|x l IH]; intros s Ht; [done|]. cbn in Ht.
  destruct (f x s) as [[y s1]|e1] eqn:E1; cbn in Ht.
  - destruct (thread f l s1) as [[ys s2]|e2] eqn:E2; cbn in Ht; [done|]. injection Ht as ->.
    destruct (IH _ E2) as (z & s' & ? & ?). exists z, s'. split; [by right|done].
  - injection Ht as ->. exists x, s. split; [by left|done].
Qed.

Lemma pass_Forall (Q : A → Prop) (f : A → S → result E S) l s s' :
  Forall (λ x, ∀ s s', f x s = Ok s' → Q x) l → pass f l s = Ok s' → Forall Q l.
Proof.
  intros H. revert s s'. induction H as [|x l Hx _ IH]; cbn; intros s s' Hp; [done|].
  apply result_bind_Ok in Hp as (s1 & H1 & Hp). constructor; eauto.
Qed.

Lemma thread_length (f : A → S → result E (B * S)) l s l' s' :
  thread f l s = Ok (l', s') → List.length l' = List.length l.
Proof.
  intros H. symmetry. eapply Forall2_length, (thread_Forall2 (λ _ _, True)); [|exact H]. by apply Forall_true.
Qed.
End thread_lemmas.

(** A sum over a list, and what a loop that counts adds. *)
Definition sumZ {A} (w : A → Z) (l : list A) : Z := foldr (λ x acc, Z.add (w x) acc) 0%Z l.

Lemma thread_sum {A B E} (w : B → Z) (f : A → Z → result E (B * Z)) l s l' s' :
  Forall (λ x, ∀ s y s', f x s = Ok (y, s') → s' = Z.add s (w y)) l →
  thread f l s = Ok (l', s') → s' = Z.add s (sumZ w l').
Proof.
  intros H. revert s l' s'. induction H as [|x l Hx _ IH]; cbn; intros s l' s' Ht;
    [injection Ht as <- <-; unfold sumZ; cbn; lia|].
  apply result_bind_Ok in Ht as ([y s1] & H1 & Ht). apply result_bind_Ok in Ht as ([ys s2] & H2 & Ht).
  injection Ht as <- <-. change (sumZ w (y :: ys)) with (Z.add (w y) (sumZ w ys)).
  rewrite (IH _ _ _ H2), (Hx _ _ _ H1). lia.
Qed.

(** A Go map literal, read by key. *)
Section assoc.
Context {K V : Type} `{!EqDecision K}.

Fixpoint assoc (k : K) (l : list (K * V)) : option V :=
  match l with
  | [] => None
  | (k', v) :: l' => if bool_decide (k = k') then Some v else assoc k l'
  end.

Lemma assoc_elem k l v : assoc k l = Some v → (k, v) ∈ l.
Proof.
  induction l as [|[k' v'] l IH]; [done|]. cbn. case_bool_decide as Hk; intros Ha; [|right; auto].
  injection Ha as ->. subst. by left.
Qed.

Lemma assoc_is_Some k l : is_Some (assoc k l) ↔ k ∈ l.*1.
Proof.
  induction l as [|[k' v'] l IH]; cbn; [by rewrite is_Some_alt, elem_of_nil|].
  rewrite elem_of_cons. case_bool_decide as Hk; [|rewrite IH; intuition congruence]. subst. split; [by left|by eexists].
Qed.

(** What holds of every row holds of a key that is found. *)
Lemma assoc_all (P : K → bool) k l : forallb P l.*1 = true → is_Some (assoc k l) → P k = true.
Proof. rewrite forallb_forall. intros Hf Hk%assoc_is_Some. by apply Hf, list_elem_of_In. Qed.
End assoc.

(** ** Running the monad

    [mstep] takes the first action of a bind whose outcome the [run] database
    knows; [mstep with H] takes it with a given equation. *)

Create HintDb run.

Lemma bind_Ok {S E A B} (m : M S E A) (k : A → M S E B) s a s' :
  m s = (Ok a, s') → (m ≫= k) s = k a s'.
Proof. intros H. unfold mbind, M_bind. by rewrite H. Qed.

Lemma bind_Err {S E A B} (m : M S E A) (k : A → M S E B) s e s' :
  m s = (Err e, s') → (m ≫= k) s = (Err e, s').
Proof. intros H. unfold mbind, M_bind. by rewrite H. Qed.

Lemma gets_run {S E A} (f : S → A) (s : S) : gets (E := E) f s = (Ok (f s), s).
Proof. done. Qed.
Lemma modify_run {S E} (f : S → S) (s : S) : modify (E := E) f s = (Ok tt, f s).
Proof. done. Qed.
Lemma ret_run {S E A} (a : A) (s : S) : (mret a : M S E A) s = (Ok a, s).
Proof. done. Qed.
Lemma try_Ok {S E A} (m : M S E A) s a s' : m s = (Ok a, s') → try m s = (Ok (Ok a), s').
Proof. intros H. unfold try. by rewrite H. Qed.
Lemma try_Err {S E A} (m : M S E A) s e s' : m s = (Err e, s') → try m s = (Ok (Err e), s').
Proof. intros H. unfold try. by rewrite H. Qed.

#[export] Hint Resolve gets_run modify_run ret_run try_Ok try_Err : run.

Ltac mstep := erewrite bind_Ok; [|solve [eauto with run]]; cbv beta.
Tactic Notation "mstep" "with" uconstr(H) := erewrite bind_Ok; [|eapply H]; cbv beta.

(** Invariants of loops: what one round keeps, the whole [for range] keeps. *)
Lemma mfor_inv {S E A} (P : S → Prop) (l : list A) (body : A → M S E unit) s :
  (∀ x s, x ∈ l → P s → P (body x s).2) → P s → P (mfor l body s).2.
Proof.
  intros Hb. revert s. induction l as [|x l IH]; intros s Hs; [done|].
  cbn. unfold mbind, M_bind. specialize (Hb x s ltac:(set_solver) Hs) as Hx.
  destruct (body x s) as [[[]|e] s'] eqn:Ex; [|done].
  apply IH; [|done]. intros y s0 Hy. apply Hb. set_solver.
Qed.

(** ** Weakest preconditions

    [wp m s Q R]: run from [s], [m] ends in [Q] when it returns and in [R]
    when it fails. With [R] false it says that [m] succeeds. *)

Definition wp {S E A} (m : M S E A) (s : S) (Q : A → S → Prop) (R : E → S → Prop) : Prop :=
  match m s with (Ok a, s') => Q a s' | (Err e, s') => R e s' end.

Definition never {S E : Type} : E → S → Prop := λ _ _, False.

Section wp.
Context {S E : Type}.
Implicit Types (s : S) (e : E).

Lemma wp_bind {A B} (m : M S E A) (k : A → M S E B) s Q R :
  wp m s (λ a s', wp (k a) s' Q R) R → wp (m ≫= k) s Q R.
Proof. unfold wp, mbind, M_bind. by destruct (m s) as [[a|e] s']. Qed.

Lemma wp_ret {A} (a : A) s (Q : A → S → Prop) (R : E → S → Prop) :
  Q a s → wp (mret a : M S E A) s Q R.
Proof. done. Qed.

Lemma wp_fail {A} e s (Q : A → S → Prop) R : R e s → wp (fail e : M S E A) s Q R.
Proof. done. Qed.

Lemma wp_gets {A} (f : S → A) s Q (R : E → S → Prop) : Q (f s) s → wp (gets f) s Q R.
Proof. done. Qed.

Lemma wp_modify (f : S → S) s Q (R : E → S → Prop) : Q tt (f s) → wp (modify f) s Q R.
Proof. done. Qed.

Lemma wp_try {A} (m : M S E A) s Q R :
  wp m s (λ a s', Q (Ok a) s') (λ e s', Q (Err e) s') → wp (try m) s Q R.
Proof. unfold wp, try. by destruct (m s) as [[a|e] s']. Qed.

Lemma wp_mono {A} (m : M S E A) s (Q Q' : A → S → Prop) (R R' : E → S → Prop) :
  wp m s Q R → (∀ a s', Q a s' → Q' a s') → (∀ e s', R e s' → R' e s') → wp m s Q' R'.
Proof. unfold wp. destruct (m s) as [[a|e] s']; auto. Qed.

Lemma wp_conj {A} (m : M S E A) s (Q Q' : A → S → Prop) (R R' : E → S → Prop) :
  wp m s Q R → wp m s Q' R' → wp m s (λ a s', Q a s' ∧ Q' a s') (λ e s', R e s' ∧ R' e s').
Proof. unfold wp. destruct (m s) as [[a|e] s']; auto. Qed.

Lemma wp_run {A} (m : M S E A) s Q R :
  wp m s Q R ↔ (∃ a s', m s = (Ok a, s') ∧ Q a s') ∨ (∃ e s', m s = (Err e, s') ∧ R e s').
Proof.
  unfold wp. destruct (m s) as [[a|e] s']; split; intros Hq; eauto.
  - by destruct Hq as [(? & ? & [= -> ->] & ?)|(? & ? & ? & ?)].
  - by destruct Hq as [(? & ? & ? & ?)|(? & ? & [= -> ->] & ?)].
Qed.

Lemma wp_never {A} (m : M S E A) s Q :
  wp m s Q never ↔ ∃ a s', m s = (Ok a, s') ∧ Q a s'.
Proof.
  rewrite wp_run. unfold never. split; [intros [?|(? & ? & ? & [])]; done|by left].
Qed.

(** A loop keeps [P done] for the elements it went through. *)
Lemma wp_mfor {A} (P : list A → S → Prop) (l : list A) (body : A → M S E unit) s R :
  (∀ l1 x l2 s', l = l1 ++ x :: l2 → P l1 s' → wp (body x) s' (λ _ s'', P (l1 ++ [x]) s'') R) →
  P [] s → wp (mfor l body) s (λ _ s', P l s') R.
Proof.
  intros Hb H0.
  assert (Hgen : ∀ l2 l1 s, l = l1 ++ l2 → P l1 s → wp (mfor l2 body) s (λ _ s', P l s') R);
    [|by apply (Hgen l [])].
  intros l2. induction l2 as [|x l2 IH]; intros l1 s1 Hl HP.
  - rewrite app_nil_r in Hl. by subst.
  - cbn. apply wp_bind. eapply wp_mono; [by eapply Hb| |done].
    intros [] s' HP'. apply (IH (l1 ++ [x])); [|done]. by rewrite <- app_assoc.
Qed.
End wp.

Ltac wp_step :=
  lazymatch goal with
  | |- wp (mbind _ _) _ _ _ => apply wp_bind
  | |- wp (mret _) _ _ _ => apply wp_ret
  | |- wp (fail _) _ _ _ => apply wp_fail
  | |- wp (gets _) _ _ _ => apply wp_gets
  | |- wp (modify _) _ _ _ => apply wp_modify
  | |- wp (try _) _ _ _ => apply wp_try
  end; cbv beta.
Ltac wp_steps := repeat wp_step.
