(* ===== verification/Bytes.v ===== *)
(** * Bytes: Go's byte slices, strings, machine integers and clock readings

    What the modelled code uses of the language and of the packages
    encoding/binary, io and time: fixed-width little-endian integers,
    [io.ReadFull] on a byte reader, the two's complement view of a 64-bit
    word, saturating differences of clock readings. *)
From Stdlib Require Import Strings.String Strings.Ascii.
From S2P Require Import Prelude.

Open Scope Z_scope.

Abbreviation byte := Byte.byte.
Abbreviation bytes := (list Byte.byte).

#[export] Instance byte_eq_dec : EqDecision byte := Byte.byte_eq_dec.
#[export] Program Instance byte_countable : Countable byte :=
  inj_countable Byte.to_N Byte.of_N _.
Next Obligation. intros b. apply Byte.of_to_N. Qed.

Definition b2z (b : byte) : Z := Z.of_N (Byte.to_N b).
Definition z2b (z : Z) : byte :=
  match Byte.of_N (Z.to_N (z mod 256)) with Some b => b | None => Byte.x00 end.

(** Machine integers: the value a w-bit unsigned or signed variable holds. *)
Definition u64 (z : Z) : Z := z mod 2 ^ 64.
Definition u32 (z : Z) : Z := z mod 2 ^ 32.
Definition u16 (z : Z) : Z := z mod 2 ^ 16.
Definition u8 (z : Z) : Z := z mod 2 ^ 8.
Definition i64 (z : Z) : Z := (z + 2 ^ 63) mod 2 ^ 64 - 2 ^ 63.

(** [binary.LittleEndian.PutUintN] and [UintN], for n bytes. *)
Fixpoint le_put (n : nat) (z : Z) : bytes :=
  match n with
  | O => []
  | S n' => z2b z :: le_put n' (z / 256)
  end.

Fixpoint le_get (bs : bytes) : Z :=
  match bs with
  | [] => 0
  | b :: bs' => b2z b + 256 * le_get bs'
  end.

(** [len] of a slice or of a string. *)
Definition len {A} (l : list A) : Z := Z.of_nat (List.length l).

(** Strings are byte sequences. *)
Definition sbytes (s : string) : bytes := list_byte_of_string s.
Definition bstring (b : bytes) : string := string_of_list_byte b.
Definition slen (s : string) : Z := len (sbytes s).

(** [io.ReadFull] of n bytes on what is left of a reader. *)
Definition read_full (n : Z) (bs : bytes) : option (bytes * bytes) :=
  if bool_decide (n ≤ len bs) then Some (take (Z.to_nat n) bs, drop (Z.to_nat n) bs)
  else None.

Definition read_byte (bs : bytes) : option (byte * bytes) :=
  match bs with [] => None | b :: bs' => Some (b, bs') end.

(** Clock readings are nanoseconds since the Unix epoch; [time.Time{}] is the
    first instant of year 1. A [time.Duration] is a signed 64-bit count and
    [Time.Sub] saturates at its ends. *)
Definition time : Type := Z.
Definition zero_time : time := -62135596800000000000.
Definition is_zero (t : time) : bool := bool_decide (t = zero_time).
Definition max_duration : Z := 2 ^ 63 - 1.
Definition min_duration : Z := - 2 ^ 63.
Definition time_sub (t u : time) : Z := Z.max min_duration (Z.min max_duration (t - u)).
Definition second : Z := 1000000000.
Definition minute : Z := 60 * second.
Definition hour : Z := 60 * minute.

(** ** Lemmas *)

Lemma b2z_range b : 0 ≤ b2z b < 256.
Proof.
  unfold b2z. pose proof (Byte.to_N_bounded b). lia.
Qed.

Lemma z2b_b2z b : z2b (b2z b) = b.
Proof.
  unfold z2b. rewrite Z.mod_small by apply b2z_range.
  unfold b2z. by rewrite N2Z.id, Byte.of_to_N.
Qed.

Lemma b2z_z2b z : b2z (z2b z) = z mod 256.
Proof.
  unfold z2b. pose proof (Z.mod_pos_bound z 256 ltac:(lia)) as Hb.
  destruct (Byte.of_N (Z.to_N (z mod 256))) as [b|] eqn:E.
  - apply Byte.to_of_N in E. unfold b2z. rewrite E. lia.
  - apply Byte.of_N_None_iff in E. lia.
Qed.

Lemma b2z_inj a b : b2z a = b2z b → a = b.
Proof. intros H. by rewrite <- (z2b_b2z a), <- (z2b_b2z b), H. Qed.

Lemma z2b_u8 z : z2b (z mod 256) = z2b z.
Proof. apply b2z_inj. rewrite !b2z_z2b, Z.mod_mod; lia. Qed.

Lemma length_le_put n z : List.length (le_put n z) = n.
Proof. revert z. induction n; intros; simpl; auto. Qed.

Lemma le_get_range bs : 0 ≤ le_get bs < 2 ^ (8 * len bs).
Proof.
  unfold len. induction bs as [|b bs IH]; simpl le_get; [simpl; lia|].
  rewrite length_cons, Nat2Z.inj_succ.
  replace (2 ^ (8 * Z.succ (Z.of_nat (List.length bs)))) with (256 * 2 ^ (8 * Z.of_nat (List.length bs))).
  - pose proof (b2z_range b). lia.
  - replace (8 * Z.succ (Z.of_nat (List.length bs))) with (8 + 8 * Z.of_nat (List.length bs)) by lia.
    rewrite Z.pow_add_r by lia. done.
Qed.

Lemma le_get_put n z : le_get (le_put n z) = z mod 2 ^ (8 * Z.of_nat n).
Proof.
  revert z. induction n as [|n IH]; intros z; simpl le_put; simpl le_get.
  - by rewrite Z.mod_1_r.
  - rewrite IH, b2z_z2b, Nat2Z.inj_succ.
    replace (8 * Z.succ (Z.of_nat n)) with (8 + 8 * Z.of_nat n) by lia.
    rewrite Z.pow_add_r by lia. change (2 ^ 8) with 256.
    by rewrite Z.rem_mul_r by lia.
Qed.

Lemma le_put_get bs : le_put (List.length bs) (le_get bs) = bs.
Proof.
  induction bs as [|b bs IH]; simpl; [done|].
  pose proof (b2z_range b).
  f_equal.
  - apply b2z_inj. rewrite b2z_z2b, (Z.mul_comm 256), Z.mod_add by lia.
    by apply Z.mod_small.
  - rewrite (Z.mul_comm 256), Z.div_add by lia.
    by rewrite Z.div_small, Z.add_0_l.
Qed.

Lemma le_put_mod n z : le_put n (z mod 2 ^ (8 * Z.of_nat n)) = le_put n z.
Proof. by rewrite <- le_get_put, <- (length_le_put n z) at 1; rewrite le_put_get. Qed.

Lemma len_nonneg {A} (l : list A) : 0 ≤ len l.
Proof. unfold len. lia. Qed.

Lemma len_nil {A} : len (@nil A) = 0.
Proof. done. Qed.

Lemma len_app {A} (l k : list A) : len (l ++ k) = len l + len k.
Proof. unfold len. rewrite length_app. lia. Qed.

Lemma len_cons {A} (x : A) l : len (x :: l) = 1 + len l.
Proof. unfold len. rewrite length_cons. lia. Qed.

Lemma len_le_put n z : len (le_put n z) = Z.of_nat n.
Proof. unfold len. by rewrite length_le_put. Qed.

Lemma len_nil_inv {A} (l : list A) : len l = 0 → l = [].
Proof. destruct l; [done|]. rewrite len_cons. pose proof (len_nonneg l). lia. Qed.

Lemma len_take {A} n (l : list A) : 0 ≤ n ≤ len l → len (take (Z.to_nat n) l) = n.
Proof. unfold len. rewrite length_take. lia. Qed.

Lemma len_drop {A} n (l : list A) : 0 ≤ n ≤ len l → len (drop (Z.to_nat n) l) = len l - n.
Proof. unfold len. rewrite length_drop. lia. Qed.

Lemma take_len_app {A} (l k : list A) : take (Z.to_nat (len l)) (l ++ k) = l.
Proof. unfold len. by rewrite Nat2Z.id, take_app_length. Qed.

Lemma drop_len_app {A} (l k : list A) : drop (Z.to_nat (len l)) (l ++ k) = k.
Proof. unfold len. by rewrite Nat2Z.id, drop_app_length. Qed.

Lemma read_full_app n a rest :
  n = len a → read_full n (a ++ rest) = Some (a, rest).
Proof.
  intros ->. unfold read_full.
  rewrite bool_decide_eq_true_2 by (rewrite len_app; pose proof (len_nonneg rest); lia).
  by rewrite take_len_app, drop_len_app.
Qed.

Lemma read_full_Some n bs a rest :
  0 ≤ n → read_full n bs = Some (a, rest) → bs = a ++ rest ∧ len a = n.
Proof.
  unfold read_full. intros Hn. case_bool_decide; [|done].
  intros [= <- <-]. rewrite take_drop. by rewrite len_take.
Qed.

Lemma read_full_None n bs : read_full n bs = None ↔ len bs < n.
Proof. unfold read_full. case_bool_decide; split; intros; (lia || done). Qed.

Lemma read_byte_Some bs b rest : read_byte bs = Some (b, rest) ↔ bs = b :: rest.
Proof. destruct bs; naive_solver. Qed.

Lemma sbytes_bstring b : sbytes (bstring b) = b.
Proof. apply list_byte_of_string_of_list_byte. Qed.

Lemma bstring_sbytes s : bstring (sbytes s) = s.
Proof. apply string_of_list_byte_of_string. Qed.

Lemma u64_small z : 0 ≤ z < 2 ^ 64 → u64 z = z.
Proof. apply Z.mod_small. Qed.

Lemma i64_u64 z : - 2 ^ 63 ≤ z < 2 ^ 63 → i64 (u64 z) = z.
Proof.
  intros H. unfold i64, u64. rewrite Zplus_mod_idemp_l, Z.mod_small by lia. lia.
Qed.

Lemma u64_i64 z : 0 ≤ z < 2 ^ 64 → u64 (i64 z) = z.
Proof.
  intros H. unfold i64, u64. rewrite Zminus_mod_idemp_l.
  replace (z + 2 ^ 63 - 2 ^ 63) with z by lia. by apply Z.mod_small.
Qed.

Lemma i64_range z : - 2 ^ 63 ≤ i64 z < 2 ^ 63.
Proof. unfold i64. pose proof (Z.mod_pos_bound (z + 2 ^ 63) (2 ^ 64) ltac:(lia)). lia. Qed.

Create Rewrite HintDb len.
#[export] Hint Rewrite @len_nil @len_app @len_cons len_le_put : len.
Create HintDb bytes.
#[export] Hint Resolve len_nonneg b2z_range : bytes.
