(* ===== verification/Digest.v ===== *)
(** * Digest: the checksums of the Go standard library the program relies on

    [hash/crc32] with the Castagnoli table, [crypto/sha256] and
    [encoding/hex], as executable functions on bytes. The published test
    vectors of each are checked at the end of the file. *)
From S2P Require Import Prelude Bytes.

Open Scope Z_scope.

(** ** CRC-32C, reflected polynomial 0x82f63b78 *)

Definition crc_step (c : Z) : Z :=
  if Z.testbit c 0 then Z.lxor (Z.shiftr c 1) 0x82f63b78 else Z.shiftr c 1.

Definition crc_byte (c : Z) (b : byte) : Z :=
  Nat.iter 8 crc_step (Z.lxor c (b2z b)).

Definition crc32c (data : bytes) : Z :=
  Z.lxor (fold_left crc_byte data 0xffffffff) 0xffffffff.

(** ** SHA-256 *)

Definition rotr (n x : Z) : Z :=
  Z.lor (Z.shiftr x n) (u32 (Z.shiftl x (32 - n))).

(** The constants are the leading fraction bits of the roots of the primes. *)
Definition primes (n : nat) : list Z :=
  take n (filter (λ p, Forall (λ d, p mod d ≠ 0) (Z.of_nat <$> seq 2 (Z.to_nat (Z.sqrt p - 1))))
                 (Z.of_nat <$> seq 2 320)).

(** The integer cube root below [2 ^ bits], bit by bit. *)
Fixpoint cbrt (bits : nat) (acc n : Z) : Z :=
  match bits with
  | O => acc
  | S b => let t := acc + 2 ^ Z.of_nat b in cbrt b (if t * t * t <=? n then t else acc) n
  end.

Definition sha_k : list Z :=
  Eval vm_compute in (λ p, u32 (cbrt 36 0 (p * 2 ^ 96))) <$> primes 64.

Definition sha_h0 : list Z :=
  Eval vm_compute in (λ p, u32 (Z.sqrt (p * 2 ^ 64))) <$> primes 8.

(** Big-endian words of a block. *)
Fixpoint be_get (acc : Z) (bs : bytes) : Z :=
  match bs with [] => acc | b :: bs' => be_get (acc * 256 + b2z b) bs' end.

Fixpoint be_words (n : nat) (bs : bytes) : list Z :=
  match n with
  | O => []
  | S n' => be_get 0 (take 4 bs) :: be_words n' (drop 4 bs)
  end.

Definition be_put (n : nat) (z : Z) : bytes := rev (le_put n z).

(** The message schedule, newest word first. *)
Definition sched_next (w : list Z) : Z :=
  let at_ i := nth i w 0 in
  let s0 := let x := at_ 14%nat in Z.lxor (Z.lxor (rotr 7 x) (rotr 18 x)) (Z.shiftr x 3) in
  let s1 := let x := at_ 1%nat in Z.lxor (Z.lxor (rotr 17 x) (rotr 19 x)) (Z.shiftr x 10) in
  u32 (at_ 15%nat + s0 + at_ 6%nat + s1).

Definition schedule (block : list Z) : list Z :=
  rev (Nat.iter 48 (λ w, sched_next w :: w) (rev block)).

Definition sha_round (h : list Z) (kw : Z * Z) : list Z :=
  match h with
  | [a; b; c; d; e; f; g; hh] =>
      let s1 := Z.lxor (Z.lxor (rotr 6 e) (rotr 11 e)) (rotr 25 e) in
      let ch := Z.lxor (Z.land e f) (Z.land (Z.lxor e 0xffffffff) g) in
      let t1 := u32 (hh + s1 + ch + kw.1 + kw.2) in
      let s0 := Z.lxor (Z.lxor (rotr 2 a) (rotr 13 a)) (rotr 22 a) in
      let maj := Z.lxor (Z.lxor (Z.land a b) (Z.land a c)) (Z.land b c) in
      [u32 (t1 + u32 (s0 + maj)); a; b; c; u32 (d + t1); e; f; g]
  | _ => h
  end.

Definition sha_block (h : list Z) (block : bytes) : list Z :=
  let h' := fold_left sha_round (zip sha_k (schedule (be_words 16 block))) h in
  zip_with (λ x y, u32 (x + y)) h h'.

Fixpoint sha_blocks (n : nat) (h : list Z) (bs : bytes) : list Z :=
  match n with
  | O => h
  | S n' => sha_blocks n' (sha_block h (take 64 bs)) (drop 64 bs)
  end.

Definition sha_pad (data : bytes) : bytes :=
  data ++ [Byte.x80] ++ replicate (Z.to_nat ((55 - len data) mod 64)) Byte.x00
       ++ be_put 8 (8 * len data).

Definition sha256 (data : bytes) : bytes :=
  let padded := sha_pad data in
  mjoin (be_put 4 <$> sha_blocks (Nat.div (List.length padded) 64) sha_h0 padded).

(** ** Hexadecimal text *)

Definition hex_digit (n : Z) : byte :=
  if bool_decide (n < 10) then z2b (48 + n) else z2b (87 + n).

Definition hex_encode (data : bytes) : bytes :=
  mjoin ((λ b, [hex_digit (b2z b / 16); hex_digit (b2z b mod 16)]) <$> data).

(** [hex.DecodeString] accepts both cases and refuses an odd length. *)
Definition hex_value (c : byte) : option Z :=
  let n := b2z c in
  if bool_decide (48 ≤ n ≤ 57) then Some (n - 48)
  else if bool_decide (97 ≤ n ≤ 102) then Some (n - 87)
  else if bool_decide (65 ≤ n ≤ 70) then Some (n - 55)
  else None.

Fixpoint hex_decode (text : bytes) : option bytes :=
  match text with
  | [] => Some []
  | [_] => None
  | a :: b :: rest =>
      match hex_value a, hex_value b, hex_decode rest with
      | Some x, Some y, Some r => Some (z2b (16 * x + y) :: r)
      | _, _, _ => None
      end
  end.

(** ** Lemmas *)

Lemma hex_value_digit n : 0 ≤ n < 16 → hex_value (hex_digit n) = Some n.
Proof.
  intros H. unfold hex_digit, hex_value. cbv zeta.
  destruct (decide (n < 10)).
  - rewrite (bool_decide_eq_true_2 (n < 10)), b2z_z2b, Z.mod_small by lia.
    rewrite bool_decide_eq_true_2 by lia. f_equal. lia.
  - rewrite (bool_decide_eq_false_2 (n < 10)), b2z_z2b, Z.mod_small by lia.
    rewrite bool_decide_eq_false_2, bool_decide_eq_true_2 by lia. f_equal. lia.
Qed.

Lemma hex_decode_encode data : hex_decode (hex_encode data) = Some data.
Proof.
  induction data as [|b data IH]; [done|].
  change (hex_encode (b :: data)) with
    (hex_digit (b2z b / 16) :: hex_digit (b2z b mod 16) :: hex_encode data).
  pose proof (b2z_range b). cbn [hex_decode].
  rewrite !hex_value_digit by (split; [apply Z.div_pos || apply Z.mod_pos_bound; lia|];
    first [apply Z.div_lt_upper_bound; lia | apply Z.mod_pos_bound; lia]).
  rewrite IH. do 2 f_equal.
  by rewrite <- Z.div_mod, z2b_b2z by lia.
Qed.

Lemma hex_encode_inj a b : hex_encode a = hex_encode b → a = b.
Proof.
  intros H. enough (Some a = Some b) by congruence.
  by rewrite <- !hex_decode_encode, H.
Qed.

Lemma sha_round_length h kw : List.length h = 8%nat → List.length (sha_round h kw) = 8%nat.
Proof. intros H. by do 9 (destruct h as [|? h]; try done). Qed.

Lemma fold_sha_round_length kws h :
  List.length h = 8%nat → List.length (fold_left sha_round kws h) = 8%nat.
Proof. revert h. induction kws; intros; simpl; auto using sha_round_length. Qed.

Lemma sha_blocks_length n h bs : List.length h = 8%nat → List.length (sha_blocks n h bs) = 8%nat.
Proof.
  revert h bs. induction n; intros h bs H; simpl; [done|].
  apply IHn. unfold sha_block. rewrite length_zip_with, fold_sha_round_length; lia.
Qed.

Lemma sha256_length data : List.length (sha256 data) = 32%nat.
Proof.
  unfold sha256. set (ws := sha_blocks _ _ _).
  assert (Hl : List.length ws = 8%nat) by by apply sha_blocks_length.
  clearbody ws. do 8 (destruct ws as [|? ws]; [done|]). by destruct ws.
Qed.

Lemma len_sha256 data : len (sha256 data) = 32.
Proof. unfold len. by rewrite sha256_length. Qed.

#[export] Hint Rewrite len_sha256 : len.
(** ** The checksum is a 32-bit number *)

Lemma crc_step_range c : 0 ≤ c < 2 ^ 32 → 0 ≤ crc_step c < 2 ^ 32.
Proof.
  intros Hc. unfold crc_step.
  assert (Hs : 0 ≤ Z.shiftr c 1 < 2 ^ 32).
  { rewrite Z.shiftr_div_pow2 by lia.
    split; [apply Z.div_pos; lia|apply Z.div_lt_upper_bound; lia]. }
  destruct (Z.testbit c 0); [|done].
  split; [apply Z.lxor_nonneg; lia|].
  destruct (decide (Z.lxor (Z.shiftr c 1) 0x82f63b78 = 0)) as [->|Hn]; [lia|].
  assert (0 ≤ Z.lxor (Z.shiftr c 1) 0x82f63b78) by (apply Z.lxor_nonneg; lia).
  apply Z.log2_lt_pow2; [lia|].
  eapply Z.le_lt_trans; [apply Z.log2_lxor; lia|].
  apply Z.max_lub_lt; [|by vm_compute].
  destruct (decide (Z.shiftr c 1 = 0)) as [->|]; [by vm_compute|].
  apply Z.log2_lt_pow2; lia.
Qed.

Lemma lxor_range a b : 0 ≤ a < 2 ^ 32 → 0 ≤ b < 2 ^ 32 → 0 ≤ Z.lxor a b < 2 ^ 32.
Proof.
  intros Ha Hb. assert (0 ≤ Z.lxor a b) by (apply Z.lxor_nonneg; lia).
  split; [done|]. destruct (decide (Z.lxor a b = 0)) as [->|]; [lia|].
  apply Z.log2_lt_pow2; [lia|].
  eapply Z.le_lt_trans; [apply Z.log2_lxor; lia|].
  assert (Hl : ∀ x, 0 ≤ x < 2 ^ 32 → Z.log2 x < 32).
  { intros x Hx. destruct (decide (x = 0)) as [->|]; [by vm_compute|].
    apply Z.log2_lt_pow2; lia. }
  apply Z.max_lub_lt; auto.
Qed.

Lemma crc32c_range data : 0 ≤ crc32c data < 2 ^ 32.
Proof.
  unfold crc32c. apply lxor_range; [|lia].
  assert (Hf : ∀ l c, 0 ≤ c < 2 ^ 32 → 0 ≤ fold_left crc_byte l c < 2 ^ 32).
  { intros l. induction l as [|b l IH]; intros c Hc; cbn; [done|].
    apply IH. unfold crc_byte. cbn. do 8 apply crc_step_range.
    apply lxor_range; [done|]. pose proof (b2z_range b). lia. }
  apply Hf. lia.
Qed.

#[global] Arguments sha256 : simpl never.
#[global] Arguments crc32c : simpl never.
#[global] Arguments hex_encode : simpl never.

(** ** Published vectors *)

Example crc32c_check : crc32c (sbytes "123456789") = 0xe3069283.
Proof. vm_compute. reflexivity. Qed.

Example sha256_empty :
  bstring (hex_encode (sha256 []))
  = "e3b0c44298fc1c149afbf4c8996fb92427ae41e4649b934ca495991b7852b855"%string.
Proof. vm_compute. reflexivity. Qed.

Example sha256_abc :
  bstring (hex_encode (sha256 (sbytes "abc")))
  = "ba7816bf8f01cfea414140de5dae2223b00361a396177a9cb410ff61f20015ad"%string.
Proof. vm_compute. reflexivity. Qed.

Example sha256_two_blocks :
  bstring (hex_encode (sha256 (sbytes "abcdbcdecdefdefgefghfghighijhijkijkljklmklmnlmnomnopnopq")))
  = "248d6a61d20638b8e5c026930c3e6039a33ce45964ff2167f6ecedd419db06c1"%string.
Proof. vm_compute. reflexivity. Qed.
