(* ===== verification/Text.v ===== *)
(** * Text: what the code uses of the packages strings, strconv and sort

    Byte-level prefixes and suffixes, decimal numbers as strconv prints and
    parses them, and the sorts: [sort.SliceStable] and the map iterations that
    feed an unstable [sort.Slice] (see [MapOrder]). *)
From Stdlib Require Import Strings.Ascii Numbers.DecimalString Numbers.DecimalN Numbers.DecimalFacts Decimal.
From S2P Require Import Prelude Bytes.

(** ** Prefixes and suffixes *)

Definition HasPrefix (s prefix : string) : bool := bool_decide (sbytes prefix `prefix_of` sbytes s).
Definition HasSuffix (s suffix : string) : bool := bool_decide (sbytes suffix `suffix_of` sbytes s).
Definition TrimPrefix (s prefix : string) : string :=
  if HasPrefix s prefix then bstring (drop (List.length (sbytes prefix)) (sbytes s)) else s.
Definition TrimSuffix (s suffix : string) : string :=
  if HasSuffix s suffix
  then bstring (take (List.length (sbytes s) - List.length (sbytes suffix)) (sbytes s)) else s.

(** ** Decimal numbers *)

(** [strconv.FormatUint(n, 10)], and [%d] of an unsigned value. *)
Definition FormatUint (n : N) : string := NilZero.string_of_uint (N.to_uint n).

(** [%0wd]: zeros in front up to the width. *)
Definition pad_zeros (w : nat) (s : string) : string :=
  bstring (replicate (w - String.length s) Byte.x30) +:+ s.

(** [strconv.ParseUint(s, 10, 64)]: digits only, and in range. *)
Definition ParseUint (s : string) : option N :=
  match NilZero.uint_of_string s with
  | None => None
  | Some d => let n := N.of_uint d in if bool_decide (n < 2 ^ 64)%N then Some n else None
  end.

(** ** Stable sorting by a [less] function *)

Section sorting.
Context {A : Type} (less : A → A → bool).

Fixpoint insert_sorted (x : A) (l : list A) : list A :=
  match l with
  | [] => [x]
  | y :: l' => if less y x then y :: insert_sorted x l' else x :: y :: l'
  end.

Fixpoint sort_stable (l : list A) : list A :=
  match l with
  | [] => []
  | x :: l' => insert_sorted x (sort_stable l')
  end.

Lemma insert_sorted_perm x l : insert_sorted x l ≡ₚ x :: l.
Proof.
  induction l as [|y l IH]; simpl; [done|].
  destruct (less y x); [|done]. rewrite IH. apply Permutation_swap.
Qed.

Lemma sort_stable_perm l : sort_stable l ≡ₚ l.
Proof. induction l as [|x l IH]; simpl; [done|]. by rewrite insert_sorted_perm, IH. Qed.

(** In the result nothing stands before an element that is less than it. *)
Definition not_after (x y : A) : Prop := less y x = false.

Context (less_asym : ∀ x y, less x y = true → less y x = false).
Context (less_trans : ∀ x y z, less y x = false → less z y = false → less z x = false).

Lemma insert_sorted_sorted x l :
  StronglySorted not_after l → StronglySorted not_after (insert_sorted x l).
Proof using less_asym less_trans.
  induction 1 as [|y l Hs IH Hy]; simpl; [by repeat constructor|].
  destruct (less y x) eqn:E.
  - constructor; [done|]. rewrite (insert_sorted_perm x l).
    constructor; [|done]. unfold not_after. by apply less_asym.
  - constructor; [by constructor|]. constructor; [done|].
    eapply Forall_impl; [exact Hy|]. intros z Hz. unfold not_after in *. eauto.
Qed.

Lemma sort_stable_sorted l : StronglySorted not_after (sort_stable l).
Proof using less_asym less_trans.
  induction l; simpl; [constructor|]. by apply insert_sorted_sorted.
Qed.
End sorting.

(** [sort.Strings], which orders strings byte by byte. *)
Fixpoint bytes_less (a b : bytes) : bool :=
  match a, b with
  | _, [] => false
  | [], _ :: _ => true
  | x :: a', y :: b' => bool_decide (b2z x < b2z y) || (bool_decide (x = y) && bytes_less a' b')
  end.
Definition sorted (values : list string) : list string :=
  sort_stable (λ a b, bytes_less (sbytes a) (sbytes b)) values.

Lemma sbytes_inj a b : sbytes a = sbytes b → a = b.
Proof. intros H. by rewrite <- (bstring_sbytes a), H, bstring_sbytes. Qed.

Lemma bytes_less_asym a b : bytes_less a b = true → bytes_less b a = false.
Proof.
  revert b. induction a as [|x a IH]; intros [|y b]; cbn; try done.
  rewrite orb_true_iff, andb_true_iff, !bool_decide_eq_true, orb_false_iff.
  intros [H|[-> H]].
  - split; [apply bool_decide_eq_false; lia|]. rewrite bool_decide_eq_false_2 by (intros ->; lia). done.
  - split; [apply bool_decide_eq_false; lia|]. by rewrite bool_decide_eq_true_2, IH.
Qed.

Lemma bytes_less_total a b : bytes_less a b = false → bytes_less b a = false → a = b.
Proof.
  revert b. induction a as [|x a IH]; intros [|y b]; cbn; try done.
  rewrite !orb_false_iff, !bool_decide_eq_false. intros [H1 H2] [H3 H4].
  assert (x = y) as -> by (apply b2z_inj; lia). rewrite bool_decide_eq_true_2 in H2, H4 by done.
  f_equal. by apply IH.
Qed.

Lemma bytes_less_trans a b c : bytes_less b a = false → bytes_less c b = false → bytes_less c a = false.
Proof.
  revert b c. induction a as [|x a IH]; intros [|y b] [|z c]; cbn; try done.
  rewrite !orb_false_iff, !bool_decide_eq_false. intros [H1 H2] [H3 H4]. split; [lia|].
  destruct (decide (z = x)) as [->|Hn]; [|by rewrite (bool_decide_eq_false_2 _ Hn)].
  rewrite (bool_decide_eq_true_2 (x = x)) by done. cbn [andb].
  assert (x = y) as -> by (apply b2z_inj; lia).
  rewrite bool_decide_eq_true_2 in H2, H4 by done. by apply (IH b).
Qed.

Lemma sorted_perm l : sorted l ≡ₚ l.
Proof. apply sort_stable_perm. Qed.

(** Two slices sort to the same exactly when they hold the same elements. *)
Lemma sorted_eq l k : sorted l = sorted k ↔ l ≡ₚ k.
Proof.
  split; [intros H; by rewrite <- (sorted_perm l), H, sorted_perm|]. intros H.
  pose (R := not_after (λ a b, bytes_less (sbytes a) (sbytes b))).
  assert (Ha : AntiSymm (=) R).
  { intros a b H1 H2. apply sbytes_inj, bytes_less_total; [exact H2|exact H1]. }
  apply (StronglySorted_unique R).
  - apply sort_stable_sorted; [intros ? ? ?; by apply bytes_less_asym|intros a b c; apply bytes_less_trans].
  - apply sort_stable_sorted; [intros ? ? ?; by apply bytes_less_asym|intros a b c; apply bytes_less_trans].
  - by rewrite !sorted_perm.
Qed.

(** Go leaves the iteration order of a map open; a model that ranges over a
    map goes through this class, whose order may be any permutation. Sorting
    such a range with a stable sort covers every outcome of [sort.Slice]. *)
Class MapOrder := {
  range_order : ∀ {A : Type}, list A → list A;
  range_order_perm : ∀ {A} (l : list A), range_order l ≡ₚ l;
}.

Definition identity_order : MapOrder :=
  {| range_order A l := l; range_order_perm A l := Permutation_refl l |}.
Definition reverse_order : MapOrder :=
  {| range_order A l := reverse l; range_order_perm A l := reverse_Permutation l |}.

(** ** Byte strings: spaces and separators *)

(** The white space of Unicode, in UTF-8: [unicode.IsSpace]. *)
Definition white : list bytes :=
  [[Byte.x09]; [Byte.x0a]; [Byte.x0b]; [Byte.x0c]; [Byte.x0d]; [Byte.x20];
   [Byte.xc2; Byte.x85]; [Byte.xc2; Byte.xa0]; [Byte.xe1; Byte.x9a; Byte.x80];
   [Byte.xe2; Byte.x80; Byte.x80]; [Byte.xe2; Byte.x80; Byte.x81]; [Byte.xe2; Byte.x80; Byte.x82];
   [Byte.xe2; Byte.x80; Byte.x83]; [Byte.xe2; Byte.x80; Byte.x84]; [Byte.xe2; Byte.x80; Byte.x85];
   [Byte.xe2; Byte.x80; Byte.x86]; [Byte.xe2; Byte.x80; Byte.x87]; [Byte.xe2; Byte.x80; Byte.x88];
   [Byte.xe2; Byte.x80; Byte.x89]; [Byte.xe2; Byte.x80; Byte.x8a]; [Byte.xe2; Byte.x80; Byte.xa8];
   [Byte.xe2; Byte.x80; Byte.xa9]; [Byte.xe2; Byte.x80; Byte.xaf]; [Byte.xe2; Byte.x81; Byte.x9f];
   [Byte.xe3; Byte.x80; Byte.x80]].

(** The first of the words that is a prefix, taken off. *)
Fixpoint strip_one (words : list bytes) (s : bytes) : option bytes :=
  match words with
  | [] => None
  | w :: words' => if bool_decide (w `prefix_of` s) then Some (drop (List.length w) s)
                   else strip_one words' s
  end.

Fixpoint strip_all (fuel : nat) (words : list bytes) (s : bytes) : bytes :=
  match fuel with
  | O => s
  | S fuel' => match strip_one words s with None => s | Some s' => strip_all fuel' words s' end
  end.

(** [strings.TrimSpace]: every round takes at least a byte off. *)
Definition TrimSpace (s : bytes) : bytes :=
  let left := strip_all (List.length s) white s in
  rev (strip_all (List.length left) (map (@rev byte) white) (rev left)).

(** The parts before and after the first and the last of a byte. *)
Fixpoint cut_first (sep : byte) (s : bytes) : option (bytes * bytes) :=
  match s with
  | [] => None
  | c :: s' => if bool_decide (c = sep) then Some ([], s')
               else '(before, after) ← cut_first sep s'; Some (c :: before, after)
  end.

Fixpoint cut_last (sep : byte) (s : bytes) : option (bytes * bytes) :=
  match s with
  | [] => None
  | c :: s' => match cut_last sep s' with
               | Some (before, after) => Some (c :: before, after)
               | None => if bool_decide (c = sep) then Some ([], s') else None
               end
  end.

(** [strings.Cut]: around the first occurrence of a separator. *)
Fixpoint Cut (sep s : bytes) : option (bytes * bytes) :=
  if bool_decide (sep `prefix_of` s) then Some ([], drop (List.length sep) s)
  else match s with
       | [] => None
       | c :: s' => '(before, after) ← Cut sep s'; Some (c :: before, after)
       end.

(** [strings.Split] at a byte. *)
Fixpoint split_on (sep : byte) (s : bytes) : list bytes :=
  match s with
  | [] => [[]]
  | c :: s' =>
      if bool_decide (c = sep) then [] :: split_on sep s'
      else match split_on sep s' with
           | part :: parts => (c :: part) :: parts
           | [] => [[c]]
           end
  end.

(** ** Numbers *)

(** [%d] of a signed value. *)
Definition FormatInt (n : Z) : string :=
  if bool_decide (n < 0) then "-" +:+ FormatUint (Z.to_N (- n)) else FormatUint (Z.to_N n).

(** [Duration.Round(time.Second)]: halves away from zero, and the largest or
    smallest duration where the sum does not fit. *)
Definition round_to_second (d : Z) : Z :=
  let r := Z.abs (Z.rem d second) in
  if bool_decide (d < 0) then
    if bool_decide (r + r < second) then d + r
    else if bool_decide (min_duration <= d - second + r) then d - second + r else min_duration
  else if bool_decide (r + r < second) then d - r
  else if bool_decide (d + second - r <= max_duration) then d + second - r else max_duration.

(** [Duration.String] of a duration of at least a second, or of none: the
    fraction without its trailing zeros, and the units from the largest that
    is not zero. *)
Definition fraction (ns : Z) : string :=
  if bool_decide (ns = 0) then ""
  else "." +:+ bstring (rev (strip_all 9 [[Byte.x30]] (rev (sbytes (pad_zeros 9 (FormatInt ns)))))).

Definition duration_string (d : Z) : string :=
  let u := Z.abs d in
  let s := u / second in
  let seconds := FormatInt (s mod 60) +:+ fraction (u mod second) +:+ "s" in
  let m := s / 60 in
  let text := if bool_decide (m = 0) then seconds
              else let minutes := FormatInt (m mod 60) +:+ "m" +:+ seconds in
                   if bool_decide (m / 60 = 0) then minutes
                   else FormatInt (m / 60) +:+ "h" +:+ minutes in
  if bool_decide (d < 0) then "-" +:+ text else text.

Definition isDigit (c : byte) : bool := bool_decide (48 ≤ b2z c ≤ 57).
Definition digit_value (c : byte) : Z := b2z c - 48.

(** [strconv.ParseUint(s, 10, 64)]: a value too large gives up at the digit
    that shows it, without looking at the rest. *)
Inductive atoi_error := ErrSyntax | ErrRange.

Fixpoint parse_digits (n : Z) (s : bytes) : Z * option atoi_error :=
  match s with
  | [] => (n, None)
  | c :: s' =>
      if negb (isDigit c) then (0, Some ErrSyntax)
      else let n' := n * 10 + digit_value c in
           if bool_decide (2 ^ 64 <= n') then (2 ^ 64 - 1, Some ErrRange) else parse_digits n' s'
  end.

(** [strconv.Atoi]: the value it returns next to the error is the nearest
    integer that fits when the error is of range. *)
Definition Atoi (s : bytes) : Z * option atoi_error :=
  match s with
  | [] => (0, Some ErrSyntax)
  | c :: s' =>
      let neg := bool_decide (c = Byte.x2d) in
      let body := if neg || bool_decide (c = Byte.x2b) then s' else s in
      match body with
      | [] => (0, Some ErrSyntax)
      | _ =>
          let '(un, err) := parse_digits 0 body in
          match err with
          | Some ErrSyntax => (0, Some ErrSyntax)
          | _ =>
              if negb neg && bool_decide (2 ^ 63 <= un) then (2 ^ 63 - 1, Some ErrRange)
              else if neg && bool_decide (2 ^ 63 < un) then (- 2 ^ 63, Some ErrRange)
              else (if neg then - un else un, None)
          end
      end
  end.

(** ** Lemmas on decimals *)

Lemma uint_of_to_string d : d ≠ Nil → NilZero.uint_of_string (NilZero.string_of_uint d) = Some d.
Proof. apply NilZero.usu. Qed.

Lemma N_to_uint_not_nil n : N.to_uint n ≠ Nil.
Proof.
  intros H. pose proof (DecimalN.Unsigned.of_to n) as E. rewrite H in E.
  cbn in E. subst n. done.
Qed.

Lemma NilEmpty_zeros k s d :
  NilEmpty.uint_of_string s = Some d →
  NilEmpty.uint_of_string (bstring (replicate k Byte.x30) +:+ s) = Some (Nat.iter k D0 d).
Proof.
  intros H. induction k as [|k IH]; [done|].
  change (bstring (replicate (S k) Byte.x30) +:+ s)
    with (String.String "0"%char (bstring (replicate k Byte.x30) +:+ s)).
  cbn [NilEmpty.uint_of_string]. by rewrite IH.
Qed.

Lemma of_uint_zeros k d : N.of_uint (Nat.iter k D0 d) = N.of_uint d.
Proof. induction k as [|k IH]; [done|]. by cbn. Qed.

Lemma decimal_pad w n :
  ∃ d, NilZero.uint_of_string (pad_zeros w (FormatUint n)) = Some d ∧ N.of_uint d = n.
Proof.
  unfold pad_zeros, FormatUint.
  pose proof (N_to_uint_not_nil n) as Hd.
  assert (Hs : NilEmpty.uint_of_string (NilZero.string_of_uint (N.to_uint n)) = Some (N.to_uint n)).
  { pose proof (uint_of_to_string _ Hd) as H. unfold NilZero.uint_of_string in H.
    by destruct (NilZero.string_of_uint (N.to_uint n)). }
  set (k := (w - _)%nat). clearbody k. exists (Nat.iter k D0 (N.to_uint n)).
  split; [|by rewrite of_uint_zeros, DecimalN.Unsigned.of_to].
  apply NilEmpty_zeros with (k := k) in Hs. unfold NilZero.uint_of_string.
  destruct (bstring (replicate k Byte.x30) +:+ NilZero.string_of_uint (N.to_uint n)) eqn:E; [|done].
  destruct k; [|done]. change (NilZero.string_of_uint (N.to_uint n) = EmptyString) in E.
  pose proof (uint_of_to_string _ Hd) as H. by rewrite E in H.
Qed.

Lemma ParseUint_pad w n :
  (n < 2 ^ 64)%N → ParseUint (pad_zeros w (FormatUint n)) = Some n.
Proof.
  intros Hn. unfold ParseUint. destruct (decimal_pad w n) as (d & -> & ->).
  by rewrite bool_decide_eq_true_2.
Qed.

Lemma pad_inj w n m : pad_zeros w (FormatUint n) = pad_zeros w (FormatUint m) → n = m.
Proof.
  intros H. destruct (decimal_pad w n) as (d & Hd & <-), (decimal_pad w m) as (d' & Hd' & <-).
  congruence.
Qed.

(** ** Lemmas on prefixes *)

Lemma sbytes_app a b : sbytes (a +:+ b) = sbytes a ++ sbytes b.
Proof.
  unfold sbytes, String.list_byte_of_string. induction a as [|c a IH]; [done|].
  simpl. by rewrite IH.
Qed.

Lemma bstring_app a b : bstring (a ++ b) = bstring a +:+ bstring b.
Proof.
  rewrite <- (bstring_sbytes (bstring a +:+ bstring b)), sbytes_app. by rewrite !sbytes_bstring.
Qed.

Lemma app_string_assoc (a b c : string) : a +:+ b +:+ c = (a +:+ b) +:+ c.
Proof. rewrite <- (bstring_sbytes (a +:+ b +:+ c)), <- (bstring_sbytes ((a +:+ b) +:+ c)).
  by rewrite !sbytes_app, app_assoc. Qed.

Lemma HasPrefix_app a b : HasPrefix (a +:+ b) a = true.
Proof. apply bool_decide_eq_true. rewrite sbytes_app. by apply prefix_app_r. Qed.

Lemma HasSuffix_app a b : HasSuffix (a +:+ b) b = true.
Proof. apply bool_decide_eq_true. rewrite sbytes_app. by apply suffix_app_r. Qed.

Lemma TrimPrefix_app a b : TrimPrefix (a +:+ b) a = b.
Proof. unfold TrimPrefix. by rewrite HasPrefix_app, sbytes_app, drop_app_length, bstring_sbytes. Qed.

Lemma TrimSuffix_app a b : TrimSuffix (a +:+ b) b = a.
Proof.
  unfold TrimSuffix. rewrite HasSuffix_app, sbytes_app, length_app.
  replace (_ + _ - _)%nat with (List.length (sbytes a)) by lia.
  by rewrite take_app_length, bstring_sbytes.
Qed.

(** ** Lemmas on splitting and trimming *)

Lemma split_on_none sep a : sep ∉ a → split_on sep a = [a].
Proof.
  induction a as [|c a IH]; [done|]. intros [Hc Ha]%not_elem_of_cons. cbn.
  by rewrite bool_decide_eq_false_2, IH by done.
Qed.

Lemma split_on_sep sep a b : sep ∉ a → split_on sep (a ++ sep :: b) = a :: split_on sep b.
Proof.
  induction a as [|c a IH]; intros Ha; cbn.
  - by rewrite bool_decide_eq_true_2.
  - apply not_elem_of_cons in Ha as [Hc Ha]. by rewrite bool_decide_eq_false_2, IH by done.
Qed.

(** The part before the first separator. *)
Lemma cut_first_sep sep a b : sep ∉ a → cut_first sep (a ++ sep :: b) = Some (a, b).
Proof.
  induction a as [|c a IH]; intros Ha; cbn.
  - by rewrite bool_decide_eq_true_2.
  - apply not_elem_of_cons in Ha as [Hc Ha]. by rewrite bool_decide_eq_false_2, IH by done.
Qed.

Lemma cut_first_none sep a : sep ∉ a → cut_first sep a = None.
Proof.
  induction a as [|c a IH]; [done|]. intros [Hc Ha]%not_elem_of_cons. cbn.
  by rewrite bool_decide_eq_false_2, IH by done.
Qed.

(** Bytes that no white space begins or ends with. *)
Definition inner (c : byte) : bool :=
  forallb (λ w, negb (bool_decide (head w = Some c)) && negb (bool_decide (head (rev w) = Some c))) white.

Lemma strip_one_none words c s :
  forallb (λ w, negb (bool_decide (head w = Some c))) words = true → Forall (λ w, w ≠ []) words →
  strip_one words (c :: s) = None.
Proof.
  induction words as [|w words IH]; [done|]. cbn. intros [Hw Hws]%andb_true_iff Hn.
  apply Forall_cons in Hn as [Hn Hns]. rewrite bool_decide_eq_false_2; [by apply IH|].
  intros [k Hk]. destruct w as [|d w]; [done|]. cbn in Hk. injection Hk as -> _.
  by rewrite bool_decide_eq_true_2 in Hw.
Qed.

Lemma strip_all_none n words c s :
  forallb (λ w, negb (bool_decide (head w = Some c))) words = true → Forall (λ w, w ≠ []) words →
  strip_all n words (c :: s) = c :: s.
Proof. intros H1 H2. destruct n as [|n]; [done|]. cbn [strip_all]. by rewrite strip_one_none. Qed.

Lemma TrimSpace_inner s : Forall (λ c, inner c = true) s → TrimSpace s = s.
Proof.
  intros Hs. unfold TrimSpace.
  assert (H1 : ∀ n, strip_all n white s = s).
  { intros n. destruct Hs as [|c s Hc _]; [by destruct n|]. apply strip_all_none; [|by repeat constructor].
    unfold inner in Hc. rewrite forallb_forall in Hc |- *. intros w Hw. by apply Hc, andb_true_iff in Hw as [? _]. }
  cbv zeta. rewrite H1. rewrite <- (rev_involutive s) at 3. f_equal.
  assert (Hr : Forall (λ c, inner c = true) (rev s)) by (rewrite Forall_forall in *; intros c Hc; apply Hs;
    by apply list_elem_of_In, in_rev, list_elem_of_In in Hc).
  destruct Hr as [|c l Hc _]; [by destruct (List.length s)|]. apply strip_all_none; [|by repeat constructor].
  unfold inner in Hc. rewrite forallb_forall in Hc |- *. intros w (w0 & <- & Hw)%in_map_iff.
  by apply Hc, andb_true_iff in Hw as [_ ?].
Qed.

(** ** Lemmas on digits *)

Lemma of_uint_acc_ge d acc : (acc ≤ Pos.of_uint_acc d acc)%positive.
Proof. revert acc. induction d as [|d IH|d IH|d IH|d IH|d IH|d IH|d IH|d IH|d IH|d IH]; intros acc; cbn [Pos.of_uint_acc]; [lia|..]; (etransitivity; [|apply IH]); lia. Qed.

Lemma parse_digits_step acc c s :
  isDigit c = true → acc * 10 + digit_value c < 2 ^ 64 ->
  parse_digits acc (c :: s) = parse_digits (acc * 10 + digit_value c) s.
Proof. intros Hc Hb. cbn [parse_digits]. rewrite Hc. cbn [negb]. by rewrite bool_decide_eq_false_2 by lia. Qed.

#[local] Ltac digit_value_lia :=
  match goal with |- context [digit_value ?c] => let v := eval vm_compute in (digit_value c) in change (digit_value c) with v end; lia.

Lemma parse_digits_pos d acc :
  Zpos (Pos.of_uint_acc d acc) < 2 ^ 64 ->
  parse_digits (Zpos acc) (sbytes (NilEmpty.string_of_uint d)) = (Zpos (Pos.of_uint_acc d acc), None).
Proof.
  revert acc. induction d as [|d IH|d IH|d IH|d IH|d IH|d IH|d IH|d IH|d IH|d IH]; intros acc Hb; [done|..];
    cbn [NilEmpty.string_of_uint Pos.of_uint_acc] in *;
    match goal with |- parse_digits _ (sbytes (String.String ?c ?s)) = _ =>
      change (sbytes (String.String c s)) with (byte_of_ascii c :: sbytes s) end;
    match type of Hb with Zpos (Pos.of_uint_acc d ?a) < _ => pose proof (of_uint_acc_ge d a) end;
    (rewrite parse_digits_step by (done || digit_value_lia));
    rewrite <- IH by done; f_equal; digit_value_lia.
Qed.

Lemma parse_digits_uint d :
  (N.of_uint d < 2 ^ 64)%N ->
  parse_digits 0 (sbytes (NilEmpty.string_of_uint d)) = (Z.of_N (N.of_uint d), None).
Proof.
  induction d as [|d IH|d IH|d IH|d IH|d IH|d IH|d IH|d IH|d IH|d IH]; intros Hb; [done|..];
    cbn [NilEmpty.string_of_uint] in *;
    match goal with |- parse_digits _ (sbytes (String.String ?c ?s)) = _ =>
      change (sbytes (String.String c s)) with (byte_of_ascii c :: sbytes s) end;
    (rewrite parse_digits_step; [|done|done]).
  - by apply IH.
  - apply (parse_digits_pos d 1). revert Hb. cbn. lia.
  - apply (parse_digits_pos d 2). revert Hb. cbn. lia.
  - apply (parse_digits_pos d 3). revert Hb. cbn. lia.
  - apply (parse_digits_pos d 4). revert Hb. cbn. lia.
  - apply (parse_digits_pos d 5). revert Hb. cbn. lia.
  - apply (parse_digits_pos d 6). revert Hb. cbn. lia.
  - apply (parse_digits_pos d 7). revert Hb. cbn. lia.
  - apply (parse_digits_pos d 8). revert Hb. cbn. lia.
  - apply (parse_digits_pos d 9). revert Hb. cbn. lia.
Qed.

Lemma FormatUint_digits n :
  Forall (λ c, isDigit c = true) (sbytes (FormatUint n)) ∧ sbytes (FormatUint n) ≠ []
  ∧ ((n < 2 ^ 64)%N → parse_digits 0 (sbytes (FormatUint n)) = (Z.of_N n, None)).
Proof.
  unfold FormatUint. pose proof (N_to_uint_not_nil n) as Hd.
  assert (Hs : NilZero.string_of_uint (N.to_uint n) = NilEmpty.string_of_uint (N.to_uint n)) by by destruct (N.to_uint n).
  rewrite Hs. split; [|split].
  - clear. induction (N.to_uint n) as [|d IH|d IH|d IH|d IH|d IH|d IH|d IH|d IH|d IH|d IH]; [constructor|..]; by constructor.
  - by destruct (N.to_uint n).
  - intros Hn. rewrite parse_digits_uint; by rewrite DecimalN.Unsigned.of_to.
Qed.

Lemma isDigit_not_sign c : isDigit c = true → c ≠ Byte.x2d ∧ c ≠ Byte.x2b ∧ inner c = true.
Proof. unfold isDigit. rewrite bool_decide_eq_true. destruct c; vm_compute; intros [? ?]; split_and!; done || tauto. Qed.

(** Reading a formatted integer back. *)
Lemma Atoi_FormatInt z : - 2 ^ 63 ≤ z < 2 ^ 63 → Atoi (sbytes (FormatInt z)) = (z, None).
Proof.
  intros Hz. unfold FormatInt. case_bool_decide as Hneg.
  - rewrite sbytes_app. change (sbytes "-") with [Byte.x2d]. cbn [app].
    destruct (FormatUint_digits (Z.to_N (- z))) as (_ & Hne & Hp). rewrite Z2N.id in Hp by lia.
    specialize (Hp ltac:(lia)). unfold Atoi. rewrite bool_decide_eq_true_2 by done. cbn [orb].
    destruct (sbytes (FormatUint (Z.to_N (- z)))) as [|c s]; [done|]. rewrite Hp. cbn [negb andb].
    rewrite bool_decide_eq_false_2 by lia. f_equal. lia.
  - destruct (FormatUint_digits (Z.to_N z)) as (Hd & Hne & Hp). rewrite Z2N.id in Hp by lia.
    specialize (Hp ltac:(lia)). destruct (sbytes (FormatUint (Z.to_N z))) as [|c s]; [done|].
    apply Forall_cons in Hd as [Hc _]. apply isDigit_not_sign in Hc as (H1 & H2 & _).
    unfold Atoi. rewrite (bool_decide_eq_false_2 (c = Byte.x2d)), (bool_decide_eq_false_2 (c = Byte.x2b)) by done.
    cbn [orb]. rewrite Hp. cbn [negb andb]. by rewrite bool_decide_eq_false_2 by lia.
Qed.

Lemma FormatInt_inner z : Forall (λ c, inner c = true) (sbytes (FormatInt z)).
Proof.
  assert (Hu : ∀ n, Forall (λ c, inner c = true) (sbytes (FormatUint n))).
  { intros n. eapply Forall_impl; [apply FormatUint_digits|]. intros c Hc. by apply isDigit_not_sign. }
  unfold FormatInt. case_bool_decide; [|apply Hu]. rewrite sbytes_app. constructor; [done|apply Hu].
Qed.

(** A number below [10 ^ k] has at most [k] digits. *)

Lemma of_uint_acc_pow d acc : Zpos acc * 10 ^ Z.of_nat (nb_digits d) ≤ Zpos (Pos.of_uint_acc d acc).
Proof.
  revert acc. induction d as [|d IH|d IH|d IH|d IH|d IH|d IH|d IH|d IH|d IH|d IH]; intros acc; cbn [Pos.of_uint_acc nb_digits];
    [cbn; lia|..]; (etransitivity; [|apply IH]); rewrite Nat2Z.inj_succ, Z.pow_succ_r by lia;
    assert (0 < 10 ^ Z.of_nat (nb_digits d)) by (apply Z.pow_pos_nonneg; lia); nia.
Qed.

Lemma to_uint_no_zero n d : N.to_uint n = D0 d → d = Nil.
Proof.
  intros Hd. assert (Hcase : d = Nil ∨ d ≠ Nil) by (destruct d; auto). destruct Hcase as [|Hn]; [done|]. exfalso.
  assert (Hu : N.to_uint n = unorm d).
  { rewrite <- (DecimalN.Unsigned.of_to n) at 1. rewrite Hd. change (N.of_uint (D0 d)) with (N.of_uint d).
    apply DecimalN.Unsigned.to_of. }
  pose proof (nb_digits_unorm d Hn) as Hl. rewrite <- Hu, Hd in Hl. cbn in Hl. lia.
Qed.

Lemma string_of_uint_length d : List.length (sbytes (NilEmpty.string_of_uint d)) = nb_digits d.
Proof. induction d as [|d IH|d IH|d IH|d IH|d IH|d IH|d IH|d IH|d IH|d IH]; [done|..];
  cbn [NilEmpty.string_of_uint nb_digits]; by rewrite <- IH. Qed.

Lemma FormatUint_length n k :
  (0 < k)%nat → Z.of_N n < 10 ^ Z.of_nat k → (List.length (sbytes (FormatUint n)) ≤ k)%nat.
Proof.
  intros Hk Hn. unfold FormatUint. pose proof (N_to_uint_not_nil n) as Hd.
  assert (Hs : NilZero.string_of_uint (N.to_uint n) = NilEmpty.string_of_uint (N.to_uint n)) by by destruct (N.to_uint n).
  rewrite Hs, string_of_uint_length. rewrite <- (DecimalN.Unsigned.of_to n) in Hn.
  pose proof (to_uint_no_zero n) as H0.
  assert (Hlt : ∀ d p, Zpos (Pos.of_uint_acc d p) < 10 ^ Z.of_nat k → (S (nb_digits d) ≤ k)%nat).
  { intros d p Hp. pose proof (of_uint_acc_pow d p) as Hq.
    assert (10 ^ Z.of_nat (nb_digits d) < 10 ^ Z.of_nat k) as Hl by nia.
    apply Z.pow_lt_mono_r_iff in Hl; lia. }
  destruct (N.to_uint n) as [|d|d|d|d|d|d|d|d|d|d]; [done|..]; cbn [nb_digits];
    [rewrite (H0 d eq_refl); cbn; lia|..]; eapply Hlt; exact Hn.
Qed.
