(* ===== verification/Times.v ===== *)
(** * Times: [time.Parse] with the layout RFC 3339

    The parser of Go's time package for the layout 2006-01-02T15:04:05Z07:00:
    a year of four digits, an hour of one or two, a fraction of the second
    behind a point or a comma, a zone up to 24:60. *)
From S2P Require Import Prelude Bytes Text.

Open Scope Z_scope.

(** [getnum]: two digits, or one when the width is not fixed. *)
Definition getnum (s : bytes) (fixed : bool) : option (Z * bytes) :=
  match s with
  | a :: r =>
      if negb (isDigit a) then None
      else match r with
           | b :: r' => if isDigit b then Some (10 * digit_value a + digit_value b, r')
                        else if fixed then None else Some (digit_value a, r)
           | [] => if fixed then None else Some (digit_value a, r)
           end
  | [] => None
  end.

Definition year4 (s : bytes) : option (Z * bytes) :=
  match s with
  | a :: b :: c :: d :: r =>
      if isDigit a && isDigit b && isDigit c && isDigit d
      then Some (1000 * digit_value a + 100 * digit_value b + 10 * digit_value c + digit_value d, r)
      else None
  | _ => None
  end.

(** [skip] of one byte. *)
Definition skip (c : Byte.byte) (s : bytes) : option bytes :=
  match s with
  | b :: r => if bool_decide (b = c) then Some r else None
  | [] => None
  end.

Definition within (low high : Z) (r : option (Z * bytes)) : option (Z * bytes) :=
  '(n, s) ← r; if bool_decide (low ≤ n ≤ high) then Some (n, s) else None.

(** The digits in front, as a number with [k] more digits to come. *)
Fixpoint digits_ns (k : nat) (n : Z) (s : bytes) : Z * bytes :=
  match s with
  | c :: r =>
      if isDigit c
      then match k with
           | O => digits_ns O n r
           | S k' => digits_ns k' (n * 10 + digit_value c) r
           end
      else (n * 10 ^ Z.of_nat k, s)
  | [] => (n * 10 ^ Z.of_nat k, s)
  end.

(** The fractional second behind a point or a comma, in nanoseconds. *)
Definition fraction_of (s : bytes) : Z * bytes :=
  match s with
  | c :: ((d :: _) as r) =>
      if bool_decide (c ∈ [Byte.x2e; Byte.x2c]) && isDigit d then digits_ns 9 0 r else (0, s)
  | _ => (0, s)
  end.

(** The zone, in seconds east of UTC; nothing may follow it. *)
Definition zone (s : bytes) : option Z :=
  match s with
  | [z] => if bool_decide (z = Byte.x5a) then Some 0 else None
  | [sign; h1; h2; colon; m1; m2] =>
      if negb (bool_decide (colon = Byte.x3a)) then None
      else
        '(hr, _) ← within 0 24 (getnum [h1; h2] true);
        '(mm, _) ← within 0 60 (getnum [m1; m2] true);
        let offset := (hr * 60 + mm) * 60 in
        if bool_decide (sign = Byte.x2b) then Some offset
        else if bool_decide (sign = Byte.x2d) then Some (- offset) else None
  | _ => None
  end.

Definition isLeap (year : Z) : bool :=
  bool_decide (year mod 4 = 0) && (negb (bool_decide (year mod 100 = 0)) || bool_decide (year mod 400 = 0)).

Definition daysIn (month year : Z) : Z :=
  if bool_decide (month = 2) then if isLeap year then 29 else 28
  else if bool_decide (month ∈ [4; 6; 9; 11]) then 30 else 31.

(** Days from 1970-01-01 to a day of the proleptic Gregorian calendar. *)
Definition days_since_epoch (year month day : Z) : Z :=
  let y := if bool_decide (month ≤ 2) then year - 1 else year in
  let era := y / 400 in
  let yoe := y - era * 400 in
  let doy := (153 * (month + (if bool_decide (2 < month) then -3 else 9)) + 2) / 5 + day - 1 in
  era * 146097 + (yoe * 365 + yoe / 4 - yoe / 100 + doy) - 719468.

(** [time.Parse(time.RFC3339, value)]: [Unix()] of the moment, and its
    nanoseconds within the second. *)
Definition parse_rfc3339 (value : bytes) : option (Z * Z) :=
  '(year, s) ← year4 value;
  s ← skip Byte.x2d s;
  '(month, s) ← within 1 12 (getnum s true);
  s ← skip Byte.x2d s;
  '(day, s) ← getnum s true;
  s ← skip Byte.x54 s;
  '(hour, s) ← within 0 23 (getnum s false);
  s ← skip Byte.x3a s;
  '(minute, s) ← within 0 59 (getnum s true);
  s ← skip Byte.x3a s;
  '(sec, s) ← within 0 59 (getnum s true);
  let '(ns, s) := fraction_of s in
  offset ← zone s;
  if bool_decide (1 ≤ day ≤ daysIn month year)
  then Some (days_since_epoch year month day * 86400 + hour * 3600 + minute * 60 + sec - offset, ns)
  else None.

Example epoch : parse_rfc3339 (sbytes "1970-01-01T00:00:00Z") = Some (0, 0).
Proof. reflexivity. Qed.
Example zoned : parse_rfc3339 (sbytes "2026-10-09T1:02:03,25+02:00") = Some (1791500523, 250000000).
Proof. vm_compute. reflexivity. Qed.
Example leap : parse_rfc3339 (sbytes "2000-02-29T23:59:59.123456789123Z") = Some (951868799, 123456789)
             ∧ parse_rfc3339 (sbytes "2100-02-29T23:59:59Z") = None.
Proof. by vm_compute. Qed.
