(* ===== verification/Frames.v ===== *)
(** * Frames: bytes from which the values written can be read back

    A [Code] is a way of writing a value such that what was written can be
    told from whatever follows it: two values whose codes start the same
    bytes are one value. Integers of a fixed width and length-prefixed byte
    strings are codes, and a counted list of codes is one. The messages the
    control plane signs are put together from these. *)
From S2P Require Import Prelude Bytes Digest.

Open Scope Z_scope.

Class Code {A : Type} (enc : A → bytes) (dom : A → Prop) := code_cut a b r s :
  dom a → dom b → enc a ++ r = enc b ++ s → a = b ∧ r = s.

(** A code alone is injective. *)
Lemma code_inj {A} (enc : A → bytes) dom `{!Code enc dom} a b : dom a → dom b → enc a = enc b → a = b.
Proof.
  intros Ha Hb He. destruct (code_cut a b [] [] Ha Hb) as [? _]; [|done]. by rewrite He.
Qed.

(** ** Fixed-width integers *)

Definition is_u64 (z : Z) : Prop := 0 ≤ z < 2 ^ 64.
Definition is_i64 (z : Z) : Prop := - 2 ^ 63 ≤ z < 2 ^ 63.
Definition is_u32 (z : Z) : Prop := 0 ≤ z < 2 ^ 32.

(** [binary.BigEndian.PutUint64]. *)
Definition uint_code (v : Z) : bytes := be_put 8 v.
(** [uint64(v)] of a signed value. *)
Definition int_code (v : Z) : bytes := uint_code (u64 v).

Lemma length_uint_code v : List.length (uint_code v) = 8%nat.
Proof. unfold uint_code, be_put. by rewrite length_rev, length_le_put. Qed.

Lemma uint_code_mod v w : uint_code v = uint_code w → u64 v = u64 w.
Proof.
  unfold uint_code, be_put. intros H%(f_equal (@rev byte)). rewrite !rev_involutive in H.
  apply (f_equal le_get) in H. rewrite !le_get_put in H. exact H.
Qed.

Lemma length_int_code v : List.length (int_code v) = 8%nat.
Proof. apply length_uint_code. Qed.

Lemma app_cut {A} (a b r s : list A) :
  List.length a = List.length b → a ++ r = b ++ s → a = b ∧ r = s.
Proof. apply app_inj_1. Qed.

#[export] Instance uint_Code : Code uint_code is_u64.
Proof.
  intros a b r s Ha Hb He. apply app_cut in He as [He ->]; [|by rewrite !length_uint_code]. split; [|done].
  apply uint_code_mod in He. by rewrite !u64_small in He.
Qed.

#[export] Instance int_Code : Code int_code is_i64.
Proof.
  intros a b r s Ha Hb He. apply app_cut in He as [He ->]; [|by rewrite !length_int_code]. split; [|done].
  unfold int_code in He. apply uint_code_mod in He. unfold u64 in He. rewrite !Z.mod_mod in He by done.
  rewrite <- (i64_u64 a), <- (i64_u64 b) by done. unfold u64. by rewrite He.
Qed.

Lemma int_code_eq v : int_code v = uint_code (u64 v).
Proof. done. Qed.

#[global] Opaque uint_code int_code.

(** ** Length-prefixed bytes and text *)

(** No value in memory is longer than the largest [int]. *)
Definition is_len {A} (l : list A) : Prop := len l < 2 ^ 63.
Definition is_text (s : string) : Prop := is_len (sbytes s).

Definition bytes_code (b : bytes) : bytes := uint_code (len b) ++ b.
Definition text_code (s : string) : bytes := bytes_code (sbytes s).

Lemma is_len_u64 {A} (l : list A) : is_len l → is_u64 (len l).
Proof. unfold is_len, is_u64. pose proof (len_nonneg l). lia. Qed.

#[export] Instance bytes_Code : Code bytes_code is_len.
Proof.
  intros a b r s Ha%is_len_u64 Hb%is_len_u64 He. unfold bytes_code in He. rewrite <- !app_assoc in He.
  apply (code_cut _ _ _ _ Ha Hb) in He as [Hl He].
  apply app_cut in He; [done|]. unfold len in Hl. lia.
Qed.

#[export] Instance text_Code : Code text_code is_text.
Proof.
  intros a b r s Ha Hb He. destruct (code_cut (enc := bytes_code) _ _ _ _ Ha Hb He) as [Hab ->].
  split; [|done].
  by rewrite <- (bstring_sbytes a), <- (bstring_sbytes b), Hab.
Qed.

#[global] Opaque bytes_code text_code.

(** ** Counted lists *)

Section lists.
Context {A : Type} (enc : A → bytes) (dom : A → Prop) `{!Code enc dom}.

Definition items_code (l : list A) : bytes := mjoin (enc <$> l).
Definition list_code (l : list A) : bytes := uint_code (len l) ++ items_code l.
Definition is_list (l : list A) : Prop := is_len l ∧ Forall dom l.

#[export] Instance list_Code : Code list_code is_list.
Proof using Type*.
  intros a b r s [Hla%is_len_u64 Ha] [Hlb%is_len_u64 Hb] He. unfold list_code in He. rewrite <- !app_assoc in He.
  apply (code_cut _ _ _ _ Hla Hlb) in He as [Hl He]. clear Hla Hlb.
  revert b Hb Hl He. induction Ha as [|x a Hx _ IH]; intros b Hb Hl He.
  - rewrite len_nil in Hl. symmetry in Hl. apply len_nil_inv in Hl as ->. done.
  - destruct Hb as [|y b Hy Hb]; [by rewrite len_nil in Hl; apply len_nil_inv in Hl|].
    unfold items_code in He. cbn in He. rewrite <- !app_assoc in He.
    destruct (code_cut _ _ _ _ Hx Hy He) as [-> He']. rewrite !len_cons in Hl.
    destruct (IH b Hb ltac:(lia) He') as [-> ->]. done.
Qed.
End lists.

(** ** Peeling an equation between two messages

    [peel] takes one written value off both sides; the domain conditions are
    looked up among the hypotheses. *)

Lemma peel_code {A} (enc : A → bytes) dom `{!Code enc dom} a b r s (P : Prop) :
  dom a → dom b → (a = b → r = s → P) → enc a ++ r = enc b ++ s → P.
Proof. intros Ha Hb HP [-> ->]%(code_cut _ _ _ _ Ha Hb). by apply HP. Qed.

Lemma peel_last {A} (enc : A → bytes) dom `{!Code enc dom} a b (P : Prop) :
  dom a → dom b → (a = b → P) → enc a = enc b → P.
Proof. intros Ha Hb HP He. by apply HP, (code_inj enc dom). Qed.

Lemma peel_same {P : Prop} (a r s : bytes) : (r = s → P) → a ++ r = a ++ s → P.
Proof. intros HP He. by apply HP, (app_inv_head a). Qed.

Ltac peel_dom := first [eassumption | exact I].
Ltac peel :=
  lazymatch goal with
  | |- ?a ++ _ = ?a ++ _ → _ => apply peel_same
  | |- _ ++ _ = _ ++ _ → _ => eapply peel_code; [apply _|peel_dom|peel_dom|intros ?]
  | |- _ = _ → _ => eapply peel_last; [apply _|peel_dom|peel_dom|intros ?]
  end.
