(* ===== verification/Order.v ===== *)
(** * Order: three-way comparisons

    Go compares with functions that return a negative number, zero or a
    positive one. [TotalOrder cmp] is what a caller that sorts or takes a
    maximum with such a function relies on: swapping the arguments swaps the
    sign, and "not greater" is transitive. *)
From S2P Require Import Prelude Bytes.

Open Scope Z_scope.

(** What Go returns for a comparison. *)
Definition sgn (c : comparison) : Z := match c with Lt => -1 | Eq => 0 | Gt => 1 end.

Class TotalOrder {A} (cmp : A → A → comparison) : Prop := {
  cmp_swap : ∀ x y, cmp y x = CompOpp (cmp x y);
  cmp_le_trans : ∀ x y z, cmp x y ≠ Gt → cmp y z ≠ Gt → cmp x z ≠ Gt;
}.

Arguments cmp_swap {A} cmp {_}.
Arguments cmp_le_trans {A} cmp {_}.

Section order.
Context {A : Type} (cmp : A → A → comparison) `{!TotalOrder cmp}.

Lemma cmp_refl x : cmp x x = Eq.
Proof. pose proof (cmp_swap cmp x x). by destruct (cmp x x). Qed.

(** Equal elements compare alike. *)
Lemma cmp_eq_l x y z : cmp x y = Eq → cmp x z = cmp y z.
Proof.
  intros Hxy. assert (Hyx : cmp y x = Eq) by (by rewrite (cmp_swap cmp x y), Hxy).
  pose proof (cmp_le_trans cmp x y z) as T1. pose proof (cmp_le_trans cmp y x z) as T2.
  pose proof (cmp_le_trans cmp z x y) as T3. pose proof (cmp_le_trans cmp z y x) as T4.
  rewrite Hxy in T1, T3. rewrite Hyx in T2, T4.
  rewrite (cmp_swap cmp x z), (cmp_swap cmp y z) in T3, T4.
  destruct (cmp x z), (cmp y z); cbn in *; intuition congruence.
Qed.

Lemma cmp_eq_r x y z : cmp y z = Eq → cmp x y = cmp x z.
Proof.
  intros H. rewrite (cmp_swap cmp y x), (cmp_swap cmp z x). f_equal. by apply cmp_eq_l.
Qed.

Lemma cmp_eq_trans x y z : cmp x y = Eq → cmp y z = Eq → cmp x z = Eq.
Proof. intros H1 H2. by rewrite (cmp_eq_l x y). Qed.

Lemma cmp_lt_le_trans x y z : cmp x y = Lt → cmp y z ≠ Gt → cmp x z = Lt.
Proof.
  intros H1 H2. pose proof (cmp_le_trans cmp x y z) as T. rewrite H1 in T.
  specialize (T ltac:(done) H2). destruct (cmp x z) eqn:E; [|done..].
  exfalso. rewrite (cmp_eq_l x z y E), (cmp_swap cmp y z) in H1. by destruct (cmp y z).
Qed.

Lemma cmp_le_lt_trans x y z : cmp x y ≠ Gt → cmp y z = Lt → cmp x z = Lt.
Proof.
  intros H1 H2. pose proof (cmp_le_trans cmp x y z) as T. rewrite H2 in T.
  specialize (T H1 ltac:(done)). destruct (cmp x z) eqn:E; [|done..].
  exfalso. rewrite <- (cmp_eq_r y x z E), (cmp_swap cmp x y) in H2. by destruct (cmp x y).
Qed.

(** ** Lexicographic order, a shorter list first *)

Fixpoint lexc (l k : list A) : comparison :=
  match l, k with
  | [], [] => Eq
  | [], _ => Lt
  | _, [] => Gt
  | x :: l', y :: k' => match cmp x y with Eq => lexc l' k' | c => c end
  end.

#[export] Instance lexc_order : TotalOrder lexc.
Proof using Type*.
  split.
  - intros l. induction l as [|x l IH]; intros [|y k]; cbn; try done.
    rewrite (cmp_swap cmp x y). destruct (cmp x y); cbn; auto.
  - intros l. induction l as [|x l IH]; intros [|y k] [|z m]; cbn; try done.
    destruct (cmp x y) eqn:E1.
    + rewrite (cmp_eq_l x y z E1). destruct (cmp y z); eauto.
    + destruct (cmp y z) eqn:E2; try done; intros _ _.
      * by rewrite (cmp_lt_le_trans x y z) by (done || by rewrite E2).
      * by rewrite (cmp_lt_le_trans x y z) by (done || by rewrite E2).
    + done.
Qed.

Lemma lexc_app l k m : lexc (l ++ k) (l ++ m) = lexc k m.
Proof using Type*. induction l as [|x l IH]; [done|]. cbn. by rewrite cmp_refl. Qed.
End order.

#[export] Instance Z_compare_order : TotalOrder Z.compare.
Proof. split; intros *; [apply Z.compare_antisym|]. rewrite !Z.compare_le_iff. lia. Qed.

(** Comparing by a key. *)
Lemma key_order {A B} (f : A → B) cmp : TotalOrder cmp → TotalOrder (λ x y, cmp (f x) (f y)).
Proof. intros T. split; intros *; [apply (cmp_swap cmp)|apply (cmp_le_trans cmp)]. Qed.

(** First by one comparison, then by another. *)
Definition thenc (c d : comparison) : comparison := match c with Eq => d | c => c end.

Lemma thenc_order {A} (c d : A → A → comparison) :
  TotalOrder c → TotalOrder d → TotalOrder (λ x y, thenc (c x y) (d x y)).
Proof.
  intros Tc Td. split.
  - intros x y. rewrite (cmp_swap c x y), (cmp_swap d x y). by destruct (c x y).
  - intros x y z. unfold thenc. destruct (c x y) eqn:E1.
    + rewrite (cmp_eq_l c x y z E1). destruct (c y z); try done. apply (cmp_le_trans d).
    + intros _. destruct (c y z) eqn:E2; intros Hz.
      * by rewrite (cmp_lt_le_trans c x y z) by (done || by rewrite E2).
      * by rewrite (cmp_lt_le_trans c x y z) by (done || by rewrite E2).
      * done.
    + done.
Qed.

Lemma sgn_swap c : sgn (CompOpp c) = - sgn c.
Proof. by destruct c. Qed.
Lemma sgn_le c : sgn c ≤ 0 ↔ c ≠ Gt.
Proof. by destruct c. Qed.
Lemma sgn_zero c : sgn c = 0 ↔ c = Eq.
Proof. by destruct c. Qed.

(** [strings.Compare], byte by byte. *)
Definition bytes_cmp : bytes → bytes → comparison := lexc (λ a b, Z.compare (b2z a) (b2z b)).

#[export] Instance bytes_cmp_order : TotalOrder bytes_cmp.
Proof. apply lexc_order, key_order, _. Qed.

Definition Compare (a b : bytes) : Z := sgn (bytes_cmp a b).

(** ** Lexicographic order of sequences that end in zeros *)

Fixpoint lex0 (n : nat) (a b : list Z) : comparison :=
  match n with
  | O => Eq
  | S n' => thenc (Z.compare (hd 0 a) (hd 0 b)) (lex0 n' (tl a) (tl b))
  end.

Definition lexz (a b : list Z) : comparison := lex0 (Nat.max (List.length a) (List.length b)) a b.

Lemma lex0_nil n : lex0 n [] [] = Eq.
Proof. by induction n. Qed.

Lemma lex0_more n a b :
  (List.length a ≤ n)%nat → (List.length b ≤ n)%nat → lex0 n a b = lexz a b.
Proof.
  unfold lexz. intros Ha Hb. assert (Hm : (Nat.max (List.length a) (List.length b) ≤ n)%nat) by lia.
  clear Ha Hb. revert a b Hm. induction n as [|n IH]; intros a b Hm.
  - by destruct a, b; cbn in Hm; try lia.
  - destruct (Nat.max (List.length a) (List.length b)) as [|m] eqn:E.
    + destruct a, b; cbn in E; try lia. cbn. apply lex0_nil.
    + cbn. f_equal. rewrite IH by (destruct a, b; cbn in *; lia).
      f_equal. destruct a, b; cbn in *; lia.
Qed.

Lemma lexz_unfold a b : lexz a b = thenc (Z.compare (hd 0 a) (hd 0 b)) (lexz (tl a) (tl b)).
Proof.
  rewrite <- (lex0_more (S (Nat.max (List.length a) (List.length b)))) by lia. cbn.
  f_equal. apply lex0_more; destruct a, b; cbn; lia.
Qed.

#[export] Instance lexz_order : TotalOrder lexz.
Proof.
  assert (T : ∀ n, TotalOrder (lex0 n)).
  { induction n as [|n IH]; [by split|]. cbn. apply thenc_order; [apply key_order, _|].
    by apply (key_order tl). }
  split.
  - intros x y. unfold lexz. rewrite Nat.max_comm. apply (@cmp_swap _ _ (T _)).
  - intros x y z. set (n := (List.length x + List.length y + List.length z)%nat).
    rewrite <- !(lex0_more n) by lia. apply (@cmp_le_trans _ _ (T n)).
Qed.
