(* ===== verification/Version.v ===== *)
(** * Version: package versions in the order of their own managers

    Models src/internal/vuln/version: the comparison of Debian versions and of
    RPM versions, on byte strings. Both comparisons walk two strings at once;
    here each is shown to be the lexicographic order of a key of one string,
    which gives what the callers sort and take maxima by: a total order. *)
From S2P Require Import Prelude Bytes Text Order.

Open Scope Z_scope.

(** ** Shared character classes *)

Definition isLetter (c : byte) : bool :=
  bool_decide (97 ≤ b2z c ≤ 122) || bool_decide (65 ≤ b2z c ≤ 90).
Definition isAlphanumeric (c : byte) : bool := isDigit c || isLetter c.

Definition compareNumbers (a b : Z) : Z :=
  if bool_decide (a < b) then -1 else if bool_decide (b < a) then 1 else 0.

(** The longest prefix of a class, and what follows it. *)
Fixpoint run (p : byte → bool) (s : bytes) : bytes * bytes :=
  match s with
  | c :: s' => if p c then let '(r, rest) := run p s' in (c :: r, rest) else ([], s)
  | [] => ([], [])
  end.

Fixpoint skip (p : byte → bool) (s : bytes) : bytes :=
  match s with c :: s' => if p c then skip p s' else s | [] => [] end.

Definition is_zero_digit (c : byte) : bool := bool_decide (c = Byte.x30).

Module Deb.

Definition debOrder (c : byte) : Z :=
  if bool_decide (c = Byte.x7e) then -1
  else if isDigit c then 0
  else if isLetter c then b2z c
  else b2z c + 256.

Definition splitDeb (version : bytes) : Z * bytes * bytes :=
  let version := TrimSpace version in
  let '(epoch, version) :=
    match cut_first Byte.x3a version with
    | Some (before, after) => ((Atoi before).1, after)
    | None => (0, version)
    end in
  match cut_last Byte.x2d version with
  | Some (upstream, revision) => (epoch, upstream, revision)
  | None => (epoch, version, [])
  end.

(** [i < len(a) && !isDigit(a[i])], with the rest of the string for [a[i:]]. *)
Definition at_text (s : bytes) : bool :=
  match s with c :: _ => negb (isDigit c) | [] => false end.
Definition char_at (s : bytes) : Z := match s with c :: _ => debOrder c | [] => 0 end.

(** The non-numeric fragment: a result, or where the two strings stand after
    it. When one of them has run out the characters differ, so the loop is
    over before it would step past the end of either. *)
Fixpoint fragment (a b : bytes) : Z + (bytes * bytes) :=
  if at_text a || at_text b then
    if bool_decide (char_at a ≠ char_at b) then inl (compareNumbers (char_at a) (char_at b))
    else match a with
         | _ :: a' => fragment a' (tl b)
         | [] => inr ([], tl b)
         end
  else inr (a, b).

Fixpoint part_loop (fuel : nat) (a b : bytes) : option Z :=
  match a, b with
  | [], [] => Some 0
  | _, _ =>
      match fuel with
      | O => None
      | S fuel' =>
          match fragment a b with
          | inl r => Some r
          | inr (a, b) =>
              let '(digitsA, a) := run isDigit (skip is_zero_digit a) in
              let '(digitsB, b) := run isDigit (skip is_zero_digit b) in
              if bool_decide (len digitsA ≠ len digitsB)
              then Some (compareNumbers (len digitsA) (len digitsB))
              else if bool_decide (Compare digitsA digitsB ≠ 0) then Some (Compare digitsA digitsB)
              else part_loop fuel' a b
          end
      end
  end.

(** [compareDebPart]: every round consumes a byte of one of the strings. *)
Definition compareDebPart (a b : bytes) : option Z :=
  part_loop (List.length a + List.length b) a b.

Definition CompareDeb (a b : bytes) : option Z :=
  let '(epochA, upstreamA, revisionA) := splitDeb a in
  let '(epochB, upstreamB, revisionB) := splitDeb b in
  if bool_decide (compareNumbers epochA epochB ≠ 0) then Some (compareNumbers epochA epochB)
  else
    result ← compareDebPart upstreamA upstreamB;
    if bool_decide (result ≠ 0) then Some result else compareDebPart revisionA revisionB.
End Deb.

Module Rpm.

Definition CompareSep (c : byte) : bool :=
  negb (isAlphanumeric c) && bool_decide (c ≠ Byte.x7e) && bool_decide (c ≠ Byte.x5e).

Definition at_byte (x : byte) (s : bytes) : bool :=
  match s with c :: _ => bool_decide (c = x) | [] => false end.

(** [CompareRPMSegment]; a round that goes on has consumed a byte of both. *)
Fixpoint segment_loop (fuel : nat) (a b : bytes) : option Z :=
  match fuel with
  | O => None
  | S fuel' =>
      match a, b with
      | [], [] => Some 0
      | _, _ =>
          let a := skip CompareSep a in
          let b := skip CompareSep b in
          if at_byte Byte.x7e a || at_byte Byte.x7e b then
            if negb (at_byte Byte.x7e a) then Some 1
            else if negb (at_byte Byte.x7e b) then Some (-1)
            else segment_loop fuel' (tl a) (tl b)
          else if at_byte Byte.x5e a || at_byte Byte.x5e b then
            match a, b with
            | [], _ => Some (-1)
            | _, [] => Some 1
            | ca :: a', cb :: b' =>
                if bool_decide (ca ≠ Byte.x5e) then Some 1
                else if bool_decide (cb ≠ Byte.x5e) then Some (-1)
                else segment_loop fuel' a' b'
            end
          else
            match a, b with
            | [], [] => Some 0
            | [], _ => Some (-1)
            | _, [] => Some 1
            | ca :: _, _ =>
                let numeric := isDigit ca in
                let '(segmentA, a) := run (if numeric then isDigit else isLetter) a in
                let '(segmentB, b) := run (if numeric then isDigit else isLetter) b in
                match segmentB with
                | [] => Some (if numeric then 1 else -1)
                | _ =>
                    let segmentA := if numeric then skip is_zero_digit segmentA else segmentA in
                    let segmentB := if numeric then skip is_zero_digit segmentB else segmentB in
                    if numeric && bool_decide (len segmentA ≠ len segmentB)
                    then Some (if bool_decide (len segmentB < len segmentA) then 1 else -1)
                    else if bool_decide (Compare segmentA segmentB ≠ 0)
                    then Some (if bool_decide (0 < Compare segmentA segmentB) then 1 else -1)
                    else segment_loop fuel' a b
                end
            end
      end
  end.

Definition CompareRPMSegment (a b : bytes) : option Z :=
  segment_loop (S (List.length a + List.length b)) a b.

Definition splitEVR (evr : bytes) : bytes * bytes * bytes :=
  let evr := TrimSpace evr in
  let '(epoch, evr) :=
    match cut_first Byte.x3a evr with
    | Some (before, after) =>
        (if bool_decide (TrimSpace before = []) then sbytes "0" else before, after)
    | None => (sbytes "0", evr)
    end in
  match cut_first Byte.x2d evr with
  | Some (version, release) => (epoch, version, release)
  | None => (epoch, evr, [])
  end.

Definition CompareRPM (a b : bytes) : option Z :=
  let '(epochA, versionA, releaseA) := splitEVR a in
  let '(epochB, versionB, releaseB) := splitEVR b in
  result ← CompareRPMSegment epochA epochB;
  if bool_decide (result ≠ 0) then Some result
  else
    result ← CompareRPMSegment versionA versionB;
    if bool_decide (result ≠ 0) then Some result
    else if bool_decide (releaseA = []) || bool_decide (releaseB = []) then Some 0
    else CompareRPMSegment releaseA releaseB.
End Rpm.

(** ** Runs of characters *)

Lemma run_spec p s :
  s = (run p s).1 ++ (run p s).2 ∧ Forall (λ c, p c = true) (run p s).1
  ∧ match (run p s).2 with c :: _ => p c = false | [] => True end.
Proof.
  induction s as [|c s IH]; [split_and!; [done|constructor|done]|]. cbn. destruct (p c) eqn:E.
  - destruct (run p s) as [r rest]. cbn in *. destruct IH as (-> & ? & ?). split_and!; [done|by constructor|done].
  - split_and!; [done|constructor|done].
Qed.

Lemma skip_spec p s :
  ∃ z, s = z ++ skip p s ∧ Forall (λ c, p c = true) z
  ∧ match skip p s with c :: _ => p c = false | [] => True end.
Proof.
  induction s as [|c s IH]; [exists []; split_and!; [done|constructor|done]|]. cbn. destruct (p c) eqn:E.
  - destruct IH as (z & Hz & ? & ?). exists (c :: z). rewrite Hz at 1. split_and!; [done|by constructor|done].
  - exists []. split_and!; [done|constructor|done].
Qed.

(** ** The value of a run of digits *)

Definition value (v : Z) (ds : bytes) : Z := fold_left (λ v c, v * 10 + digit_value c) ds v.
#[local] Arguments value : simpl never.
Definition digits (ds : bytes) : Prop := Forall (λ c, isDigit c = true) ds.

Lemma digit_value_range c : isDigit c = true → 0 ≤ digit_value c ≤ 9.
Proof. unfold isDigit, digit_value. intros ?%bool_decide_eq_true. lia. Qed.

Lemma value_app v ds es : value v (ds ++ es) = value (value v ds) es.
Proof. apply fold_left_app. Qed.

Lemma value_cons v c ds : value v (c :: ds) = value (v * 10 + digit_value c) ds.
Proof. done. Qed.

Lemma value_shift v ds : value v ds = v * 10 ^ len ds + value 0 ds.
Proof.
  revert v. induction ds as [|c ds IH]; intros v; [rewrite len_nil; unfold value; cbn; lia|].
  rewrite !value_cons, IH, (IH (0 * 10 + _)), len_cons.
  pose proof (len_nonneg ds). rewrite Z.pow_add_r by lia. lia.
Qed.

Lemma value_bounds ds : digits ds → 0 ≤ value 0 ds < 10 ^ len ds.
Proof.
  induction ds as [|c ds IH]; intros Hd; [by split; vm_compute|].
  apply Forall_cons in Hd as [Hc Hd]. specialize (IH Hd). apply digit_value_range in Hc.
  rewrite value_cons, value_shift, len_cons. pose proof (len_nonneg ds).
  rewrite Z.pow_add_r by lia. nia.
Qed.

Lemma value_zeros z ds : Forall (λ c, is_zero_digit c = true) z → value 0 (z ++ ds) = value 0 ds.
Proof.
  induction 1 as [|c z Hc Hz IH]; [done|]. apply bool_decide_eq_true in Hc as ->. exact IH.
Qed.

(** A run without a leading zero: its length bounds its value from below. *)
Definition trimmed (ds : bytes) : Prop :=
  digits ds ∧ match ds with c :: _ => is_zero_digit c = false | [] => True end.

Lemma value_lower ds : trimmed ds → ds ≠ [] → 10 ^ (len ds - 1) ≤ value 0 ds.
Proof.
  intros [Hd Hz]. destruct ds as [|c ds]; [done|]. intros _.
  apply Forall_cons in Hd as [Hc Hd]. pose proof (value_bounds ds Hd) as Hv.
  assert (1 ≤ digit_value c).
  { pose proof (digit_value_range c Hc). destruct (decide (digit_value c = 0)) as [E|]; [|lia].
    unfold is_zero_digit in Hz. apply bool_decide_eq_false in Hz. exfalso. apply Hz.
    unfold digit_value in E. rewrite <- (z2b_b2z c), <- (z2b_b2z Byte.x30). f_equal.
    change (b2z Byte.x30) with 48. lia. }
  rewrite value_cons, value_shift, len_cons.
  replace (1 + len ds - 1) with (len ds) by lia.
  set (p := 10 ^ len ds) in *. set (d := digit_value c) in *. nia.
Qed.

Lemma digits_compare_len ds es :
  trimmed ds → trimmed es → len ds < len es → value 0 ds < value 0 es.
Proof.
  intros [Hd _] He Hl. pose proof (value_bounds ds Hd) as [_ Hv].
  assert (es ≠ []) by (intros ->; rewrite len_nil in Hl; pose proof (len_nonneg ds); lia).
  pose proof (value_lower es He H) as Hw. pose proof (len_nonneg ds).
  assert (10 ^ len ds ≤ 10 ^ (len es - 1)) by (apply Z.pow_le_mono_r; lia). lia.
Qed.

Lemma digits_compare_same ds es :
  digits ds → digits es → len ds = len es → bytes_cmp ds es = (value 0 ds ?= value 0 es).
Proof.
  intros Hd. revert es. induction Hd as [|c ds Hc Hd IH]; intros es He Hl.
  - destruct es; [done|]. rewrite len_cons, len_nil in Hl. pose proof (len_nonneg es). lia.
  - destruct es as [|e es]; [rewrite len_cons, len_nil in Hl; pose proof (len_nonneg ds); lia|].
    apply Forall_cons in He as [He Hes]. rewrite !len_cons in Hl.
    rewrite !value_cons, (value_shift _ ds), (value_shift _ es).
    assert (len ds = len es) as Hl' by lia. specialize (IH es Hes Hl').
    pose proof (value_bounds ds Hd). pose proof (value_bounds es Hes).
    unfold bytes_cmp in *. cbn [lexc].
    rewrite Hl' in *. unfold digit_value. destruct (Z.compare_spec (b2z c) (b2z e)) as [E|E|E].
    + rewrite E, IH. destruct (Z.compare_spec (value 0 ds) (value 0 es)); symmetry;
        [apply Z.compare_eq_iff|apply Z.compare_lt_iff|apply Z.compare_gt_iff]; lia.
    + symmetry. apply Z.compare_lt_iff. nia.
    + symmetry. apply Z.compare_gt_iff. nia.
Qed.

(** [run] after [skip] of zeros is the number that stands there. *)
Lemma number_at s ds rest :
  run isDigit (skip is_zero_digit s) = (ds, rest) →
  trimmed ds ∧ (∃ z, s = z ++ ds ++ rest ∧ Forall (λ c, is_zero_digit c = true) z)
  ∧ match rest with c :: _ => isDigit c = false | [] => True end.
Proof.
  intros E. pose proof (run_spec isDigit (skip is_zero_digit s)) as (H1 & H2 & H3).
  destruct (skip_spec is_zero_digit s) as (z & Hz & Hz1 & Hz2). rewrite E in *. cbn in *.
  split.
  - split; [done|]. destruct ds; [done|]. rewrite H1 in Hz2. exact Hz2.
  - split; [|done]. exists z. by rewrite <- H1.
Qed.

Lemma compareNumbers_sgn a b : compareNumbers a b = sgn (a ?= b).
Proof.
  unfold compareNumbers. destruct (Z.compare_spec a b) as [E|E|E].
  - rewrite !bool_decide_eq_false_2 by lia. done.
  - by rewrite bool_decide_eq_true_2 by lia.
  - rewrite bool_decide_eq_false_2, bool_decide_eq_true_2 by lia. done.
Qed.

Lemma is_zero_digit_digit c : is_zero_digit c = true → isDigit c = true.
Proof. intros ->%bool_decide_eq_true. done. Qed.

(** ** The order of Debian parts

    The key of a part is the sequence of the weights of its characters, with a
    zero and the value of the number where a number stands; the end of the part
    weighs as an endless sequence of zeros. *)

Fixpoint deb_key (s : bytes) (number : option Z) : list Z :=
  match s with
  | [] => match number with Some v => [v] | None => [] end
  | c :: s' =>
      if isDigit c then
        match number with
        | Some v => deb_key s' (Some (v * 10 + digit_value c))
        | None => 0 :: deb_key s' (Some (digit_value c))
        end
      else
        match number with
        | Some v => v :: Deb.debOrder c :: deb_key s' None
        | None => Deb.debOrder c :: deb_key s' None
        end
  end.
Definition debkey (s : bytes) : list Z := deb_key s None.

Lemma deb_key_digits v ds rest :
  digits ds → match rest with c :: _ => isDigit c = false | [] => True end →
  deb_key (ds ++ rest) (Some v) = value v ds :: deb_key rest None.
Proof.
  intros Hd. revert v. induction Hd as [|c ds Hc Hd IH]; intros v Hr; cbn.
  - destruct rest as [|c rest]; [done|]. cbn. by rewrite Hr.
  - rewrite Hc, value_cons. by apply IH.
Qed.

(** Where no text stands: a zero, the value of the number, the rest. *)
Lemma debkey_number s ds rest z :
  s = z ++ ds ++ rest → Forall (λ c, is_zero_digit c = true) z → digits ds →
  match rest with c :: _ => isDigit c = false | [] => True end →
  hd 0 (debkey s) = 0 ∧ hd 0 (tl (debkey s)) = value 0 ds ∧ tl (tl (debkey s)) = debkey rest
  ∨ s = rest ∧ Deb.at_text s = true.
Proof.
  intros -> Hz Hd Hr.
  assert (Hzd : digits (z ++ ds)).
  { apply Forall_app. split; [|done]. eapply Forall_impl; [exact Hz|]. apply is_zero_digit_digit. }
  rewrite <- (value_zeros z ds Hz). rewrite app_assoc. destruct (z ++ ds) as [|c es].
  - cbn. destruct rest as [|c rest]; [by left|right]. cbn. by rewrite Hr.
  - left. apply Forall_cons in Hzd as [Hc Hes]. unfold debkey. cbn. rewrite Hc. cbn.
    by rewrite deb_key_digits.
Qed.

Lemma debOrder_text c : isDigit c = false → Deb.debOrder c ≠ 0.
Proof.
  unfold Deb.debOrder. intros ->. pose proof (b2z_range c).
  case_bool_decide; [done|]. destruct (isLetter c) eqn:E; [|lia].
  unfold isLetter in E. apply orb_true_iff in E as [E|E]; apply bool_decide_eq_true in E; lia.
Qed.

Lemma debOrder_digit c : isDigit c = true → Deb.debOrder c = 0.
Proof.
  intros E. unfold Deb.debOrder. rewrite E. case_bool_decide as Hc; [|done].
  subst c. vm_compute in E. discriminate.
Qed.

Lemma hd_debkey s : hd 0 (debkey s) = Deb.char_at s.
Proof.
  destruct s as [|c s]; [done|]. unfold debkey. cbn. destruct (isDigit c) eqn:E; [|done].
  by rewrite debOrder_digit.
Qed.

Lemma tl_debkey_text s : Deb.at_text s = true → tl (debkey s) = debkey (tl s).
Proof.
  destruct s as [|c s]; [done|]. cbn. intros ?%negb_true_iff. unfold debkey. cbn. by rewrite H.
Qed.

(** Two places whose characters weigh the same are both text or both not. *)
Lemma char_at_text a b : Deb.char_at a = Deb.char_at b → Deb.at_text a = Deb.at_text b.
Proof.
  assert (H : ∀ s, Deb.at_text s = negb (bool_decide (Deb.char_at s = 0))).
  { intros [|c s]; [done|]. cbn. destruct (isDigit c) eqn:E.
    - by rewrite debOrder_digit.
    - rewrite bool_decide_eq_false_2; [done|]. by apply debOrder_text. }
  intros Hc. by rewrite !H, Hc.
Qed.

Lemma fragment_unfold a b :
  Deb.fragment a b =
    if Deb.at_text a || Deb.at_text b then
      if bool_decide (Deb.char_at a ≠ Deb.char_at b)
      then inl (compareNumbers (Deb.char_at a) (Deb.char_at b))
      else match a with _ :: a' => Deb.fragment a' (tl b) | [] => inr ([], tl b) end
    else inr (a, b).
Proof. by destruct a. Qed.

Lemma fragment_spec a b :
  match Deb.fragment a b with
  | inl r => r = sgn (lexz (debkey a) (debkey b)) ∧ r ≠ 0
  | inr (a', b') =>
      lexz (debkey a) (debkey b) = lexz (debkey a') (debkey b')
      ∧ Deb.at_text a' = false ∧ Deb.at_text b' = false
      ∧ a' `suffix_of` a ∧ b' `suffix_of` b
  end.
Proof.
  revert b. induction a as [|c a IH]; intros b; rewrite fragment_unfold.
  all: destruct (_ || _) eqn:Ht; [case_bool_decide as Hc|].
  all: try (apply orb_false_iff in Ht as [? ?]; by split_and!).
  all: try (rewrite compareNumbers_sgn, lexz_unfold, !hd_debkey;
            match goal with |- context [?x ?= ?y] => destruct (Z.compare_spec x y); [done|..] end;
            by split).
  - apply char_at_text in Hc. cbn in Ht, Hc. rewrite <- Hc in Ht. done.
  - pose proof (char_at_text _ _ Hc) as Htt. rewrite Htt, orb_diag in Ht.
    specialize (IH (tl b)).
    assert (Hl : lexz (debkey (c :: a)) (debkey b) = lexz (debkey a) (debkey (tl b))).
    { rewrite lexz_unfold, !hd_debkey, Hc, Z.compare_refl. cbn [thenc].
      by rewrite (tl_debkey_text b), (tl_debkey_text (c :: a)) by congruence. }
    rewrite Hl. destruct (Deb.fragment a (tl b)) as [r|[a' b']]; [done|].
    destruct IH as (-> & ? & ? & [x ->] & [y Hy]). split_and!; try done.
    + by exists (c :: x).
    + destruct b as [|d b]; [done|]. cbn in Hy. subst b. by exists (d :: y).
Qed.

(** A number that stands somewhere is consumed. *)
Lemma number_progress s ds rest z :
  s = z ++ ds ++ rest → match rest with c :: _ => isDigit c = false | [] => True end →
  Deb.at_text s = false →
  (List.length s = 0 ∧ List.length rest = 0 ∨ List.length rest < List.length s)%nat.
Proof.
  intros -> Hr Ht. rewrite app_assoc in *. destruct (z ++ ds) as [|c es].
  - cbn in *. destruct rest; [by left|]. cbn in Ht. by rewrite Hr in Ht.
  - right. cbn. rewrite length_app. lia.
Qed.

Lemma part_loop_spec fuel a b :
  (List.length a + List.length b ≤ fuel)%nat →
  Deb.part_loop fuel a b = Some (sgn (lexz (debkey a) (debkey b))).
Proof.
  revert a b. induction fuel as [|fuel IH]; intros a b Hf.
  { destruct a, b; cbn in Hf; try lia. done. }
  assert (Hnil : a = [] ∧ b = [] ∨ Deb.part_loop (S fuel) a b =
    match Deb.fragment a b with
    | inl r => Some r
    | inr (a, b) =>
        let '(digitsA, a) := run isDigit (skip is_zero_digit a) in
        let '(digitsB, b) := run isDigit (skip is_zero_digit b) in
        if bool_decide (len digitsA ≠ len digitsB)
        then Some (compareNumbers (len digitsA) (len digitsB))
        else if bool_decide (Compare digitsA digitsB ≠ 0) then Some (Compare digitsA digitsB)
        else Deb.part_loop fuel a b
    end ∧ (0 < List.length a + List.length b)%nat).
  { destruct a, b; [by left|right; split; [done|cbn; lia]..]. }
  destruct Hnil as [[-> ->]|[-> Hpos]]; [done|].
  pose proof (fragment_spec a b) as HF. destruct (Deb.fragment a b) as [r|[a' b']].
  { by destruct HF as [-> _]. }
  destruct HF as (-> & Ha & Hb & Sa & Sb).
  destruct (run isDigit (skip is_zero_digit a')) as [dA ra] eqn:EA.
  destruct (run isDigit (skip is_zero_digit b')) as [dB rb] eqn:EB.
  apply number_at in EA as (TA & (za & HA & ZA) & RA). apply number_at in EB as (TB & (zb & HB & ZB) & RB).
  assert (KA := debkey_number a' dA ra za HA ZA (proj1 TA) RA).
  assert (KB := debkey_number b' dB rb zb HB ZB (proj1 TB) RB).
  destruct KA as [(A1 & A2 & A3)|[_ ?]]; [|congruence].
  destruct KB as [(B1 & B2 & B3)|[_ ?]]; [|congruence].
  rewrite lexz_unfold, A1, B1, lexz_unfold, A2, B2, A3, B3. cbn [thenc Z.compare].
  assert (Hval : ∀ c, sgn (thenc c (lexz (debkey ra) (debkey rb))) =
                   match c with Eq => sgn (lexz (debkey ra) (debkey rb)) | _ => sgn c end).
  { by intros []. }
  case_bool_decide as Hlen.
  - rewrite compareNumbers_sgn. f_equal. rewrite Hval.
    destruct (Z.compare_spec (len dA) (len dB)) as [E|E|E]; [done|..].
    + apply digits_compare_len in E; [|done..]. apply Z.compare_lt_iff in E. by rewrite E.
    + apply digits_compare_len in E; [|done..]. apply Z.compare_gt_iff in E. by rewrite E.
  - unfold Compare.
    rewrite (digits_compare_same dA dB) by (done || apply TA || apply TB).
    rewrite Hval. destruct (value 0 dA ?= value 0 dB) eqn:E; cbn [sgn]; [|done..].
    rewrite bool_decide_eq_false_2 by (intros []; done). apply IH.
    pose proof (number_progress a' dA ra za HA RA Ha). pose proof (number_progress b' dB rb zb HB RB Hb).
    apply suffix_length in Sa, Sb. lia.
Qed.

(** The comparison of two parts of Debian versions always returns, and
    what it returns is the order of their keys: the weights of the characters,
    numbers by value, the end of a part before everything but a tilde. *)
Theorem compareDebPart_is_key_order a b :
  Deb.compareDebPart a b = Some (sgn (lexz (debkey a) (debkey b))).
Proof. by apply part_loop_spec. Qed.

(** The order of whole versions: the epoch, then the parts. *)
Definition deb_cmp (a b : bytes) : comparison :=
  let '(ea, ua, ra) := Deb.splitDeb a in
  let '(eb, ub, rb) := Deb.splitDeb b in
  thenc (ea ?= eb) (thenc (lexz (debkey ua) (debkey ub)) (lexz (debkey ra) (debkey rb))).

Lemma deb_cmp_order : TotalOrder deb_cmp.
Proof.
  assert (T : TotalOrder (λ x y : Z * bytes * bytes,
    thenc (x.1.1 ?= y.1.1) (thenc (lexz (debkey x.1.2) (debkey y.1.2)) (lexz (debkey x.2) (debkey y.2))))).
  { apply thenc_order; [apply (key_order (λ x : Z * bytes * bytes, x.1.1)), _|].
    apply thenc_order; [apply (key_order (λ x : Z * bytes * bytes, debkey x.1.2)), _|].
    apply (key_order (λ x : Z * bytes * bytes, debkey x.2)), _. }
  unfold deb_cmp. apply (key_order Deb.splitDeb) in T. split; intros *.
  - pose proof (cmp_swap _ (TotalOrder := T) x y) as Hs. cbn in Hs.
    destruct (Deb.splitDeb x) as [[? ?] ?], (Deb.splitDeb y) as [[? ?] ?]. exact Hs.
  - pose proof (cmp_le_trans _ (TotalOrder := T) x y z) as Hs. cbn in Hs.
    destruct (Deb.splitDeb x) as [[? ?] ?], (Deb.splitDeb y) as [[? ?] ?], (Deb.splitDeb z) as [[? ?] ?].
    exact Hs.
Qed.

Lemma CompareDeb_cmp a b : Deb.CompareDeb a b = Some (sgn (deb_cmp a b)).
Proof.
  unfold Deb.CompareDeb, deb_cmp, Deb.compareDebPart.
  destruct (Deb.splitDeb a) as [[ea ua] ra], (Deb.splitDeb b) as [[eb ub] rb].
  rewrite compareNumbers_sgn, !part_loop_spec by done.
  destruct (ea ?= eb); cbn [thenc sgn mbind option_bind]; [|done..].
  destruct (lexz (debkey ua) (debkey ub)); cbn; done.
Qed.

(** C38: the order of Debian versions is a total preorder on all strings,
    well-formed or not: [CompareDeb] always returns, swapping its arguments
    swaps the sign, and "not newer" is transitive. *)
Theorem CompareDeb_total_preorder a b c :
  ∃ x y z, Deb.CompareDeb a b = Some x ∧ Deb.CompareDeb b c = Some y ∧ Deb.CompareDeb a c = Some z
    ∧ Deb.CompareDeb b a = Some (- x)
    ∧ (x ≤ 0 → y ≤ 0 → z ≤ 0) ∧ (x = 0 → y = 0 → z = 0) ∧ (x < 0 → y ≤ 0 → z < 0).
Proof.
  pose proof deb_cmp_order as T. rewrite !CompareDeb_cmp. do 3 eexists.
  split_and!; [done..| | | |].
  - by rewrite (cmp_swap _ a b), sgn_swap.
  - rewrite !sgn_le. apply (cmp_le_trans deb_cmp).
  - rewrite !sgn_zero. apply (cmp_eq_trans deb_cmp).
  - rewrite sgn_le. intros H1 H2. rewrite (cmp_lt_le_trans deb_cmp a b c); [done| |done].
    by destruct (deb_cmp a b).
Qed.

(** An epoch no machine integer holds is read as the largest one, not as
    zero: such a spelling wins against a version with an ordinary epoch. *)
Theorem CompareDeb_oversized_epoch_wins :
  Deb.CompareDeb (sbytes "99999999999999999999:1") (sbytes "9:2") = Some 1
  ∧ (Deb.splitDeb (sbytes "99999999999999999999:1")).1.1 = 2 ^ 63 - 1.
Proof. vm_compute. split; reflexivity. Qed.

(** ** The order of RPM segments

    The key is the sequence of the tokens: a tilde before the end, the end
    before a caret, a caret before letters, letters before numbers. *)

Inductive rtok := RTilde | REnd | RCaret | RAlpha (s : bytes) | RNum (v : Z).

Definition rrank (t : rtok) : Z :=
  match t with RTilde => 0 | REnd => 1 | RCaret => 2 | RAlpha _ => 3 | RNum _ => 4 end.
Definition ralpha (t : rtok) : bytes := match t with RAlpha s => s | _ => [] end.
Definition rnum (t : rtok) : Z := match t with RNum v => v | _ => 0 end.

Definition rtok_cmp (x y : rtok) : comparison :=
  thenc (rrank x ?= rrank y) (thenc (bytes_cmp (ralpha x) (ralpha y)) (rnum x ?= rnum y)).

#[export] Instance rtok_cmp_order : TotalOrder rtok_cmp.
Proof.
  apply thenc_order; [apply (key_order rrank), _|].
  apply thenc_order; [apply (key_order ralpha), _|apply (key_order rnum), _].
Qed.

(** The tokens of a segment; [cur] is the run being read. *)
Fixpoint rpm_key (s : bytes) (cur : list rtok) : list rtok :=
  match s with
  | [] => cur ++ [REnd]
  | c :: s' =>
      if isDigit c then
        match cur with
        | [RNum v] => rpm_key s' [RNum (v * 10 + digit_value c)]
        | _ => cur ++ rpm_key s' [RNum (digit_value c)]
        end
      else if isLetter c then
        match cur with
        | [RAlpha r] => rpm_key s' [RAlpha (r ++ [c])]
        | _ => cur ++ rpm_key s' [RAlpha [c]]
        end
      else if bool_decide (c = Byte.x7e) then cur ++ RTilde :: rpm_key s' []
      else if bool_decide (c = Byte.x5e) then cur ++ RCaret :: rpm_key s' []
      else cur ++ rpm_key s' []
  end.
Definition rpmkey (s : bytes) : list rtok := rpm_key s [].

Definition starts (p : byte → bool) (s : bytes) : bool :=
  match s with c :: _ => p c | [] => false end.

Lemma digit_not_letter c : isDigit c = true → isLetter c = false.
Proof.
  unfold isDigit, isLetter. intros H%bool_decide_eq_true.
  rewrite !bool_decide_eq_false_2 by lia. done.
Qed.

Lemma rpm_key_digits v ds rest :
  digits ds → starts isDigit rest = false →
  rpm_key (ds ++ rest) [RNum v] = RNum (value v ds) :: rpmkey rest.
Proof.
  intros Hd. revert v. induction Hd as [|c ds Hc Hd IH]; intros v Hr; cbn [app rpm_key].
  - unfold rpmkey. destruct rest as [|c rest]; [done|]. cbn in *. rewrite Hr.
    destruct (isLetter c); [done|]. by repeat case_bool_decide.
  - rewrite Hc, value_cons. by apply IH.
Qed.

Lemma rpm_key_letters r ls rest :
  Forall (λ c, isLetter c = true) ls → starts isLetter rest = false →
  rpm_key (ls ++ rest) [RAlpha r] = RAlpha (r ++ ls) :: rpmkey rest.
Proof.
  intros Hl. revert r. induction Hl as [|c ls Hc Hl IH]; intros r Hr; cbn [app rpm_key].
  - unfold rpmkey. rewrite app_nil_r. destruct rest as [|c rest]; [done|]. cbn in *.
    rewrite Hr. destruct (isDigit c); [done|]. by repeat case_bool_decide.
  - destruct (isDigit c) eqn:E; [apply digit_not_letter in E; congruence|].
    rewrite Hc, IH by done. by rewrite <- app_assoc.
Qed.

(** What stands after the separators, and the first token of the key. *)
Inductive rpm_view : bytes → list rtok → Prop :=
| view_end : rpm_view [] [REnd]
| view_tilde t : rpm_view (Byte.x7e :: t) (RTilde :: rpmkey t)
| view_caret t : rpm_view (Byte.x5e :: t) (RCaret :: rpmkey t)
| view_num c ds rest : digits (c :: ds) → starts isDigit rest = false →
    rpm_view ((c :: ds) ++ rest) (RNum (value 0 (c :: ds)) :: rpmkey rest)
| view_alpha c ls rest : Forall (λ c, isLetter c = true) (c :: ls) → starts isLetter rest = false →
    rpm_view ((c :: ls) ++ rest) (RAlpha (c :: ls) :: rpmkey rest).

Lemma run_starts p s : starts p (run p s).2 = false.
Proof.
  pose proof (run_spec p s) as (_ & _ & H). by destruct (run p s).2.
Qed.

Lemma rpmkey_view s : rpm_view (skip Rpm.CompareSep s) (rpmkey s).
Proof.
  induction s as [|c s IH]; [constructor|].
  cbn [skip]. destruct (Rpm.CompareSep c) eqn:E.
  - unfold Rpm.CompareSep in E. rewrite !andb_true_iff, negb_true_iff, !bool_decide_eq_true in E.
    destruct E as [[E1 E2] E3]. unfold isAlphanumeric in E1. apply orb_false_iff in E1 as [Ed El].
    unfold rpmkey. cbn. rewrite Ed, El, !bool_decide_eq_false_2 by done. exact IH.
  - unfold rpmkey. cbn [rpm_key]. destruct (isDigit c) eqn:Ed.
    + pose proof (run_spec isDigit s) as (H1 & H2 & _). pose proof (run_starts isDigit s) as H3.
      destruct (run isDigit s) as [ds rest]. cbn in H1, H2, H3. subst s. cbn [app].
      rewrite rpm_key_digits by done. apply (view_num c ds rest); [by constructor|done].
    + destruct (isLetter c) eqn:El.
      * pose proof (run_spec isLetter s) as (H1 & H2 & _). pose proof (run_starts isLetter s) as H3.
        destruct (run isLetter s) as [ls rest]. cbn in H1, H2, H3. subst s. cbn [app].
        rewrite rpm_key_letters by done. apply (view_alpha c ls rest); [by constructor|done].
      * unfold Rpm.CompareSep, isAlphanumeric in E. rewrite Ed, El in E. cbn in E.
        destruct (decide (c = Byte.x7e)) as [->|]; [constructor|].
        destruct (decide (c = Byte.x5e)) as [->|]; [constructor|].
        by rewrite !bool_decide_eq_true_2 in E.
Qed.

Lemma run_app p ls rest :
  Forall (λ c, p c = true) ls → starts p rest = false → run p (ls ++ rest) = (ls, rest).
Proof.
  intros Hl Hr. induction Hl as [|c ls Hc Hl IH]; cbn.
  - destruct rest as [|c rest]; [done|]. cbn in *. by rewrite Hr.
  - by rewrite Hc, IH.
Qed.

Lemma skip_zeros_number ds :
  digits ds → trimmed (skip is_zero_digit ds) ∧ value 0 (skip is_zero_digit ds) = value 0 ds.
Proof.
  intros Hd. destruct (skip_spec is_zero_digit ds) as (z & Hz & Hz1 & Hz2).
  split.
  - split; [|done]. rewrite Hz in Hd. by apply Forall_app in Hd as [_ ?].
  - rewrite Hz at 2. by rewrite value_zeros.
Qed.

(** Two numbers that stand in the same place: longer, then greater, is newer. *)
Lemma numbers_compare ds es k :
  digits ds → digits es →
  let a := skip is_zero_digit ds in let b := skip is_zero_digit es in
  (if bool_decide (len a ≠ len b) then Some (if bool_decide (len b < len a) then 1 else -1)
   else if bool_decide (Compare a b ≠ 0) then Some (if bool_decide (0 < Compare a b) then 1 else -1)
   else k)
  = match value 0 ds ?= value 0 es with Eq => k | c => Some (sgn c) end.
Proof.
  intros Hd He a b. destruct (skip_zeros_number ds Hd) as [Ta Va].
  destruct (skip_zeros_number es He) as [Tb Vb]. fold a in Ta, Va. fold b in Tb, Vb.
  rewrite <- Va, <- Vb. case_bool_decide as Hl.
  - destruct (Z.lt_gt_cases (len a) (len b)) as [Hn _]. destruct (Hn Hl) as [H1|H1].
    + apply digits_compare_len in H1 as H2; [|done..]. apply Z.compare_lt_iff in H2. rewrite H2.
      by rewrite bool_decide_eq_false_2 by lia.
    + apply digits_compare_len in H1 as H2; [|done..]. apply Z.compare_gt_iff in H2. rewrite H2.
      by rewrite bool_decide_eq_true_2 by lia.
  - unfold Compare. rewrite (digits_compare_same a b) by (done || apply Ta || apply Tb).
    by destruct (value 0 a ?= value 0 b).
Qed.

Lemma rpm_cmp_head x xs y ys :
  lexc rtok_cmp (x :: xs) (y :: ys) =
    match rtok_cmp x y with Eq => lexc rtok_cmp xs ys | c => c end.
Proof. done. Qed.

(** Where the special characters stand, and where they do not. *)
#[local] Create Rewrite HintDb rpm.
Lemma at_same x t : Rpm.at_byte x (x :: t) = true.
Proof. cbn. by apply bool_decide_eq_true. Qed.
Lemma at_tilde_caret t : Rpm.at_byte Byte.x7e (Byte.x5e :: t) = false.
Proof. done. Qed.
Lemma at_plain x c t : isAlphanumeric c = true → isAlphanumeric x = false → Rpm.at_byte x (c :: t) = false.
Proof. intros Hc Hx. apply bool_decide_eq_false. congruence. Qed.
Lemma at_plain_tilde c t : isAlphanumeric c = true → Rpm.at_byte Byte.x7e (c :: t) = false.
Proof. intros. by apply at_plain. Qed.
Lemma at_plain_caret c t : isAlphanumeric c = true → Rpm.at_byte Byte.x5e (c :: t) = false.
Proof. intros. by apply at_plain. Qed.
Lemma not_caret c : isAlphanumeric c = true → bool_decide (c ≠ Byte.x5e) = true.
Proof. intros H. apply bool_decide_eq_true. by intros ->. Qed.
Lemma is_caret : bool_decide (Byte.x5e ≠ Byte.x5e) = false.
Proof. done. Qed.
#[local] Hint Rewrite at_same at_tilde_caret is_caret : rpm.
#[local] Hint Rewrite at_plain_tilde at_plain_caret not_caret using assumption : rpm.

Lemma segment_loop_spec fuel a b :
  (List.length a + List.length b < fuel)%nat →
  Rpm.segment_loop fuel a b = Some (sgn (lexc rtok_cmp (rpmkey a) (rpmkey b))).
Proof.
  revert a b. induction fuel as [|fuel IH]; intros a b Hf; [lia|].
  assert (La : (List.length (skip Rpm.CompareSep a) ≤ List.length a)%nat).
  { destruct (skip_spec Rpm.CompareSep a) as (z & Hz & _). rewrite Hz at 2. rewrite length_app. lia. }
  assert (Lb : (List.length (skip Rpm.CompareSep b) ≤ List.length b)%nat).
  { destruct (skip_spec Rpm.CompareSep b) as (z & Hz & _). rewrite Hz at 2. rewrite length_app. lia. }
  cbn [Rpm.segment_loop].
  assert (Hb : ∀ k : option Z, k = Some (sgn (lexc rtok_cmp (rpmkey a) (rpmkey b))) →
    match a, b with [], [] => Some 0 | _, _ => k end = Some (sgn (lexc rtok_cmp (rpmkey a) (rpmkey b)))).
  { intros k Hk. by destruct a, b. }
  apply Hb. clear Hb.
  pose proof (rpmkey_view a) as Va. pose proof (rpmkey_view b) as Vb. revert La Lb Va Vb Hf.
  generalize (skip Rpm.CompareSep a) (rpmkey a) (skip Rpm.CompareSep b) (rpmkey b).
  generalize (List.length a) (List.length b). clear a b.
  intros na nb sa ka sb kb La Lb Va Vb Hf.
  assert (An : ∀ c ds, digits (c :: ds) → isAlphanumeric c = true).
  { intros c ds [Hc _]%Forall_cons. unfold isAlphanumeric. by rewrite Hc. }
  assert (Al : ∀ c ls, Forall (λ c, isLetter c = true) (c :: ls) → isAlphanumeric c = true ∧ isDigit c = false).
  { intros c ls [Hc _]%Forall_cons. unfold isAlphanumeric. rewrite Hc, orb_true_r. split; [done|].
    destruct (isDigit c) eqn:E; [apply digit_not_letter in E; congruence|done]. }
  assert (Next : ∀ x y, (S (List.length x) ≤ na)%nat → (List.length y ≤ nb)%nat →
            Rpm.segment_loop fuel x y = Some (sgn (lexc rtok_cmp (rpmkey x) (rpmkey y)))).
  { intros x y Hx Hy. apply IH. lia. }
  clear IH. destruct Va as [|ta|ta|ca dsa ra Da Ra|ca lsa ra Da Ra], Vb as [|tb|tb|cb dsb rb Db Rb|cb lsb rb Db Rb].
  all: rewrite rpm_cmp_head; cbn [app] in *.
  all: try (pose proof (An _ _ Da)); try (pose proof (An _ _ Db)).
  all: try (destruct (Al _ _ Da) as [? Ala]); try (destruct (Al _ _ Db) as [? Alb]).
  all: autorewrite with rpm; try reflexivity.
  all: cbn [negb orb tl List.length] in *.
  - rewrite (cmp_refl rtok_cmp). apply Next; lia.
  - rewrite (cmp_refl rtok_cmp). apply Next; lia.
  - apply Forall_cons in Da as Hca. rewrite (proj1 Hca).
    rewrite (app_comm_cons dsa), (app_comm_cons dsb), !run_app by done. cbn [andb].
    rewrite (numbers_compare (ca :: dsa) (cb :: dsb)) by done. unfold rtok_cmp at 1. cbn [rrank ralpha rnum].
    destruct (value 0 (ca :: dsa) ?= value 0 (cb :: dsb)); try reflexivity.
    apply Next; rewrite length_app in *; lia.
  - apply Forall_cons in Da as Hca. rewrite (proj1 Hca).
    rewrite (app_comm_cons dsa), run_app by done. cbn [run]. by rewrite Alb.
  - apply Forall_cons in Db as Hcb. rewrite Ala.
    rewrite (app_comm_cons lsa), run_app by done. cbn [run].
    by rewrite (digit_not_letter cb (proj1 Hcb)).
  - rewrite Ala, (app_comm_cons lsa), (app_comm_cons lsb), !run_app by done. cbn [andb].
    unfold rtok_cmp at 1, Compare. cbn [rrank ralpha rnum].
    destruct (bytes_cmp (ca :: lsa) (cb :: lsb)); try reflexivity.
    apply Next; rewrite length_app in *; lia.
Qed.

(** The comparison of RPM segments always returns, and what it returns is
    the order of their keys: separators aside, a tilde before the end, the end
    before a caret, a caret before letters, letters before numbers, letters as
    bytes and numbers by value. *)
Theorem CompareRPMSegment_is_key_order a b :
  Rpm.CompareRPMSegment a b = Some (sgn (lexc rtok_cmp (rpmkey a) (rpmkey b))).
Proof. apply segment_loop_spec. lia. Qed.

(** The order of whole versions that name a release. *)
Definition evr_cmp (a b : bytes) : comparison :=
  let '(ea, va, ra) := Rpm.splitEVR a in
  let '(eb, vb, rb) := Rpm.splitEVR b in
  thenc (lexc rtok_cmp (rpmkey ea) (rpmkey eb))
    (thenc (lexc rtok_cmp (rpmkey va) (rpmkey vb)) (lexc rtok_cmp (rpmkey ra) (rpmkey rb))).

Lemma evr_cmp_order : TotalOrder evr_cmp.
Proof.
  assert (T : TotalOrder (λ x y : bytes * bytes * bytes,
    thenc (lexc rtok_cmp (rpmkey x.1.1) (rpmkey y.1.1))
      (thenc (lexc rtok_cmp (rpmkey x.1.2) (rpmkey y.1.2)) (lexc rtok_cmp (rpmkey x.2) (rpmkey y.2))))).
  { apply thenc_order; [apply (key_order (λ x : bytes * bytes * bytes, rpmkey x.1.1)), _|].
    apply thenc_order; [apply (key_order (λ x : bytes * bytes * bytes, rpmkey x.1.2)), _|].
    apply (key_order (λ x : bytes * bytes * bytes, rpmkey x.2)), _. }
  apply (key_order Rpm.splitEVR) in T. unfold evr_cmp. split; intros *.
  - pose proof (cmp_swap _ (TotalOrder := T) x y) as Hs. cbn in Hs.
    destruct (Rpm.splitEVR x) as [[? ?] ?], (Rpm.splitEVR y) as [[? ?] ?]. exact Hs.
  - pose proof (cmp_le_trans _ (TotalOrder := T) x y z) as Hs. cbn in Hs.
    destruct (Rpm.splitEVR x) as [[? ?] ?], (Rpm.splitEVR y) as [[? ?] ?], (Rpm.splitEVR z) as [[? ?] ?].
    exact Hs.
Qed.

(** Whether a version names a release. *)
Definition released (a : bytes) : Prop := (Rpm.splitEVR a).2 ≠ [].

Lemma CompareRPM_released a b :
  released a → released b → Rpm.CompareRPM a b = Some (sgn (evr_cmp a b)).
Proof.
  unfold released, Rpm.CompareRPM, evr_cmp, Rpm.CompareRPMSegment.
  destruct (Rpm.splitEVR a) as [[ea va] ra], (Rpm.splitEVR b) as [[eb vb] rb]. cbn [snd].
  intros Ha Hb. rewrite !segment_loop_spec by lia. rewrite !(bool_decide_eq_false_2 (_ = [])) by done.
  destruct (lexc rtok_cmp (rpmkey ea) (rpmkey eb)); cbn; [|done..].
  destruct (lexc rtok_cmp (rpmkey va) (rpmkey vb)); cbn; done.
Qed.

(** among versions that name their release the RPM order is a total
    preorder: swapping swaps the sign and "not newer" is transitive. *)
Theorem CompareRPM_total_preorder a b c :
  released a → released b → released c →
  ∃ x y z, Rpm.CompareRPM a b = Some x ∧ Rpm.CompareRPM b c = Some y ∧ Rpm.CompareRPM a c = Some z
    ∧ Rpm.CompareRPM b a = Some (- x)
    ∧ (x ≤ 0 → y ≤ 0 → z ≤ 0) ∧ (x = 0 → y = 0 → z = 0) ∧ (x < 0 → y ≤ 0 → z < 0).
Proof.
  intros Ha Hb Hc. pose proof evr_cmp_order as T. rewrite !CompareRPM_released by done. do 3 eexists.
  split_and!; [done..| | | |].
  - by rewrite (cmp_swap _ a b), sgn_swap.
  - rewrite !sgn_le. apply (cmp_le_trans evr_cmp).
  - rewrite !sgn_zero. apply (cmp_eq_trans evr_cmp).
  - rewrite sgn_le. intros H1 H2. rewrite (cmp_lt_le_trans evr_cmp a b c); [done| |done].
    by destruct (evr_cmp a b).
Qed.

Lemma CompareRPM_total_preorder_witness :
  ∃ x y z, Rpm.CompareRPM (sbytes "1.0~rc1-1") (sbytes "1.0-1") = Some x
    ∧ Rpm.CompareRPM (sbytes "1.0-1") (sbytes "1.0^git1-1") = Some y
    ∧ Rpm.CompareRPM (sbytes "1.0~rc1-1") (sbytes "1.0^git1-1") = Some z
    ∧ Rpm.CompareRPM (sbytes "1.0-1") (sbytes "1.0~rc1-1") = Some (- x)
    ∧ (x ≤ 0 → y ≤ 0 → z ≤ 0) ∧ (x = 0 → y = 0 → z = 0) ∧ (x < 0 → y ≤ 0 → z < 0).
Proof. apply CompareRPM_total_preorder; vm_compute; discriminate. Defined.

(** with a version that names no release the relation is no order: it is
    equal to two versions of which one is older than the other. *)
Theorem CompareRPM_without_release_not_transitive :
  Rpm.CompareRPM (sbytes "2.4-1") (sbytes "2.4") = Some 0
  ∧ Rpm.CompareRPM (sbytes "2.4") (sbytes "2.4-2") = Some 0
  ∧ Rpm.CompareRPM (sbytes "2.4-1") (sbytes "2.4-2") = Some (-1).
Proof. vm_compute. repeat split. Qed.
