(* ===== verification/Actions.v ===== *)
(** * Actions: the vocabulary of the operation registry

    The string types of src/internal/opspec and their constants: the
    operations, the risk levels, the lock classes, the campaign modes, what a
    cancel, a retry and a rollback mean, the verifiers and the offline
    policies. *)
From S2P Require Import Prelude.

Open Scope string_scope.

(** ** Operations *)

Definition ActionType : Type := string.
Definition ActionUnitStart : ActionType := "unit.start".
Definition ActionUnitStop : ActionType := "unit.stop".
Definition ActionUnitRestart : ActionType := "unit.restart".
Definition ActionUnitReload : ActionType := "unit.reload".
Definition ActionUnitResetFailed : ActionType := "unit.reset_failed".
Definition ActionReadJournal : ActionType := "journal.read".
Definition ActionReadLogFile : ActionType := "logfile.read".
Definition ActionFollowJournal : ActionType := "journal.follow".
Definition ActionProcessList : ActionType := "process.list".
Definition ActionProcessSignal : ActionType := "process.signal".
Definition ActionNetworkPlan : ActionType := "network.plan".
Definition ActionNetworkProfileApply : ActionType := "network.profile.apply".
Definition ActionNetworkRouteEnsure : ActionType := "network.route.ensure".
Definition ActionNetworkMTUSet : ActionType := "network.mtu.set".
Definition ActionNetworkRollback : ActionType := "network.rollback".
Definition ActionNetworkLinkApply : ActionType := "network.link.apply".
Definition ActionNetworkLinkRemove : ActionType := "network.link.remove".
Definition ActionDNSResolveTest : ActionType := "dns.resolve.test".
Definition ActionDNSPlan : ActionType := "dns.plan".
Definition ActionDNSHostApply : ActionType := "dns.host.apply".
Definition ActionFirewallPlan : ActionType := "firewall.plan".
Definition ActionFirewallRuleEnsure : ActionType := "firewall.rule.ensure".
Definition ActionFirewallRuleRemove : ActionType := "firewall.rule.remove".
Definition ActionFirewallZonePort : ActionType := "firewall.zone.port".
Definition ActionFirewallZoneService : ActionType := "firewall.zone.service".
Definition ActionFirewallRulesetRestore : ActionType := "firewall.ruleset.restore".
Definition ActionStoragePlan : ActionType := "storage.plan".
Definition ActionMountEnsure : ActionType := "mount.ensure".
Definition ActionMountRemove : ActionType := "mount.remove".
Definition ActionFilesystemCheck : ActionType := "filesystem.check".
Definition ActionLVMExtend : ActionType := "lvm.extend".
Definition ActionFilesystemResize : ActionType := "filesystem.resize".
Definition ActionFilesystemCreate : ActionType := "filesystem.create".
Definition ActionDiskWipe : ActionType := "disk.wipe".
Definition ActionStorageSmartRead : ActionType := "storage.smart.read".
Definition ActionRAIDMemberFail : ActionType := "raid.member.fail".
Definition ActionRAIDMemberRemove : ActionType := "raid.member.remove".
Definition ActionRAIDMemberAdd : ActionType := "raid.member.add".
Definition ActionLVMVolumeCreate : ActionType := "lvm.volume.create".
Definition ActionLVMVolumeRemove : ActionType := "lvm.volume.remove".
Definition ActionLVMGroupExtend : ActionType := "lvm.group.extend".
Definition ActionLVMSnapshotCreate : ActionType := "lvm.snapshot.create".
Definition ActionLVMSnapshotRemove : ActionType := "lvm.snapshot.remove".
Definition ActionSSHConfigPlan : ActionType := "ssh.config.plan".
Definition ActionSSHConfigApply : ActionType := "ssh.config.apply".
Definition ActionSSHHostKeyRotate : ActionType := "ssh.hostkey.rotate".
Definition ActionSecurityScan : ActionType := "security.scan".
Definition ActionSELinuxModeSet : ActionType := "selinux.mode.set".
Definition ActionSecurityRemediate : ActionType := "security.remediate".
Definition ActionAuditRulesReload : ActionType := "security.audit.reload".
Definition ActionCertificateScan : ActionType := "certificate.scan".
Definition ActionCertificatePlan : ActionType := "certificate.plan".
Definition ActionCertificateTrustPlan : ActionType := "certificate.trust.plan".
Definition ActionCertificateTrustEnsure : ActionType := "certificate.trust.ensure".
Definition ActionCertificateTrustRemove : ActionType := "certificate.trust.remove".
Definition ActionCertificateDeploy : ActionType := "certificate.deploy".
Definition ActionCertificateRenew : ActionType := "certificate.renew".
Definition ActionTimeSyncTest : ActionType := "time.sync.test".
Definition ActionTimePlan : ActionType := "time.plan".
Definition ActionTimeConfigApply : ActionType := "time.config.apply".
Definition ActionTimezoneSet : ActionType := "time.timezone.set".
Definition ActionSysctlPlan : ActionType := "sysctl.plan".
Definition ActionSysctlEnsure : ActionType := "sysctl.ensure".
Definition ActionKernelModuleLoad : ActionType := "kernel.module.load".
Definition ActionKernelModulePlan : ActionType := "kernel.module.plan".
Definition ActionKernelModuleBlacklist : ActionType := "kernel.module.blacklist".
Definition ActionFileRead : ActionType := "file.read".
Definition ActionFilePlan : ActionType := "file.plan".
Definition ActionFileEnsure : ActionType := "file.ensure".
Definition ActionFileRemove : ActionType := "file.remove".
Definition ActionFileRollback : ActionType := "file.rollback".
Definition ActionScheduleEnsure : ActionType := "schedule.ensure".
Definition ActionScheduleDisable : ActionType := "schedule.disable".
Definition ActionScheduleRemove : ActionType := "schedule.remove".
Definition ActionScheduleRunNow : ActionType := "schedule.run_now".
Definition ActionSchedulePreview : ActionType := "schedule.preview".
Definition ActionPackageList : ActionType := "packages.list".
Definition ActionPackagePlan : ActionType := "packages.plan".
Definition ActionPackageUpgrade : ActionType := "packages.upgrade".
Definition ActionPackageRepair : ActionType := "packages.repair".
Definition ActionPackageInstall : ActionType := "packages.install".
Definition ActionPackageRemove : ActionType := "packages.remove".
Definition ActionPackageHoldSet : ActionType := "packages.hold.set".
Definition ActionRepositorySet : ActionType := "packages.repository.set".
Definition ActionAgentUpgrade : ActionType := "agent.upgrade".
Definition ActionMonitoringProbe : ActionType := "monitoring.probe.run".
Definition ActionBackupPlan : ActionType := "backup.plan".
Definition ActionBackupRun : ActionType := "backup.run".
Definition ActionBackupVerify : ActionType := "backup.verify".
Definition ActionBackupRestore : ActionType := "backup.restore".
Definition ActionSystemReboot : ActionType := "system.reboot".
Definition ActionSystemShutdown : ActionType := "system.shutdown".
Definition ActionHostFinalWipe : ActionType := "host.final_wipe".
Definition ActionSystemHostnameSet : ActionType := "system.hostname.set".
Definition ActionUnitStatus : ActionType := "unit.status".
Definition ActionUnitEnableSet : ActionType := "unit.enable.set".
Definition ActionUnitMaskSet : ActionType := "unit.mask.set".
Definition ActionDomainEnroll : ActionType := "identity.host.enroll".
Definition ActionDomainPreflight : ActionType := "identity.host.preflight".
Definition ActionDomainLeave : ActionType := "identity.host.leave".
Definition ActionIdentityKeytabRenew : ActionType := "identity.keytab.renew".
Definition ActionLocalUserCreate : ActionType := "localuser.create".
Definition ActionLocalUserLock : ActionType := "localuser.lock".
Definition ActionLocalUserUnlock : ActionType := "localuser.unlock".
Definition ActionLocalSSHKeysAdd : ActionType := "localuser.sshkeys.add".
Definition ActionLocalSSHKeysRemove : ActionType := "localuser.sshkeys.remove".
Definition ActionLocalSSHKeysReplaceAll : ActionType := "localuser.sshkeys.replace_all".
Definition ActionLocalSSHKeysSet : ActionType := "localuser.sshkeys.set".
Definition ActionLocalUserGroupsSet : ActionType := "localuser.groups.set".
Definition ActionLocalUserExpirySet : ActionType := "localuser.expiry.set".
Definition ActionLocalUserDelete : ActionType := "localuser.delete".
Definition ActionInventoryRefresh : ActionType := "inventory.refresh".
Definition ActionDockerRead : ActionType := "docker.read".
Definition ActionDockerStart : ActionType := "docker.container.start".
Definition ActionDockerStop : ActionType := "docker.container.stop".
Definition ActionDockerRestart : ActionType := "docker.container.restart".
Definition ActionDockerRemove : ActionType := "docker.container.remove".
Definition ActionDockerPull : ActionType := "docker.image.pull".
Definition ActionDockerPrune : ActionType := "docker.prune".
Definition ActionDockerEvents : ActionType := "docker.events".
Definition ActionDockerLogs : ActionType := "docker.container.logs".
Definition ActionDockerPlan : ActionType := "docker.plan".
Definition ActionDockerContainerEnsure : ActionType := "docker.container.ensure".
Definition ActionDockerNetworkEnsure : ActionType := "docker.network.ensure".
Definition ActionDockerNetworkRemove : ActionType := "docker.network.remove".
Definition ActionDockerVolumeEnsure : ActionType := "docker.volume.ensure".
Definition ActionDockerVolumeRemove : ActionType := "docker.volume.remove".
Definition ActionComposePlan : ActionType := "docker.compose.plan".
Definition ActionComposeDeploy : ActionType := "docker.compose.deploy".

(** ** Risk *)

Definition RiskLevel : Type := string.
Definition RiskLow : RiskLevel := "low".
Definition RiskMedium : RiskLevel := "medium".
Definition RiskHigh : RiskLevel := "high".
Definition RiskCritical : RiskLevel := "critical".
Definition RiskDestructive : RiskLevel := "destructive".

(** ** Lock classes *)

Definition LockClassName : Type := string.
Definition LockNone : LockClassName := "".
Definition LockPackages : LockClassName := "packages".
Definition LockUnits : LockClassName := "units".
Definition LockContainers : LockClassName := "containers".
Definition LockIdentity : LockClassName := "identity".
Definition LockAccounts : LockClassName := "accounts".
Definition LockNetwork : LockClassName := "network".
Definition LockStorage : LockClassName := "storage".
Definition LockBackup : LockClassName := "backup".
Definition LockCertificates : LockClassName := "certificates".
Definition LockHost : LockClassName := "host".

(** ** Campaign modes *)

Definition CampaignModeName : Type := string.
Definition CampaignNone : CampaignModeName := "none".
Definition CampaignSamePayload : CampaignModeName := "same_payload".
Definition CampaignPerHostPlan : CampaignModeName := "per_host_plan".
Definition CampaignSpecialized : CampaignModeName := "specialized".

(** ** Cancel *)

Definition CancelMode : Type := string.
Definition CancelSafe : CancelMode := "safe".
Definition CancelCheckpointOnly : CancelMode := "checkpoint_only".
Definition CancelImpossibleAfterStart : CancelMode := "impossible_after_start".
Definition CancelLocalWatchdogOwned : CancelMode := "local_watchdog_owned".

(** ** Rollback *)

Definition RollbackClass : Type := string.
Definition RollbackAutomaticLocal : RollbackClass := "automatic_local".
Definition RollbackExactRestore : RollbackClass := "exact_restore".
Definition RollbackCompensating : RollbackClass := "compensating".
Definition RollbackBestEffort : RollbackClass := "best_effort".
Definition RollbackNone : RollbackClass := "none".

(** ** Verification *)

Definition Verification : Type := string.
Definition VerifyNone : Verification := "none".
Definition VerifyUnitHealth : Verification := "unit_health".
Definition VerifyConnectivity : Verification := "connectivity".
Definition VerifyPlanRecheck : Verification := "plan_recheck".
Definition VerifyCustom : Verification := "custom".

(** ** Claims *)

Definition ClaimMode : Type := string.
Definition ClaimShared : ClaimMode := "shared".
Definition ClaimExclusive : ClaimMode := "exclusive".

(** ** Claim classes *)

Definition ClaimClass : Type := string.
Definition ClaimHost : ClaimClass := "host".
Definition ClaimKernel : ClaimClass := "kernel".
Definition ClaimSecurity : ClaimClass := "security".
Definition ClaimFile : ClaimClass := "file".
Definition ClaimLogsRead : ClaimClass := "logs-read".
Definition ClaimInventoryHeavy : ClaimClass := "inventory-heavy".

(** ** Retry *)

Definition RetryPolicy : Type := string.
Definition RetryNever : RetryPolicy := "never".
Definition RetryAutomatic : RetryPolicy := "automatic".
Definition RetryAfterChange : RetryPolicy := "after_change".
Definition RetryAfterReplan : RetryPolicy := "after_replan".
Definition RetryReadState : RetryPolicy := "read_state".

(** ** Verifiers *)

Definition VerifierName : Type := string.
Definition VerifierNone : VerifierName := "none".
Definition VerifierUnitState : VerifierName := "unit_state".
Definition VerifierScheduleEntry : VerifierName := "schedule_entry".
Definition VerifierPackageVersions : VerifierName := "package_versions".
Definition VerifierPackageHold : VerifierName := "package_hold".
Definition VerifierPackageDatabase : VerifierName := "package_database".
Definition VerifierRepository : VerifierName := "repository".
Definition VerifierFileContent : VerifierName := "file_content".
Definition VerifierMountState : VerifierName := "mount_state".
Definition VerifierStorageLayout : VerifierName := "storage_layout".
Definition VerifierHostname : VerifierName := "hostname".
Definition VerifierSysctl : VerifierName := "sysctl".
Definition VerifierKernelModule : VerifierName := "kernel_module".
Definition VerifierSSHDConfig : VerifierName := "sshd_config".
Definition VerifierSSHHostKey : VerifierName := "ssh_host_key".
Definition VerifierResolver : VerifierName := "resolver".
Definition VerifierTimeSource : VerifierName := "time_source".
Definition VerifierTimezone : VerifierName := "timezone".
Definition VerifierNetworkState : VerifierName := "network_state".
Definition VerifierFirewallRuleset : VerifierName := "firewall_ruleset".
Definition VerifierMACMode : VerifierName := "mac_mode".
Definition VerifierAuditRules : VerifierName := "audit_rules".
Definition VerifierTrustAnchor : VerifierName := "trust_anchor".
Definition VerifierCertificate : VerifierName := "certificate".
Definition VerifierLocalAccount : VerifierName := "local_account".
Definition VerifierContainerState : VerifierName := "container_state".
Definition VerifierImagePresent : VerifierName := "image_present".
Definition VerifierComposeServices : VerifierName := "compose_services".
Definition VerifierContainerSpec : VerifierName := "container_spec".
Definition VerifierDockerNetwork : VerifierName := "docker_network".
Definition VerifierDockerVolume : VerifierName := "docker_volume".
Definition VerifierBackupRun : VerifierName := "backup_run".
Definition VerifierRestoreTarget : VerifierName := "restore_target".
Definition VerifierDomainMembership : VerifierName := "domain_membership".
Definition VerifierKeytab : VerifierName := "keytab".
Definition VerifierReboot : VerifierName := "reboot".
Definition VerifierAgentVersion : VerifierName := "agent_version".

(** ** Unverified changes *)

Definition UnverifiedPolicy : Type := string.
Definition UnverifiedReport : UnverifiedPolicy := "report".
Definition UnverifiedRollback : UnverifiedPolicy := "rollback".

(** ** Offline policies *)

Definition OfflinePolicyName : Type := string.
Definition OfflineRequireOnline : OfflinePolicyName := "require_online".
Definition OfflineSkip : OfflinePolicyName := "skip_if_offline".
Definition OfflineWait : OfflinePolicyName := "wait_until_deadline".
Definition OfflineReplan : OfflinePolicyName := "replan_on_reconnect".
