(* ===== verification/ActionTables.v ===== *)
(** * ActionTables: the tables of the operation registry

    Every table of src/internal/opspec as an association list in the order of
    the source: what each operation is, what is declared about one under way,
    where it may run in bulk, what happens with an offline host. A Go map is
    read by key only, or its keys are sorted first, so the order of the rows
    carries nothing. *)
From coqutil Require Import Datatypes.RecordSetters.
From S2P Require Import Prelude Actions.
Import OCamlLikeNotations.

Open Scope Z_scope.

(** A claim an operation takes on a resource of the host. *)
Record ResourceClaim := mkClaim { cl_Class : string; cl_Mode : ClaimMode; cl_Weight : Z }.
Definition exclusive (class : string) : ResourceClaim := mkClaim class ClaimExclusive 1.

(** One row of the registry; [no_spec] is Go's zero value. *)
Record actionSpec := mkSpec {
  s_mutating : bool;
  s_authorized : bool;
  s_capability : string;
  s_permission : string;
  s_timeoutSeconds : Z;
  s_risk : RiskLevel;
  s_lockClass : LockClassName;
  s_maxOutputBytes : Z;
  s_requiresPlan : bool;
  s_verifier : VerifierName;
  s_onUnverified : UnverifiedPolicy;
}.
Definition no_spec : actionSpec := mkSpec false false "" "" 0 "" "" 0 false "" "".

(** One row of the contract table. *)
Record contract := mkContract {
  c_cancel : CancelMode;
  c_retry : RetryPolicy;
  c_rollback : RollbackClass;
  c_verify : Verification;
  c_weight : Z;
  c_extra : list ResourceClaim;
}.
Definition no_contract : contract := mkContract "" "" "" "" 0 [].

(** The registry. *)
Definition actionSpecs_1 : list (ActionType * actionSpec) := [
  (ActionUnitStart, { no_spec with s_mutating := true; s_capability := "systemd";
     s_permission := "unit.start"; s_timeoutSeconds := 120; s_risk := RiskMedium; s_lockClass := LockUnits;
     s_verifier := VerifierUnitState });
  (ActionUnitStop, { no_spec with s_mutating := true; s_capability := "systemd";
     s_permission := "unit.stop"; s_timeoutSeconds := 120; s_risk := RiskHigh; s_lockClass := LockUnits;
     s_verifier := VerifierUnitState });
  (ActionUnitRestart, { no_spec with s_mutating := true; s_capability := "systemd";
     s_permission := "unit.restart"; s_timeoutSeconds := 120; s_risk := RiskHigh; s_lockClass := LockUnits;
     s_verifier := VerifierUnitState });
  (ActionUnitReload, { no_spec with s_mutating := true; s_capability := "systemd";
     s_permission := "unit.reload"; s_timeoutSeconds := 60; s_risk := RiskMedium; s_lockClass := LockUnits;
     s_verifier := VerifierUnitState });
  (ActionUnitResetFailed, { no_spec with s_mutating := true; s_capability := "systemd";
     s_permission := "unit.reset_failed"; s_timeoutSeconds := 60; s_risk := RiskMedium;
     s_lockClass := LockUnits; s_verifier := VerifierUnitState });
  (ActionReadJournal, { no_spec with s_capability := "journald"; s_permission := "journal.read";
     s_timeoutSeconds := 60; s_risk := RiskLow; s_maxOutputBytes := 256 ≪ 10 });
  (ActionScheduleEnsure, { no_spec with s_mutating := true; s_capability := "schedules";
     s_permission := "schedule.write"; s_timeoutSeconds := 60; s_risk := RiskHigh;
     s_lockClass := LockUnits; s_verifier := VerifierScheduleEntry });
  (ActionScheduleDisable, { no_spec with s_mutating := true; s_capability := "schedules";
     s_permission := "schedule.disable"; s_timeoutSeconds := 60; s_risk := RiskMedium;
     s_lockClass := LockUnits; s_verifier := VerifierScheduleEntry });
  (ActionScheduleRemove, { no_spec with s_mutating := true; s_capability := "schedules";
     s_permission := "schedule.remove"; s_timeoutSeconds := 60; s_risk := RiskHigh;
     s_lockClass := LockUnits; s_verifier := VerifierScheduleEntry });
  (ActionScheduleRunNow, { no_spec with s_mutating := true; s_capability := "schedules";
     s_permission := "schedule.run"; s_timeoutSeconds := 900; s_risk := RiskHigh; s_lockClass := LockUnits;
     s_verifier := VerifierNone });
  (ActionSchedulePreview, { no_spec with s_capability := "schedules"; s_permission := "schedule.preview";
     s_timeoutSeconds := 30; s_risk := RiskLow; s_maxOutputBytes := 64 ≪ 10 });
  (ActionNetworkPlan, { no_spec with s_capability := "network"; s_permission := "network.read";
     s_timeoutSeconds := 60; s_risk := RiskLow; s_maxOutputBytes := 256 ≪ 10 });
  (ActionNetworkProfileApply, { no_spec with s_mutating := true; s_capability := "network.write";
     s_permission := "network.write"; s_timeoutSeconds := 300; s_risk := RiskCritical;
     s_lockClass := LockNetwork; s_verifier := VerifierNetworkState });
  (ActionNetworkRouteEnsure, { no_spec with s_mutating := true; s_capability := "network.write";
     s_permission := "network.route.write"; s_timeoutSeconds := 300; s_risk := RiskCritical;
     s_lockClass := LockNetwork; s_verifier := VerifierNetworkState });
  (ActionNetworkMTUSet, { no_spec with s_mutating := true; s_capability := "network.write";
     s_permission := "network.mtu.write"; s_timeoutSeconds := 300; s_risk := RiskHigh;
     s_lockClass := LockNetwork; s_verifier := VerifierNetworkState });
  (ActionNetworkRollback, { no_spec with s_mutating := true; s_capability := "network.write";
     s_permission := "network.rollback"; s_timeoutSeconds := 300; s_risk := RiskHigh;
     s_lockClass := LockNetwork; s_verifier := VerifierNetworkState });
  (ActionNetworkLinkApply, { no_spec with s_mutating := true; s_capability := "network.write";
     s_permission := "network.link.write"; s_timeoutSeconds := 300; s_risk := RiskCritical;
     s_lockClass := LockNetwork; s_verifier := VerifierNetworkState });
  (ActionNetworkLinkRemove, { no_spec with s_mutating := true; s_capability := "network.write";
     s_permission := "network.link.remove"; s_timeoutSeconds := 300; s_risk := RiskCritical;
     s_lockClass := LockNetwork; s_verifier := VerifierNetworkState });
  (ActionDNSResolveTest, { no_spec with s_capability := "dns"; s_permission := "dns.read";
     s_timeoutSeconds := 60; s_risk := RiskLow; s_maxOutputBytes := 64 ≪ 10 });
  (ActionDNSPlan, { no_spec with s_capability := "dns"; s_permission := "dns.plan"; s_timeoutSeconds := 60;
     s_risk := RiskLow; s_maxOutputBytes := 64 ≪ 10 });
  (ActionDNSHostApply, { no_spec with s_mutating := true; s_capability := "dns.write";
     s_permission := "dns.host.write"; s_timeoutSeconds := 300; s_risk := RiskCritical;
     s_lockClass := LockNetwork; s_verifier := VerifierResolver });
  (ActionFirewallPlan, { no_spec with s_capability := "firewall"; s_permission := "firewall.read";
     s_timeoutSeconds := 60; s_risk := RiskLow; s_maxOutputBytes := 512 ≪ 10 });
  (ActionFirewallRuleEnsure, { no_spec with s_mutating := true; s_capability := "firewall.write";
     s_permission := "firewall.write"; s_timeoutSeconds := 300; s_risk := RiskCritical;
     s_lockClass := LockNetwork; s_verifier := VerifierFirewallRuleset });
  (ActionFirewallRuleRemove, { no_spec with s_mutating := true; s_capability := "firewall.write";
     s_permission := "firewall.rule.remove"; s_timeoutSeconds := 300; s_risk := RiskCritical;
     s_lockClass := LockNetwork; s_verifier := VerifierFirewallRuleset });
  (ActionFirewallZonePort, { no_spec with s_mutating := true; s_capability := "firewall.zones";
     s_permission := "firewall.zone.write"; s_timeoutSeconds := 300; s_risk := RiskCritical;
     s_lockClass := LockNetwork; s_verifier := VerifierFirewallRuleset });
  (ActionFirewallZoneService, { no_spec with s_mutating := true; s_capability := "firewall.zones";
     s_permission := "firewall.service.write"; s_timeoutSeconds := 300; s_risk := RiskCritical;
     s_lockClass := LockNetwork; s_verifier := VerifierFirewallRuleset });
  (ActionFirewallRulesetRestore, { no_spec with s_mutating := true; s_capability := "firewall.write";
     s_permission := "firewall.restore"; s_timeoutSeconds := 300; s_risk := RiskCritical;
     s_lockClass := LockNetwork; s_verifier := VerifierFirewallRuleset });
  (ActionStoragePlan, { no_spec with s_capability := "storage"; s_permission := "storage.read";
     s_timeoutSeconds := 120; s_risk := RiskLow; s_maxOutputBytes := 512 ≪ 10 });
  (ActionMountEnsure, { no_spec with s_mutating := true; s_capability := "storage";
     s_permission := "storage.mount.write"; s_timeoutSeconds := 300; s_risk := RiskHigh;
     s_lockClass := LockStorage; s_requiresPlan := true; s_verifier := VerifierMountState });
  (ActionMountRemove, { no_spec with s_mutating := true; s_capability := "storage";
     s_permission := "storage.mount.remove"; s_timeoutSeconds := 300; s_risk := RiskHigh;
     s_lockClass := LockStorage; s_requiresPlan := true; s_verifier := VerifierMountState });
  (ActionFilesystemCheck, { no_spec with s_mutating := true; s_capability := "storage";
     s_permission := "storage.fsck"; s_timeoutSeconds := 3600; s_risk := RiskHigh;
     s_lockClass := LockStorage; s_verifier := VerifierStorageLayout });
  (ActionStorageSmartRead, { no_spec with s_capability := "storage"; s_permission := "storage.smart.read";
     s_timeoutSeconds := 120; s_risk := RiskLow; s_lockClass := LockNone; s_maxOutputBytes := 256 ≪ 10 });
  (ActionLVMExtend, { no_spec with s_mutating := true; s_capability := "storage.lvm";
     s_permission := "storage.lvm.write"; s_timeoutSeconds := 900; s_risk := RiskCritical;
     s_lockClass := LockStorage; s_verifier := VerifierStorageLayout });
  (ActionFilesystemResize, { no_spec with s_mutating := true; s_capability := "storage";
     s_permission := "storage.filesystem.write"; s_timeoutSeconds := 1800; s_risk := RiskCritical;
     s_lockClass := LockStorage; s_verifier := VerifierStorageLayout });
  (ActionFilesystemCreate, { no_spec with s_mutating := true; s_capability := "storage";
     s_permission := "storage.destructive"; s_timeoutSeconds := 1800; s_risk := RiskDestructive;
     s_lockClass := LockStorage; s_verifier := VerifierStorageLayout });
  (ActionDiskWipe, { no_spec with s_mutating := true; s_capability := "storage";
     s_permission := "storage.wipe"; s_timeoutSeconds := 1800; s_risk := RiskDestructive;
     s_lockClass := LockStorage; s_verifier := VerifierStorageLayout });
  (ActionRAIDMemberFail, { no_spec with s_mutating := true; s_capability := "storage";
     s_permission := "storage.raid.fail"; s_timeoutSeconds := 300; s_risk := RiskDestructive;
     s_lockClass := LockStorage; s_verifier := VerifierStorageLayout });
  (ActionRAIDMemberRemove, { no_spec with s_mutating := true; s_capability := "storage";
     s_permission := "storage.raid.remove"; s_timeoutSeconds := 300; s_risk := RiskHigh;
     s_lockClass := LockStorage; s_verifier := VerifierStorageLayout });
  (ActionRAIDMemberAdd, { no_spec with s_mutating := true; s_capability := "storage";
     s_permission := "storage.raid.add"; s_timeoutSeconds := 900; s_risk := RiskDestructive;
     s_lockClass := LockStorage; s_verifier := VerifierStorageLayout });
  (ActionLVMVolumeCreate, { no_spec with s_mutating := true; s_capability := "storage.lvm";
     s_permission := "storage.lvm.volume.create"; s_timeoutSeconds := 600; s_risk := RiskHigh;
     s_lockClass := LockStorage; s_verifier := VerifierStorageLayout });
  (ActionLVMVolumeRemove, { no_spec with s_mutating := true; s_capability := "storage.lvm";
     s_permission := "storage.lvm.volume.remove"; s_timeoutSeconds := 600; s_risk := RiskDestructive;
     s_lockClass := LockStorage; s_verifier := VerifierStorageLayout });
  (ActionLVMGroupExtend, { no_spec with s_mutating := true; s_capability := "storage.lvm";
     s_permission := "storage.lvm.group.extend"; s_timeoutSeconds := 900; s_risk := RiskDestructive;
     s_lockClass := LockStorage; s_verifier := VerifierStorageLayout });
  (ActionLVMSnapshotCreate, { no_spec with s_mutating := true; s_capability := "storage.lvm";
     s_permission := "storage.lvm.snapshot.create"; s_timeoutSeconds := 600; s_risk := RiskHigh;
     s_lockClass := LockStorage; s_verifier := VerifierStorageLayout })].
Definition actionSpecs_2 : list (ActionType * actionSpec) := [
  (ActionLVMSnapshotRemove, { no_spec with s_mutating := true; s_capability := "storage.lvm";
     s_permission := "storage.lvm.snapshot.remove"; s_timeoutSeconds := 600; s_risk := RiskHigh;
     s_lockClass := LockStorage; s_verifier := VerifierStorageLayout });
  (ActionSSHConfigPlan, { no_spec with s_capability := "sshd"; s_permission := "ssh.read";
     s_timeoutSeconds := 60; s_risk := RiskLow; s_maxOutputBytes := 128 ≪ 10 });
  (ActionSSHConfigApply, { no_spec with s_mutating := true; s_capability := "sshd";
     s_permission := "ssh.config.write"; s_timeoutSeconds := 300; s_risk := RiskCritical;
     s_lockClass := LockUnits; s_verifier := VerifierSSHDConfig });
  (ActionSSHHostKeyRotate, { no_spec with s_mutating := true; s_capability := "sshd";
     s_permission := "ssh.hostkey.rotate"; s_timeoutSeconds := 300; s_risk := RiskCritical;
     s_lockClass := LockUnits; s_verifier := VerifierSSHHostKey });
  (ActionSecurityScan, { no_spec with s_capability := "security"; s_permission := "security.scan";
     s_timeoutSeconds := 120; s_risk := RiskMedium; s_maxOutputBytes := 512 ≪ 10 });
  (ActionSELinuxModeSet, { no_spec with s_mutating := true; s_capability := "security.mac";
     s_permission := "security.mac.write"; s_timeoutSeconds := 120; s_risk := RiskCritical;
     s_lockClass := LockNone; s_verifier := VerifierMACMode });
  (ActionSecurityRemediate, { no_spec with s_mutating := true; s_capability := "";
     s_permission := "security.remediate"; s_timeoutSeconds := 3600; s_risk := RiskCritical;
     s_lockClass := LockNone; s_verifier := VerifierNone });
  (ActionAuditRulesReload, { no_spec with s_mutating := true; s_capability := "security.audit";
     s_permission := "security.audit.reload"; s_timeoutSeconds := 120; s_risk := RiskMedium;
     s_lockClass := LockUnits; s_verifier := VerifierAuditRules });
  (ActionCertificateScan, { no_spec with s_capability := "certificates";
     s_permission := "certificate.read"; s_timeoutSeconds := 120; s_risk := RiskLow;
     s_maxOutputBytes := 256 ≪ 10 });
  (ActionCertificatePlan, { no_spec with s_capability := "certificates";
     s_permission := "certificate.plan"; s_timeoutSeconds := 120; s_risk := RiskLow;
     s_maxOutputBytes := 256 ≪ 10 });
  (ActionCertificateTrustPlan, { no_spec with s_capability := "certificates";
     s_permission := "certificate.trust.plan"; s_timeoutSeconds := 120; s_risk := RiskLow;
     s_maxOutputBytes := 512 ≪ 10 });
  (ActionCertificateTrustEnsure, { no_spec with s_mutating := true; s_capability := "certificates";
     s_permission := "certificate.trust.write"; s_timeoutSeconds := 300; s_risk := RiskCritical;
     s_lockClass := LockCertificates; s_verifier := VerifierTrustAnchor });
  (ActionCertificateTrustRemove, { no_spec with s_mutating := true; s_capability := "certificates";
     s_permission := "certificate.trust.remove"; s_timeoutSeconds := 300; s_risk := RiskCritical;
     s_lockClass := LockCertificates; s_verifier := VerifierTrustAnchor });
  (ActionCertificateDeploy, { no_spec with s_mutating := true; s_requiresPlan := true;
     s_capability := "certificates"; s_permission := "certificate.deploy"; s_timeoutSeconds := 300;
     s_risk := RiskCritical; s_lockClass := LockUnits; s_verifier := VerifierCertificate });
  (ActionCertificateRenew, { no_spec with s_mutating := true; s_capability := "certificates.renew";
     s_permission := "certificate.renew"; s_timeoutSeconds := 600; s_risk := RiskCritical;
     s_lockClass := LockUnits; s_verifier := VerifierCertificate });
  (ActionTimeSyncTest, { no_spec with s_capability := "time"; s_permission := "time.read";
     s_timeoutSeconds := 60; s_risk := RiskLow; s_maxOutputBytes := 128 ≪ 10 });
  (ActionTimePlan, { no_spec with s_capability := "time"; s_permission := "time.plan";
     s_timeoutSeconds := 60; s_risk := RiskLow; s_maxOutputBytes := 256 ≪ 10 });
  (ActionTimeConfigApply, { no_spec with s_mutating := true; s_capability := "time";
     s_permission := "time.write"; s_timeoutSeconds := 300; s_risk := RiskHigh; s_lockClass := LockUnits;
     s_verifier := VerifierTimeSource });
  (ActionTimezoneSet, { no_spec with s_mutating := true; s_capability := "time";
     s_permission := "time.timezone.write"; s_timeoutSeconds := 120; s_risk := RiskMedium;
     s_lockClass := LockNone; s_verifier := VerifierTimezone });
  (ActionSysctlPlan, { no_spec with s_capability := "kernel"; s_permission := "kernel.read";
     s_timeoutSeconds := 120; s_risk := RiskLow; s_maxOutputBytes := 256 ≪ 10 });
  (ActionSysctlEnsure, { no_spec with s_mutating := true; s_capability := "kernel";
     s_permission := "kernel.sysctl.write"; s_timeoutSeconds := 300; s_risk := RiskHigh;
     s_lockClass := LockNone; s_verifier := VerifierSysctl; s_onUnverified := UnverifiedRollback });
  (ActionKernelModuleLoad, { no_spec with s_mutating := true; s_capability := "kernel";
     s_permission := "kernel.module.write"; s_timeoutSeconds := 300; s_risk := RiskHigh;
     s_lockClass := LockNone; s_verifier := VerifierKernelModule });
  (ActionKernelModulePlan, { no_spec with s_capability := "kernel"; s_permission := "kernel.module.plan";
     s_timeoutSeconds := 60; s_risk := RiskLow; s_maxOutputBytes := 256 ≪ 10 });
  (ActionKernelModuleBlacklist, { no_spec with s_mutating := true; s_capability := "kernel";
     s_permission := "kernel.module.blacklist"; s_timeoutSeconds := 300; s_risk := RiskCritical;
     s_lockClass := LockNone; s_verifier := VerifierKernelModule });
  (ActionFileRead, { no_spec with s_capability := "files.managed"; s_permission := "file.read";
     s_timeoutSeconds := 60; s_risk := RiskHigh; s_maxOutputBytes := 1 ≪ 20 });
  (ActionFilePlan, { no_spec with s_capability := "files.managed"; s_permission := "file.plan";
     s_timeoutSeconds := 60; s_risk := RiskLow; s_maxOutputBytes := 256 ≪ 10 });
  (ActionFileEnsure, { no_spec with s_mutating := true; s_capability := "files.managed";
     s_permission := "file.write"; s_timeoutSeconds := 120; s_risk := RiskCritical;
     s_lockClass := LockNone; s_verifier := VerifierFileContent; s_onUnverified := UnverifiedRollback });
  (ActionFileRemove, { no_spec with s_mutating := true; s_capability := "files.managed";
     s_permission := "file.remove"; s_timeoutSeconds := 120; s_risk := RiskCritical;
     s_lockClass := LockNone; s_verifier := VerifierFileContent });
  (ActionFileRollback, { no_spec with s_mutating := true; s_capability := "files.managed";
     s_permission := "file.rollback"; s_timeoutSeconds := 120; s_risk := RiskCritical;
     s_lockClass := LockNone; s_verifier := VerifierFileContent; s_onUnverified := UnverifiedRollback });
  (ActionProcessList, { no_spec with s_capability := ""; s_permission := "process.read";
     s_timeoutSeconds := 60; s_risk := RiskLow; s_maxOutputBytes := 1 ≪ 20 });
  (ActionProcessSignal, { no_spec with s_mutating := true; s_capability := "";
     s_permission := "process.signal"; s_timeoutSeconds := 30; s_risk := RiskHigh; s_verifier := VerifierNone });
  (ActionFollowJournal, { no_spec with s_capability := "journald"; s_permission := "journal.follow";
     s_timeoutSeconds := 300; s_risk := RiskMedium; s_maxOutputBytes := 1 ≪ 20 });
  (ActionReadLogFile, { no_spec with s_capability := ""; s_permission := "logfile.read";
     s_timeoutSeconds := 60; s_risk := RiskMedium; s_maxOutputBytes := 1 ≪ 20 });
  (ActionPackageList, { no_spec with s_capability := "packages"; s_permission := "packages.read";
     s_timeoutSeconds := 300; s_risk := RiskLow; s_maxOutputBytes := 8 ≪ 20 })].
Definition actionSpecs_3 : list (ActionType * actionSpec) := [
  (ActionPackagePlan, { no_spec with s_capability := "packages"; s_permission := "packages.plan";
     s_timeoutSeconds := 300; s_risk := RiskLow; s_lockClass := LockPackages });
  (ActionPackageUpgrade, { no_spec with s_mutating := true; s_capability := "packages";
     s_permission := "packages.upgrade"; s_timeoutSeconds := 1800; s_risk := RiskHigh;
     s_lockClass := LockPackages; s_requiresPlan := true; s_verifier := VerifierPackageVersions });
  (ActionAgentUpgrade, { no_spec with s_mutating := true; s_capability := "packages";
     s_permission := "agent.upgrade"; s_timeoutSeconds := 1800; s_risk := RiskHigh;
     s_lockClass := LockPackages; s_verifier := VerifierAgentVersion });
  (ActionPackageRepair, { no_spec with s_mutating := true; s_capability := "packages.repair";
     s_permission := "packages.repair"; s_timeoutSeconds := 1800; s_risk := RiskCritical;
     s_lockClass := LockPackages; s_verifier := VerifierPackageDatabase });
  (ActionPackageInstall, { no_spec with s_mutating := true; s_capability := "packages";
     s_permission := "packages.install"; s_timeoutSeconds := 1800; s_risk := RiskHigh;
     s_lockClass := LockPackages; s_requiresPlan := true; s_verifier := VerifierPackageVersions });
  (ActionPackageRemove, { no_spec with s_mutating := true; s_capability := "packages";
     s_permission := "packages.remove"; s_timeoutSeconds := 1800; s_risk := RiskDestructive;
     s_lockClass := LockPackages; s_requiresPlan := true; s_verifier := VerifierPackageVersions });
  (ActionPackageHoldSet, { no_spec with s_mutating := true; s_capability := "packages";
     s_permission := "packages.hold.write"; s_timeoutSeconds := 120; s_risk := RiskMedium;
     s_lockClass := LockPackages; s_verifier := VerifierPackageHold });
  (ActionMonitoringProbe, { no_spec with s_capability := "monitoring"; s_permission := "monitoring.probe";
     s_timeoutSeconds := 120; s_risk := RiskMedium; s_maxOutputBytes := 64 ≪ 10 });
  (ActionBackupPlan, { no_spec with s_authorized := true; s_capability := "backup";
     s_permission := "backup.read"; s_timeoutSeconds := 600; s_risk := RiskLow; s_lockClass := LockBackup;
     s_maxOutputBytes := 512 ≪ 10 });
  (ActionBackupRun, { no_spec with s_mutating := true; s_capability := "backup";
     s_permission := "backup.run"; s_timeoutSeconds := 7200; s_risk := RiskHigh; s_lockClass := LockBackup;
     s_maxOutputBytes := 512 ≪ 10; s_verifier := VerifierBackupRun });
  (ActionBackupVerify, { no_spec with s_mutating := true; s_capability := "backup";
     s_permission := "backup.verify"; s_timeoutSeconds := 3600; s_risk := RiskMedium;
     s_lockClass := LockBackup; s_maxOutputBytes := 512 ≪ 10; s_verifier := VerifierNone });
  (ActionBackupRestore, { no_spec with s_mutating := true; s_capability := "backup";
     s_permission := "backup.restore"; s_requiresPlan := true; s_timeoutSeconds := 7200;
     s_risk := RiskCritical; s_lockClass := LockBackup; s_maxOutputBytes := 512 ≪ 10;
     s_verifier := VerifierRestoreTarget });
  (ActionRepositorySet, { no_spec with s_mutating := true; s_capability := "packages";
     s_permission := "packages.repository.write"; s_timeoutSeconds := 600; s_risk := RiskCritical;
     s_lockClass := LockPackages; s_verifier := VerifierRepository });
  (ActionSystemReboot, { no_spec with s_mutating := true; s_capability := "systemd";
     s_permission := "system.reboot"; s_timeoutSeconds := 120; s_risk := RiskCritical;
     s_verifier := VerifierReboot });
  (ActionHostFinalWipe, { no_spec with s_mutating := true; s_capability := "systemd";
     s_permission := "host.decommission"; s_timeoutSeconds := 300; s_risk := RiskDestructive;
     s_lockClass := LockIdentity; s_verifier := VerifierNone });
  (ActionSystemShutdown, { no_spec with s_mutating := true; s_capability := "systemd";
     s_permission := "system.shutdown"; s_timeoutSeconds := 120; s_risk := RiskCritical;
     s_lockClass := LockUnits; s_verifier := VerifierReboot });
  (ActionSystemHostnameSet, { no_spec with s_mutating := true; s_capability := "systemd";
     s_permission := "system.hostname.write"; s_timeoutSeconds := 120; s_risk := RiskCritical;
     s_lockClass := LockHost; s_verifier := VerifierHostname });
  (ActionUnitStatus, { no_spec with s_capability := "systemd"; s_permission := "unit.status";
     s_timeoutSeconds := 60; s_risk := RiskLow; s_maxOutputBytes := 1 ≪ 20 });
  (ActionUnitEnableSet, { no_spec with s_mutating := true; s_capability := "systemd";
     s_permission := "unit.enable.write"; s_timeoutSeconds := 60; s_risk := RiskHigh;
     s_lockClass := LockUnits; s_verifier := VerifierUnitState });
  (ActionUnitMaskSet, { no_spec with s_mutating := true; s_capability := "systemd";
     s_permission := "unit.mask.write"; s_timeoutSeconds := 60; s_risk := RiskCritical;
     s_lockClass := LockUnits; s_verifier := VerifierUnitState });
  (ActionDomainEnroll, { no_spec with s_mutating := true; s_capability := "systemd";
     s_permission := "identity.host.enroll"; s_timeoutSeconds := 900; s_risk := RiskCritical;
     s_lockClass := LockIdentity; s_verifier := VerifierDomainMembership });
  (ActionDomainPreflight, { no_spec with s_capability := "systemd"; s_permission := "identity.read";
     s_timeoutSeconds := 120; s_risk := RiskLow; s_lockClass := LockIdentity });
  (ActionDomainLeave, { no_spec with s_mutating := true; s_capability := "systemd";
     s_permission := "identity.host.leave"; s_timeoutSeconds := 900; s_risk := RiskCritical;
     s_lockClass := LockIdentity; s_verifier := VerifierDomainMembership });
  (ActionIdentityKeytabRenew, { no_spec with s_mutating := true; s_capability := "systemd";
     s_permission := "identity.keytab.rotate"; s_timeoutSeconds := 180; s_risk := RiskCritical;
     s_lockClass := LockIdentity; s_verifier := VerifierKeytab });
  (ActionLocalUserCreate, { no_spec with s_mutating := true; s_capability := "";
     s_permission := "localuser.create"; s_timeoutSeconds := 120; s_risk := RiskHigh;
     s_lockClass := LockAccounts; s_verifier := VerifierLocalAccount });
  (ActionLocalUserLock, { no_spec with s_mutating := true; s_capability := "";
     s_permission := "localuser.lock"; s_timeoutSeconds := 60; s_risk := RiskMedium;
     s_lockClass := LockAccounts; s_verifier := VerifierLocalAccount });
  (ActionLocalUserUnlock, { no_spec with s_mutating := true; s_capability := "";
     s_permission := "localuser.unlock"; s_timeoutSeconds := 60; s_risk := RiskHigh;
     s_lockClass := LockAccounts; s_verifier := VerifierLocalAccount });
  (ActionLocalSSHKeysAdd, { no_spec with s_mutating := true; s_capability := "";
     s_permission := "localuser.sshkeys.add"; s_timeoutSeconds := 60; s_risk := RiskHigh;
     s_lockClass := LockAccounts; s_verifier := VerifierLocalAccount });
  (ActionLocalSSHKeysRemove, { no_spec with s_mutating := true; s_capability := "";
     s_permission := "localuser.sshkeys.remove"; s_timeoutSeconds := 60; s_risk := RiskHigh;
     s_lockClass := LockAccounts; s_verifier := VerifierLocalAccount });
  (ActionLocalSSHKeysReplaceAll, { no_spec with s_mutating := true; s_capability := "";
     s_permission := "localuser.sshkeys.replace"; s_timeoutSeconds := 60; s_risk := RiskCritical;
     s_lockClass := LockAccounts; s_verifier := VerifierLocalAccount });
  (ActionLocalSSHKeysSet, { no_spec with s_mutating := true; s_capability := "";
     s_permission := "localuser.sshkeys.write"; s_timeoutSeconds := 60; s_risk := RiskCritical;
     s_lockClass := LockAccounts; s_verifier := VerifierLocalAccount });
  (ActionLocalUserGroupsSet, { no_spec with s_mutating := true; s_capability := "";
     s_permission := "localuser.groups.write"; s_timeoutSeconds := 60; s_risk := RiskHigh;
     s_lockClass := LockAccounts; s_verifier := VerifierLocalAccount });
  (ActionLocalUserExpirySet, { no_spec with s_mutating := true; s_capability := "";
     s_permission := "localuser.expiry.write"; s_timeoutSeconds := 60; s_risk := RiskHigh;
     s_lockClass := LockAccounts; s_verifier := VerifierLocalAccount });
  (ActionLocalUserDelete, { no_spec with s_mutating := true; s_capability := "";
     s_permission := "localuser.delete"; s_timeoutSeconds := 120; s_risk := RiskDestructive;
     s_lockClass := LockAccounts; s_verifier := VerifierLocalAccount });
  (ActionInventoryRefresh, { no_spec with s_permission := "inventory.refresh"; s_timeoutSeconds := 300;
     s_risk := RiskLow; s_lockClass := LockNone; s_maxOutputBytes := 1 ≪ 20 });
  (ActionDockerRead, { no_spec with s_capability := "docker"; s_permission := "docker.read";
     s_timeoutSeconds := 120; s_risk := RiskLow; s_lockClass := LockContainers; s_maxOutputBytes := 4 ≪ 20 });
  (ActionDockerStart, { no_spec with s_mutating := true; s_capability := "docker";
     s_permission := "docker.container.start"; s_timeoutSeconds := 120; s_risk := RiskMedium;
     s_lockClass := LockContainers; s_verifier := VerifierContainerState });
  (ActionDockerStop, { no_spec with s_mutating := true; s_capability := "docker";
     s_permission := "docker.container.stop"; s_timeoutSeconds := 120; s_risk := RiskHigh;
     s_lockClass := LockContainers; s_verifier := VerifierContainerState });
  (ActionDockerRestart, { no_spec with s_mutating := true; s_capability := "docker";
     s_permission := "docker.container.restart"; s_timeoutSeconds := 180; s_risk := RiskHigh;
     s_lockClass := LockContainers; s_verifier := VerifierContainerState })].
Definition actionSpecs_4 : list (ActionType * actionSpec) := [
  (ActionDockerRemove, { no_spec with s_mutating := true; s_capability := "docker";
     s_permission := "docker.container.remove"; s_timeoutSeconds := 120; s_risk := RiskDestructive;
     s_lockClass := LockContainers; s_verifier := VerifierContainerState });
  (ActionDockerPull, { no_spec with s_mutating := true; s_capability := "docker";
     s_permission := "docker.image.pull"; s_timeoutSeconds := 1800; s_risk := RiskMedium;
     s_lockClass := LockContainers; s_verifier := VerifierImagePresent });
  (ActionDockerPrune, { no_spec with s_mutating := true; s_capability := "docker";
     s_permission := "docker.prune"; s_timeoutSeconds := 900; s_risk := RiskDestructive;
     s_lockClass := LockContainers; s_verifier := VerifierNone });
  (ActionDockerEvents, { no_spec with s_capability := "docker"; s_permission := "docker.events";
     s_timeoutSeconds := 180; s_risk := RiskLow; s_lockClass := LockNone; s_maxOutputBytes := 1 ≪ 20 });
  (ActionDockerLogs, { no_spec with s_capability := "docker"; s_permission := "docker.container.logs";
     s_timeoutSeconds := 60; s_risk := RiskLow; s_lockClass := LockNone; s_maxOutputBytes := 1 ≪ 20 });
  (ActionDockerPlan, { no_spec with s_capability := "docker"; s_permission := "docker.plan";
     s_timeoutSeconds := 300; s_risk := RiskLow; s_lockClass := LockContainers; s_maxOutputBytes := 1 ≪ 20 });
  (ActionDockerContainerEnsure, { no_spec with s_mutating := true; s_capability := "docker";
     s_permission := "docker.container.ensure"; s_timeoutSeconds := 1800; s_risk := RiskCritical;
     s_lockClass := LockContainers; s_requiresPlan := true; s_maxOutputBytes := 1 ≪ 20;
     s_verifier := VerifierContainerSpec });
  (ActionDockerNetworkEnsure, { no_spec with s_mutating := true; s_capability := "docker";
     s_permission := "docker.network.ensure"; s_timeoutSeconds := 300; s_risk := RiskMedium;
     s_lockClass := LockContainers; s_requiresPlan := true; s_maxOutputBytes := 1 ≪ 20;
     s_verifier := VerifierDockerNetwork });
  (ActionDockerNetworkRemove, { no_spec with s_mutating := true; s_capability := "docker";
     s_permission := "docker.network.remove"; s_timeoutSeconds := 300; s_risk := RiskDestructive;
     s_lockClass := LockContainers; s_requiresPlan := true; s_maxOutputBytes := 1 ≪ 20;
     s_verifier := VerifierDockerNetwork });
  (ActionDockerVolumeEnsure, { no_spec with s_mutating := true; s_capability := "docker";
     s_permission := "docker.volume.ensure"; s_timeoutSeconds := 300; s_risk := RiskMedium;
     s_lockClass := LockContainers; s_requiresPlan := true; s_maxOutputBytes := 1 ≪ 20;
     s_verifier := VerifierDockerVolume });
  (ActionDockerVolumeRemove, { no_spec with s_mutating := true; s_capability := "docker";
     s_permission := "docker.volume.remove"; s_timeoutSeconds := 300; s_risk := RiskDestructive;
     s_lockClass := LockContainers; s_requiresPlan := true; s_maxOutputBytes := 1 ≪ 20;
     s_verifier := VerifierDockerVolume });
  (ActionComposePlan, { no_spec with s_capability := "docker.compose";
     s_permission := "docker.compose.plan"; s_timeoutSeconds := 300; s_risk := RiskLow;
     s_lockClass := LockContainers; s_maxOutputBytes := 1 ≪ 20 });
  (ActionComposeDeploy, { no_spec with s_mutating := true; s_capability := "docker.compose";
     s_permission := "docker.compose.deploy"; s_timeoutSeconds := 1800; s_risk := RiskCritical;
     s_lockClass := LockContainers; s_requiresPlan := true; s_maxOutputBytes := 1 ≪ 20;
     s_verifier := VerifierComposeServices })].
Definition actionSpecs : list (ActionType * actionSpec) := actionSpecs_1 ++ actionSpecs_2 ++ actionSpecs_3 ++ actionSpecs_4.

(** The declarations for the operations that change a host. *)
Definition contracts_1 : list (ActionType * contract) := [
  (ActionUnitStart, { no_contract with c_cancel := CancelImpossibleAfterStart; c_retry := RetryReadState;
     c_rollback := RollbackCompensating; c_verify := VerifyUnitHealth });
  (ActionUnitStop, { no_contract with c_cancel := CancelImpossibleAfterStart; c_retry := RetryReadState;
     c_rollback := RollbackCompensating; c_verify := VerifyUnitHealth });
  (ActionUnitRestart, { no_contract with c_cancel := CancelImpossibleAfterStart; c_retry := RetryReadState;
     c_rollback := RollbackNone; c_verify := VerifyUnitHealth });
  (ActionUnitReload, { no_contract with c_cancel := CancelImpossibleAfterStart; c_retry := RetryReadState;
     c_rollback := RollbackNone; c_verify := VerifyUnitHealth });
  (ActionUnitEnableSet, { no_contract with c_cancel := CancelImpossibleAfterStart;
     c_retry := RetryReadState; c_rollback := RollbackCompensating; c_verify := VerifyUnitHealth });
  (ActionUnitMaskSet, { no_contract with c_cancel := CancelImpossibleAfterStart; c_retry := RetryReadState;
     c_rollback := RollbackCompensating; c_verify := VerifyUnitHealth });
  (ActionUnitResetFailed, { no_contract with c_cancel := CancelSafe; c_retry := RetryAutomatic;
     c_rollback := RollbackNone; c_verify := VerifyUnitHealth });
  (ActionScheduleEnsure, { no_contract with c_cancel := CancelCheckpointOnly; c_retry := RetryAutomatic;
     c_rollback := RollbackExactRestore; c_verify := VerifyUnitHealth });
  (ActionScheduleDisable, { no_contract with c_cancel := CancelImpossibleAfterStart;
     c_retry := RetryReadState; c_rollback := RollbackExactRestore; c_verify := VerifyUnitHealth });
  (ActionScheduleRemove, { no_contract with c_cancel := CancelImpossibleAfterStart;
     c_retry := RetryReadState; c_rollback := RollbackExactRestore; c_verify := VerifyUnitHealth });
  (ActionScheduleRunNow, { no_contract with c_cancel := CancelImpossibleAfterStart;
     c_retry := RetryReadState; c_rollback := RollbackNone; c_verify := VerifyCustom });
  (ActionNetworkProfileApply, { no_contract with c_cancel := CancelLocalWatchdogOwned;
     c_retry := RetryAfterReplan; c_rollback := RollbackAutomaticLocal; c_verify := VerifyConnectivity });
  (ActionNetworkRouteEnsure, { no_contract with c_cancel := CancelLocalWatchdogOwned;
     c_retry := RetryAfterReplan; c_rollback := RollbackAutomaticLocal; c_verify := VerifyConnectivity });
  (ActionNetworkMTUSet, { no_contract with c_cancel := CancelLocalWatchdogOwned;
     c_retry := RetryAfterReplan; c_rollback := RollbackAutomaticLocal; c_verify := VerifyConnectivity });
  (ActionNetworkRollback, { no_contract with c_cancel := CancelImpossibleAfterStart;
     c_retry := RetryReadState; c_rollback := RollbackNone; c_verify := VerifyConnectivity });
  (ActionNetworkLinkApply, { no_contract with c_cancel := CancelLocalWatchdogOwned;
     c_retry := RetryAfterReplan; c_rollback := RollbackAutomaticLocal; c_verify := VerifyConnectivity });
  (ActionNetworkLinkRemove, { no_contract with c_cancel := CancelLocalWatchdogOwned;
     c_retry := RetryAfterReplan; c_rollback := RollbackAutomaticLocal; c_verify := VerifyConnectivity });
  (ActionDNSHostApply, { no_contract with c_cancel := CancelLocalWatchdogOwned;
     c_retry := RetryAfterReplan; c_rollback := RollbackAutomaticLocal; c_verify := VerifyConnectivity });
  (ActionFirewallRuleEnsure, { no_contract with c_cancel := CancelLocalWatchdogOwned;
     c_retry := RetryAfterReplan; c_rollback := RollbackAutomaticLocal; c_verify := VerifyConnectivity });
  (ActionFirewallRuleRemove, { no_contract with c_cancel := CancelLocalWatchdogOwned;
     c_retry := RetryAfterReplan; c_rollback := RollbackAutomaticLocal; c_verify := VerifyConnectivity });
  (ActionFirewallZonePort, { no_contract with c_cancel := CancelLocalWatchdogOwned;
     c_retry := RetryAfterReplan; c_rollback := RollbackAutomaticLocal; c_verify := VerifyConnectivity });
  (ActionFirewallZoneService, { no_contract with c_cancel := CancelLocalWatchdogOwned;
     c_retry := RetryAfterReplan; c_rollback := RollbackAutomaticLocal; c_verify := VerifyConnectivity });
  (ActionFirewallRulesetRestore, { no_contract with c_cancel := CancelImpossibleAfterStart;
     c_retry := RetryReadState; c_rollback := RollbackNone; c_verify := VerifyConnectivity });
  (ActionMountEnsure, { no_contract with c_cancel := CancelCheckpointOnly; c_retry := RetryAfterReplan;
     c_rollback := RollbackCompensating; c_verify := VerifyPlanRecheck; c_weight := 2 });
  (ActionMountRemove, { no_contract with c_cancel := CancelCheckpointOnly; c_retry := RetryAfterReplan;
     c_rollback := RollbackCompensating; c_verify := VerifyPlanRecheck; c_weight := 2 });
  (ActionFilesystemCheck, { no_contract with c_cancel := CancelImpossibleAfterStart;
     c_retry := RetryReadState; c_rollback := RollbackNone; c_verify := VerifyCustom; c_weight := 3 });
  (ActionLVMExtend, { no_contract with c_cancel := CancelImpossibleAfterStart; c_retry := RetryReadState;
     c_rollback := RollbackNone; c_verify := VerifyPlanRecheck; c_weight := 3 });
  (ActionFilesystemResize, { no_contract with c_cancel := CancelImpossibleAfterStart;
     c_retry := RetryReadState; c_rollback := RollbackNone; c_verify := VerifyPlanRecheck; c_weight := 3 });
  (ActionFilesystemCreate, { no_contract with c_cancel := CancelImpossibleAfterStart;
     c_retry := RetryNever; c_rollback := RollbackNone; c_verify := VerifyCustom; c_weight := 3 });
  (ActionDiskWipe, { no_contract with c_cancel := CancelImpossibleAfterStart; c_retry := RetryNever;
     c_rollback := RollbackNone; c_verify := VerifyCustom; c_weight := 3 });
  (ActionRAIDMemberFail, { no_contract with c_cancel := CancelImpossibleAfterStart;
     c_retry := RetryReadState; c_rollback := RollbackCompensating; c_verify := VerifyCustom; c_weight := 2 });
  (ActionRAIDMemberRemove, { no_contract with c_cancel := CancelImpossibleAfterStart;
     c_retry := RetryReadState; c_rollback := RollbackCompensating; c_verify := VerifyCustom; c_weight := 2 });
  (ActionRAIDMemberAdd, { no_contract with c_cancel := CancelImpossibleAfterStart; c_retry := RetryNever;
     c_rollback := RollbackNone; c_verify := VerifyCustom; c_weight := 3 });
  (ActionLVMVolumeCreate, { no_contract with c_cancel := CancelImpossibleAfterStart;
     c_retry := RetryReadState; c_rollback := RollbackCompensating; c_verify := VerifyCustom; c_weight := 2 });
  (ActionLVMVolumeRemove, { no_contract with c_cancel := CancelImpossibleAfterStart; c_retry := RetryNever;
     c_rollback := RollbackNone; c_verify := VerifyCustom; c_weight := 3 });
  (ActionLVMGroupExtend, { no_contract with c_cancel := CancelImpossibleAfterStart; c_retry := RetryNever;
     c_rollback := RollbackNone; c_verify := VerifyCustom; c_weight := 3 });
  (ActionLVMSnapshotCreate, { no_contract with c_cancel := CancelImpossibleAfterStart;
     c_retry := RetryReadState; c_rollback := RollbackCompensating; c_verify := VerifyCustom; c_weight := 2 });
  (ActionLVMSnapshotRemove, { no_contract with c_cancel := CancelImpossibleAfterStart;
     c_retry := RetryReadState; c_rollback := RollbackNone; c_verify := VerifyCustom; c_weight := 2 });
  (ActionSSHConfigApply, { no_contract with c_cancel := CancelLocalWatchdogOwned;
     c_retry := RetryAfterReplan; c_rollback := RollbackAutomaticLocal; c_verify := VerifyConnectivity });
  (ActionSSHHostKeyRotate, { no_contract with c_cancel := CancelImpossibleAfterStart;
     c_retry := RetryReadState; c_rollback := RollbackNone; c_verify := VerifyCustom });
  (ActionSELinuxModeSet, { no_contract with c_cancel := CancelImpossibleAfterStart;
     c_retry := RetryReadState; c_rollback := RollbackCompensating; c_verify := VerifyCustom;
     c_extra := [exclusive ClaimSecurity] });
  (ActionAuditRulesReload, { no_contract with c_cancel := CancelImpossibleAfterStart;
     c_retry := RetryReadState; c_rollback := RollbackNone; c_verify := VerifyCustom;
     c_extra := [exclusive ClaimSecurity] });
  (ActionSecurityRemediate, { no_contract with c_cancel := CancelCheckpointOnly;
     c_retry := RetryAfterReplan; c_rollback := RollbackBestEffort; c_verify := VerifyCustom });
  (ActionCertificateTrustEnsure, { no_contract with c_cancel := CancelCheckpointOnly;
     c_retry := RetryAfterReplan; c_rollback := RollbackCompensating; c_verify := VerifyPlanRecheck });
  (ActionCertificateTrustRemove, { no_contract with c_cancel := CancelCheckpointOnly;
     c_retry := RetryAfterReplan; c_rollback := RollbackCompensating; c_verify := VerifyPlanRecheck });
  (ActionCertificateDeploy, { no_contract with c_cancel := CancelCheckpointOnly;
     c_retry := RetryAfterReplan; c_rollback := RollbackExactRestore; c_verify := VerifyCustom });
  (ActionCertificateRenew, { no_contract with c_cancel := CancelImpossibleAfterStart;
     c_retry := RetryReadState; c_rollback := RollbackNone; c_verify := VerifyCustom });
  (ActionTimeConfigApply, { no_contract with c_cancel := CancelCheckpointOnly; c_retry := RetryAfterReplan;
     c_rollback := RollbackCompensating; c_verify := VerifyPlanRecheck });
  (ActionTimezoneSet, { no_contract with c_cancel := CancelImpossibleAfterStart; c_retry := RetryReadState;
     c_rollback := RollbackCompensating; c_verify := VerifyCustom; c_extra := [exclusive LockUnits] });
  (ActionSysctlEnsure, { no_contract with c_cancel := CancelImpossibleAfterStart;
     c_retry := RetryReadState; c_rollback := RollbackCompensating; c_verify := VerifyCustom;
     c_extra := [exclusive ClaimKernel; exclusive LockNetwork] });
  (ActionKernelModuleLoad, { no_contract with c_cancel := CancelImpossibleAfterStart;
     c_retry := RetryReadState; c_rollback := RollbackCompensating; c_verify := VerifyCustom;
     c_extra := [exclusive ClaimKernel; exclusive LockNetwork] });
  (ActionKernelModuleBlacklist, { no_contract with c_cancel := CancelCheckpointOnly;
     c_retry := RetryAfterReplan; c_rollback := RollbackCompensating; c_verify := VerifyPlanRecheck;
     c_extra := [exclusive ClaimKernel; exclusive LockNetwork] });
  (ActionFileEnsure, { no_contract with c_cancel := CancelCheckpointOnly; c_retry := RetryAfterReplan;
     c_rollback := RollbackExactRestore; c_verify := VerifyPlanRecheck; c_extra := [exclusive ClaimFile] });
  (ActionFileRemove, { no_contract with c_cancel := CancelCheckpointOnly; c_retry := RetryAfterReplan;
     c_rollback := RollbackExactRestore; c_verify := VerifyPlanRecheck; c_extra := [exclusive ClaimFile] });
  (ActionFileRollback, { no_contract with c_cancel := CancelCheckpointOnly; c_retry := RetryAfterReplan;
     c_rollback := RollbackExactRestore; c_verify := VerifyPlanRecheck; c_extra := [exclusive ClaimFile] });
  (ActionProcessSignal, { no_contract with c_cancel := CancelImpossibleAfterStart; c_retry := RetryNever;
     c_rollback := RollbackNone; c_verify := VerifyNone });
  (ActionPackageUpgrade, { no_contract with c_cancel := CancelImpossibleAfterStart;
     c_retry := RetryReadState; c_rollback := RollbackCompensating; c_verify := VerifyPlanRecheck;
     c_weight := 4 });
  (ActionPackageInstall, { no_contract with c_cancel := CancelImpossibleAfterStart;
     c_retry := RetryReadState; c_rollback := RollbackCompensating; c_verify := VerifyPlanRecheck;
     c_weight := 4 });
  (ActionPackageRemove, { no_contract with c_cancel := CancelImpossibleAfterStart;
     c_retry := RetryReadState; c_rollback := RollbackBestEffort; c_verify := VerifyCustom; c_weight := 4 });
  (ActionPackageRepair, { no_contract with c_cancel := CancelImpossibleAfterStart;
     c_retry := RetryReadState; c_rollback := RollbackNone; c_verify := VerifyCustom; c_weight := 4 });
  (ActionPackageHoldSet, { no_contract with c_cancel := CancelImpossibleAfterStart;
     c_retry := RetryReadState; c_rollback := RollbackCompensating; c_verify := VerifyCustom });
  (ActionRepositorySet, { no_contract with c_cancel := CancelImpossibleAfterStart;
     c_retry := RetryReadState; c_rollback := RollbackCompensating; c_verify := VerifyCustom; c_weight := 2 });
  (ActionAgentUpgrade, { no_contract with c_cancel := CancelImpossibleAfterStart;
     c_retry := RetryReadState; c_rollback := RollbackBestEffort; c_verify := VerifyCustom; c_weight := 4 });
  (ActionBackupRun, { no_contract with c_cancel := CancelCheckpointOnly; c_retry := RetryAfterChange;
     c_rollback := RollbackNone; c_verify := VerifyCustom; c_weight := 4 });
  (ActionBackupVerify, { no_contract with c_cancel := CancelCheckpointOnly; c_retry := RetryAutomatic;
     c_rollback := RollbackNone; c_verify := VerifyCustom; c_weight := 2 });
  (ActionBackupRestore, { no_contract with c_cancel := CancelCheckpointOnly; c_retry := RetryReadState;
     c_rollback := RollbackNone; c_verify := VerifyCustom; c_weight := 4 });
  (ActionSystemReboot, { no_contract with c_cancel := CancelImpossibleAfterStart;
     c_retry := RetryReadState; c_rollback := RollbackNone; c_verify := VerifyCustom;
     c_extra := [exclusive ClaimHost] });
  (ActionSystemShutdown, { no_contract with c_cancel := CancelImpossibleAfterStart; c_retry := RetryNever;
     c_rollback := RollbackNone; c_verify := VerifyNone; c_extra := [exclusive ClaimHost] });
  (ActionHostFinalWipe, { no_contract with c_cancel := CancelImpossibleAfterStart; c_retry := RetryNever;
     c_rollback := RollbackNone; c_verify := VerifyNone; c_extra := [exclusive ClaimHost] });
  (ActionSystemHostnameSet, { no_contract with c_cancel := CancelImpossibleAfterStart;
     c_retry := RetryReadState; c_rollback := RollbackCompensating; c_verify := VerifyCustom });
  (ActionDomainEnroll, { no_contract with c_cancel := CancelCheckpointOnly; c_retry := RetryAfterChange;
     c_rollback := RollbackCompensating; c_verify := VerifyCustom; c_weight := 2 });
  (ActionDomainLeave, { no_contract with c_cancel := CancelImpossibleAfterStart; c_retry := RetryReadState;
     c_rollback := RollbackCompensating; c_verify := VerifyCustom; c_weight := 2 });
  (ActionIdentityKeytabRenew, { no_contract with c_cancel := CancelImpossibleAfterStart;
     c_retry := RetryReadState; c_rollback := RollbackNone; c_verify := VerifyCustom })].
Definition contracts_2 : list (ActionType * contract) := [
  (ActionLocalUserCreate, { no_contract with c_cancel := CancelImpossibleAfterStart;
     c_retry := RetryReadState; c_rollback := RollbackCompensating; c_verify := VerifyCustom });
  (ActionLocalUserLock, { no_contract with c_cancel := CancelImpossibleAfterStart;
     c_retry := RetryReadState; c_rollback := RollbackCompensating; c_verify := VerifyCustom });
  (ActionLocalUserUnlock, { no_contract with c_cancel := CancelImpossibleAfterStart;
     c_retry := RetryReadState; c_rollback := RollbackCompensating; c_verify := VerifyCustom });
  (ActionLocalSSHKeysSet, { no_contract with c_cancel := CancelImpossibleAfterStart;
     c_retry := RetryReadState; c_rollback := RollbackCompensating; c_verify := VerifyCustom });
  (ActionLocalSSHKeysAdd, { no_contract with c_cancel := CancelImpossibleAfterStart;
     c_retry := RetryReadState; c_rollback := RollbackCompensating; c_verify := VerifyCustom });
  (ActionLocalSSHKeysRemove, { no_contract with c_cancel := CancelImpossibleAfterStart;
     c_retry := RetryReadState; c_rollback := RollbackCompensating; c_verify := VerifyCustom });
  (ActionLocalSSHKeysReplaceAll, { no_contract with c_cancel := CancelImpossibleAfterStart;
     c_retry := RetryReadState; c_rollback := RollbackCompensating; c_verify := VerifyCustom });
  (ActionLocalUserGroupsSet, { no_contract with c_cancel := CancelImpossibleAfterStart;
     c_retry := RetryReadState; c_rollback := RollbackCompensating; c_verify := VerifyCustom });
  (ActionLocalUserExpirySet, { no_contract with c_cancel := CancelImpossibleAfterStart;
     c_retry := RetryReadState; c_rollback := RollbackCompensating; c_verify := VerifyCustom });
  (ActionLocalUserDelete, { no_contract with c_cancel := CancelImpossibleAfterStart; c_retry := RetryNever;
     c_rollback := RollbackNone; c_verify := VerifyCustom });
  (ActionDockerStart, { no_contract with c_cancel := CancelImpossibleAfterStart; c_retry := RetryReadState;
     c_rollback := RollbackCompensating; c_verify := VerifyCustom });
  (ActionDockerStop, { no_contract with c_cancel := CancelImpossibleAfterStart; c_retry := RetryReadState;
     c_rollback := RollbackCompensating; c_verify := VerifyCustom });
  (ActionDockerRestart, { no_contract with c_cancel := CancelImpossibleAfterStart;
     c_retry := RetryReadState; c_rollback := RollbackNone; c_verify := VerifyCustom });
  (ActionDockerRemove, { no_contract with c_cancel := CancelImpossibleAfterStart; c_retry := RetryNever;
     c_rollback := RollbackNone; c_verify := VerifyNone });
  (ActionDockerPull, { no_contract with c_cancel := CancelSafe; c_retry := RetryAutomatic;
     c_rollback := RollbackBestEffort; c_verify := VerifyCustom; c_weight := 3 });
  (ActionDockerPrune, { no_contract with c_cancel := CancelImpossibleAfterStart; c_retry := RetryNever;
     c_rollback := RollbackNone; c_verify := VerifyNone; c_weight := 2 });
  (ActionComposeDeploy, { no_contract with c_cancel := CancelCheckpointOnly; c_retry := RetryAfterReplan;
     c_rollback := RollbackExactRestore; c_verify := VerifyCustom; c_weight := 3 });
  (ActionDockerContainerEnsure, { no_contract with c_cancel := CancelCheckpointOnly;
     c_retry := RetryAfterReplan; c_rollback := RollbackNone; c_verify := VerifyCustom; c_weight := 3 });
  (ActionDockerNetworkEnsure, { no_contract with c_cancel := CancelCheckpointOnly;
     c_retry := RetryAfterReplan; c_rollback := RollbackCompensating; c_verify := VerifyCustom; c_weight := 2 });
  (ActionDockerNetworkRemove, { no_contract with c_cancel := CancelImpossibleAfterStart;
     c_retry := RetryNever; c_rollback := RollbackNone; c_verify := VerifyCustom; c_weight := 2 });
  (ActionDockerVolumeEnsure, { no_contract with c_cancel := CancelCheckpointOnly;
     c_retry := RetryAfterReplan; c_rollback := RollbackCompensating; c_verify := VerifyCustom; c_weight := 2 });
  (ActionDockerVolumeRemove, { no_contract with c_cancel := CancelImpossibleAfterStart;
     c_retry := RetryNever; c_rollback := RollbackNone; c_verify := VerifyCustom; c_weight := 2 })].
Definition contracts : list (ActionType * contract) := contracts_1 ++ contracts_2.

(** Where an operation may run in bulk. *)
Definition campaignModes : list (ActionType * CampaignModeName) := [
  (ActionUnitStart, CampaignSamePayload);
  (ActionUnitStop, CampaignSamePayload);
  (ActionUnitRestart, CampaignSamePayload);
  (ActionUnitReload, CampaignSamePayload);
  (ActionUnitEnableSet, CampaignSamePayload);
  (ActionUnitMaskSet, CampaignSamePayload);
  (ActionUnitResetFailed, CampaignSamePayload);
  (ActionScheduleEnsure, CampaignSamePayload);
  (ActionScheduleDisable, CampaignSamePayload);
  (ActionScheduleRemove, CampaignSamePayload);
  (ActionScheduleRunNow, CampaignSamePayload);
  (ActionLocalUserCreate, CampaignSamePayload);
  (ActionLocalUserLock, CampaignSamePayload);
  (ActionLocalUserUnlock, CampaignSamePayload);
  (ActionLocalSSHKeysSet, CampaignSamePayload);
  (ActionLocalUserGroupsSet, CampaignSamePayload);
  (ActionLocalUserExpirySet, CampaignSamePayload);
  (ActionPackageHoldSet, CampaignSamePayload);
  (ActionRepositorySet, CampaignSamePayload);
  (ActionAgentUpgrade, CampaignSamePayload);
  (ActionDockerStart, CampaignSamePayload);
  (ActionDockerStop, CampaignSamePayload);
  (ActionDockerRestart, CampaignSamePayload);
  (ActionDockerPull, CampaignSamePayload);
  (ActionKernelModuleLoad, CampaignSamePayload);
  (ActionSysctlEnsure, CampaignSamePayload);
  (ActionSELinuxModeSet, CampaignSamePayload);
  (ActionTimezoneSet, CampaignSamePayload);
  (ActionPackageInstall, CampaignPerHostPlan);
  (ActionPackageUpgrade, CampaignPerHostPlan);
  (ActionFileEnsure, CampaignPerHostPlan);
  (ActionFileRemove, CampaignPerHostPlan);
  (ActionFileRollback, CampaignPerHostPlan);
  (ActionBackupRun, CampaignPerHostPlan);
  (ActionBackupVerify, CampaignPerHostPlan);
  (ActionCertificateDeploy, CampaignPerHostPlan);
  (ActionCertificateRenew, CampaignPerHostPlan);
  (ActionCertificateTrustEnsure, CampaignPerHostPlan);
  (ActionCertificateTrustRemove, CampaignPerHostPlan);
  (ActionMountEnsure, CampaignPerHostPlan);
  (ActionMountRemove, CampaignPerHostPlan);
  (ActionFilesystemCheck, CampaignPerHostPlan);
  (ActionFilesystemResize, CampaignPerHostPlan);
  (ActionLVMExtend, CampaignPerHostPlan);
  (ActionNetworkProfileApply, CampaignPerHostPlan);
  (ActionNetworkRouteEnsure, CampaignPerHostPlan);
  (ActionNetworkMTUSet, CampaignPerHostPlan);
  (ActionNetworkLinkApply, CampaignPerHostPlan);
  (ActionNetworkLinkRemove, CampaignPerHostPlan);
  (ActionDNSHostApply, CampaignPerHostPlan);
  (ActionFirewallRuleEnsure, CampaignPerHostPlan);
  (ActionFirewallRuleRemove, CampaignPerHostPlan);
  (ActionFirewallZonePort, CampaignPerHostPlan);
  (ActionFirewallZoneService, CampaignPerHostPlan);
  (ActionSSHConfigApply, CampaignPerHostPlan);
  (ActionTimeConfigApply, CampaignPerHostPlan);
  (ActionComposeDeploy, CampaignPerHostPlan);
  (ActionKernelModuleBlacklist, CampaignPerHostPlan);
  (ActionDockerContainerEnsure, CampaignPerHostPlan);
  (ActionDockerNetworkEnsure, CampaignPerHostPlan);
  (ActionDockerVolumeEnsure, CampaignPerHostPlan);
  (ActionSystemHostnameSet, CampaignPerHostPlan);
  (ActionSystemReboot, CampaignSpecialized);
  (ActionDomainEnroll, CampaignSpecialized);
  (ActionPackageRepair, CampaignSpecialized);
  (ActionNetworkRollback, CampaignSpecialized);
  (ActionFirewallRulesetRestore, CampaignSpecialized);
  (ActionSecurityRemediate, CampaignSpecialized)].

(** What a campaign does with a host that is not connected. *)
Definition offlinePolicies : list (ActionType * OfflinePolicyName) := [
  (ActionProcessSignal, OfflineRequireOnline);
  (ActionNetworkProfileApply, OfflineRequireOnline);
  (ActionNetworkRouteEnsure, OfflineRequireOnline);
  (ActionNetworkMTUSet, OfflineRequireOnline);
  (ActionNetworkRollback, OfflineRequireOnline);
  (ActionDNSHostApply, OfflineRequireOnline);
  (ActionFirewallRuleEnsure, OfflineRequireOnline);
  (ActionFirewallRuleRemove, OfflineRequireOnline);
  (ActionFirewallZonePort, OfflineRequireOnline);
  (ActionFirewallZoneService, OfflineRequireOnline);
  (ActionFirewallRulesetRestore, OfflineRequireOnline);
  (ActionSSHConfigApply, OfflineRequireOnline);
  (ActionSSHHostKeyRotate, OfflineRequireOnline);
  (ActionSystemReboot, OfflineRequireOnline);
  (ActionSystemShutdown, OfflineRequireOnline);
  (ActionUnitResetFailed, OfflineRequireOnline);
  (ActionSystemHostnameSet, OfflineRequireOnline);
  (ActionLocalUserDelete, OfflineRequireOnline);
  (ActionDiskWipe, OfflineRequireOnline);
  (ActionFilesystemCreate, OfflineRequireOnline);
  (ActionDockerRemove, OfflineRequireOnline);
  (ActionDockerPrune, OfflineRequireOnline);
  (ActionInventoryRefresh, OfflineSkip);
  (ActionSecurityScan, OfflineSkip);
  (ActionCertificateScan, OfflineSkip);
  (ActionMonitoringProbe, OfflineSkip);
  (ActionDNSResolveTest, OfflineSkip);
  (ActionTimeSyncTest, OfflineSkip);
  (ActionUnitStart, OfflineWait);
  (ActionUnitStop, OfflineWait);
  (ActionUnitRestart, OfflineWait);
  (ActionUnitReload, OfflineWait);
  (ActionUnitEnableSet, OfflineWait);
  (ActionUnitMaskSet, OfflineWait);
  (ActionScheduleEnsure, OfflineWait);
  (ActionScheduleDisable, OfflineWait);
  (ActionScheduleRemove, OfflineWait);
  (ActionScheduleRunNow, OfflineWait);
  (ActionPackageHoldSet, OfflineWait);
  (ActionPackageRemove, OfflineWait);
  (ActionPackageRepair, OfflineWait);
  (ActionRepositorySet, OfflineWait);
  (ActionAgentUpgrade, OfflineWait);
  (ActionLocalUserCreate, OfflineWait);
  (ActionLocalUserLock, OfflineWait);
  (ActionLocalUserUnlock, OfflineWait);
  (ActionLocalSSHKeysSet, OfflineWait);
  (ActionDomainEnroll, OfflineWait);
  (ActionKernelModuleLoad, OfflineWait);
  (ActionSysctlEnsure, OfflineWait);
  (ActionSELinuxModeSet, OfflineWait);
  (ActionAuditRulesReload, OfflineWait);
  (ActionTimezoneSet, OfflineWait);
  (ActionBackupRestore, OfflineWait);
  (ActionDockerStart, OfflineWait);
  (ActionDockerStop, OfflineWait);
  (ActionDockerRestart, OfflineWait);
  (ActionDockerPull, OfflineWait);
  (ActionLocalUserGroupsSet, OfflineWait);
  (ActionLocalUserExpirySet, OfflineWait);
  (ActionSecurityRemediate, OfflineWait)].

(** How many hosts a read covers at once. *)
Definition fanOutLimits : list (ActionType * Z) := [
  (ActionProcessList, 10);
  (ActionReadJournal, 20);
  (ActionReadLogFile, 20);
  (ActionDockerLogs, 20);
  (ActionDockerEvents, 20);
  (ActionFileRead, 20);
  (ActionSecurityScan, 50);
  (ActionCertificateScan, 50);
  (ActionDNSResolveTest, 50);
  (ActionTimeSyncTest, 50);
  (ActionPackageList, 50);
  (ActionPackagePlan, 50);
  (ActionUnitStatus, 50);
  (ActionDockerRead, 50);
  (ActionComposePlan, 50);
  (ActionStoragePlan, 50);
  (ActionStorageSmartRead, 50);
  (ActionNetworkPlan, 50);
  (ActionFirewallPlan, 50);
  (ActionSSHConfigPlan, 50);
  (ActionSysctlPlan, 50);
  (ActionFilePlan, 50);
  (ActionDomainPreflight, 50);
  (ActionInventoryRefresh, 200)].

(** The way back of a change. *)
Definition reverseActions : list (ActionType * ActionType) := [
  (ActionFileEnsure, ActionFileRollback);
  (ActionNetworkProfileApply, ActionNetworkRollback);
  (ActionNetworkLinkApply, ActionNetworkRollback);
  (ActionNetworkLinkRemove, ActionNetworkRollback);
  (ActionFirewallRuleEnsure, ActionFirewallRulesetRestore)].

(** Operations that were replaced. *)
Definition replacedActions : list (ActionType * ActionType) := [
  (ActionLocalSSHKeysSet, ActionLocalSSHKeysReplaceAll)].
