(* ===== verification/Capability.v ===== *)
(** * Capability: what the control plane signs and what it hashes

    The messages of src/internal/helpercap that carry a signature of the
    panel's key - the capability of one operation, the receipt of a released
    secret, the trust bundle, the acknowledgement of a task result - with
    their deterministic byte forms, and the canonical forms of the package,
    repository and backup orders whose digests bind a request to what was
    signed. Also the refusals and the two policies read from configuration. *)
From S2P Require Import Prelude Bytes Digest Text Frames.

Open Scope Z_scope.

(** ** Refusals *)

Definition ErrorCapabilityRequired : string := "capability_required".
Definition ErrorCapabilityVersion : string := "capability_version".
Definition ErrorWrongHost : string := "capability_wrong_host".
Definition ErrorWrongAction : string := "capability_wrong_action".
Definition ErrorCapabilityExpired : string := "capability_expired".
Definition ErrorTTLTooLong : string := "capability_ttl_too_long".
Definition ErrorPayloadMismatch : string := "payload_hash_mismatch".
Definition ErrorPayloadBinding : string := "payload_binding_mismatch".
Definition ErrorTrustPin : string := "trust_pin_mismatch".
Definition ErrorTrustStale : string := "trust_bundle_stale".
Definition ErrorUnknownKey : string := "capability_unknown_key".
Definition ErrorBadSignature : string := "capability_bad_signature".
Definition ErrorInvalidNonce : string := "capability_invalid_nonce".
Definition ErrorCapabilityReplay : string := "capability_replay".
Definition ErrorCapabilityInFlight : string := "capability_in_flight".
Definition ErrorCapabilityPerformed : string := "capability_already_performed".

(** An [error]: a refusal with its stable code, or a failure of the helper's
    own machinery, which has none. The message text is not modelled. *)
Inductive error :=
| refusal (code : string)
| failure (what : string).

Definition CodeOf (err : error) : string :=
  match err with refusal code => code | failure _ => "" end.

(** ** Policies read from configuration *)

Inductive Mode := ModeObserve | ModePrefer | ModeEnforce.
Inductive Bootstrap := BootstrapTOFU | BootstrapPinned.

#[export] Instance Mode_eq_dec : EqDecision Mode. Proof. solve_decision. Defined.
#[export] Instance Bootstrap_eq_dec : EqDecision Bootstrap. Proof. solve_decision. Defined.

(** [strings.ToLower], as far as a comparison with an ASCII word can see it:
    the ASCII capitals, and the two other characters whose lower case is
    ASCII, U+0130 and U+212A in UTF-8. *)
Definition lower_byte (c : byte) : byte :=
  if bool_decide (65 ≤ b2z c ≤ 90) then z2b (b2z c + 32) else c.

Fixpoint ToLower (s : bytes) : bytes :=
  match s with
  | Byte.xc4 :: Byte.xb0 :: s' => Byte.x69 :: ToLower s'
  | Byte.xe2 :: Byte.x84 :: Byte.xaa :: s' => Byte.x6b :: ToLower s'
  | c :: s' => lower_byte c :: ToLower s'
  | [] => []
  end.

Definition read_word (value : string) : string := bstring (ToLower (TrimSpace (sbytes value))).

Definition ParseMode (value : string) : option Mode :=
  let word := read_word value in
  if bool_decide (word ∈ ["observe"; "audit"]) then Some ModeObserve
  else if bool_decide (word = "prefer") then Some ModePrefer
  else if bool_decide (word ∈ ["enforce"; ""]) then Some ModeEnforce
  else None.

Definition ParseBootstrap (value : string) : option Bootstrap :=
  let word := read_word value in
  if bool_decide (word ∈ ["pinned"; ""]) then Some BootstrapPinned
  else if bool_decide (word = "tofu") then Some BootstrapTOFU
  else None.

(** [ClockSkew.Seconds()]. *)
Definition ClockSkew : Z := 30.

Definition SchemaVersion : Z := 1.
Definition NonceSize : Z := 32.

(** ** Keys *)

Definition KeyID (public : bytes) : string := bstring (hex_encode (take 8 (sha256 public))).
Definition KeyFingerprint (public : bytes) : string := bstring (hex_encode (sha256 public)).

(** [ed25519.PublicKeySize] and [ed25519.SignatureSize]. *)
Definition PublicKeySize : Z := 32.
Definition SignatureSize : Z := 64.

(** ** The signed messages *)

Record HelperCapability := {
  cap_SchemaVersion : Z;
  cap_KeyId : string;
  cap_CapabilityId : string;
  cap_HostId : string;
  cap_TaskId : string;
  cap_ActionType : string;
  cap_PayloadSha256 : bytes;
  cap_NotBeforeUnix : Z;
  cap_ExpiresUnix : Z;
  cap_Nonce : bytes;
  cap_PolicyRevision : Z;
  cap_Grants : list string;
}.

Record SecretReceipt := {
  receipt_HostId : string;
  receipt_TaskId : string;
  receipt_SecretName : string;
  receipt_SecretVersion : Z;
  receipt_Sha256 : string;
  receipt_IssuedUnix : Z;
  receipt_SignedByKeyId : string;
  receipt_Signature : bytes;
}.

Record HelperTrustKey := { key_KeyId : string; key_PublicKey : bytes }.

Record HelperTrustBundle := {
  bundle_HostId : string;
  bundle_Keys : list HelperTrustKey;
  bundle_IssuedUnix : Z;
  bundle_SignedByKeyId : string;
  bundle_Signature : bytes;
}.

Record TaskResultAck := {
  ack_TaskId : string;
  ack_IdempotencyKey : string;
  ack_Status : Z;
  ack_ReasonCode : string;
  ack_Signature : bytes;
  ack_KeyId : string;
  ack_ResultDigest : bytes;
  ack_DigestSignature : bytes;
}.

(** ** Their byte forms *)

Definition appendUint (out : bytes) (value : Z) : bytes := out ++ uint_code value.
Definition appendBytes (out value : bytes) : bytes := appendUint out (len value) ++ value.

Definition signingPrefix : bytes := sbytes "flotestro-helper-capability/1" ++ [Byte.x0a].
Definition receiptPrefix : bytes := sbytes "flotestro-secret-receipt/1" ++ [Byte.x0a].
Definition trustPrefix : bytes := sbytes "flotestro-helper-trust/1" ++ [Byte.x0a].
Definition resultAckPrefix : bytes := sbytes "flotestro/result-ack/v1" ++ [Byte.x00].
Definition resultAckDigestPrefix : bytes := sbytes "flotestro/result-ack-digest/v1" ++ [Byte.x00].

Definition SigningBytes (capability : HelperCapability) : bytes :=
  let out := signingPrefix in
  let out := appendUint out (cap_SchemaVersion capability) in
  let out := appendBytes out (sbytes (cap_KeyId capability)) in
  let out := appendBytes out (sbytes (cap_CapabilityId capability)) in
  let out := appendBytes out (sbytes (cap_HostId capability)) in
  let out := appendBytes out (sbytes (cap_TaskId capability)) in
  let out := appendBytes out (sbytes (cap_ActionType capability)) in
  let out := appendBytes out (cap_PayloadSha256 capability) in
  let out := appendUint out (u64 (cap_NotBeforeUnix capability)) in
  let out := appendUint out (u64 (cap_ExpiresUnix capability)) in
  let out := appendBytes out (cap_Nonce capability) in
  let out := appendUint out (cap_PolicyRevision capability) in
  let out := appendUint out (len (cap_Grants capability)) in
  fold_left (λ out grant, appendBytes out (sbytes grant)) (cap_Grants capability) out.

Definition ReceiptSigningBytes (receipt : SecretReceipt) : bytes :=
  let out := receiptPrefix in
  let out := appendBytes out (sbytes (receipt_HostId receipt)) in
  let out := appendBytes out (sbytes (receipt_TaskId receipt)) in
  let out := appendBytes out (sbytes (receipt_SecretName receipt)) in
  let out := appendUint out (receipt_SecretVersion receipt) in
  let out := appendBytes out (sbytes (receipt_Sha256 receipt)) in
  let out := appendUint out (u64 (receipt_IssuedUnix receipt)) in
  appendBytes out (sbytes (receipt_SignedByKeyId receipt)).

Definition TrustBundleSigningBytes (bundle : HelperTrustBundle) : bytes :=
  let out := trustPrefix in
  let out := appendBytes out (sbytes (bundle_HostId bundle)) in
  let out := appendUint out (u64 (bundle_IssuedUnix bundle)) in
  let out := appendBytes out (sbytes (bundle_SignedByKeyId bundle)) in
  let out := appendUint out (len (bundle_Keys bundle)) in
  fold_left (λ out key, appendBytes (appendBytes out (sbytes (key_KeyId key))) (key_PublicKey key))
            (bundle_Keys bundle) out.

Definition ResultAckSigningBytes (hostID : string) (ack : TaskResultAck) : bytes :=
  let out := resultAckPrefix in
  let out := appendBytes out (sbytes hostID) in
  let out := appendBytes out (sbytes (ack_TaskId ack)) in
  let out := appendBytes out (sbytes (ack_IdempotencyKey ack)) in
  let out := appendUint out (u64 (ack_Status ack)) in
  appendBytes out (sbytes (ack_ReasonCode ack)).

Definition ResultAckDigestSigningBytes (hostID : string) (ack : TaskResultAck) : bytes :=
  appendBytes (resultAckDigestPrefix ++ ResultAckSigningBytes hostID ack) (ack_ResultDigest ack).

(** ** The orders a digest binds *)

(** [order.digest()]: the hash of the canonical bytes, in hex. *)
Definition hex_digest (out : bytes) : string := bstring (hex_encode (sha256 out)).

Definition appendText (out : bytes) (name value : string) : bytes :=
  appendBytes (appendBytes out (sbytes name)) (sbytes value).
Definition appendNumber (out : bytes) (name : string) (value : Z) : bytes :=
  appendUint (appendBytes out (sbytes name)) value.
Definition appendList (out : bytes) (name : string) (values : list string) : bytes :=
  fold_left (λ out value, appendBytes out (sbytes value)) values
            (appendUint (appendBytes out (sbytes name)) (len values)).
Definition appendTuples (out : bytes) (name : string) (tuples : list (list string)) : bytes :=
  fold_left (λ out tuple, fold_left (λ out field, appendBytes out (sbytes field)) tuple
                                    (appendUint out (len tuple)))
            tuples (appendUint (appendBytes out (sbytes name)) (len tuples)).
Definition appendFlag (out : bytes) (name : string) (value : bool) : bytes :=
  appendNumber out name (if value then 1 else 0).

Record packageOrder := {
  pkg_Operation : string;
  pkg_Packages : list string;
  pkg_ExpectedRemovals : list string;
  pkg_Hold : bool;
  pkg_SecurityOnly : bool;
  pkg_AllowDowngrade : bool;
  pkg_PlanHash : string;
  pkg_PlanSchemaVersion : Z;
  pkg_PlannerVersion : string;
  pkg_InventoryRevision : string;
  pkg_ResourceRevision : string;
  pkg_PlanExpiresUnix : Z;
  pkg_Changes : list (list string);
}.

Definition packageOrderPrefix : bytes := sbytes "flotestro-package-order/2" ++ [Byte.x0a].

Definition package_bytes (o : packageOrder) : bytes :=
  let out := packageOrderPrefix in
  let out := appendText out "operation" (pkg_Operation o) in
  let out := appendList out "packages" (pkg_Packages o) in
  let out := appendList out "expected_removals" (pkg_ExpectedRemovals o) in
  let out := appendFlag out "hold" (pkg_Hold o) in
  let out := appendFlag out "security_only" (pkg_SecurityOnly o) in
  let out := appendFlag out "allow_downgrade" (pkg_AllowDowngrade o) in
  let out := appendText out "plan_hash" (pkg_PlanHash o) in
  let out := appendNumber out "plan_schema_version" (pkg_PlanSchemaVersion o) in
  let out := appendText out "planner_version" (pkg_PlannerVersion o) in
  let out := appendText out "inventory_revision" (pkg_InventoryRevision o) in
  let out := appendText out "resource_revision" (pkg_ResourceRevision o) in
  let out := appendNumber out "plan_expires_unix" (u64 (pkg_PlanExpiresUnix o)) in
  appendTuples out "changes" (pkg_Changes o).

Definition package_digest (o : packageOrder) : string := hex_digest (package_bytes o).

Record repositoryOrder := {
  repo_ID : string;
  repo_Name : string;
  repo_URL : string;
  repo_Suites : list string;
  repo_Components : list string;
  repo_Architectures : list string;
  repo_Enabled : bool;
  repo_Priority : Z;
  repo_GPGKey : string;
  repo_AllowUnsigned : bool;
  repo_Username : string;
  repo_SecretName : string;
  repo_Remove : bool;
}.

Definition repositoryOrderPrefix : bytes := sbytes "flotestro-repository-order/2" ++ [Byte.x0a].

Definition repository_bytes (o : repositoryOrder) : bytes :=
  let out := repositoryOrderPrefix in
  let out := appendText out "id" (repo_ID o) in
  let out := appendText out "name" (repo_Name o) in
  let out := appendText out "url" (repo_URL o) in
  let out := appendList out "suites" (repo_Suites o) in
  let out := appendList out "components" (repo_Components o) in
  let out := appendList out "architectures" (repo_Architectures o) in
  let out := appendFlag out "enabled" (repo_Enabled o) in
  let out := appendNumber out "priority" (u64 (repo_Priority o)) in
  let out := appendText out "gpg_key" (repo_GPGKey o) in
  let out := appendFlag out "allow_unsigned" (repo_AllowUnsigned o) in
  let out := appendText out "username" (repo_Username o) in
  let out := appendText out "secret_name" (repo_SecretName o) in
  appendFlag out "remove" (repo_Remove o).

Definition repository_digest (o : repositoryOrder) : string := hex_digest (repository_bytes o).

Record backupOrder := {
  bk_ID : string;
  bk_Tool : string;
  bk_Repository : string;
  bk_Paths : list string;
  bk_Excludes : list string;
  bk_Tags : list string;
  bk_KeepLast : Z;
  bk_KeepDaily : Z;
  bk_KeepWeekly : Z;
  bk_KeepMonthly : Z;
  bk_Prune : bool;
  bk_Runbook : string;
  bk_Initialize : bool;
  bk_ReadData : bool;
  bk_SnapshotID : string;
  bk_Target : string;
  bk_Include : list string;
  bk_Overwrite : string;
  bk_Plan : string;
  bk_PlanHash : string;
  bk_HasPassword : bool;
  bk_EnvNames : list string;
}.

Definition backupOrderPrefix : bytes := sbytes "flotestro-backup-order/2" ++ [Byte.x0a].

Definition backup_bytes (o : backupOrder) : bytes :=
  let out := backupOrderPrefix in
  let out := appendText out "id" (bk_ID o) in
  let out := appendText out "tool" (bk_Tool o) in
  let out := appendText out "repository" (bk_Repository o) in
  let out := appendList out "paths" (bk_Paths o) in
  let out := appendList out "excludes" (bk_Excludes o) in
  let out := appendList out "tags" (bk_Tags o) in
  let out := appendNumber out "keep_last" (u64 (bk_KeepLast o)) in
  let out := appendNumber out "keep_daily" (u64 (bk_KeepDaily o)) in
  let out := appendNumber out "keep_weekly" (u64 (bk_KeepWeekly o)) in
  let out := appendNumber out "keep_monthly" (u64 (bk_KeepMonthly o)) in
  let out := appendFlag out "prune" (bk_Prune o) in
  let out := appendText out "runbook" (bk_Runbook o) in
  let out := appendFlag out "initialize" (bk_Initialize o) in
  let out := appendFlag out "read_data" (bk_ReadData o) in
  let out := appendText out "snapshot_id" (bk_SnapshotID o) in
  let out := appendText out "target" (bk_Target o) in
  let out := appendList out "include" (bk_Include o) in
  let out := appendText out "overwrite" (bk_Overwrite o) in
  let out := appendText out "plan" (bk_Plan o) in
  let out := appendText out "plan_hash" (bk_PlanHash o) in
  let out := appendFlag out "password" (bk_HasPassword o) in
  appendList out "env" (sorted (bk_EnvNames o)).

Definition backup_digest (o : backupOrder) : string := hex_digest (backup_bytes o).
