(* ===== verification/CapabilityProps.v ===== *)
(** * CapabilityProps: the signed and hashed byte forms are read in one way

    Every byte form of Capability.v is a prefix of its kind followed by codes
    (Frames.v). So the bytes of two messages, of whatever kinds, are equal
    only when the messages are of one kind and agree in every field the bytes
    are made of: no signature of the panel's key stands for two statements,
    and no digest of an order is the digest of another order unless SHA-256
    itself collides. *)
From S2P Require Import Prelude Bytes Digest Text Frames Capability.

Open Scope Z_scope.

(** ** The appenders write codes *)

Definition flag_code (b : bool) : bytes := uint_code (if b then 1 else 0).
Definition any {A : Type} (_ : A) : Prop := True.

#[export] Instance flag_Code : Code flag_code any.
Proof.
  intros a b r s _ _ He. unfold flag_code in He.
  destruct (code_cut (enc := uint_code) (if a then 1 else 0) (if b then 1 else 0) r s) as [Hab ->]; [| |exact He|];
    [by destruct a|by destruct b|]. by destruct a, b.
Qed.

(** A field: its name, then its value. *)
Definition named {A} (name : string) (enc : A → bytes) (x : A) : bytes := text_code name ++ enc x.

Lemma fold_items {A} (enc : A → bytes) l out :
  fold_left (λ out x, out ++ enc x) l out = out ++ items_code enc l.
Proof.
  revert out. induction l as [|x l IH]; intros out; cbn; [by rewrite app_nil_r|].
  rewrite IH, <- app_assoc. done.
Qed.

Lemma fold_append {A} (f : bytes → A → bytes) (enc : A → bytes) l out :
  (∀ out x, f out x = out ++ enc x) → fold_left f l out = out ++ items_code enc l.
Proof. intros Hf. rewrite <- fold_items. revert out. induction l; intros out; cbn; [done|]. by rewrite Hf. Qed.

Lemma appendUint_code out v : appendUint out v = out ++ uint_code v.
Proof. done. Qed.
Lemma appendUint_int out v : appendUint out (u64 v) = out ++ int_code v.
Proof. unfold appendUint. by rewrite int_code_eq. Qed.
Lemma appendBytes_code out b : appendBytes out b = out ++ bytes_code b.
Proof. unfold appendBytes, appendUint. by rewrite <- app_assoc. Qed.
Lemma appendBytes_text out s : appendBytes out (sbytes s) = out ++ text_code s.
Proof. apply appendBytes_code. Qed.

Lemma appendText_code out name s : appendText out name s = out ++ named name text_code s.
Proof. unfold appendText, named. by rewrite !appendBytes_text, <- app_assoc. Qed.
Lemma appendNumber_code out name v : appendNumber out name v = out ++ named name uint_code v.
Proof. unfold appendNumber, named. by rewrite appendUint_code, appendBytes_text, <- app_assoc. Qed.
Lemma appendNumber_int out name v : appendNumber out name (u64 v) = out ++ named name int_code v.
Proof. unfold appendNumber, named. by rewrite appendUint_int, appendBytes_text, <- app_assoc. Qed.
Lemma appendFlag_code out name b : appendFlag out name b = out ++ named name flag_code b.
Proof. apply appendNumber_code. Qed.
Lemma appendList_code out name l : appendList out name l = out ++ named name (list_code text_code) l.
Proof.
  unfold appendList, named, list_code. rewrite (fold_append _ text_code) by (intros; apply appendBytes_text).
  by rewrite appendUint_code, appendBytes_text, <- !app_assoc.
Qed.
Lemma appendTuples_code out name l :
  appendTuples out name l = out ++ named name (list_code (list_code text_code)) l.
Proof.
  unfold appendTuples, named, list_code at 1. rewrite (fold_append _ (list_code text_code)).
  - by rewrite appendUint_code, appendBytes_text, <- !app_assoc.
  - intros o t. rewrite (fold_append _ text_code) by (intros; apply appendBytes_text).
    by rewrite appendUint_code, <- app_assoc.
Qed.

#[export] Instance named_Code {A} name (enc : A → bytes) dom `{!Code enc dom} : Code (named name enc) dom.
Proof.
  intros a b r s Ha Hb He. unfold named in He. rewrite <- !app_assoc in He.
  apply app_inv_head in He. by apply (code_cut (enc := enc)).
Qed.

Definition key_code (k : HelperTrustKey) : bytes := text_code (key_KeyId k) ++ bytes_code (key_PublicKey k).
Definition key_fits (k : HelperTrustKey) : Prop := is_text (key_KeyId k) ∧ is_len (key_PublicKey k).

#[export] Instance key_Code : Code key_code key_fits.
Proof.
  intros [a1 a2] [b1 b2] r s [Ha1 Ha2] [Hb1 Hb2]. cbn in *. unfold key_code. cbn. rewrite <- !app_assoc.
  do 2 peel. intros ->. by subst.
Qed.

(** ** The messages

    [fits]: the integers are values of their Go types and no string or list
    is longer than an [int] can count. *)

Record cap_fits (c : HelperCapability) : Prop := {
  _ : is_u64 (cap_SchemaVersion c);
  _ : is_text (cap_KeyId c); _ : is_text (cap_CapabilityId c); _ : is_text (cap_HostId c);
  _ : is_text (cap_TaskId c); _ : is_text (cap_ActionType c); _ : is_len (cap_PayloadSha256 c);
  _ : is_i64 (cap_NotBeforeUnix c); _ : is_i64 (cap_ExpiresUnix c); _ : is_len (cap_Nonce c);
  _ : is_u64 (cap_PolicyRevision c); _ : is_list is_text (cap_Grants c);
}.
Record receipt_fits (m : SecretReceipt) : Prop := {
  _ : is_text (receipt_HostId m); _ : is_text (receipt_TaskId m); _ : is_text (receipt_SecretName m);
  _ : is_u64 (receipt_SecretVersion m); _ : is_text (receipt_Sha256 m); _ : is_i64 (receipt_IssuedUnix m);
  _ : is_text (receipt_SignedByKeyId m);
}.
Record bundle_fits (m : HelperTrustBundle) : Prop := {
  _ : is_text (bundle_HostId m); _ : is_i64 (bundle_IssuedUnix m); _ : is_text (bundle_SignedByKeyId m);
  _ : is_list key_fits (bundle_Keys m);
}.
Record ack_fits (host : string) (m : TaskResultAck) : Prop := {
  _ : is_text host; _ : is_text (ack_TaskId m); _ : is_text (ack_IdempotencyKey m); _ : is_i64 (ack_Status m);
  _ : is_text (ack_ReasonCode m); _ : is_len (ack_ResultDigest m);
}.
Record package_fits (o : packageOrder) : Prop := {
  _ : is_text (pkg_Operation o); _ : is_list is_text (pkg_Packages o);
  _ : is_list is_text (pkg_ExpectedRemovals o); _ : is_text (pkg_PlanHash o);
  _ : is_u64 (pkg_PlanSchemaVersion o); _ : is_text (pkg_PlannerVersion o);
  _ : is_text (pkg_InventoryRevision o); _ : is_text (pkg_ResourceRevision o);
  _ : is_i64 (pkg_PlanExpiresUnix o); _ : is_list (is_list is_text) (pkg_Changes o);
}.
Record repository_fits (o : repositoryOrder) : Prop := {
  _ : is_text (repo_ID o); _ : is_text (repo_Name o); _ : is_text (repo_URL o);
  _ : is_list is_text (repo_Suites o); _ : is_list is_text (repo_Components o);
  _ : is_list is_text (repo_Architectures o); _ : is_i64 (repo_Priority o); _ : is_text (repo_GPGKey o);
  _ : is_text (repo_Username o); _ : is_text (repo_SecretName o);
}.
Record backup_fits (o : backupOrder) : Prop := {
  _ : is_text (bk_ID o); _ : is_text (bk_Tool o); _ : is_text (bk_Repository o);
  _ : is_list is_text (bk_Paths o); _ : is_list is_text (bk_Excludes o); _ : is_list is_text (bk_Tags o);
  _ : is_i64 (bk_KeepLast o); _ : is_i64 (bk_KeepDaily o); _ : is_i64 (bk_KeepWeekly o);
  _ : is_i64 (bk_KeepMonthly o); _ : is_text (bk_Runbook o); _ : is_text (bk_SnapshotID o);
  _ : is_text (bk_Target o); _ : is_list is_text (bk_Include o); _ : is_text (bk_Overwrite o);
  _ : is_text (bk_Plan o); _ : is_text (bk_PlanHash o); _ : is_list is_text (sorted (bk_EnvNames o));
}.

Inductive Message :=
| MCapability (c : HelperCapability)
| MReceipt (m : SecretReceipt)
| MTrustBundle (m : HelperTrustBundle)
| MResultAck (hostID : string) (m : TaskResultAck)
| MResultAckDigest (hostID : string) (m : TaskResultAck)
| MPackageOrder (o : packageOrder)
| MRepositoryOrder (o : repositoryOrder)
| MBackupOrder (o : backupOrder).

(** The bytes that are signed or, for an order, hashed. *)
Definition message_bytes (m : Message) : bytes :=
  match m with
  | MCapability c => SigningBytes c
  | MReceipt r => ReceiptSigningBytes r
  | MTrustBundle b => TrustBundleSigningBytes b
  | MResultAck host a => ResultAckSigningBytes host a
  | MResultAckDigest host a => ResultAckDigestSigningBytes host a
  | MPackageOrder o => package_bytes o
  | MRepositoryOrder o => repository_bytes o
  | MBackupOrder o => backup_bytes o
  end.

Definition fits (m : Message) : Prop :=
  match m with
  | MCapability c => cap_fits c
  | MReceipt r => receipt_fits r
  | MTrustBundle b => bundle_fits b
  | MResultAck host a | MResultAckDigest host a => ack_fits host a
  | MPackageOrder o => package_fits o
  | MRepositoryOrder o => repository_fits o
  | MBackupOrder o => backup_fits o
  end.

(** What the bytes are made of: everything but the signature itself, the key
    an acknowledgement names, the digest in the signature that does not cover
    it, and the order in which the environment of a backup was listed. *)
Definition covered (m : Message) : Message :=
  match m with
  | MReceipt r => MReceipt
      {| receipt_HostId := receipt_HostId r; receipt_TaskId := receipt_TaskId r;
         receipt_SecretName := receipt_SecretName r; receipt_SecretVersion := receipt_SecretVersion r;
         receipt_Sha256 := receipt_Sha256 r; receipt_IssuedUnix := receipt_IssuedUnix r;
         receipt_SignedByKeyId := receipt_SignedByKeyId r; receipt_Signature := [] |}
  | MTrustBundle b => MTrustBundle
      {| bundle_HostId := bundle_HostId b; bundle_Keys := bundle_Keys b;
         bundle_IssuedUnix := bundle_IssuedUnix b; bundle_SignedByKeyId := bundle_SignedByKeyId b;
         bundle_Signature := [] |}
  | MResultAck host a => MResultAck host
      {| ack_TaskId := ack_TaskId a; ack_IdempotencyKey := ack_IdempotencyKey a; ack_Status := ack_Status a;
         ack_ReasonCode := ack_ReasonCode a; ack_Signature := []; ack_KeyId := ""; ack_ResultDigest := [];
         ack_DigestSignature := [] |}
  | MResultAckDigest host a => MResultAckDigest host
      {| ack_TaskId := ack_TaskId a; ack_IdempotencyKey := ack_IdempotencyKey a; ack_Status := ack_Status a;
         ack_ReasonCode := ack_ReasonCode a; ack_Signature := []; ack_KeyId := "";
         ack_ResultDigest := ack_ResultDigest a; ack_DigestSignature := [] |}
  | MBackupOrder o => MBackupOrder
      {| bk_ID := bk_ID o; bk_Tool := bk_Tool o; bk_Repository := bk_Repository o; bk_Paths := bk_Paths o;
         bk_Excludes := bk_Excludes o; bk_Tags := bk_Tags o; bk_KeepLast := bk_KeepLast o;
         bk_KeepDaily := bk_KeepDaily o; bk_KeepWeekly := bk_KeepWeekly o; bk_KeepMonthly := bk_KeepMonthly o;
         bk_Prune := bk_Prune o; bk_Runbook := bk_Runbook o; bk_Initialize := bk_Initialize o;
         bk_ReadData := bk_ReadData o; bk_SnapshotID := bk_SnapshotID o; bk_Target := bk_Target o;
         bk_Include := bk_Include o; bk_Overwrite := bk_Overwrite o; bk_Plan := bk_Plan o;
         bk_PlanHash := bk_PlanHash o; bk_HasPassword := bk_HasPassword o;
         bk_EnvNames := sorted (bk_EnvNames o) |}
  | _ => m
  end.

(** ** The kinds do not run into each other *)

Definition kind_prefix (m : Message) : bytes :=
  match m with
  | MCapability _ => signingPrefix
  | MReceipt _ => receiptPrefix
  | MTrustBundle _ => trustPrefix
  | MResultAck _ _ => resultAckPrefix
  | MResultAckDigest _ _ => resultAckDigestPrefix
  | MPackageOrder _ => packageOrderPrefix
  | MRepositoryOrder _ => repositoryOrderPrefix
  | MBackupOrder _ => backupOrderPrefix
  end.

Definition same_kind (a b : Message) : Prop :=
  match a, b with
  | MCapability _, MCapability _ | MReceipt _, MReceipt _ | MTrustBundle _, MTrustBundle _
  | MResultAck _ _, MResultAck _ _ | MResultAckDigest _ _, MResultAckDigest _ _
  | MPackageOrder _, MPackageOrder _ | MRepositoryOrder _, MRepositoryOrder _
  | MBackupOrder _, MBackupOrder _ => True
  | _, _ => False
  end.

Lemma kinds_apart a b r s : kind_prefix a ++ r = kind_prefix b ++ s → same_kind a b.
Proof. destruct a, b; try (intros _; exact I); vm_compute; discriminate. Qed.

#[local] Ltac open_codes := cbv zeta;
  rewrite ?appendText_code, ?appendNumber_int, ?appendNumber_code, ?appendFlag_code, ?appendList_code, ?appendTuples_code,
          ?appendBytes_text, ?appendBytes_code, ?appendUint_int, ?appendUint_code.

Lemma SigningBytes_codes c :
  SigningBytes c = signingPrefix ++ uint_code (cap_SchemaVersion c) ++ text_code (cap_KeyId c)
    ++ text_code (cap_CapabilityId c) ++ text_code (cap_HostId c) ++ text_code (cap_TaskId c)
    ++ text_code (cap_ActionType c) ++ bytes_code (cap_PayloadSha256 c) ++ int_code (cap_NotBeforeUnix c)
    ++ int_code (cap_ExpiresUnix c) ++ bytes_code (cap_Nonce c) ++ uint_code (cap_PolicyRevision c)
    ++ list_code text_code (cap_Grants c).
Proof.
  unfold SigningBytes, list_code. cbv zeta.
  rewrite (fold_append _ text_code) by (intros; apply appendBytes_text). open_codes. by rewrite <- !app_assoc.
Qed.

Lemma TrustBundle_codes b :
  TrustBundleSigningBytes b = trustPrefix ++ text_code (bundle_HostId b) ++ int_code (bundle_IssuedUnix b)
    ++ text_code (bundle_SignedByKeyId b) ++ list_code key_code (bundle_Keys b).
Proof.
  unfold TrustBundleSigningBytes, list_code. cbv zeta.
  rewrite (fold_append _ key_code)
    by (intros; unfold key_code; by rewrite appendBytes_text, appendBytes_code, <- app_assoc).
  open_codes. by rewrite <- !app_assoc.
Qed.

Lemma message_bytes_prefix m : ∃ r, message_bytes m = kind_prefix m ++ r.
Proof.
  destruct m; cbn [message_bytes kind_prefix]; rewrite ?SigningBytes_codes, ?TrustBundle_codes;
    unfold ReceiptSigningBytes, ResultAckDigestSigningBytes, ResultAckSigningBytes, package_bytes,
      repository_bytes, backup_bytes; open_codes; rewrite <- ?app_assoc; eexists; reflexivity.
Qed.

(** ** One message per byte string *)

#[local] Ltac cut_fields :=
  open_codes; rewrite <- ?app_assoc; apply peel_same; cbn in *; repeat peel; subst.
#[local] Ltac cut_messages := cut_fields; done.
#[local] Opaque is_text is_len is_u64 is_i64 is_list list_code named key_code flag_code sorted.

Lemma capability_bytes_inj a b :
  cap_fits a → cap_fits b → SigningBytes a = SigningBytes b → a = b.
Proof. destruct a, b. intros [] []. rewrite !SigningBytes_codes. cut_messages. Qed.

Lemma bundle_bytes_inj a b :
  bundle_fits a → bundle_fits b → TrustBundleSigningBytes a = TrustBundleSigningBytes b →
  covered (MTrustBundle a) = covered (MTrustBundle b).
Proof. destruct a, b. intros [] []. rewrite !TrustBundle_codes. cut_messages. Qed.

Lemma receipt_bytes_inj a b :
  receipt_fits a → receipt_fits b → ReceiptSigningBytes a = ReceiptSigningBytes b →
  covered (MReceipt a) = covered (MReceipt b).
Proof. destruct a, b. intros [] []. unfold ReceiptSigningBytes. cut_messages. Qed.

Lemma ack_bytes_inj h a h' b :
  ack_fits h a → ack_fits h' b → ResultAckSigningBytes h a = ResultAckSigningBytes h' b →
  covered (MResultAck h a) = covered (MResultAck h' b).
Proof. destruct a, b. intros [] []. unfold ResultAckSigningBytes. cut_messages. Qed.

Lemma ack_digest_bytes_inj h a h' b :
  ack_fits h a → ack_fits h' b → ResultAckDigestSigningBytes h a = ResultAckDigestSigningBytes h' b →
  covered (MResultAckDigest h a) = covered (MResultAckDigest h' b).
Proof.
  destruct a, b. intros [] []. unfold ResultAckDigestSigningBytes, ResultAckSigningBytes.
  open_codes. rewrite <- ?app_assoc. apply peel_same. cut_messages.
Qed.

Lemma package_bytes_inj a b :
  package_fits a → package_fits b → package_bytes a = package_bytes b → a = b.
Proof. destruct a, b. intros [] []. unfold package_bytes. cut_messages. Qed.

Lemma repository_bytes_inj a b :
  repository_fits a → repository_fits b → repository_bytes a = repository_bytes b → a = b.
Proof. destruct a, b. intros [] []. unfold repository_bytes. cut_messages. Qed.

Lemma backup_bytes_inj a b :
  backup_fits a → backup_fits b → backup_bytes a = backup_bytes b →
  covered (MBackupOrder a) = covered (MBackupOrder b).
Proof.
  destruct a, b. intros [] []. unfold backup_bytes. cut_fields.
  cbn. match goal with H : sorted _ = sorted _ |- _ => by rewrite H end.
Qed.

(** ** The claims *)

(** Concrete messages fit: compute the lengths. *)
Ltac solve_fits := cbn [fits];
  repeat lazymatch goal with
  | |- is_u64 _ => split; [vm_compute; discriminate|vm_compute; reflexivity]
  | |- is_i64 _ => split; [vm_compute; discriminate|vm_compute; reflexivity]
  | |- is_text _ => vm_compute; reflexivity
  | |- is_len _ => vm_compute; reflexivity
  | |- is_list _ _ => split
  | |- Forall _ (sorted _) => match goal with |- Forall ?P ?l =>
        let v := eval vm_compute in l in change (Forall P v) end
  | |- Forall _ _ => constructor
  | |- _ => split
  end.

Lemma message_bytes_determine_aux a b :
  fits a → fits b → message_bytes a = message_bytes b → covered a = covered b.
Proof.
  intros Ha Hb He.
  assert (Hk : same_kind a b).
  { destruct (message_bytes_prefix a) as [r Hr], (message_bytes_prefix b) as [s Hs].
    apply (kinds_apart a b r s). by rewrite <- Hr, <- Hs. }
  destruct a, b; try destruct Hk; cbn [fits message_bytes] in *.
  - cbn. by rewrite (capability_bytes_inj c c0).
  - by apply receipt_bytes_inj.
  - by apply bundle_bytes_inj.
  - by apply ack_bytes_inj.
  - by apply ack_digest_bytes_inj.
  - cbn. by rewrite (package_bytes_inj o o0).
  - cbn. by rewrite (repository_bytes_inj o o0).
  - by apply backup_bytes_inj.
Qed.

(** Every byte form the panel signs - of a capability, a secret receipt, a
    trust bundle, an acknowledgement of a result and of its digest - and every
    byte form whose hash binds an order - of packages, of a repository, of a
    backup - determines its message: two messages with the same bytes are of
    one kind and agree on every field that is covered. *)
Theorem message_bytes_determine a b :
  fits a → fits b → message_bytes a = message_bytes b → covered a = covered b.
Proof. apply message_bytes_determine_aux. Qed.

(** Two receipts that differ in their signature alone are signed over the same
    bytes. *)
Lemma message_bytes_determine_witness :
  let receipt signature :=
    {| receipt_HostId := "host-7"; receipt_TaskId := "task-1"; receipt_SecretName := "db-password";
       receipt_SecretVersion := 3; receipt_Sha256 := "9f86d081884c7d65"; receipt_IssuedUnix := 1760000000;
       receipt_SignedByKeyId := "0123456789abcdef"; receipt_Signature := signature |} in
  covered (MReceipt (receipt [])) = covered (MReceipt (receipt [Byte.x01])).
Proof.
  intros receipt. apply (message_bytes_determine (MReceipt (receipt [])) (MReceipt (receipt [Byte.x01])));
    [solve_fits..|reflexivity].
Defined.

(** ** Digests *)

(** [order.digest()] of the three kinds of order. *)
Definition order_digest (m : Message) : option string :=
  match m with
  | MPackageOrder o => Some (package_digest o)
  | MRepositoryOrder o => Some (repository_digest o)
  | MBackupOrder o => Some (backup_digest o)
  | _ => None
  end.

Lemma hex_digest_inj x y : hex_digest x = hex_digest y → sha256 x = sha256 y.
Proof.
  unfold hex_digest. intros Hd%(f_equal sbytes). rewrite !sbytes_bstring in Hd. by apply hex_encode_inj.
Qed.

Lemma order_digest_bytes m d : order_digest m = Some d → d = hex_digest (message_bytes m).
Proof. by destruct m; intros [= <-]. Qed.

(** The canonical bytes of two messages are one input of SHA-256, or two on
    which it collides. *)
Definition collision (a b : Message) : Prop :=
  message_bytes a ≠ message_bytes b ∧ sha256 (message_bytes a) = sha256 (message_bytes b).

Lemma order_digest_binds_aux a b d :
  fits a → fits b → order_digest a = Some d → order_digest b = Some d → covered a = covered b ∨ collision a b.
Proof.
  intros Ha Hb Hda%order_digest_bytes Hdb%order_digest_bytes.
  destruct (decide (message_bytes a = message_bytes b)) as [He|He]; [left|right; split; [done|]].
  - by apply message_bytes_determine_aux.
  - apply hex_digest_inj. by rewrite <- Hda.
Qed.

(** The digest of an order binds it: two orders with one digest are the
    same order, up to how the environment of a backup was listed, or their
    canonical bytes are two different inputs on which SHA-256 collides. *)
Theorem order_digest_binds a b d :
  fits a → fits b → order_digest a = Some d → order_digest b = Some d → covered a = covered b ∨ collision a b.
Proof. apply order_digest_binds_aux. Qed.

(** The environment of a backup listed in two orders gives one digest. *)
Lemma order_digest_binds_witness :
  let order env :=
    {| bk_ID := "nightly"; bk_Tool := "restic"; bk_Repository := "s3:backups"; bk_Paths := ["/etc"; "/srv"];
       bk_Excludes := []; bk_Tags := ["daily"]; bk_KeepLast := 0; bk_KeepDaily := 7; bk_KeepWeekly := 4;
       bk_KeepMonthly := 12; bk_Prune := true; bk_Runbook := ""; bk_Initialize := false; bk_ReadData := false;
       bk_SnapshotID := ""; bk_Target := ""; bk_Include := []; bk_Overwrite := ""; bk_Plan := "";
       bk_PlanHash := ""; bk_HasPassword := true; bk_EnvNames := env |} in
  let a := MBackupOrder (order ["AWS_SECRET"; "AWS_KEY"]) in
  let b := MBackupOrder (order ["AWS_KEY"; "AWS_SECRET"]) in
  covered a = covered b ∨ collision a b.
Proof.
  intros order a b. apply (order_digest_binds a b (backup_digest (order ["AWS_KEY"; "AWS_SECRET"])));
    subst a b order; [solve_fits|solve_fits|vm_compute; reflexivity|vm_compute; reflexivity].
Defined.
