(* ===== verification/Registry.v ===== *)
(** * Registry: what the operation registry answers

    The functions of src/internal/opspec over the tables of ActionTables.v,
    and the windows of a capability that src/internal/helpercap derives from
    them. An operation is a string: every question has an answer for a name
    the registry does not know. The problems a self-check reports are values
    of [problem]; their texts are not modelled. *)
From S2P Require Import Prelude Bytes Text Actions ActionTables.

Open Scope Z_scope.

(** A row of a map, or Go's zero value. *)
Definition spec_of (a : ActionType) : actionSpec := default no_spec (assoc a actionSpecs).

Definition Known (a : ActionType) : bool := bool_decide (is_Some (assoc a actionSpecs)).
Definition Mutating (a : ActionType) : bool := Known a && s_mutating (spec_of a).
Definition UnderCapability (a : ActionType) : bool :=
  Known a && (s_mutating (spec_of a) || s_authorized (spec_of a)).
Definition Risk (a : ActionType) : RiskLevel :=
  match assoc a actionSpecs with Some spec => s_risk spec | None => RiskCritical end.
Definition LockClass (a : ActionType) : LockClassName := s_lockClass (spec_of a).
Definition RequiresPlan (a : ActionType) : bool := s_requiresPlan (spec_of a).
Definition RequiredCapability (a : ActionType) : string := s_capability (spec_of a).
Definition Permission (a : ActionType) : string := s_permission (spec_of a).
Definition DefaultTimeout (a : ActionType) : Z := s_timeoutSeconds (spec_of a).
Definition AllActions : list ActionType := sorted actionSpecs.*1.

Definition defaultOutputLimit : Z := 64 ≪ 10.
Definition MaxOutputBytes (a : ActionType) : Z :=
  match assoc a actionSpecs with
  | Some spec => if bool_decide (0 < s_maxOutputBytes spec) then s_maxOutputBytes spec else defaultOutputLimit
  | None => defaultOutputLimit
  end.

Definition RequiredCapabilities : list string :=
  sorted (remove_dups (filter (λ c, c ≠ "") ((λ r, s_capability r.2) <$> actionSpecs))).

Definition ReplacedBy (a : ActionType) : ActionType := default "" (assoc a replacedActions).
Definition ReverseAction (a : ActionType) : option ActionType := assoc a reverseActions.

(** ** What an operator has to do first *)

Definition RequiresFreshAuth (a : ActionType) : bool :=
  bool_decide (Risk a ∈ [RiskCritical; RiskDestructive]).

Definition RequiresTargetConfirmation (a : ActionType) : bool :=
  if bool_decide (a = ActionSystemShutdown) then true
  else if bool_decide (a = ActionSystemHostnameSet) then true
  else bool_decide (Risk a = RiskDestructive).

(** ** The verifier of a change *)

Definition PanelSettled (v : VerifierName) : bool := bool_decide (v ∈ [VerifierReboot; VerifierAgentVersion]).

Definition KnownVerifier (v : VerifierName) : bool := bool_decide (v ∈
  [VerifierNone; VerifierUnitState; VerifierScheduleEntry; VerifierPackageVersions;
   VerifierPackageHold; VerifierPackageDatabase; VerifierRepository; VerifierFileContent;
   VerifierMountState; VerifierStorageLayout; VerifierHostname; VerifierSysctl;
   VerifierKernelModule; VerifierSSHDConfig; VerifierSSHHostKey; VerifierResolver;
   VerifierTimeSource; VerifierTimezone; VerifierNetworkState; VerifierFirewallRuleset;
   VerifierMACMode; VerifierAuditRules; VerifierTrustAnchor; VerifierCertificate;
   VerifierLocalAccount; VerifierContainerState; VerifierImagePresent; VerifierComposeServices;
   VerifierContainerSpec; VerifierDockerNetwork; VerifierDockerVolume;
   VerifierBackupRun; VerifierRestoreTarget; VerifierDomainMembership; VerifierKeytab;
   VerifierReboot; VerifierAgentVersion]).

Definition Verifier (a : ActionType) : VerifierName :=
  let spec := spec_of a in
  if negb (Known a) || negb (s_mutating spec) || bool_decide (s_verifier spec = "")
  then VerifierNone else s_verifier spec.

Definition OnUnverified (a : ActionType) : UnverifiedPolicy :=
  if bool_decide (s_onUnverified (spec_of a) = UnverifiedRollback) then UnverifiedRollback
  else UnverifiedReport.

(** ** The planner of a change *)

Definition PlanningAction (action : ActionType) : ActionType :=
  let among l := bool_decide (action ∈ l) in
  if among [ActionPackageUpgrade; ActionPackageInstall] then ActionPackagePlan
  else if among [ActionFileEnsure; ActionFileRemove; ActionFileRollback] then ActionFilePlan
  else if among [ActionFirewallRuleEnsure; ActionFirewallRuleRemove; ActionFirewallZonePort;
              ActionFirewallZoneService] then ActionFirewallPlan
  else if among [ActionMountEnsure; ActionMountRemove] then ActionStoragePlan
  else if among [ActionFilesystemCheck; ActionFilesystemResize; ActionLVMExtend] then ActionStoragePlan
  else if among [ActionNetworkProfileApply; ActionNetworkRouteEnsure; ActionNetworkMTUSet;
              ActionNetworkLinkApply; ActionNetworkLinkRemove] then ActionNetworkPlan
  else if among [ActionDNSHostApply] then ActionDNSPlan
  else if among [ActionSSHConfigApply] then ActionSSHConfigPlan
  else if among [ActionKernelModuleBlacklist] then ActionKernelModulePlan
  else if among [ActionTimeConfigApply] then ActionTimePlan
  else if among [ActionCertificateDeploy; ActionCertificateRenew] then ActionCertificatePlan
  else if among [ActionCertificateTrustEnsure; ActionCertificateTrustRemove] then ActionCertificateTrustPlan
  else if among [ActionBackupRun; ActionBackupVerify] then ActionBackupPlan
  else if among [ActionComposeDeploy] then ActionComposePlan
  else if among [ActionDockerContainerEnsure; ActionDockerNetworkEnsure; ActionDockerVolumeEnsure;
              ActionDockerNetworkRemove; ActionDockerVolumeRemove] then ActionDockerPlan
  else "".

Definition PanelPlanned (action : ActionType) : bool := bool_decide (action = ActionSystemHostnameSet).
Definition CampaignPlans (action : ActionType) : bool :=
  bool_decide (PlanningAction action ≠ "") || PanelPlanned action.

(** ** Campaigns *)

Definition CampaignMode (a : ActionType) : CampaignModeName := default CampaignNone (assoc a campaignModes).

Definition CampaignPace (action : ActionType) : Z * Z :=
  if bool_decide (action = ActionRepositorySet) then (50, 5)
  else if bool_decide (action = ActionSystemHostnameSet) then (10, 2)
  else (10, 5).

(** Whether a reason for the exclusion is named. *)
Definition CampaignExcluded (action : ActionType) : bool := bool_decide (action ∈
  [ActionBackupRestore; ActionSecurityRemediate; ActionRAIDMemberFail; ActionRAIDMemberRemove;
   ActionRAIDMemberAdd; ActionLVMVolumeCreate; ActionLVMSnapshotCreate; ActionLVMSnapshotRemove;
   ActionLVMVolumeRemove; ActionLVMGroupExtend]).

Definition ExecutableMode (action : ActionType) : bool :=
  let mode := CampaignMode action in
  if bool_decide (mode = CampaignSamePayload) then true
  else if bool_decide (mode = CampaignPerHostPlan) then CampaignPlans action
  else if bool_decide (mode = CampaignSpecialized)
  then bool_decide (action ∈ [ActionSystemReboot; ActionSecurityRemediate])
  else false.

(** ** Hosts that are offline *)

Inductive offline_error := ErrUnknownOfflinePolicy | ErrOfflinePolicyLoosened | ErrNothingToReplan.

Definition KnownOfflinePolicy (p : OfflinePolicyName) : bool :=
  bool_decide (p ∈ [OfflineRequireOnline; OfflineSkip; OfflineWait; OfflineReplan]).

Definition strictness (p : OfflinePolicyName) : Z :=
  if bool_decide (p = OfflineWait) then 1
  else if bool_decide (p = OfflineReplan) then 2
  else if bool_decide (p = OfflineSkip) then 3
  else if bool_decide (p = OfflineRequireOnline) then 4
  else 0.

Definition Waits (p : OfflinePolicyName) : bool := bool_decide (p ∈ [OfflineWait; OfflineReplan]).

Definition OfflinePolicy (a : ActionType) : OfflinePolicyName :=
  match assoc a offlinePolicies with
  | Some policy => policy
  | None => if bool_decide (PlanningAction a ≠ "") then OfflineReplan
            else if Known a && negb (Mutating a) then OfflineSkip
            else OfflineRequireOnline
  end.

Definition ResolveOfflinePolicy (action : ActionType) (requested : OfflinePolicyName)
  : result offline_error OfflinePolicyName :=
  let declared := OfflinePolicy action in
  if bool_decide (requested = "") then Ok declared
  else if negb (KnownOfflinePolicy requested) then Err ErrUnknownOfflinePolicy
  else if bool_decide (requested = OfflineReplan) && bool_decide (PlanningAction action = "")
  then Err ErrNothingToReplan
  else if bool_decide (strictness requested < strictness declared) then Err ErrOfflinePolicyLoosened
  else Ok requested.

(** ** Reads on many hosts *)

Definition FanOutLimit (a : ActionType) : Z := if Mutating a then 0 else default 0 (assoc a fanOutLimits).

Inductive fan_out_refusal := UnknownOperation | ReadsOnly | LiveView | NotAvailable.

(** [FanOutRefusal]; [None] is the empty reason. *)
Definition FanOutRefusal (action : ActionType) : option fan_out_refusal :=
  if negb (Known action) then Some UnknownOperation
  else if Mutating action then Some ReadsOnly
  else if bool_decide (action = ActionFollowJournal) then Some LiveView
  else if bool_decide (default 0 (assoc action fanOutLimits) = 0) then Some NotAvailable
  else None.

(** ** Contracts *)

Record Contract_ := mkContract_ {
  k_CancelMode : CancelMode;
  k_RetryClass : RetryPolicy;
  k_Rollback : RollbackClass;
  k_Verification : Verification;
  k_ResourceClaims : list ResourceClaim;
}.

(** [sort.Slice] by class; claims of one class are a problem of their own. *)
Definition sort_claims : list ResourceClaim → list ResourceClaim :=
  sort_stable (λ x y, bytes_less (sbytes (cl_Class x)) (sbytes (cl_Class y))).

Definition withClaims (c : contract) (action : ActionType) : Contract_ :=
  let class := LockClass action in
  let claims := if bool_decide (class = LockNone) then []
                else [mkClaim class ClaimExclusive (if bool_decide (c_weight c = 0) then 1 else c_weight c)] in
  mkContract_ (c_cancel c) (c_retry c) (c_rollback c) (c_verify c) (sort_claims (claims ++ c_extra c)).

Definition readClaims (action : ActionType) : list ResourceClaim :=
  let class := LockClass action in
  let own := if bool_decide (class = LockNone) then [] else [mkClaim class ClaimShared 1] in
  let heavy :=
    if bool_decide (action ∈ [ActionReadJournal; ActionFollowJournal; ActionReadLogFile; ActionDockerEvents])
    then [mkClaim ClaimLogsRead ClaimShared 1]
    else if bool_decide (action ∈ [ActionProcessList; ActionDockerRead; ActionInventoryRefresh;
           ActionSecurityScan; ActionCertificateScan; ActionStoragePlan; ActionPackageList; ActionDockerPlan])
    then [mkClaim ClaimInventoryHeavy ClaimShared 1]
    else [] in
  sort_claims (own ++ heavy).

Definition SharedCapacity (class : string) : Z :=
  default 0 (assoc class [(ClaimLogsRead, 4); (ClaimInventoryHeavy, 2)]).

Definition Contract (a : ActionType) : Contract_ :=
  match assoc a contracts with
  | Some declared => withClaims declared a
  | None =>
      if Known a && negb (Mutating a)
      then mkContract_ CancelSafe RetryAutomatic RollbackNone VerifyNone (readClaims a)
      else mkContract_ CancelImpossibleAfterStart RetryReadState RollbackNone VerifyNone []
  end.

Definition CancellableIn (c : Contract_) (started : bool) : bool :=
  if negb started then true else bool_decide (k_CancelMode c = CancelSafe).

Definition KnownCancelMode (m : CancelMode) : bool := bool_decide (m ∈
  [CancelSafe; CancelCheckpointOnly; CancelImpossibleAfterStart; CancelLocalWatchdogOwned]).
Definition KnownRetryPolicy (p : RetryPolicy) : bool := bool_decide (p ∈
  [RetryNever; RetryAutomatic; RetryAfterChange; RetryAfterReplan; RetryReadState]).
Definition KnownRollbackClass (c : RollbackClass) : bool := bool_decide (c ∈
  [RollbackAutomaticLocal; RollbackExactRestore; RollbackCompensating; RollbackBestEffort; RollbackNone]).
Definition KnownVerification (v : Verification) : bool := bool_decide (v ∈
  [VerifyNone; VerifyUnitHealth; VerifyConnectivity; VerifyPlanRecheck; VerifyCustom]).

Definition versionedFamily (action : ActionType) : bool :=
  bool_decide (action ∈ [ActionScheduleEnsure; ActionScheduleDisable; ActionScheduleRemove; ActionComposeDeploy])
  || HasPrefix action "file.".

(** ** The registry's own checks *)

Inductive problem :=
| UndeclaredCancel | UndeclaredRetry | UndeclaredRollback | UndeclaredVerification
| BlindRepeat            (* impossible_after_start with a retry that does not read the state *)
| WatchdogMismatch       (* automatic_local and local_watchdog_owned go together *)
| NoPreviousVersion      (* exact_restore on an operation that keeps none *)
| DestructiveRollback | DestructiveRetry
| RecheckWithoutPlanner | SafeCancelReadState
| ClaimWithoutClass | ClaimBadMode (class : string) | ClaimBadWeight (class : string)
| ClaimTwice (class : string) | ClaimShared_ (class : string) | LockNotClaimed
| NoContract | ContractUnknown | ContractForRead
| VerifierOnRead | NoVerifier | UndeclaredVerifier | RollbackNoVerifier | RollbackNoWayBack.

#[export] Instance problem_eq_dec : EqDecision problem. Proof. solve_decision. Defined.

(** [if condition { problems = append(problems, p) }]. *)
Definition when (condition : bool) (p : problem) : list problem := if condition then [p] else [].

(** The loop over the claims: what it has seen and whether the lock class is
    claimed. *)
Fixpoint claim_problems (action : ActionType) (seen : list string) (lockClaimed : bool)
    (claims : list ResourceClaim) : list problem :=
  match claims with
  | [] => when (negb lockClaimed) LockNotClaimed
  | claim :: rest =>
      let class := cl_Class claim in
      if bool_decide (class = "") then ClaimWithoutClass :: claim_problems action seen lockClaimed rest
      else
        when (negb (bool_decide (cl_Mode claim ∈ [ClaimShared; ClaimExclusive]))) (ClaimBadMode class)
        ++ when (bool_decide (cl_Weight claim < 1)) (ClaimBadWeight class)
        ++ when (bool_decide (class ∈ seen)) (ClaimTwice class)
        ++ when (bool_decide (cl_Mode claim = ClaimShared)) (ClaimShared_ class)
        ++ claim_problems action (class :: seen)
             (lockClaimed || (bool_decide (class = LockClass action) && bool_decide (cl_Mode claim = ClaimExclusive)))
             rest
  end.

Definition contractProblems (action : ActionType) (c : Contract_) : list problem :=
  let destructive := bool_decide (Risk action = RiskDestructive) in
  when (negb (KnownCancelMode (k_CancelMode c))) UndeclaredCancel
  ++ when (negb (KnownRetryPolicy (k_RetryClass c))) UndeclaredRetry
  ++ when (negb (KnownRollbackClass (k_Rollback c))) UndeclaredRollback
  ++ when (negb (KnownVerification (k_Verification c))) UndeclaredVerification
  ++ when (bool_decide (k_CancelMode c = CancelImpossibleAfterStart)
           && negb (bool_decide (k_RetryClass c ∈ [RetryReadState; RetryNever]))) BlindRepeat
  ++ when (negb (Bool.eqb (bool_decide (k_Rollback c = RollbackAutomaticLocal))
                          (bool_decide (k_CancelMode c = CancelLocalWatchdogOwned)))) WatchdogMismatch
  ++ when (bool_decide (k_Rollback c = RollbackExactRestore) && bool_decide (PlanningAction action = "")
           && negb (versionedFamily action)) NoPreviousVersion
  ++ when (destructive && bool_decide (k_Rollback c ∈ [RollbackExactRestore; RollbackAutomaticLocal]))
          DestructiveRollback
  ++ when (destructive && bool_decide (k_RetryClass c = RetryAutomatic)) DestructiveRetry
  ++ when (bool_decide (k_Verification c = VerifyPlanRecheck) && bool_decide (PlanningAction action = ""))
          RecheckWithoutPlanner
  ++ when (bool_decide (k_CancelMode c = CancelSafe) && bool_decide (k_RetryClass c = RetryReadState))
          SafeCancelReadState
  ++ claim_problems action [] (bool_decide (LockClass action = LockNone)) (k_ResourceClaims c).

(** Both checks: no error when there is no problem. *)
Definition ValidateContracts : list (ActionType * problem) :=
  mjoin ((λ action,
    if negb (Mutating action) then []
    else match assoc action contracts with
         | None => [(action, NoContract)]
         | Some declared => (λ p, (action, p)) <$> contractProblems action (withClaims declared action)
         end) <$> AllActions)
  ++ mjoin ((λ action,
       if negb (Known action) then [(action, ContractUnknown)]
       else if negb (Mutating action) then [(action, ContractForRead)] else []) <$> contracts.*1).

Definition verifier_problems (action : ActionType) : list problem :=
  let spec := spec_of action in
  if negb (s_mutating spec)
  then when (negb (bool_decide (s_verifier spec = "")) && negb (bool_decide (s_verifier spec = VerifierNone)))
            VerifierOnRead
  else if bool_decide (s_verifier spec = "") then [NoVerifier]
  else
    let rolls_back := bool_decide (s_onUnverified spec = UnverifiedRollback) in
    when (negb (KnownVerifier (s_verifier spec))) UndeclaredVerifier
    ++ when (rolls_back && bool_decide (s_verifier spec = VerifierNone)) RollbackNoVerifier
    ++ when (rolls_back && bool_decide (k_Rollback (Contract action) = RollbackNone)) RollbackNoWayBack.

Definition ValidateVerifiers : list (ActionType * problem) :=
  mjoin ((λ action, (λ p, (action, p)) <$> verifier_problems action) <$> AllActions).

(** ** The window of a capability, in seconds *)

Inductive window_class := ClassDefault | ClassPackages | ClassStorageDestructive.

#[export] Instance window_class_eq_dec : EqDecision window_class. Proof. solve_decision. Defined.

Definition MaxTTL (c : window_class) : Z :=
  match c with ClassDefault => 5 * 60 | ClassPackages => 10 * 60 | ClassStorageDestructive => 2 * 60 end.

Definition ClassOf (action : ActionType) : window_class :=
  if bool_decide (LockClass action = LockPackages) then ClassPackages
  else if bool_decide (LockClass action = LockStorage) && bool_decide (Risk action = RiskDestructive)
  then ClassStorageDestructive
  else ClassDefault.

Definition TTLOf (action : ActionType) : Z := MaxTTL (ClassOf action).
