(* ===== verification/RegistryProps.v ===== *)
(** * RegistryProps: the registry keeps what the panel relies on

    The self-checks of the registry find nothing, and what they check is what
    it means to: every operation that changes a host declares a contract that
    is safe to act on. A campaign never loosens what an operation declares
    for an offline host, never runs a destructive operation in bulk, and a
    fan-out covers reads only. *)
From S2P Require Import Prelude Bytes Text Actions ActionTables Registry.

Open Scope Z_scope.

(** ** From the rows to every operation *)

Lemma Known_elem a : Known a = true ↔ a ∈ actionSpecs.*1.
Proof. unfold Known. by rewrite bool_decide_eq_true, assoc_is_Some. Qed.

Lemma AllActions_elem a : a ∈ AllActions ↔ Known a = true.
Proof. unfold AllActions, sorted. rewrite Known_elem, sort_stable_perm. done. Qed.

(** A decidable fact about every row is a fact about every known operation. *)
Lemma Known_all (P : ActionType → bool) a : forallb P actionSpecs.*1 = true → Known a = true → P a = true.
Proof. intros HP Ha%bool_decide_eq_true. by eapply assoc_all. Qed.

Lemma Mutating_Known a : Mutating a = true → Known a = true.
Proof. unfold Mutating. by intros [? _]%andb_true_iff. Qed.

Ltac known_row H := lazymatch type of H with Known ?a = true =>
  lazymatch goal with |- ?P = true => pattern a; refine (Known_all (λ a, _) a _ H); vm_compute; reflexivity end end.

(** ** Problems *)

Lemma when_nil c p : when c p = [] ↔ c = false.
Proof. by destruct c. Qed.

Lemma mjoin_nil {A B} (f : A → list B) l : mjoin (f <$> l) = [] ↔ ∀ x, x ∈ l → f x = [].
Proof.
  induction l as [|x l IH]; cbn; [split; [by intros _ ? ?%elem_of_nil|done]|].
  split.
  - intros [Hx Hl]%app_eq_nil y [->|Hy]%elem_of_cons; [done|]. by apply IH.
  - intros H. rewrite (H x) by by left. apply IH. intros y Hy. apply H. by right.
Qed.

(** What a declaration has to satisfy. *)
Record disciplined (a : ActionType) (c : Contract_) : Prop := {
  d_retry : k_CancelMode c = CancelImpossibleAfterStart → (k_RetryClass c ∈ [RetryReadState; RetryNever]);
  d_watchdog : k_Rollback c = RollbackAutomaticLocal ↔ k_CancelMode c = CancelLocalWatchdogOwned;
  d_restore : k_Rollback c = RollbackExactRestore → PlanningAction a ≠ "" ∨ versionedFamily a = true;
  d_destructive : Risk a = RiskDestructive →
    (k_Rollback c ∉ [RollbackExactRestore; RollbackAutomaticLocal]) ∧ k_RetryClass c ≠ RetryAutomatic;
  d_recheck : k_Verification c = VerifyPlanRecheck → PlanningAction a ≠ "";
  d_exclusive : Forall (λ claim, cl_Class claim ≠ "" ∧ cl_Mode claim = ClaimExclusive ∧ 1 ≤ cl_Weight claim)
                       (k_ResourceClaims c);
  d_nodup : NoDup (cl_Class <$> k_ResourceClaims c);
  d_lock : LockClass a ≠ LockNone → LockClass a ∈ cl_Class <$> k_ResourceClaims c;
}.

Lemma claim_problems_sound a seen locked claims :
  claim_problems a seen locked claims = [] →
  Forall (λ claim, cl_Class claim ≠ "" ∧ cl_Mode claim = ClaimExclusive ∧ 1 ≤ cl_Weight claim) claims
  ∧ NoDup (cl_Class <$> claims) ∧ (∀ c, c ∈ seen → c ∉ cl_Class <$> claims)
  ∧ (locked = false → LockClass a ∈ cl_Class <$> claims).
Proof.
  revert seen locked. induction claims as [|claim claims IH]; intros seen locked; cbn [claim_problems].
  { rewrite when_nil. intros Hl%negb_false_iff. cbn. split_and!; [constructor|constructor| |congruence].
    intros c _. apply not_elem_of_nil. }
  case_bool_decide as Hc; [done|]. cbv zeta. intros (H1 & (H2 & (H3 & (H4 & H5)%app_eq_nil)%app_eq_nil)%app_eq_nil)%app_eq_nil.
  apply when_nil in H1, H2, H3, H4. apply negb_false_iff, bool_decide_eq_true in H1.
  apply bool_decide_eq_false in H2, H3, H4.
  destruct (IH _ _ H5) as (Hf & Hn & Hs & Hl). cbn [fmap list_fmap].
  assert (Hm : cl_Mode claim = ClaimExclusive) by set_solver.
  split_and!.
  - constructor; [split_and!; [done|done|lia]|done].
  - constructor; [|done]. apply Hs. by left.
  - intros c Hcs. rewrite not_elem_of_cons. split; [by intros ->|]. apply Hs. by right.
  - intros ->. rewrite elem_of_cons. destruct (decide (LockClass a = cl_Class claim)) as [->|Hne]; [by left|right].
    apply Hl. cbn. by rewrite bool_decide_eq_false_2.
Qed.

(** The check says what it means to say. *)
Lemma contractProblems_sound a c : contractProblems a c = [] → disciplined a c.
Proof.
  unfold contractProblems. cbv zeta. intros H.
  do 4 (apply app_eq_nil in H as [_ H]).
  apply app_eq_nil in H as [H4%when_nil H]. apply app_eq_nil in H as [H5%when_nil H].
  apply app_eq_nil in H as [H6%when_nil H]. apply app_eq_nil in H as [H7%when_nil H].
  apply app_eq_nil in H as [H8%when_nil H]. apply app_eq_nil in H as [H9%when_nil H].
  apply app_eq_nil in H as [_ H]. apply claim_problems_sound in H as (Hf & Hn & _ & Hl).
  split; [..|done|done|].
  - intros Hc. rewrite (bool_decide_eq_true_2 _ Hc) in H4. cbn in H4.
    by apply negb_false_iff, bool_decide_eq_true in H4.
  - apply negb_false_iff, eqb_prop in H5. 
    rewrite <- (bool_decide_eq_true (k_Rollback c = _)), <- (bool_decide_eq_true (k_CancelMode c = _)). by rewrite H5.
  - intros Hr. rewrite (bool_decide_eq_true_2 _ Hr) in H6. cbn in H6.
    apply andb_false_iff in H6 as [Hp|Hp]; [left; by apply bool_decide_eq_false in Hp|right; by apply negb_false_iff].
  - intros Hd. rewrite (bool_decide_eq_true_2 _ Hd) in H7, H8. cbn in H7, H8.
    by apply bool_decide_eq_false in H7, H8.
  - intros Hv. rewrite (bool_decide_eq_true_2 _ Hv) in H9. cbn in H9. by apply bool_decide_eq_false in H9.
  - intros Hne. apply Hl. by apply bool_decide_eq_false_2.
Qed.

Lemma registry_checks : ValidateContracts = [] ∧ ValidateVerifiers = [].
Proof. split; vm_compute; reflexivity. Qed.

Lemma declared_disciplined a : Mutating a = true → disciplined a (Contract a).
Proof.
  intros Ha. destruct registry_checks as [[Hc _]%app_eq_nil _].
  rewrite mjoin_nil in Hc. specialize (Hc a ltac:(by apply AllActions_elem, Mutating_Known)).
  cbv beta in Hc. rewrite Ha in Hc. cbn [negb] in Hc. unfold Contract.
  destruct (assoc a contracts) as [declared|]; [|done].
  apply contractProblems_sound. by apply fmap_nil_inv in Hc.
Qed.

(** The self-checks of the registry find nothing to complain about, and
    every operation that changes a host therefore declares a contract that is
    safe to act on: what cannot be stopped is never repeated blind, the host's
    own watchdog and its own rollback go together, an exact restore and a
    plan recheck have something to come from, a destructive operation promises
    no way back and is not repeated by itself, and every resource is claimed
    once, exclusively, the lock class among them. *)
Theorem registry_is_disciplined :
  ValidateContracts = [] ∧ ValidateVerifiers = [] ∧ (∀ a, Mutating a = true → disciplined a (Contract a)).
Proof. split; [|split]; [apply registry_checks..|exact declared_disciplined]. Qed.

(** ** Offline hosts *)

Lemma declared_replan a : OfflinePolicy a = OfflineReplan → PlanningAction a ≠ "".
Proof.
  unfold OfflinePolicy. destruct (assoc a offlinePolicies) as [p|] eqn:Ha.
  - intros ->. apply assoc_elem in Ha.
    assert (Hn : forallb (λ r, negb (bool_decide (r.2 = OfflineReplan))) offlinePolicies = true) by (vm_compute; done).
    rewrite forallb_forall in Hn. apply list_elem_of_In, Hn in Ha. by apply negb_true_iff, bool_decide_eq_false in Ha.
  - destruct (bool_decide (PlanningAction a ≠ "")) eqn:Hp; [by apply bool_decide_eq_true in Hp|].
    by destruct (Known a && negb (Mutating a)).
Qed.

Lemma declared_known a : KnownOfflinePolicy (OfflinePolicy a) = true.
Proof.
  unfold OfflinePolicy. destruct (assoc a offlinePolicies) as [p|] eqn:Ha.
  - apply assoc_elem in Ha.
    assert (Hn : forallb (λ r, KnownOfflinePolicy r.2) offlinePolicies = true) by (vm_compute; done).
    rewrite forallb_forall in Hn. by apply list_elem_of_In, Hn in Ha.
  - destruct (bool_decide (PlanningAction a ≠ "")); [done|]. by destruct (Known a && negb (Mutating a)).
Qed.

Lemma strictness_Waits p : KnownOfflinePolicy p = true → Waits p = bool_decide (strictness p ≤ 2).
Proof.
  intros Hk%bool_decide_eq_true. repeat (apply elem_of_cons in Hk as [->|Hk]; [vm_compute; done|]).
  by apply elem_of_nil in Hk.
Qed.

(** A campaign only tightens: the policy it runs under is one the registry
    knows, is the operation's own or the one that was asked for, keeps an
    offline host waiting only where the operation itself does, and computes
    plans again only for an operation that has a planner. *)
Theorem ResolveOfflinePolicy_tightens a requested p :
  ResolveOfflinePolicy a requested = Ok p →
  (p = if bool_decide (requested = "") then OfflinePolicy a else requested)
  ∧ KnownOfflinePolicy p = true
  ∧ strictness (OfflinePolicy a) ≤ strictness p
  ∧ (Waits p = true → Waits (OfflinePolicy a) = true)
  ∧ (p = OfflineReplan → PlanningAction a ≠ "").
Proof.
  unfold ResolveOfflinePolicy. cbv zeta. destruct (bool_decide (requested = "")) eqn:Hr.
  { intros [= <-]. split_and!; [done|apply declared_known|lia|done|apply declared_replan]. }
  destruct (KnownOfflinePolicy requested) eqn:Hk; cbn [negb]; [|done].
  destruct (bool_decide (requested = OfflineReplan) && bool_decide (PlanningAction a = "")) eqn:Hp; [done|].
  destruct (bool_decide (strictness requested < strictness (OfflinePolicy a))) eqn:Hs; [done|].
  intros [= <-]. apply bool_decide_eq_false in Hs. split_and!; [done|done|lia| |].
  - rewrite !strictness_Waits by (done || apply declared_known). rewrite !bool_decide_eq_true. lia.
  - intros ->. cbn in Hp. by apply bool_decide_eq_false in Hp.
Qed.

Lemma ResolveOfflinePolicy_tightens_witness :
  (ResolveOfflinePolicy ActionDiskWipe OfflineWait = Err ErrOfflinePolicyLoosened)
  ∧ ResolveOfflinePolicy ActionUnitRestart OfflineSkip = Ok OfflineSkip
  ∧ strictness (OfflinePolicy ActionUnitRestart) ≤ strictness OfflineSkip.
Proof.
  split; [vm_compute; reflexivity|]. split; [vm_compute; reflexivity|].
  refine (proj1 (proj2 (proj2 (ResolveOfflinePolicy_tightens ActionUnitRestart OfflineSkip OfflineSkip _)))).
  vm_compute. reflexivity.
Defined.

(** ** Many hosts at once *)

Lemma campaign_row a : CampaignMode a ≠ CampaignNone → a ∈ campaignModes.*1.
Proof.
  unfold CampaignMode. intros Ha. apply assoc_is_Some. destruct (assoc a campaignModes); [by eexists|done].
Qed.

Lemma row_all {A} (l : list (ActionType * A)) (P : ActionType → bool) a :
  forallb P l.*1 = true → a ∈ l.*1 → P a = true.
Proof. rewrite forallb_forall. intros HP Ha%list_elem_of_In. by apply HP. Qed.

Lemma fan_out_row a : 0 < default 0 (assoc a fanOutLimits) → Known a && negb (Mutating a)
  && negb (bool_decide (a = ActionFollowJournal)) = true.
Proof.
  intros Ha. refine (row_all fanOutLimits (λ a, Known a && negb (Mutating a) && negb (bool_decide (a = ActionFollowJournal))) a _ _);
    [by vm_compute|].
  apply assoc_is_Some. destruct (assoc a fanOutLimits); [by eexists|done].
Qed.

Lemma fan_out_nonneg a : 0 ≤ default 0 (assoc a fanOutLimits).
Proof.
  destruct (assoc a fanOutLimits) as [n|] eqn:Ha; [|done]. cbn. apply assoc_elem in Ha.
  assert (Hn : forallb (λ r, bool_decide (0 ≤ r.2)) fanOutLimits = true) by (vm_compute; done).
  rewrite forallb_forall in Hn. apply list_elem_of_In, Hn in Ha. by apply bool_decide_eq_true in Ha.
Qed.

(** Whatever may run on many hosts at once is harmless enough for it: an
    operation with a campaign mode is a change the registry knows and is not
    destructive; one whose diff differs per host has a planner that is a read
    the registry knows, or is split by the panel; and a read fans out exactly
    when its limit is positive, which no change has. *)
Theorem bulk_operations_are_safe a :
  (CampaignMode a ≠ CampaignNone → Mutating a = true ∧ Risk a ≠ RiskDestructive)
  ∧ (CampaignMode a = CampaignPerHostPlan → ExecutableMode a = true
     ∧ (PanelPlanned a = true ∨ Known (PlanningAction a) = true ∧ Mutating (PlanningAction a) = false))
  ∧ (FanOutRefusal a = None ↔ 0 < FanOutLimit a)
  ∧ (Mutating a = true → FanOutLimit a = 0).
Proof.
  split; [|split; [|split]].
  - intros Ha%campaign_row.
    pose proof (row_all campaignModes (λ a, Mutating a && negb (bool_decide (Risk a = RiskDestructive))) a
      ltac:(by vm_compute) Ha) as H.
    apply andb_true_iff in H as [? H]. by apply negb_true_iff, bool_decide_eq_false in H.
  - intros Hm. assert (Ha : a ∈ campaignModes.*1) by (apply campaign_row; by rewrite Hm).
    pose proof (row_all campaignModes (λ a, negb (bool_decide (CampaignMode a = CampaignPerHostPlan)) ||
      ExecutableMode a && (PanelPlanned a || Known (PlanningAction a) && negb (Mutating (PlanningAction a)))) a
      ltac:(by vm_compute) Ha) as H.
    cbv beta in H. rewrite Hm in H. apply andb_true_iff in H as [? H]. split; [done|].
    apply orb_true_iff in H as [?|[? ?%negb_true_iff]%andb_true_iff]; auto.
  - unfold FanOutRefusal, FanOutLimit. pose proof (fan_out_row a) as Hrow. pose proof (fan_out_nonneg a).
    destruct (Known a) eqn:Hk; cbn [negb].
    + destruct (Mutating a); [split; [done|lia]|].
      destruct (bool_decide (a = ActionFollowJournal)); [split; [done|by intros ?%Hrow]|].
      destruct (bool_decide (default 0 (assoc a fanOutLimits) = 0)) eqn:Hz.
      * apply bool_decide_eq_true in Hz. rewrite Hz. split; [done|lia].
      * apply bool_decide_eq_false in Hz. split; [lia|done].
    + split; [done|]. destruct (Mutating a) eqn:Hm; [apply Mutating_Known in Hm; congruence|by intros ?%Hrow].
  - unfold FanOutLimit. by intros ->.
Qed.

Lemma bulk_operations_are_safe_witness :
  FanOutLimit ActionUnitRestart = 0
  ∧ (Known (PlanningAction ActionFileEnsure) = true ∧ Mutating (PlanningAction ActionFileEnsure) = false).
Proof.
  split.
  - apply (bulk_operations_are_safe ActionUnitRestart). vm_compute. reflexivity.
  - destruct (bulk_operations_are_safe ActionFileEnsure) as (_ & H & _).
    destruct H as [_ [H|H]]; [vm_compute; reflexivity|vm_compute in H; discriminate|exact H].
Defined.
