(* ===== verification/AuthzTables.v ===== *)
(** * AuthzTables: the permissions and the roles of the product

    The constants and the tables of src/internal/authz/model.go. *)
From S2P Require Import Prelude.

Open Scope string_scope.

Definition Permission : Type := string.
Definition Role : Type := string.

(** ** Permissions *)

Definition PermHostRead : Permission := "host.read".
Definition PermInventoryRead : Permission := "inventory.read".
Definition PermInventoryRefresh : Permission := "inventory.refresh".
Definition PermAuditRead : Permission := "audit.read".
Definition PermJobRead : Permission := "job.read".
Definition PermJobCreate : Permission := "job.create".
Definition PermJobApprove : Permission := "job.approve".
Definition PermJobCancel : Permission := "job.cancel".
Definition PermHostEnrollCreate : Permission := "host.enroll.create".
Definition PermHostEnrollRead : Permission := "host.enroll.read".
Definition PermHostEnrollRevoke : Permission := "host.enroll.revoke".
Definition PermHostEnrollBatch : Permission := "host.enroll.batch".
Definition PermRelayEnrollCreate : Permission := "relay.enroll.create".
Definition PermRelayManage : Permission := "relay.manage".
Definition PermHostIdentityReplace : Permission := "host.identity.replace".
Definition PermHostQuarantine : Permission := "host.quarantine".
Definition PermHostQuarantineRelease : Permission := "host.quarantine.release".
Definition PermHostDecommission : Permission := "host.decommission".
Definition PermPrincipalManage : Permission := "principal.manage".
Definition PermHostScopeWrite : Permission := "host.scope.write".
Definition PermTeamBindingWrite : Permission := "team.binding.write".
Definition PermUnitStart : Permission := "unit.start".
Definition PermUnitStop : Permission := "unit.stop".
Definition PermUnitRestart : Permission := "unit.restart".
Definition PermUnitReload : Permission := "unit.reload".
Definition PermJournalRead : Permission := "journal.read".
Definition PermPackagesPlan : Permission := "packages.plan".
Definition PermPackagesUpgrade : Permission := "packages.upgrade".
Definition PermAgentUpgrade : Permission := "agent.upgrade".
Definition PermPackagesRepair : Permission := "packages.repair".
Definition PermSystemReboot : Permission := "system.reboot".
Definition PermUnitStatus : Permission := "unit.status".
Definition PermUnitEnableWrite : Permission := "unit.enable.write".
Definition PermUnitMaskWrite : Permission := "unit.mask.write".
Definition PermUnitResetFailed : Permission := "unit.reset_failed".
Definition PermLogFileRead : Permission := "logfile.read".
Definition PermJournalFollow : Permission := "journal.follow".
Definition PermProcessRead : Permission := "process.read".
Definition PermProcessSignal : Permission := "process.signal".
Definition PermPackagesRead : Permission := "packages.read".
Definition PermPackagesInstall : Permission := "packages.install".
Definition PermPackagesRemove : Permission := "packages.remove".
Definition PermPackagesHold : Permission := "packages.hold.write".
Definition PermPackagesRepository : Permission := "packages.repository.write".
Definition PermScheduleWrite : Permission := "schedule.write".
Definition PermScheduleDisable : Permission := "schedule.disable".
Definition PermScheduleRemove : Permission := "schedule.remove".
Definition PermScheduleRun : Permission := "schedule.run".
Definition PermSchedulePreview : Permission := "schedule.preview".
Definition PermScheduleRootExec : Permission := "schedule.root.exec".
Definition PermFileWriteUnvalidated : Permission := "file.write.unvalidated".
Definition PermNetworkRead : Permission := "network.read".
Definition PermNetworkWrite : Permission := "network.write".
Definition PermNetworkRouteWrite : Permission := "network.route.write".
Definition PermNetworkMTUWrite : Permission := "network.mtu.write".
Definition PermNetworkRollback : Permission := "network.rollback".
Definition PermNetworkLinkWrite : Permission := "network.link.write".
Definition PermNetworkLinkRemove : Permission := "network.link.remove".
Definition PermDNSRead : Permission := "dns.read".
Definition PermDNSPlan : Permission := "dns.plan".
Definition PermDNSHostWrite : Permission := "dns.host.write".
Definition PermDNSDirectoryWrite : Permission := "dns.directory.write".
Definition PermFirewallRead : Permission := "firewall.read".
Definition PermFirewallWrite : Permission := "firewall.write".
Definition PermFirewallRuleRemove : Permission := "firewall.rule.remove".
Definition PermFirewallZoneWrite : Permission := "firewall.zone.write".
Definition PermFirewallServiceWrite : Permission := "firewall.service.write".
Definition PermFirewallRestore : Permission := "firewall.restore".
Definition PermStorageRead : Permission := "storage.read".
Definition PermStorageMountWrite : Permission := "storage.mount.write".
Definition PermStorageMountRemove : Permission := "storage.mount.remove".
Definition PermStorageFsck : Permission := "storage.fsck".
Definition PermStorageSmartRead : Permission := "storage.smart.read".
Definition PermStorageLVMWrite : Permission := "storage.lvm.write".
Definition PermStorageFilesystemWrite : Permission := "storage.filesystem.write".
Definition PermStorageDestructive : Permission := "storage.destructive".
Definition PermStorageWipe : Permission := "storage.wipe".
Definition PermStorageRAIDFail : Permission := "storage.raid.fail".
Definition PermStorageRAIDRemove : Permission := "storage.raid.remove".
Definition PermStorageRAIDAdd : Permission := "storage.raid.add".
Definition PermStorageLVMVolumeCreate : Permission := "storage.lvm.volume.create".
Definition PermStorageLVMVolumeRemove : Permission := "storage.lvm.volume.remove".
Definition PermStorageLVMGroupExtend : Permission := "storage.lvm.group.extend".
Definition PermStorageLVMSnapshotCreate : Permission := "storage.lvm.snapshot.create".
Definition PermStorageLVMSnapshotRemove : Permission := "storage.lvm.snapshot.remove".
Definition PermSSHRead : Permission := "ssh.read".
Definition PermSSHConfigWrite : Permission := "ssh.config.write".
Definition PermSSHHostKeyRotate : Permission := "ssh.hostkey.rotate".
Definition PermSecurityRead : Permission := "security.read".
Definition PermSecurityScan : Permission := "security.scan".
Definition PermSecurityRemediate : Permission := "security.remediate".
Definition PermSecurityMACWrite : Permission := "security.mac.write".
Definition PermSecurityAuditReload : Permission := "security.audit.reload".
Definition PermBackupRead : Permission := "backup.read".
Definition PermBackupRun : Permission := "backup.run".
Definition PermBackupVerify : Permission := "backup.verify".
Definition PermBackupRestore : Permission := "backup.restore".
Definition PermVulnerabilityRead : Permission := "vulnerability.read".
Definition PermMonitoringRead : Permission := "monitoring.read".
Definition PermMonitoringProbe : Permission := "monitoring.probe".
Definition PermMonitoringSilence : Permission := "monitoring.silence.write".
Definition PermMonitoringRulesWrite : Permission := "monitoring.rules.write".
Definition PermNotificationRead : Permission := "notification.read".
Definition PermNotificationManage : Permission := "notification.manage".
Definition PermHostMaintenanceWrite : Permission := "host.maintenance.write".
Definition PermHostTagWrite : Permission := "host.tag.write".
Definition PermHostGroupWrite : Permission := "host.group.write".
Definition PermSystemShutdown : Permission := "system.shutdown".
Definition PermSystemHostnameWrite : Permission := "system.hostname.write".
Definition PermTimeRead : Permission := "time.read".
Definition PermTimePlan : Permission := "time.plan".
Definition PermTimeWrite : Permission := "time.write".
Definition PermTimezoneWrite : Permission := "time.timezone.write".
Definition PermKernelRead : Permission := "kernel.read".
Definition PermKernelModulePlan : Permission := "kernel.module.plan".
Definition PermKernelSysctlWrite : Permission := "kernel.sysctl.write".
Definition PermKernelModuleWrite : Permission := "kernel.module.write".
Definition PermKernelModuleBlacklist : Permission := "kernel.module.blacklist".
Definition PermFileRead : Permission := "file.read".
Definition PermFilePlan : Permission := "file.plan".
Definition PermFileWrite : Permission := "file.write".
Definition PermFileRemove : Permission := "file.remove".
Definition PermFileRollback : Permission := "file.rollback".
Definition PermDockerRead : Permission := "docker.read".
Definition PermDockerEvents : Permission := "docker.events".
Definition PermDockerLogs : Permission := "docker.container.logs".
Definition PermDockerStart : Permission := "docker.container.start".
Definition PermDockerStop : Permission := "docker.container.stop".
Definition PermDockerRestart : Permission := "docker.container.restart".
Definition PermDockerRemove : Permission := "docker.container.remove".
Definition PermDockerPull : Permission := "docker.image.pull".
Definition PermDockerPrune : Permission := "docker.prune".
Definition PermDockerPlan : Permission := "docker.plan".
Definition PermDockerContainerEnsure : Permission := "docker.container.ensure".
Definition PermDockerNetworkEnsure : Permission := "docker.network.ensure".
Definition PermDockerNetworkRemove : Permission := "docker.network.remove".
Definition PermDockerVolumeEnsure : Permission := "docker.volume.ensure".
Definition PermDockerVolumeRemove : Permission := "docker.volume.remove".
Definition PermComposePlan : Permission := "docker.compose.plan".
Definition PermComposeDeploy : Permission := "docker.compose.deploy".
Definition PermCampaignRead : Permission := "campaign.read".
Definition PermCampaignCreate : Permission := "campaign.create".
Definition PermCampaignApprove : Permission := "campaign.approve".
Definition PermCampaignControl : Permission := "campaign.control".
Definition PermBudgetRead : Permission := "budget.read".
Definition PermBudgetWrite : Permission := "budget.write".
Definition PermPolicyRead : Permission := "policy.read".
Definition PermPolicyWrite : Permission := "policy.write".
Definition PermPolicyPublish : Permission := "policy.publish".
Definition PermPolicyRemediateAuto : Permission := "policy.remediate.auto".
Definition PermIdentityRead : Permission := "identity.read".
Definition PermIdentityPolicyRead : Permission := "identity.policy.read".
Definition PermIdentityUserWrite : Permission := "identity.user.write".
Definition PermIdentityGroupWrite : Permission := "identity.group.write".
Definition PermIdentityPolicyWrite : Permission := "identity.policy.write".
Definition PermIdentityHostEnroll : Permission := "identity.host.enroll".
Definition PermIdentityHostLeave : Permission := "identity.host.leave".
Definition PermIdentityKeytabRotate : Permission := "identity.keytab.rotate".
Definition PermLocalUserRead : Permission := "localuser.read".
Definition PermLocalUserCreate : Permission := "localuser.create".
Definition PermLocalUserLock : Permission := "localuser.lock".
Definition PermLocalUserUnlock : Permission := "localuser.unlock".
Definition PermLocalSSHKeyWrite : Permission := "localuser.sshkeys.write".
Definition PermLocalSSHKeyAdd : Permission := "localuser.sshkeys.add".
Definition PermLocalSSHKeyRemove : Permission := "localuser.sshkeys.remove".
Definition PermLocalSSHKeyReplace : Permission := "localuser.sshkeys.replace".
Definition PermAccountsPrivilegedGroups : Permission := "accounts.privileged_groups".
Definition PermLocalUserGroupsWrite : Permission := "localuser.groups.write".
Definition PermLocalUserExpiryWrite : Permission := "localuser.expiry.write".
Definition PermLocalUserDelete : Permission := "localuser.delete".
Definition PermMetricsRead : Permission := "metrics.read".
Definition PermSecretRead : Permission := "secret.read".
Definition PermSecretWrite : Permission := "secret.write".
Definition PermSecretDestroy : Permission := "secret.destroy".
Definition PermCertificatePlan : Permission := "certificate.plan".
Definition PermCertificateRead : Permission := "certificate.read".
Definition PermCertificateWatch : Permission := "certificate.watch".
Definition PermCertificateDeploy : Permission := "certificate.deploy".
Definition PermCertificateTrustPlan : Permission := "certificate.trust.plan".
Definition PermCertificateTrustWrite : Permission := "certificate.trust.write".
Definition PermCertificateTrustRemove : Permission := "certificate.trust.remove".
Definition PermCertificateRenew : Permission := "certificate.renew".
Definition PermPKIRead : Permission := "pki.read".
Definition PermPKIRotate : Permission := "pki.rotate".
Definition PermSettingsRead : Permission := "settings.read".
Definition PermSettingsAdvertiseWrite : Permission := "settings.advertise.write".
Definition PermSettingsLayoutWrite : Permission := "settings.layout.write".
Definition PermSupportBundleCreate : Permission := "support.bundle.create".
Definition PermSupportBundleRead : Permission := "support.bundle.read".

(** ** Roles *)

Definition RoleViewer : Role := "viewer".
Definition RoleAuditor : Role := "auditor".
Definition RoleOperator : Role := "operator".
Definition RoleApprover : Role := "approver".
Definition RoleIdentityAdmin : Role := "identity_admin".
Definition RolePlatformAdmin : Role := "platform_admin".

(** ** The catalogue *)

Definition allPermissions : list Permission := [
   PermHostRead; PermInventoryRead; PermInventoryRefresh; PermAuditRead; PermJobRead; PermJobCreate;
   PermJobApprove; PermJobCancel; PermHostEnrollCreate; PermHostEnrollRead; PermHostEnrollRevoke;
   PermHostEnrollBatch; PermRelayEnrollCreate; PermRelayManage; PermHostIdentityReplace; PermHostQuarantine;
   PermHostQuarantineRelease; PermHostDecommission; PermPrincipalManage; PermHostScopeWrite;
   PermTeamBindingWrite; PermUnitStart; PermUnitStop; PermUnitRestart; PermUnitReload; PermJournalRead;
   PermPackagesPlan; PermPackagesUpgrade; PermAgentUpgrade; PermPackagesRepair; PermSystemReboot;
   PermUnitStatus; PermUnitEnableWrite; PermUnitMaskWrite; PermUnitResetFailed; PermLogFileRead;
   PermJournalFollow; PermProcessRead; PermProcessSignal; PermPackagesRead; PermPackagesInstall;
   PermPackagesRemove; PermPackagesHold; PermPackagesRepository; PermScheduleWrite; PermScheduleDisable;
   PermScheduleRemove; PermScheduleRun; PermSchedulePreview; PermScheduleRootExec; PermFileWriteUnvalidated;
   PermNetworkRead; PermNetworkWrite; PermNetworkRouteWrite; PermNetworkMTUWrite; PermNetworkRollback;
   PermNetworkLinkWrite; PermNetworkLinkRemove; PermDNSRead; PermDNSPlan; PermDNSHostWrite;
   PermDNSDirectoryWrite; PermFirewallRead; PermFirewallWrite; PermFirewallRuleRemove; PermFirewallZoneWrite;
   PermFirewallServiceWrite; PermFirewallRestore; PermStorageRead; PermStorageMountWrite;
   PermStorageMountRemove; PermStorageFsck; PermStorageSmartRead; PermStorageLVMWrite;
   PermStorageFilesystemWrite; PermStorageDestructive; PermStorageWipe; PermStorageRAIDFail;
   PermStorageRAIDRemove; PermStorageRAIDAdd; PermStorageLVMVolumeCreate; PermStorageLVMVolumeRemove;
   PermStorageLVMGroupExtend; PermStorageLVMSnapshotCreate; PermStorageLVMSnapshotRemove; PermSSHRead;
   PermSSHConfigWrite; PermSSHHostKeyRotate; PermSecurityRead; PermSecurityScan; PermSecurityRemediate;
   PermSecurityMACWrite; PermSecurityAuditReload; PermBackupRead; PermBackupRun; PermBackupVerify;
   PermBackupRestore; PermVulnerabilityRead; PermMonitoringRead; PermMonitoringProbe; PermMonitoringSilence;
   PermMonitoringRulesWrite; PermNotificationRead; PermNotificationManage; PermHostMaintenanceWrite;
   PermHostTagWrite; PermHostGroupWrite; PermSystemShutdown; PermSystemHostnameWrite; PermTimeRead;
   PermTimePlan; PermTimeWrite; PermTimezoneWrite; PermKernelRead; PermKernelModulePlan; PermKernelSysctlWrite;
   PermKernelModuleWrite; PermKernelModuleBlacklist; PermFileRead; PermFilePlan; PermFileWrite; PermFileRemove;
   PermFileRollback; PermDockerRead; PermDockerEvents; PermDockerLogs; PermDockerStart; PermDockerStop;
   PermDockerRestart; PermDockerRemove; PermDockerPull; PermDockerPrune; PermDockerPlan;
   PermDockerContainerEnsure; PermDockerNetworkEnsure; PermDockerNetworkRemove; PermDockerVolumeEnsure;
   PermDockerVolumeRemove; PermComposePlan; PermComposeDeploy; PermCampaignRead; PermCampaignCreate;
   PermCampaignApprove; PermCampaignControl; PermBudgetRead; PermBudgetWrite; PermPolicyRead; PermPolicyWrite;
   PermPolicyPublish; PermPolicyRemediateAuto; PermIdentityRead; PermIdentityPolicyRead; PermIdentityUserWrite;
   PermIdentityGroupWrite; PermIdentityPolicyWrite; PermIdentityHostEnroll; PermIdentityHostLeave;
   PermIdentityKeytabRotate; PermLocalUserRead; PermLocalUserCreate; PermLocalUserLock; PermLocalUserUnlock;
   PermLocalSSHKeyWrite; PermLocalSSHKeyAdd; PermLocalSSHKeyRemove; PermLocalSSHKeyReplace;
   PermAccountsPrivilegedGroups; PermLocalUserGroupsWrite; PermLocalUserExpiryWrite; PermLocalUserDelete;
   PermMetricsRead; PermSecretRead; PermSecretWrite; PermSecretDestroy; PermCertificatePlan;
   PermCertificateRead; PermCertificateWatch; PermCertificateDeploy; PermCertificateTrustPlan;
   PermCertificateTrustWrite; PermCertificateTrustRemove; PermCertificateRenew; PermPKIRead; PermPKIRotate;
   PermSettingsRead; PermSettingsAdvertiseWrite; PermSettingsLayoutWrite; PermSupportBundleCreate;
   PermSupportBundleRead].

(** ** What each role may do *)

Definition RoleViewer_permissions : list Permission := [
   PermHostRead; PermInventoryRead; PermJobRead; PermCampaignRead; PermUnitStatus; PermIdentityRead;
   PermLocalUserRead; PermDockerRead; PermDockerEvents; PermProcessRead; PermNetworkRead; PermDNSRead;
   PermDNSPlan; PermFirewallRead; PermStorageRead; PermStorageSmartRead; PermSSHRead; PermKernelRead;
   PermKernelModulePlan; PermTimeRead; PermTimePlan; PermSecurityRead; PermFilePlan; PermCertificateRead;
   PermCertificatePlan; PermCertificateTrustPlan; PermBackupRead; PermMonitoringRead; PermPackagesRead;
   PermVulnerabilityRead; PermPolicyRead].

Definition RoleAuditor_permissions : list Permission := [
   PermHostRead; PermInventoryRead; PermJobRead; PermAuditRead; PermCampaignRead; PermIdentityRead;
   PermIdentityPolicyRead; PermLocalUserRead; PermDockerRead; PermDockerEvents; PermMetricsRead; PermPKIRead;
   PermSecurityRead; PermSecurityScan; PermCertificateRead; PermCertificatePlan; PermCertificateTrustPlan;
   PermBackupRead; PermMonitoringRead; PermPackagesRead; PermVulnerabilityRead; PermSecretRead; PermPolicyRead].

Definition RoleOperator_permissions : list Permission := [
   PermHostRead; PermInventoryRead; PermJobRead; PermInventoryRefresh; PermJobCreate; PermJobCancel;
   PermUnitStart; PermUnitStop; PermUnitRestart; PermUnitReload; PermUnitResetFailed; PermJournalRead;
   PermDockerRead; PermDockerEvents; PermDockerLogs; PermDockerStart; PermDockerStop; PermDockerRestart;
   PermDockerPull; PermComposePlan; PermDockerPlan; PermPackagesPlan; PermPackagesRead; PermCampaignRead;
   PermCampaignCreate; PermCampaignControl; PermPolicyRead; PermPolicyWrite; PermHostMaintenanceWrite;
   PermHostTagWrite; PermHostGroupWrite; PermHostEnrollCreate; PermHostEnrollRead; PermHostEnrollRevoke;
   PermLocalUserRead; PermLocalUserGroupsWrite; PermLocalUserExpiryWrite; PermNetworkRead; PermDNSRead;
   PermDNSPlan; PermFirewallRead; PermStorageRead; PermStorageSmartRead; PermSSHRead; PermKernelRead;
   PermKernelModulePlan; PermTimeRead; PermTimePlan; PermSecurityRead; PermSecurityScan; PermFilePlan;
   PermVulnerabilityRead; PermCertificateRead; PermCertificatePlan; PermCertificateTrustPlan;
   PermCertificateWatch; PermBackupRead; PermBackupRun; PermBackupVerify; PermMonitoringRead;
   PermMonitoringProbe; PermMonitoringSilence; PermNotificationRead].

Definition RoleApprover_permissions : list Permission := [
   PermHostRead; PermInventoryRead; PermJobRead; PermAuditRead; PermJobApprove; PermCampaignRead;
   PermCampaignApprove; PermIdentityRead; PermIdentityPolicyRead; PermLocalUserRead; PermPolicyRead;
   PermPolicyPublish].

Definition RoleIdentityAdmin_permissions : list Permission := [
   PermHostRead; PermInventoryRead; PermJobRead; PermCampaignRead; PermIdentityRead; PermIdentityPolicyRead;
   PermIdentityUserWrite; PermIdentityGroupWrite; PermIdentityPolicyWrite; PermIdentityHostEnroll;
   PermIdentityHostLeave; PermIdentityKeytabRotate; PermDNSDirectoryWrite; PermUnitStatus; PermLocalUserRead;
   PermLocalUserCreate; PermLocalUserLock; PermLocalUserUnlock; PermLocalSSHKeyWrite; PermLocalSSHKeyAdd;
   PermLocalSSHKeyRemove; PermLocalSSHKeyReplace; PermNotificationRead; PermScheduleRootExec].

Definition RolePlatformAdmin_permissions : list Permission := [
   PermHostRead; PermInventoryRead; PermInventoryRefresh; PermJobRead; PermAuditRead; PermJobCreate;
   PermJobApprove; PermJobCancel; PermUnitStart; PermUnitStop; PermUnitRestart; PermUnitReload;
   PermUnitResetFailed; PermJournalRead; PermDockerRead; PermDockerEvents; PermDockerLogs; PermDockerStart;
   PermDockerStop; PermDockerRestart; PermDockerPull; PermDockerRemove; PermDockerPrune; PermDockerPlan;
   PermDockerContainerEnsure; PermDockerNetworkEnsure; PermDockerNetworkRemove; PermDockerVolumeEnsure;
   PermDockerVolumeRemove; PermComposePlan; PermComposeDeploy; PermUnitStatus; PermUnitEnableWrite;
   PermUnitMaskWrite; PermJournalFollow; PermLogFileRead; PermProcessRead; PermProcessSignal;
   PermPackagesInstall; PermPackagesRemove; PermPackagesHold; PermPackagesRepository; PermScheduleWrite;
   PermScheduleDisable; PermScheduleRemove; PermScheduleRun; PermSchedulePreview; PermScheduleRootExec;
   PermFileWriteUnvalidated; PermNetworkRead; PermNetworkWrite; PermNetworkRouteWrite; PermNetworkMTUWrite;
   PermNetworkRollback; PermNetworkLinkWrite; PermNetworkLinkRemove; PermDNSRead; PermDNSPlan; PermDNSHostWrite;
   PermFirewallRead; PermFirewallWrite; PermFirewallRuleRemove; PermFirewallZoneWrite; PermFirewallServiceWrite;
   PermFirewallRestore; PermStorageRead; PermStorageSmartRead; PermStorageMountWrite; PermStorageMountRemove;
   PermStorageFsck; PermStorageLVMWrite; PermStorageFilesystemWrite; PermStorageDestructive; PermStorageWipe;
   PermStorageRAIDFail; PermStorageRAIDRemove; PermStorageRAIDAdd; PermStorageLVMVolumeCreate;
   PermStorageLVMVolumeRemove; PermStorageLVMGroupExtend; PermStorageLVMSnapshotCreate;
   PermStorageLVMSnapshotRemove; PermSSHRead; PermSSHConfigWrite; PermSSHHostKeyRotate; PermKernelRead;
   PermKernelModulePlan; PermKernelSysctlWrite; PermKernelModuleWrite; PermKernelModuleBlacklist; PermTimeRead;
   PermTimePlan; PermTimeWrite; PermTimezoneWrite; PermSecurityRead; PermSecurityScan; PermSecurityRemediate;
   PermSecurityMACWrite; PermSecurityAuditReload; PermFileRead; PermFilePlan; PermFileWrite; PermFileRemove;
   PermFileRollback; PermPackagesPlan; PermPackagesRead; PermPackagesUpgrade; PermPackagesRepair;
   PermAgentUpgrade; PermSystemReboot; PermSystemShutdown; PermSystemHostnameWrite; PermHostMaintenanceWrite;
   PermHostTagWrite; PermHostGroupWrite; PermCampaignRead; PermCampaignCreate; PermCampaignApprove;
   PermCampaignControl; PermBudgetRead; PermBudgetWrite; PermPolicyRead; PermPolicyWrite; PermPolicyPublish;
   PermPolicyRemediateAuto; PermIdentityRead; PermIdentityPolicyRead; PermIdentityUserWrite;
   PermIdentityGroupWrite; PermIdentityPolicyWrite; PermIdentityHostEnroll; PermIdentityHostLeave;
   PermIdentityKeytabRotate; PermDNSDirectoryWrite; PermHostEnrollCreate; PermHostEnrollRead;
   PermHostEnrollRevoke; PermHostEnrollBatch; PermRelayEnrollCreate; PermRelayManage; PermHostIdentityReplace;
   PermHostQuarantine; PermHostQuarantineRelease; PermHostDecommission; PermPrincipalManage; PermHostScopeWrite;
   PermTeamBindingWrite; PermLocalUserRead; PermLocalUserCreate; PermLocalUserLock; PermLocalUserUnlock;
   PermLocalSSHKeyWrite; PermLocalUserGroupsWrite; PermLocalSSHKeyAdd; PermLocalSSHKeyRemove;
   PermLocalSSHKeyReplace; PermAccountsPrivilegedGroups; PermLocalUserExpiryWrite; PermLocalUserDelete;
   PermMetricsRead; PermPKIRead; PermPKIRotate; PermSecretRead; PermSecretWrite; PermSecretDestroy;
   PermCertificateRead; PermCertificatePlan; PermCertificateTrustPlan; PermCertificateWatch;
   PermCertificateDeploy; PermCertificateRenew; PermCertificateTrustWrite; PermCertificateTrustRemove;
   PermBackupRead; PermBackupRun; PermBackupVerify; PermBackupRestore; PermMonitoringRead; PermMonitoringProbe;
   PermMonitoringSilence; PermMonitoringRulesWrite; PermNotificationRead; PermNotificationManage;
   PermVulnerabilityRead; PermSettingsRead; PermSettingsAdvertiseWrite; PermSettingsLayoutWrite;
   PermSupportBundleCreate; PermSupportBundleRead].

(** The map of the product's own roles. *)
Definition rolePermissions : list (Role * list Permission) := [
   (RoleViewer, RoleViewer_permissions);
   (RoleAuditor, RoleAuditor_permissions);
   (RoleOperator, RoleOperator_permissions);
   (RoleApprover, RoleApprover_permissions);
   (RoleIdentityAdmin, RoleIdentityAdmin_permissions);
   (RolePlatformAdmin, RolePlatformAdmin_permissions)].
