(* ===== verification/Authz.v ===== *)
(** * Authz: who may do what, and where

    src/internal/authz/model.go: the scope of a binding and of a target, what a
    role carries, what an identity may do now, and the SQL condition that
    narrows a query to what it may see; and the guard of
    src/internal/adminapi/principals.go on handing a role out. A nil list and
    an empty one are one value. *)
From S2P Require Import Prelude Bytes Text Digest AuthzTables.

Open Scope Z_scope.

(** ** Roles *)

Definition BuiltIn (role : Role) : bool := bool_decide (is_Some (assoc role rolePermissions)).
Definition KnownRole (role : Role) : bool := BuiltIn role.
Definition role_permissions (role : Role) : list Permission := default [] (assoc role rolePermissions).
Definition Role_Permissions (role : Role) : list Permission := sorted (role_permissions role).
Definition Role_Has (role : Role) (permission : Permission) : bool := bool_decide (permission ∈ role_permissions role).
Definition AllRoles : list Role := sorted rolePermissions.*1.
Definition AllPermissions : list Permission := sorted allPermissions.
Definition KnownPermission (permission : Permission) : bool := bool_decide (permission ∈ allPermissions).

(** ** Scopes *)

Record Scope := mkScope {
  sc_Site : string; sc_Environment : string; sc_Team : string; sc_TeamAny : bool;
  sc_Owners : list string; sc_Tags : list string }.

#[export] Instance Scope_eq_dec : EqDecision Scope. Proof. solve_decision. Defined.

Definition Wildcard : string := "*".

Definition Placement (site environment : string) : Scope :=
  mkScope site environment "" true [Wildcard] [Wildcard].
Definition OfTeam (team : string) : Scope := mkScope Wildcard Wildcard team false [Wildcard] [Wildcard].
Definition TargetOf (site environment team owner : string) (tags : list string) : Scope :=
  mkScope site environment team false (if bool_decide (owner = "") then [] else [owner]) tags.

Definition hasWildcard (values : list string) : bool := bool_decide (Wildcard ∈ values).

Definition matchesValue (granted target : string) : bool :=
  if bool_decide (granted = Wildcard) then true
  else negb (bool_decide (granted = "")) && bool_decide (granted = target).

(** The loop over the list: an asterisk met first decides. *)
Fixpoint matchesAny (granted target : list string) : bool :=
  match granted with
  | [] => false
  | allowed :: rest => bool_decide (allowed = Wildcard) || bool_decide (allowed ∈ target) || matchesAny rest target
  end.

Definition matchesTeam (s : Scope) (team : string) : bool :=
  if sc_TeamAny s then true else negb (bool_decide (sc_Team s = "")) && bool_decide (sc_Team s = team).

Definition Matches (s target : Scope) : bool :=
  matchesValue (sc_Site s) (sc_Site target)
  && matchesValue (sc_Environment s) (sc_Environment target)
  && matchesTeam s (sc_Team target)
  && matchesAny (sc_Owners s) (sc_Owners target)
  && matchesAny (sc_Tags s) (sc_Tags target).

Definition Covers (s : Scope) : bool :=
  bool_decide (sc_Site s = Wildcard) && bool_decide (sc_Environment s = Wildcard) && sc_TeamAny s
  && hasWildcard (sc_Owners s) && hasWildcard (sc_Tags s).

Definition containsValue (granted other : string) : bool :=
  if bool_decide (granted = Wildcard) || bool_decide (other = "") then true else bool_decide (granted = other).

Definition containsAll (granted other : list string) : bool :=
  if hasWildcard granted then true
  else forallb (λ value, negb (bool_decide (value = Wildcard)) && bool_decide (value ∈ granted)) other.

Definition containsTeam (s other : Scope) : bool :=
  if sc_TeamAny s then true
  else negb (sc_TeamAny other) && negb (bool_decide (sc_Team s = "")) && bool_decide (sc_Team s = sc_Team other).

Definition Contains (s other : Scope) : bool :=
  containsValue (sc_Site s) (sc_Site other)
  && containsValue (sc_Environment s) (sc_Environment other)
  && containsTeam s other
  && containsAll (sc_Owners s) (sc_Owners other)
  && containsAll (sc_Tags s) (sc_Tags other).

(** ** Identities *)

Record Binding := mkBinding {
  b_Role : Role; b_Scope : Scope; b_ValidUntil : option time; b_Granted : list Permission }.

Definition Grants (b : Binding) (permission : Permission) : bool :=
  if BuiltIn (b_Role b) then Role_Has (b_Role b) permission else bool_decide (permission ∈ b_Granted b).

Definition Binding_Permissions (b : Binding) : list Permission :=
  if BuiltIn (b_Role b) then Role_Permissions (b_Role b) else sorted (b_Granted b).

Definition Active (b : Binding) (now : time) : bool :=
  match b_ValidUntil b with None => true | Some until => bool_decide (now < until) end.

(** [Principal]: the bindings decide; the names do not. *)
Definition Principal : Type := list Binding.

Definition live (p : Principal) (now : time) : list Binding := filter (λ b, Active b now = true) p.

Definition Can (p : Principal) (now : time) (permission : Permission) (target : Scope) : bool :=
  existsb (λ b, Grants b permission && Matches (b_Scope b) target) (live p now).
Definition CanAnywhere (p : Principal) (now : time) (permission : Permission) : bool :=
  existsb (λ b, Grants b permission) (live p now).
Definition Principal_Permissions (p : Principal) (now : time) : list Permission :=
  sorted (remove_dups (mjoin (Binding_Permissions <$> live p now))).
Definition ScopesFor (p : Principal) (now : time) (permission : Permission) : list Scope :=
  b_Scope <$> filter (λ b, Grants b permission = true) (live p now).
Definition Roles (p : Principal) (now : time) : list Role := sorted (remove_dups (b_Role <$> live p now)).

(** ** Handing a role out *)

Definition holdsInScope (actor : Principal) (now : time) (permission : Permission) (scope : Scope) : bool :=
  existsb (λ own, Contains own scope) (ScopesFor actor now permission).

Definition mayGrant (actor : Principal) (now : time) (permissions : list Permission) (scope : Scope) : bool :=
  negb (bool_decide (permissions = [])) && forallb (λ permission, holdsInScope actor now permission scope) permissions.

(** ** The condition of a query *)

Record Columns := mkColumns {
  col_Site : string; col_Environment : string; col_Team : string; col_Owner : string; col_Tags : string }.

Definition HostColumns (alias : string) : Columns :=
  let alias := if bool_decide (alias = "") then alias else alias +:+ "." in
  mkColumns (alias +:+ "site") (alias +:+ "environment") (alias +:+ "team_id") (alias +:+ "owner") (alias +:+ "tags").
Definition Placements (siteColumn envColumn : string) : Columns := mkColumns siteColumn envColumn "" "" "".

(** One part of a conjunction, with the number of its argument. *)
Inductive part :=
| PFalse
| PEqual (column : string) (number : Z)
| PTeam (column : string) (number : Z)
| POwner (column : string) (number : Z)
| PTags (column : string) (number : Z).

Inductive arg := AText (value : string) | AList (values : list string).

(** No condition, no row, or an alternative of conjunctions. *)
Inductive condition := CEvery | CNone | CAny (alternatives : list (list part)).

(** What a category adds, after [n] arguments. *)
Definition value_part (column value : string) (n : Z) : list part * list arg :=
  if bool_decide (value = Wildcard) then ([], [])
  else if bool_decide (value = "") || bool_decide (column = "") then ([PFalse], [])
  else ([PEqual column (n + 1)], [AText value]).

Definition team_part (column : string) (s : Scope) (n : Z) : list part * list arg :=
  if sc_TeamAny s then ([], [])
  else if bool_decide (sc_Team s = "") || bool_decide (column = "") then ([PFalse], [])
  else ([PTeam column (n + 1)], [AText (sc_Team s)]).

Definition listSQL (column : string) (values : list string) (array : bool) (n : Z) : list part * list arg :=
  if hasWildcard values then ([], [])
  else if bool_decide (values = []) || bool_decide (column = "") then ([PFalse], [])
  else if array then ([PTags column (n + 1)], [AList values]) else ([POwner column (n + 1)], [AList values]).

(** The categories of one scope, each after the arguments before it. *)
Definition then_part (before : list part * list arg) (offset : Z) (next : Z → list part * list arg) : list part * list arg :=
  let '(parts, args) := before in
  let '(more, used) := next (offset + len args) in
  ((parts ++ more)%list, (args ++ used)%list).

Definition scope_parts (columns : Columns) (offset : Z) (args : list arg) (s : Scope) : list part * list arg :=
  let acc := then_part ([], args) offset (value_part (col_Site columns) (sc_Site s)) in
  let acc := then_part acc offset (value_part (col_Environment columns) (sc_Environment s)) in
  let acc := then_part acc offset (team_part (col_Team columns) s) in
  let acc := then_part acc offset (listSQL (col_Owner columns) (sc_Owners s) false) in
  then_part acc offset (listSQL (col_Tags columns) (sc_Tags s) true).

Fixpoint scope_conditions (scopes : list Scope) (columns : Columns) (offset : Z) (conditions : list (list part))
  (args : list arg) : condition * list arg :=
  match scopes with
  | [] => (CAny conditions, args)
  | s :: rest =>
      if Covers s then (CEvery, [])
      else
        let '(parts, args) := scope_parts columns offset args s in
        if bool_decide (List.length parts = 0%nat) then (CEvery, [])
        else scope_conditions rest columns offset (conditions ++ [parts])%list args
  end.

(** [ScopeSQL]. *)
Definition ScopeSQL (scopes : list Scope) (columns : Columns) (offset : Z) : condition * list arg :=
  match scopes with [] => (CNone, []) | _ => scope_conditions scopes columns offset [] [] end.

(** The text of a condition. *)
Definition print_part (p : part) : string :=
  match p with
  | PFalse => "false"
  | PEqual column n => column +:+ " = $" +:+ FormatInt n
  | PTeam column n => column +:+ " = $" +:+ FormatInt n +:+ "::uuid"
  | POwner column n => "coalesce(" +:+ column +:+ ", '') = any($" +:+ FormatInt n +:+ "::text[])"
  | PTags column n => "coalesce(" +:+ column +:+ ", '{}') && $" +:+ FormatInt n +:+ "::text[]"
  end.

Fixpoint join (sep : string) (l : list string) : string :=
  match l with [] => "" | [x] => x | x :: rest => x +:+ sep +:+ join sep rest end.

Definition print_parts (parts : list part) : string :=
  match parts with
  | [p] => print_part p
  | _ => "(" +:+ join " and " (print_part <$> parts) +:+ ")"
  end.

Definition print_condition (c : condition) : string :=
  match c with
  | CEvery => ""
  | CNone => "false"
  | CAny alternatives => "(" +:+ join " or " (print_parts <$> alternatives) +:+ ")"
  end.
