(* ===== verification/AuthzProps.v ===== *)
(** * AuthzProps: access is what was handed out, and no more

    The theorems of Authz.v: containment of scopes is reach, nobody hands out
    what they do not hold, a query shows what the scopes match, and the roles
    of the product against the registry of operations. *)
From S2P Require Import Prelude Bytes Text Digest Actions ActionTables Registry AuthzTables Authz.

Open Scope Z_scope.
Open Scope list_scope.

(** ** One category *)

Lemma matchesValue_spec granted target :
  matchesValue granted target = true ↔ granted = Wildcard ∨ granted ≠ "" ∧ granted = target.
Proof.
  unfold matchesValue. case_bool_decide as Hw; [by split; [left|]|].
  rewrite andb_true_iff, negb_true_iff, bool_decide_eq_false, bool_decide_eq_true. naive_solver.
Qed.

Lemma matchesAny_spec granted target :
  matchesAny granted target = true ↔ Wildcard ∈ granted ∨ ∃ v, v ∈ granted ∧ v ∈ target.
Proof.
  induction granted as [|allowed rest IH]; cbn.
  - split; [done|]. intros [H|(v & H & _)]; by apply elem_of_nil in H.
  - rewrite !orb_true_iff, !bool_decide_eq_true, IH. setoid_rewrite elem_of_cons. naive_solver.
Qed.

Lemma matchesTeam_spec s team :
  matchesTeam s team = true ↔ sc_TeamAny s = true ∨ sc_Team s ≠ "" ∧ sc_Team s = team.
Proof.
  unfold matchesTeam. destruct (sc_TeamAny s); [naive_solver|].
  rewrite andb_true_iff, negb_true_iff, bool_decide_eq_false, bool_decide_eq_true. naive_solver.
Qed.

Lemma containsValue_spec granted other :
  containsValue granted other = true ↔ granted = Wildcard ∨ other = "" ∨ granted = other.
Proof.
  unfold containsValue. destruct (bool_decide (granted = _)) eqn:H1; [apply bool_decide_eq_true in H1; naive_solver|].
  destruct (bool_decide (other = _)) eqn:H2; [apply bool_decide_eq_true in H2; naive_solver|].
  apply bool_decide_eq_false in H1, H2. cbn. rewrite bool_decide_eq_true. naive_solver.
Qed.

Lemma containsAll_spec granted other :
  containsAll granted other = true ↔ Wildcard ∈ granted ∨ ∀ v, v ∈ other → v ≠ Wildcard ∧ v ∈ granted.
Proof.
  unfold containsAll, hasWildcard. case_bool_decide as Hw; [naive_solver|]. rewrite forallb_forall.
  setoid_rewrite <- list_elem_of_In. setoid_rewrite andb_true_iff.
  setoid_rewrite negb_true_iff. setoid_rewrite bool_decide_eq_false. setoid_rewrite bool_decide_eq_true. naive_solver.
Qed.

Lemma containsTeam_spec s other :
  containsTeam s other = true ↔
  sc_TeamAny s = true ∨ sc_TeamAny other = false ∧ sc_Team s ≠ "" ∧ sc_Team s = sc_Team other.
Proof.
  unfold containsTeam. destruct (sc_TeamAny s); [naive_solver|].
  rewrite !andb_true_iff, !negb_true_iff, bool_decide_eq_false, bool_decide_eq_true. naive_solver.
Qed.

(** ** Containment is reach, category by category *)

Lemma value_reach g o : o ≠ "" →
  containsValue g o = true ↔ ∀ t, matchesValue o t = true → matchesValue g t = true.
Proof.
  intros Hne. rewrite containsValue_spec. setoid_rewrite matchesValue_spec. split.
  - intros Hc t Ht. naive_solver.
  - intros H. destruct (decide (o = Wildcard)) as [->|Ho].
    + destruct (H (g +:+ "x")) as [->|[_ He]]; [by left|by left|]. exfalso. apply (f_equal sbytes), (f_equal List.length) in He.
      rewrite sbytes_app, length_app in He. cbn in He. lia.
    + destruct (H o) as [->|[_ ->]]; [by right|by left|by right; right].
Qed.

Lemma team_reach s o : sc_TeamAny o = true ∨ sc_Team o ≠ "" →
  containsTeam s o = true ↔ ∀ t, matchesTeam o t = true → matchesTeam s t = true.
Proof.
  intros Hne. rewrite containsTeam_spec. setoid_rewrite matchesTeam_spec. destruct (sc_TeamAny o) eqn:Ho.
  - split; [naive_solver|]. intros H. destruct (H (sc_Team s +:+ "x")) as [|[_ He]]; [by left|by left|]. exfalso.
    apply (f_equal sbytes), (f_equal List.length) in He. rewrite sbytes_app, length_app in He. cbn in He. lia.
  - destruct Hne as [|Hne]; [done|]. split; [naive_solver|]. intros H.
    destruct (H (sc_Team o)) as [|[Hs He]]; [by right|by left|by right].
Qed.

Lemma list_reach g o : o ≠ [] →
  containsAll g o = true ↔ ∀ t, matchesAny o t = true → matchesAny g t = true.
Proof.
  intros Hne. rewrite containsAll_spec. setoid_rewrite matchesAny_spec. split.
  - intros [Hg|Hall] t; [by left|]. intros [Hw|(v & Hv & Ht)]; [by destruct (Hall _ Hw)|]. right. exists v. naive_solver.
  - intros H. destruct (decide (Wildcard ∈ g)) as [|Hg]; [by left|]. right. intros v Hv.
    destruct (decide (v = Wildcard)) as [->|Hvw].
    + destruct (H []) as [|(v & _ & Hn)]; [by left|done|by apply elem_of_nil in Hn].
    + split; [done|]. destruct (H [v]) as [|(w & Hw & Hwv)]; [right; exists v; split; [done|by left]|done|].
      by apply list_elem_of_singleton in Hwv as ->.
Qed.

(** A scope that reaches something in every category. *)
Definition reaches (s : Scope) : Prop :=
  sc_Site s ≠ "" ∧ sc_Environment s ≠ "" ∧ (sc_TeamAny s = true ∨ sc_Team s ≠ "") ∧ sc_Owners s ≠ [] ∧ sc_Tags s ≠ [].

Lemma Matches_spec s t : Matches s t = true ↔
  matchesValue (sc_Site s) (sc_Site t) = true ∧ matchesValue (sc_Environment s) (sc_Environment t) = true
  ∧ matchesTeam s (sc_Team t) = true ∧ matchesAny (sc_Owners s) (sc_Owners t) = true ∧ matchesAny (sc_Tags s) (sc_Tags t) = true.
Proof. unfold Matches. rewrite !andb_true_iff. tauto. Qed.

Lemma Contains_spec s o : Contains s o = true ↔
  containsValue (sc_Site s) (sc_Site o) = true ∧ containsValue (sc_Environment s) (sc_Environment o) = true
  ∧ containsTeam s o = true ∧ containsAll (sc_Owners s) (sc_Owners o) = true ∧ containsAll (sc_Tags s) (sc_Tags o) = true.
Proof. unfold Contains. rewrite !andb_true_iff. tauto. Qed.

(** What a scope reaches, reached in each category by its own values. *)
Lemma reached s : reaches s →
  matchesValue (sc_Site s) (sc_Site s) = true ∧ matchesValue (sc_Environment s) (sc_Environment s) = true
  ∧ matchesTeam s (sc_Team s) = true ∧ matchesAny (sc_Owners s) (sc_Owners s) = true ∧ matchesAny (sc_Tags s) (sc_Tags s) = true.
Proof.
  intros (Hs & He & Ht & Ho & Hg). rewrite !matchesValue_spec, matchesTeam_spec, !matchesAny_spec.
  assert (Hl : ∀ l : list string, l ≠ [] → Wildcard ∈ l ∨ ∃ v, v ∈ l ∧ v ∈ l).
  { intros [|v l]; [done|]. intros _. right. exists v. split; by left. }
  split_and!; auto. destruct Ht; auto.
Qed.

(** C33: One scope contains another exactly when it reaches every target the
    other reaches - for a scope that reaches something in every category; a
    scope with an empty one reaches nothing at all. *)
Theorem Contains_is_reach s o : reaches o →
  Contains s o = true ↔ ∀ target, Matches o target = true → Matches s target = true.
Proof.
  intros Hr. pose proof Hr as (Hs & He & Ht & Ho & Hg). destruct (reached o Hr) as (Ms & Me & Mt & Mo & Mg).
  rewrite Contains_spec, (value_reach _ _ Hs), (value_reach _ _ He), (team_reach _ _ Ht), (list_reach _ _ Ho), (list_reach _ _ Hg).
  setoid_rewrite Matches_spec. split; [naive_solver|]. intros H. split_and!; intros t Hm.
  - by apply (H (mkScope t (sc_Environment o) (sc_Team o) false (sc_Owners o) (sc_Tags o))).
  - by apply (H (mkScope (sc_Site o) t (sc_Team o) false (sc_Owners o) (sc_Tags o))).
  - by apply (H (mkScope (sc_Site o) (sc_Environment o) t false (sc_Owners o) (sc_Tags o))).
  - by apply (H (mkScope (sc_Site o) (sc_Environment o) (sc_Team o) false t (sc_Tags o))).
  - by apply (H (mkScope (sc_Site o) (sc_Environment o) (sc_Team o) false (sc_Owners o) t)).
Qed.

(** ** Handing a role out *)

Lemma list_contained g o t : containsAll g o = true → matchesAny o t = true → matchesAny g t = true.
Proof.
  intros Hc Ho. destruct o as [|v o]; [done|]. by apply (proj1 (list_reach g (v :: o) ltac:(done)) Hc).
Qed.

Lemma value_contained g o t : containsValue g o = true → matchesValue o t = true → matchesValue g t = true.
Proof. rewrite containsValue_spec, !matchesValue_spec. naive_solver. Qed.

Lemma team_contained s o t : containsTeam s o = true → matchesTeam o t = true → matchesTeam s t = true.
Proof. rewrite containsTeam_spec, !matchesTeam_spec. intros [?|(Ha & Hs & He)] [Ho|[Hn Ht]]; [by left..|congruence|right; by subst]. Qed.

(** A scope that is contained reaches no further, empty categories or not. *)
Lemma Contains_sound s o t : Contains s o = true → Matches o t = true → Matches s t = true.
Proof.
  rewrite Contains_spec, !Matches_spec. intros (?&?&?&?&?) (?&?&?&?&?).
  eauto 10 using list_contained, value_contained, team_contained.
Qed.

Lemma Can_spec p now permission target :
  Can p now permission target = true ↔
  ∃ b, b ∈ p ∧ Active b now = true ∧ Grants b permission = true ∧ Matches (b_Scope b) target = true.
Proof.
  unfold Can. rewrite existsb_exists. unfold live. split.
  - intros (b & Hin & [Hg Hm]%andb_true_iff). apply list_elem_of_In, list_elem_of_filter in Hin as [Ha Hin]. by exists b.
  - intros (b & Hin & Ha & Hg & Hm). exists b. rewrite <- list_elem_of_In, list_elem_of_filter, andb_true_iff. done.
Qed.

Lemma ScopesFor_spec p now permission scope :
  scope ∈ ScopesFor p now permission ↔
  ∃ b, b ∈ p ∧ Active b now = true ∧ Grants b permission = true ∧ b_Scope b = scope.
Proof.
  unfold ScopesFor, live. rewrite list_elem_of_fmap. split.
  - intros (b & -> & [Hg [Ha Hin]%list_elem_of_filter]%list_elem_of_filter). by exists b.
  - intros (b & Hin & Ha & Hg & <-). exists b. by rewrite !list_elem_of_filter.
Qed.

(** C5: Nobody hands out access they do not hold: with a binding the guard let
    through, whoever receives it can do nothing, anywhere, that the one who
    granted it could not do there at that moment. *)
Theorem nobody_grants_more_than_they_hold actor now role permissions scope until granted permission target :
  mayGrant actor now permissions scope = true →
  (∀ p, Grants (mkBinding role scope until granted) p = true → p ∈ permissions) →
  Can [mkBinding role scope until granted] now permission target = true →
  Can actor now permission target = true.
Proof.
  unfold mayGrant. intros [_ Hall]%andb_true_iff Hcarried (b & Hb & _ & Hg & Hm)%Can_spec.
  apply list_elem_of_singleton in Hb as ->. cbn in Hm. rewrite forallb_forall in Hall.
  specialize (Hall permission (proj1 (list_elem_of_In _ _) (Hcarried _ Hg))). unfold holdsInScope in Hall.
  apply existsb_exists in Hall as (own & Hin & Hc). apply list_elem_of_In, ScopesFor_spec in Hin as (b' & ? & ? & ? & <-).
  apply Can_spec. exists b'. split_and!; try done. by eapply Contains_sound.
Qed.

(** ** What a query shows *)

Inductive datum := DNull | DText (s : string) | DArray (l : list string).
Definition sql_row : Type := string → datum.

Definition argument (args : list arg) (n : Z) : option arg := args !! Z.to_nat (n - 1).

(** Whether a part holds of a row, in SQL's sense: unknown is no. *)
Definition holds_part (row : sql_row) (args : list arg) (p : part) : bool :=
  match p with
  | PFalse => false
  | PEqual column n | PTeam column n =>
      match row column, argument args n with DText v, Some (AText w) => bool_decide (v = w) | _, _ => false end
  | POwner column n =>
      match row column, argument args n with
      | DText v, Some (AList l) => bool_decide (v ∈ l)
      | DNull, Some (AList l) => bool_decide ("" ∈ l)
      | _, _ => false
      end
  | PTags column n =>
      match row column, argument args n with
      | DArray tags, Some (AList l) => existsb (λ v, bool_decide (v ∈ tags)) l
      | _, _ => false
      end
  end.

Definition selected (row : sql_row) (args : list arg) (c : condition) : bool :=
  match c with
  | CEvery => true
  | CNone => false
  | CAny alternatives => existsb (forallb (holds_part row args)) alternatives
  end.

(** A row and the facts the panel holds about the same thing; what a table has
    no column for is not known. *)
Record describes (row : sql_row) (columns : Columns) (site environment team owner : string) (tags : list string) : Prop := {
  desc_site : if bool_decide (col_Site columns = "") then site = "" else row (col_Site columns) = DText site;
  desc_environment : if bool_decide (col_Environment columns = "") then environment = ""
                     else row (col_Environment columns) = DText environment;
  desc_team : if bool_decide (col_Team columns = "") then team = ""
              else row (col_Team columns) = if bool_decide (team = "") then DNull else DText team;
  desc_owner : if bool_decide (col_Owner columns = "") then owner = ""
               else row (col_Owner columns) = DText owner ∨ row (col_Owner columns) = DNull ∧ owner = "";
  desc_tags : if bool_decide (col_Tags columns = "") then tags = []
              else row (col_Tags columns) = DArray tags ∨ row (col_Tags columns) = DNull ∧ tags = [];
}.

(** Parts that speak of the first [n] arguments. *)
Definition number_of (p : part) : option Z :=
  match p with PFalse => None | PEqual _ n | PTeam _ n | POwner _ n | PTags _ n => Some n end.
Definition within_args (n : Z) (parts : list part) : Prop :=
  ∀ p k, p ∈ parts → number_of p = Some k → 0 < k ≤ n.

Lemma argument_app A B n : 0 < n ≤ len A → argument (A ++ B) n = argument A n.
Proof. intros Hn. unfold argument. apply lookup_app_l. unfold len in Hn. lia. Qed.

Lemma argument_last A a : argument (A ++ [a]) (len A + 1) = Some a.
Proof. unfold argument. rewrite lookup_app_r by (unfold len; lia). unfold len. by replace (_ - _)%nat with 0%nat by lia. Qed.

Lemma holds_part_app row A B p : (∀ k, number_of p = Some k → 0 < k ≤ len A) → holds_part row (A ++ B) p = holds_part row A p.
Proof. destruct p; intros Hn; cbn; [done|..]; by rewrite argument_app by (by apply Hn). Qed.

Lemma holds_parts_app row A B parts :
  within_args (len A) parts → forallb (holds_part row (A ++ B)) parts = forallb (holds_part row A) parts.
Proof.
  induction parts as [|p parts IH]; intros Hw; [done|]. cbn. rewrite IH.
  - f_equal. apply holds_part_app. intros k Hk. apply (Hw p); [by left|done].
  - intros p' k Hin. apply Hw. by right.
Qed.

Section query.
Context (row : sql_row) (prefix : list arg).

(** What has been written so far says [v] of the row. *)
Definition says (acc : list part * list arg) (v : bool) : Prop :=
  within_args (len (prefix ++ acc.2)) acc.1 ∧ forallb (holds_part row (prefix ++ acc.2)) acc.1 = v.

Definition adds (next : Z → list part * list arg) (v : bool) : Prop := ∀ A,
  within_args (len (A ++ (next (len A)).2)) (next (len A)).1
  ∧ forallb (holds_part row (A ++ (next (len A)).2)) (next (len A)).1 = v.

Lemma says_then acc v next w : says acc v → adds next w → says (then_part acc (len prefix) next) (v && w).
Proof.
  intros [Hn Hv] Ha. destruct acc as [parts args]. cbn in *. unfold then_part.
  replace (len prefix + len args) with (len (prefix ++ args)) by apply len_app.
  destruct (Ha (prefix ++ args)) as [Hn' Hw]. destruct (next (len (prefix ++ args))) as [more used]. cbn in *. unfold says. cbn.
  rewrite app_assoc. split.
  - intros p k [Hp|Hp]%elem_of_app Hk; [|by apply (Hn' p)]. specialize (Hn p k Hp Hk).
    rewrite (len_app _ used). unfold len in *. lia.
  - rewrite forallb_app, Hw. f_equal. by rewrite holds_parts_app.
Qed.

Lemma adds_nothing : adds (λ _, ([], [])) true.
Proof. intros A. split; [|done]. intros p k H. by apply elem_of_nil in H. Qed.

Lemma adds_false : adds (λ _, ([PFalse], [])) false.
Proof. intros A. split; [|done]. intros p k ->%list_elem_of_singleton. done. Qed.

Lemma adds_one (make : Z → part) a v :
  (∀ n, number_of (make n) = Some n) → (∀ A, holds_part row (A ++ [a]) (make (len A + 1)) = v) →
  adds (λ n, ([make (n + 1)], [a])) v.
Proof.
  intros Hm Hv A. cbn. rewrite Hv, andb_true_r. split; [|done]. intros p k ->%list_elem_of_singleton.
  rewrite Hm. intros [= <-]. rewrite len_app. unfold len. cbn. lia.
Qed.

(** Each category adds what it means. *)
Lemma adds_value column value fact make :
  (∀ n, number_of (make n) = Some n) →
  (∀ A, holds_part row (A ++ [AText value]) (make (len A + 1))
        = match row column with DText v => bool_decide (v = value) | _ => false end) →
  (if bool_decide (column = "") then fact = "" else row column = DText fact) →
  adds (λ n, if bool_decide (value = Wildcard) then ([], [])
             else if bool_decide (value = "") || bool_decide (column = "") then ([PFalse], [])
             else ([make (n + 1)], [AText value])) (matchesValue value fact).
Proof.
  intros Hm Hh Hrow. unfold matchesValue. destruct (bool_decide (value = Wildcard)); [exact adds_nothing|].
  destruct (bool_decide (value = "")) eqn:He; cbn [orb negb andb]; [exact adds_false|]. apply bool_decide_eq_false in He.
  destruct (bool_decide (column = "")); [subst fact; rewrite bool_decide_eq_false_2 by done; exact adds_false|].
  apply adds_one; [done|]. intros A. rewrite Hh, Hrow. by apply bool_decide_ext.
Qed.

Lemma adds_team columns s team :
  (if bool_decide (col_Team columns = "") then team = ""
   else row (col_Team columns) = if bool_decide (team = "") then DNull else DText team) →
  adds (team_part (col_Team columns) s) (matchesTeam s team).
Proof.
  intros Hrow. unfold team_part, matchesTeam. destruct (sc_TeamAny s); [exact adds_nothing|].
  destruct (bool_decide (sc_Team s = "")) eqn:He; cbn [orb negb andb]; [exact adds_false|]. apply bool_decide_eq_false in He.
  destruct (bool_decide (col_Team columns = "")); [subst team; rewrite bool_decide_eq_false_2 by done; exact adds_false|].
  apply (adds_one (PTeam (col_Team columns)) (AText (sc_Team s))); [done|]. intros A. cbn [holds_part].
  rewrite argument_last, Hrow. destruct (bool_decide (team = "")) eqn:Ht.
  - apply bool_decide_eq_true in Ht. subst team. by rewrite bool_decide_eq_false_2.
  - by apply bool_decide_ext.
Qed.

Lemma matchesAny_plain l t : Wildcard ∉ l → matchesAny l t = existsb (λ v, bool_decide (v ∈ t)) l.
Proof.
  induction l as [|v l IH]; [done|]. intros [Hv Hl]%not_elem_of_cons. cbn.
  rewrite bool_decide_eq_false_2 by congruence. by rewrite IH.
Qed.

Lemma adds_list columns s owner tags (array : bool) :
  let column := if array then col_Tags columns else col_Owner columns in
  let values := if array then sc_Tags s else sc_Owners s in
  let fact := if array then tags else if bool_decide (owner = "") then [] else [owner] in
  (array = false → "" ∉ sc_Owners s) →
  (if bool_decide (column = "") then fact = []
   else if array then row column = DArray tags ∨ row column = DNull ∧ tags = []
   else row column = DText owner ∨ row column = DNull ∧ owner = "") →
  adds (listSQL column values array) (matchesAny values fact).
Proof.
  intros column values fact Hempty Hrow. unfold listSQL, hasWildcard.
  destruct (bool_decide (Wildcard ∈ values)) eqn:Hw.
  { apply bool_decide_eq_true in Hw. replace (matchesAny values fact) with true; [exact adds_nothing|].
    symmetry. apply matchesAny_spec. by left. }
  apply bool_decide_eq_false in Hw. rewrite (matchesAny_plain _ fact Hw).
  destruct (bool_decide (values = [])) eqn:He; cbn [orb].
  { apply bool_decide_eq_true in He. rewrite He. exact adds_false. }
  destruct (bool_decide (column = "")) eqn:Hc.
  { rewrite Hrow. replace (existsb _ values) with false; [exact adds_false|]. symmetry. apply not_true_iff_false.
    rewrite existsb_exists. intros (v & _ & Hv). apply bool_decide_eq_true in Hv. by apply elem_of_nil in Hv. }
  clear He Hc. destruct array.
  - apply (adds_one (PTags column) (AList values)); [done|]. intros A. cbn [holds_part]. rewrite argument_last.
    destruct Hrow as [->|[-> Ht]]; [done|]. unfold fact. rewrite Ht. symmetry. apply not_true_iff_false.
    rewrite existsb_exists. intros (v & _ & Hv). apply bool_decide_eq_true in Hv. by apply elem_of_nil in Hv.
  - specialize (Hempty eq_refl). apply (adds_one (POwner column) (AList values)); [done|]. intros A. cbn [holds_part].
    rewrite argument_last.
    assert (Hone : existsb (λ v, bool_decide (v ∈ fact)) values = bool_decide (owner ∈ values)).
    { apply eq_true_iff_eq. rewrite existsb_exists, bool_decide_eq_true. setoid_rewrite bool_decide_eq_true.
      setoid_rewrite <- list_elem_of_In. unfold fact. case_bool_decide as Ho.
      - split; [intros (v & _ & Hv); by apply elem_of_nil in Hv|]. subst owner. done.
      - split; [by intros (v & Hv & ->%list_elem_of_singleton)|]. intros Hv. exists owner. split; [done|by left]. }
    rewrite Hone. by destruct Hrow as [->|[-> ->]].
Qed.

(** One scope. *)
Lemma scope_says columns site environment team owner tags s acc :
  describes row columns site environment team owner tags → "" ∉ sc_Owners s →
  within_args (len (prefix ++ acc)) [] →
  says (scope_parts columns (len prefix) acc s) (Matches s (TargetOf site environment team owner tags)).
Proof.
  intros [Hs He Ht Ho Hg] Hempty Hn. unfold scope_parts, Matches, TargetOf. cbn [sc_Site sc_Environment sc_Team sc_Owners sc_Tags].
  change (matchesValue (sc_Site s) site) with (true && matchesValue (sc_Site s) site).
  repeat apply says_then.
  - by split.
  - apply (adds_value (col_Site columns) (sc_Site s) site (PEqual (col_Site columns))); [done| |done].
    intros A. cbn [holds_part]. by rewrite argument_last.
  - apply (adds_value (col_Environment columns) (sc_Environment s) environment (PEqual (col_Environment columns))); [done| |done].
    intros A. cbn [holds_part]. by rewrite argument_last.
  - by apply adds_team.
  - apply (adds_list columns s owner tags false); [done|]. destruct (bool_decide (col_Owner columns = "")); [|done].
    rewrite Ho. by rewrite bool_decide_eq_true_2.
  - apply (adds_list columns s owner tags true); [done|done].
Qed.

Lemma Covers_matches s target : Covers s = true → Matches s target = true.
Proof.
  unfold Covers, hasWildcard. rewrite !andb_true_iff, !bool_decide_eq_true. intros [[[[Hs He] Ht] Ho] Hg].
  apply Matches_spec. rewrite !matchesValue_spec, matchesTeam_spec, !matchesAny_spec. auto 10.
Qed.

Lemma within_args_mono n m parts : within_args n parts → n ≤ m → within_args m parts.
Proof. intros Hw Hle p k Hp Hk. specialize (Hw p k Hp Hk). lia. Qed.

Lemma then_part_args acc offset next : ∃ used, (then_part acc offset next).2 = acc.2 ++ used.
Proof. destruct acc as [parts args]. unfold then_part. destruct (next _) as [more used]. by exists used. Qed.

Lemma scope_parts_args columns offset args s : ∃ used, (scope_parts columns offset args s).2 = args ++ used.
Proof.
  unfold scope_parts.
  repeat match goal with |- context [then_part ?acc ?o ?n] =>
    lazymatch acc with (_, _) => fail | _ => idtac end;
    destruct (then_part_args acc o n) as [? ->] end.
  match goal with |- context [then_part ?acc ?o ?n] => destruct (then_part_args acc o n) as [? ->] end.
  cbn [snd]. rewrite <- !app_assoc. by eexists.
Qed.

Lemma scope_conditions_select columns site environment team owner tags scopes conditions args :
  describes row columns site environment team owner tags → (∀ s, s ∈ scopes → "" ∉ sc_Owners s) →
  Forall (within_args (len (prefix ++ args))) conditions →
  let r := scope_conditions scopes columns (len prefix) conditions args in
  selected row (prefix ++ r.2) r.1
  = existsb (forallb (holds_part row (prefix ++ args))) conditions
    || existsb (λ s, Matches s (TargetOf site environment team owner tags)) scopes.
Proof.
  intros Hd. revert conditions args. induction scopes as [|s scopes IH]; intros conditions args Hempty Hw; cbn [scope_conditions].
  { cbn. by rewrite orb_false_r. }
  cbn [existsb]. destruct (Covers s) eqn:Hc; [cbn; rewrite (Covers_matches s _ Hc); by rewrite orb_true_r|].
  destruct (scope_says columns site environment team owner tags s args Hd) as [Hn Hv];
    [apply Hempty; by left|intros p k H; by apply elem_of_nil in H|].
  destruct (scope_parts_args columns (len prefix) args s) as [used Hused].
  destruct (scope_parts columns (len prefix) args s) as [parts args'] eqn:Ep. cbn [fst snd] in *. subst args'.
  case_bool_decide as Hl.
  { destruct parts; [|done]. cbn in Hv. cbn. rewrite <- Hv. by rewrite orb_true_r. }
  assert (Hlen : len (prefix ++ args) ≤ len (prefix ++ args ++ used)) by (rewrite app_assoc, (len_app _ used); unfold len; lia).
  rewrite IH.
  - rewrite existsb_app. cbn [existsb]. rewrite orb_false_r, Hv, orb_assoc. f_equal. f_equal.
    clear -Hw. induction Hw as [|c cs Hc _ IHc]; [done|]. cbn. rewrite IHc. f_equal.
    rewrite app_assoc. by apply holds_parts_app.
  - intros s' Hs'. apply Hempty. by right.
  - apply Forall_app. split; [|by constructor]. eapply Forall_impl; [exact Hw|]. intros c Hcw. by eapply within_args_mono.
Qed.
End query.

(** C34: A query narrowed by ScopeSQL shows exactly the rows some scope
    matches: with the arguments appended to those the query has already, the
    condition is true of a row if and only if a scope reaches the thing the row
    describes - a table without a column for a category included, and no scope
    at all is no row. A list of owners names no empty owner. *)
Theorem ScopeSQL_selects_what_matches row prefix scopes columns site environment team owner tags :
  describes row columns site environment team owner tags → (∀ s, s ∈ scopes → "" ∉ sc_Owners s) →
  let '(c, args) := ScopeSQL scopes columns (len prefix) in
  selected row (prefix ++ args) c = existsb (λ s, Matches s (TargetOf site environment team owner tags)) scopes.
Proof.
  intros Hd Hempty. destruct scopes as [|s scopes]; [done|]. unfold ScopeSQL.
  pose proof (scope_conditions_select row prefix columns site environment team owner tags (s :: scopes) [] [] Hd Hempty
    ltac:(constructor)) as H.
  destruct (scope_conditions _ _ _ _ _) as [c args]. exact H.
Qed.

(** ** The roles of the product *)

Definition every_action (P : ActionType → bool) : bool := forallb P actionSpecs.*1.

Lemma every_action_Known P a : every_action P = true → Known a = true → P a = true.
Proof. intros HP Hk. apply bool_decide_eq_true in Hk. by apply (assoc_all P a actionSpecs). Qed.

Lemma mutating_is_known a : Mutating a = true → Known a = true.
Proof. unfold Mutating. by intros [? _]%andb_true_iff. Qed.

Definition watching_roles : list Role := [RoleViewer; RoleAuditor; RoleApprover].

(** The product's own roles against the registry of operations: every
    operation asks for a permission of the catalogue; who watches or approves
    changes nothing on a host; an operator changes nothing whose risk is
    critical or destructive; nobody but the platform administrator both orders
    and approves, a job or a campaign; and the platform administrator holds
    every permission there is. *)
Theorem roles_against_the_registry :
  (∀ a, Known a = true → KnownPermission (Registry.Permission a) = true)
  ∧ (∀ a role, role ∈ watching_roles → Role_Has role (Registry.Permission a) = true → Mutating a = false)
  ∧ (∀ a, Role_Has RoleOperator (Registry.Permission a) = true → Mutating a = true →
       Risk a ∉ [RiskCritical; RiskDestructive])
  ∧ (∀ role create approve, (create, approve) ∈ [(PermJobCreate, PermJobApprove); (PermCampaignCreate, PermCampaignApprove)] →
       Role_Has role create = true → Role_Has role approve = true → role = RolePlatformAdmin)
  ∧ (∀ permission, KnownPermission permission = true → Role_Has RolePlatformAdmin permission = true).
Proof.
  split_and!.
  - intros a. apply (every_action_Known (λ a, KnownPermission (Registry.Permission a))). vm_compute. reflexivity.
  - intros a role Hr Hh. apply not_true_iff_false. intros Hm. pose proof (mutating_is_known _ Hm) as Hk.
    assert (H : every_action (λ a, negb (Mutating a) || forallb (λ r, negb (Role_Has r (Registry.Permission a))) watching_roles) = true)
      by (vm_compute; reflexivity).
    pose proof (every_action_Known _ a H Hk) as Ha. clear H. cbv beta in Ha. rewrite Hm in Ha. cbn [negb orb] in Ha.
    rewrite forallb_forall in Ha. apply list_elem_of_In, Ha in Hr. by rewrite Hh in Hr.
  - intros a Hh Hm. pose proof (mutating_is_known _ Hm) as Hk.
    assert (H : every_action (λ a, negb (Mutating a) || negb (Role_Has RoleOperator (Registry.Permission a))
                                 || bool_decide (Risk a ∉ [RiskCritical; RiskDestructive])) = true) by (vm_compute; reflexivity).
    pose proof (every_action_Known _ a H Hk) as Ha. clear H. cbv beta in Ha. rewrite Hm, Hh in Ha. by apply bool_decide_eq_true in Ha.
  - intros role create approve Hp Hc Ha.
    assert (H : forallb (λ r, bool_decide (r = RolePlatformAdmin)
                  || forallb (λ ca, negb (Role_Has r ca.1 && Role_Has r ca.2))
                       [(PermJobCreate, PermJobApprove); (PermCampaignCreate, PermCampaignApprove)]) rolePermissions.*1 = true)
      by (vm_compute; reflexivity).
    assert (Hk : is_Some (assoc role rolePermissions)).
    { unfold Role_Has, role_permissions in Hc. apply bool_decide_eq_true in Hc.
      destruct (assoc role rolePermissions); [by eexists|by apply elem_of_nil in Hc]. }
    pose proof (assoc_all _ role rolePermissions H Hk) as Hr. clear H. cbv beta in Hr. apply orb_true_iff in Hr as [Hr|Hr];
      [by apply bool_decide_eq_true in Hr|]. rewrite forallb_forall in Hr. apply list_elem_of_In, Hr in Hp. cbn [fst snd] in Hp.
    by rewrite Hc, Ha in Hp.
  - intros permission Hp. apply bool_decide_eq_true in Hp.
    assert (H : forallb (Role_Has RolePlatformAdmin) allPermissions = true) by (vm_compute; reflexivity).
    rewrite forallb_forall in H. by apply H, list_elem_of_In.
Qed.

(** ** Witnesses *)

Definition site_admin : Principal :=
  [mkBinding RolePlatformAdmin (mkScope "waw" Wildcard "" true [Wildcard] [Wildcard]) None []].
Definition narrow : Scope := mkScope "waw" "prod" "" true ["web"] [Wildcard].
Definition web_host : Scope := TargetOf "waw" "prod" "" "web" ["linux"].

Lemma Contains_is_reach_witness :
  Contains (mkScope "waw" Wildcard "" true [Wildcard] [Wildcard]) narrow = true.
Proof.
  apply Contains_is_reach; [by unfold reaches; split_and!; [..|left| |]|]. intros target. rewrite !Matches_spec.
  intros (Hs & _). split_and!; try reflexivity. exact Hs.
Defined.

Lemma nobody_grants_more_than_they_hold_witness : Can site_admin 5 PermUnitRestart web_host = true.
Proof.
  apply (nobody_grants_more_than_they_hold site_admin 5 RoleOperator (Role_Permissions RoleOperator) narrow None [] PermUnitRestart web_host).
  - vm_compute. reflexivity.
  - intros p. unfold Grants. change (BuiltIn _) with true. cbv iota. unfold Role_Has, Role_Permissions.
    rewrite bool_decide_eq_true. by rewrite (sorted_perm _).
  - vm_compute. reflexivity.
Defined.

Definition demo_row : sql_row := λ column,
  if bool_decide (column = "h.site") then DText "waw"
  else if bool_decide (column = "h.environment") then DText "prod"
  else if bool_decide (column = "h.owner") then DText "web"
  else if bool_decide (column = "h.tags") then DArray ["linux"] else DNull.

Lemma ScopeSQL_selects_what_matches_witness :
  selected demo_row ([AText "q"] ++ (ScopeSQL [narrow] (HostColumns "h") 1).2) (ScopeSQL [narrow] (HostColumns "h") 1).1 = true
  ∧ print_condition (ScopeSQL [narrow] (HostColumns "h") 1).1
    = "((h.site = $2 and h.environment = $3 and coalesce(h.owner, '') = any($4::text[])))".
Proof.
  split; [|vm_compute; reflexivity].
  refine (ScopeSQL_selects_what_matches demo_row [AText "q"] [narrow] (HostColumns "h") "waw" "prod" "" "web" ["linux"] _ _).
  - split; vm_compute; try reflexivity; by left.
  - intros s ->%list_elem_of_singleton. by apply (bool_decide_unpack _).
Defined.
