(* ===== verification/Expect.v ===== *)
(** * Expect: what a request to the helper has to be authorized as

    The requests of the helper's protocol, by kind and operation, and the
    operations of the registry that may have produced each (Expect of
    src/internal/helpercap/expect.go). An operation number the protocol does
    not name is [.._OPERATION_other]. Of a message only the fields [Expect]
    reads are here. *)
From S2P Require Import Prelude Actions.

Open Scope string_scope.

(** ** The requests *)

Inductive BackupRequest_Operation :=
| BackupRequest_OPERATION_UNSPECIFIED
| BackupRequest_OPERATION_PLAN
| BackupRequest_OPERATION_RUN
| BackupRequest_OPERATION_VERIFY
| BackupRequest_OPERATION_RESTORE
| BackupRequest_OPERATION_other (n : Z).

Inductive CertificateRequest_Operation :=
| CertificateRequest_OPERATION_UNSPECIFIED
| CertificateRequest_OPERATION_FACTS
| CertificateRequest_OPERATION_DEPLOY
| CertificateRequest_OPERATION_RENEW
| CertificateRequest_OPERATION_PLAN
| CertificateRequest_OPERATION_TRUST_PLAN
| CertificateRequest_OPERATION_TRUST_ENSURE
| CertificateRequest_OPERATION_TRUST_REMOVE
| CertificateRequest_OPERATION_other (n : Z).

Inductive ComposeRequest_Operation :=
| ComposeRequest_OPERATION_UNSPECIFIED
| ComposeRequest_OPERATION_PLAN
| ComposeRequest_OPERATION_DEPLOY
| ComposeRequest_OPERATION_other (n : Z).

Inductive DnsRequest_Operation :=
| DnsRequest_OPERATION_UNSPECIFIED
| DnsRequest_OPERATION_APPLY
| DnsRequest_OPERATION_PLAN
| DnsRequest_OPERATION_other (n : Z).

Inductive DockerActionRequest_Operation :=
| DockerActionRequest_OPERATION_UNSPECIFIED
| DockerActionRequest_OPERATION_START
| DockerActionRequest_OPERATION_STOP
| DockerActionRequest_OPERATION_RESTART
| DockerActionRequest_OPERATION_REMOVE
| DockerActionRequest_OPERATION_PULL_IMAGE
| DockerActionRequest_OPERATION_PRUNE
| DockerActionRequest_OPERATION_other (n : Z).

Inductive DockerEnsureRequest_Operation :=
| DockerEnsureRequest_OPERATION_UNSPECIFIED
| DockerEnsureRequest_OPERATION_PLAN
| DockerEnsureRequest_OPERATION_CONTAINER_ENSURE
| DockerEnsureRequest_OPERATION_NETWORK_ENSURE
| DockerEnsureRequest_OPERATION_NETWORK_REMOVE
| DockerEnsureRequest_OPERATION_VOLUME_ENSURE
| DockerEnsureRequest_OPERATION_VOLUME_REMOVE
| DockerEnsureRequest_OPERATION_other (n : Z).

Inductive FileRequest_Operation :=
| FileRequest_OPERATION_UNSPECIFIED
| FileRequest_OPERATION_READ
| FileRequest_OPERATION_ENSURE
| FileRequest_OPERATION_REMOVE
| FileRequest_OPERATION_LIST
| FileRequest_OPERATION_PLAN
| FileRequest_OPERATION_other (n : Z).

Inductive FirewallRequest_Operation :=
| FirewallRequest_OPERATION_UNSPECIFIED
| FirewallRequest_OPERATION_READ
| FirewallRequest_OPERATION_RULE_ENSURE
| FirewallRequest_OPERATION_RULE_REMOVE
| FirewallRequest_OPERATION_ZONE_PORT
| FirewallRequest_OPERATION_ZONE_SERVICE
| FirewallRequest_OPERATION_RESTORE
| FirewallRequest_OPERATION_CONFIRM
| FirewallRequest_OPERATION_PLAN
| FirewallRequest_OPERATION_other (n : Z).

Inductive KernelRequest_Operation :=
| KernelRequest_OPERATION_UNSPECIFIED
| KernelRequest_OPERATION_READ
| KernelRequest_OPERATION_SYSCTL_ENSURE
| KernelRequest_OPERATION_MODULE_LOAD
| KernelRequest_OPERATION_MODULE_BLACKLIST
| KernelRequest_OPERATION_MODULE_PLAN
| KernelRequest_OPERATION_other (n : Z).

Inductive LocalUserActionRequest_Operation :=
| LocalUserActionRequest_OPERATION_UNSPECIFIED
| LocalUserActionRequest_OPERATION_CREATE
| LocalUserActionRequest_OPERATION_LOCK
| LocalUserActionRequest_OPERATION_UNLOCK
| LocalUserActionRequest_OPERATION_SET_SSH_KEYS
| LocalUserActionRequest_OPERATION_SET_GROUPS
| LocalUserActionRequest_OPERATION_SET_EXPIRY
| LocalUserActionRequest_OPERATION_DELETE
| LocalUserActionRequest_OPERATION_ADD_SSH_KEYS
| LocalUserActionRequest_OPERATION_REMOVE_SSH_KEYS
| LocalUserActionRequest_OPERATION_REPLACE_SSH_KEYS
| LocalUserActionRequest_OPERATION_other (n : Z).

Inductive NetworkRequest_Operation :=
| NetworkRequest_OPERATION_UNSPECIFIED
| NetworkRequest_OPERATION_READ
| NetworkRequest_OPERATION_SET_MTU
| NetworkRequest_OPERATION_ENSURE_ROUTES
| NetworkRequest_OPERATION_APPLY_PROFILE
| NetworkRequest_OPERATION_CONFIRM
| NetworkRequest_OPERATION_ROLLBACK
| NetworkRequest_OPERATION_PLAN
| NetworkRequest_OPERATION_APPLY_LINK
| NetworkRequest_OPERATION_REMOVE_LINK
| NetworkRequest_OPERATION_other (n : Z).

Inductive PackageActionRequest_Operation :=
| PackageActionRequest_OPERATION_UNSPECIFIED
| PackageActionRequest_OPERATION_REFRESH
| PackageActionRequest_OPERATION_UPGRADE
| PackageActionRequest_OPERATION_INSTALL
| PackageActionRequest_OPERATION_REMOVE
| PackageActionRequest_OPERATION_HOLD
| PackageActionRequest_OPERATION_other (n : Z).

Inductive ScheduleRequest_Operation :=
| ScheduleRequest_OPERATION_UNSPECIFIED
| ScheduleRequest_OPERATION_ENSURE
| ScheduleRequest_OPERATION_DISABLE
| ScheduleRequest_OPERATION_REMOVE
| ScheduleRequest_OPERATION_RUN_NOW
| ScheduleRequest_OPERATION_READ
| ScheduleRequest_OPERATION_other (n : Z).

Inductive SecurityRequest_Operation :=
| SecurityRequest_OPERATION_UNSPECIFIED
| SecurityRequest_OPERATION_FACTS
| SecurityRequest_OPERATION_SELINUX_MODE
| SecurityRequest_OPERATION_AUDIT_RELOAD
| SecurityRequest_OPERATION_other (n : Z).

Inductive SshRequest_Operation :=
| SshRequest_OPERATION_UNSPECIFIED
| SshRequest_OPERATION_READ
| SshRequest_OPERATION_APPLY
| SshRequest_OPERATION_ROTATE_HOSTKEY
| SshRequest_OPERATION_PLAN
| SshRequest_OPERATION_other (n : Z).

Inductive StorageRequest_Operation :=
| StorageRequest_OPERATION_UNSPECIFIED
| StorageRequest_OPERATION_READ_LVM
| StorageRequest_OPERATION_MOUNT_ENSURE
| StorageRequest_OPERATION_MOUNT_REMOVE
| StorageRequest_OPERATION_FS_CHECK
| StorageRequest_OPERATION_LVM_EXTEND
| StorageRequest_OPERATION_FS_RESIZE
| StorageRequest_OPERATION_FS_CREATE
| StorageRequest_OPERATION_DISK_WIPE
| StorageRequest_OPERATION_MOUNT_PLAN
| StorageRequest_OPERATION_DEVICE_PLAN
| StorageRequest_OPERATION_SMART_READ
| StorageRequest_OPERATION_READ_RAID
| StorageRequest_OPERATION_RAID_MEMBER_FAIL
| StorageRequest_OPERATION_RAID_MEMBER_REMOVE
| StorageRequest_OPERATION_RAID_MEMBER_ADD
| StorageRequest_OPERATION_LVM_LV_CREATE
| StorageRequest_OPERATION_LVM_LV_REMOVE
| StorageRequest_OPERATION_LVM_VG_EXTEND
| StorageRequest_OPERATION_LVM_SNAPSHOT_CREATE
| StorageRequest_OPERATION_LVM_SNAPSHOT_REMOVE
| StorageRequest_OPERATION_other (n : Z).

Inductive TimeRequest_Operation :=
| TimeRequest_OPERATION_UNSPECIFIED
| TimeRequest_OPERATION_CONFIG_APPLY
| TimeRequest_OPERATION_TIMEZONE_SET
| TimeRequest_OPERATION_PLAN
| TimeRequest_OPERATION_other (n : Z).

Inductive UnitActionRequest_Operation :=
| UnitActionRequest_OPERATION_UNSPECIFIED
| UnitActionRequest_OPERATION_START
| UnitActionRequest_OPERATION_STOP
| UnitActionRequest_OPERATION_RESTART
| UnitActionRequest_OPERATION_RELOAD
| UnitActionRequest_OPERATION_ENABLE
| UnitActionRequest_OPERATION_DISABLE
| UnitActionRequest_OPERATION_MASK
| UnitActionRequest_OPERATION_UNMASK
| UnitActionRequest_OPERATION_RESET_FAILED
| UnitActionRequest_OPERATION_other (n : Z).

Inductive HelperAction :=
| HelperRequest_UnitAction (op : UnitActionRequest_Operation)
| HelperRequest_PackageAction (op : PackageActionRequest_Operation)
| HelperRequest_Reboot
| HelperRequest_IdentityProbe
| HelperRequest_DomainEnroll (preflight_only : bool)
| HelperRequest_LocalAccounts
| HelperRequest_LocalUserAction (op : LocalUserActionRequest_Operation)
| HelperRequest_PackageRepair
| HelperRequest_DockerRead
| HelperRequest_DockerEvents
| HelperRequest_DockerAction (op : DockerActionRequest_Operation)
| HelperRequest_Compose (op : ComposeRequest_Operation)
| HelperRequest_LogFile
| HelperRequest_ProcessSignal
| HelperRequest_Schedule (op : ScheduleRequest_Operation)
| HelperRequest_Network (op : NetworkRequest_Operation)
| HelperRequest_Dns (op : DnsRequest_Operation)
| HelperRequest_Firewall (op : FirewallRequest_Operation)
| HelperRequest_Storage (op : StorageRequest_Operation)
| HelperRequest_Ssh (op : SshRequest_Operation)
| HelperRequest_Kernel (op : KernelRequest_Operation)
| HelperRequest_File (op : FileRequest_Operation)
| HelperRequest_Time (op : TimeRequest_Operation)
| HelperRequest_Shutdown
| HelperRequest_Security (op : SecurityRequest_Operation)
| HelperRequest_Certificate (op : CertificateRequest_Operation)
| HelperRequest_Repository
| HelperRequest_Backup (op : BackupRequest_Operation)
| HelperRequest_DockerLogs
| HelperRequest_Hostname
| HelperRequest_FinalWipe
| HelperRequest_DomainLeave
| HelperRequest_System
| HelperRequest_KeytabRenew
| HelperRequest_TrustUpdate
| HelperRequest_DockerEnsure (op : DockerEnsureRequest_Operation)
| HelperRequest_nil.

(** ** Expectations *)

Record Expectation := mkExpectation {
  e_Kind : string;
  e_Mutating : bool;
  e_Authorized : bool;
  e_Actions : list ActionType;
}.

(** [Expectation.Allows]. *)
Definition Allows (e : Expectation) (action : ActionType) : bool := bool_decide (action ∈ e_Actions e).

Definition mutating (kind : string) (actions : list ActionType) : Expectation :=
  mkExpectation kind true false actions.
Definition authorizedRead (kind : string) (actions : list ActionType) : Expectation :=
  mkExpectation kind false true actions.
Definition read (kind : string) : Expectation := mkExpectation kind false false [].

Definition expect_UnitAction (op : UnitActionRequest_Operation) : Expectation :=
  match op with
  | UnitActionRequest_OPERATION_START => mutating "unit.start" [ActionUnitStart]
  | UnitActionRequest_OPERATION_STOP => mutating "unit.stop" [ActionUnitStop]
  | UnitActionRequest_OPERATION_RESTART => mutating "unit.restart" [ActionUnitRestart]
  | UnitActionRequest_OPERATION_RELOAD => mutating "unit.reload" [ActionUnitReload]
  | UnitActionRequest_OPERATION_ENABLE | UnitActionRequest_OPERATION_DISABLE => mutating "unit.enable" [ActionUnitEnableSet]
  | UnitActionRequest_OPERATION_MASK | UnitActionRequest_OPERATION_UNMASK => mutating "unit.mask" [ActionUnitMaskSet]
  | UnitActionRequest_OPERATION_RESET_FAILED => mutating "unit.reset_failed" [ActionUnitResetFailed]
  | _ => mutating "unit.unknown" []
  end.

Definition expect_PackageAction (op : PackageActionRequest_Operation) : Expectation :=
  match op with
  | PackageActionRequest_OPERATION_REFRESH => read "packages.refresh"
  | PackageActionRequest_OPERATION_UPGRADE => mutating "packages.upgrade" [ActionPackageUpgrade]
  | PackageActionRequest_OPERATION_INSTALL => mutating "packages.install" [ActionPackageInstall; ActionAgentUpgrade]
  | PackageActionRequest_OPERATION_REMOVE => mutating "packages.remove" [ActionPackageRemove]
  | PackageActionRequest_OPERATION_HOLD => mutating "packages.hold" [ActionPackageHoldSet]
  | _ => mutating "packages.unknown" []
  end.

Definition expect_LocalUserAction (op : LocalUserActionRequest_Operation) : Expectation :=
  match op with
  | LocalUserActionRequest_OPERATION_CREATE => mutating "localuser.create" [ActionLocalUserCreate]
  | LocalUserActionRequest_OPERATION_LOCK => mutating "localuser.lock" [ActionLocalUserLock]
  | LocalUserActionRequest_OPERATION_UNLOCK => mutating "localuser.unlock" [ActionLocalUserUnlock]
  | LocalUserActionRequest_OPERATION_SET_SSH_KEYS => mutating "localuser.sshkeys" [ActionLocalSSHKeysSet]
  | LocalUserActionRequest_OPERATION_ADD_SSH_KEYS => mutating "localuser.sshkeys.add" [ActionLocalSSHKeysAdd]
  | LocalUserActionRequest_OPERATION_REMOVE_SSH_KEYS => mutating "localuser.sshkeys.remove" [ActionLocalSSHKeysRemove]
  | LocalUserActionRequest_OPERATION_REPLACE_SSH_KEYS => mutating "localuser.sshkeys.replace" [ActionLocalSSHKeysReplaceAll]
  | LocalUserActionRequest_OPERATION_SET_GROUPS => mutating "localuser.groups" [ActionLocalUserGroupsSet]
  | LocalUserActionRequest_OPERATION_SET_EXPIRY => mutating "localuser.expiry" [ActionLocalUserExpirySet]
  | LocalUserActionRequest_OPERATION_DELETE => mutating "localuser.delete" [ActionLocalUserDelete]
  | _ => mutating "localuser.unknown" []
  end.

Definition expect_DockerAction (op : DockerActionRequest_Operation) : Expectation :=
  match op with
  | DockerActionRequest_OPERATION_START => mutating "docker.start" [ActionDockerStart]
  | DockerActionRequest_OPERATION_STOP => mutating "docker.stop" [ActionDockerStop]
  | DockerActionRequest_OPERATION_RESTART => mutating "docker.restart" [ActionDockerRestart]
  | DockerActionRequest_OPERATION_REMOVE => mutating "docker.remove" [ActionDockerRemove]
  | DockerActionRequest_OPERATION_PULL_IMAGE => mutating "docker.pull" [ActionDockerPull]
  | DockerActionRequest_OPERATION_PRUNE => mutating "docker.prune" [ActionDockerPrune]
  | _ => mutating "docker.unknown" []
  end.

Definition expect_DockerEnsure (op : DockerEnsureRequest_Operation) : Expectation :=
  match op with
  | DockerEnsureRequest_OPERATION_PLAN => read "docker.declare.plan"
  | DockerEnsureRequest_OPERATION_CONTAINER_ENSURE => mutating "docker.container.ensure" [ActionDockerContainerEnsure]
  | DockerEnsureRequest_OPERATION_NETWORK_ENSURE => mutating "docker.network.ensure" [ActionDockerNetworkEnsure]
  | DockerEnsureRequest_OPERATION_NETWORK_REMOVE => mutating "docker.network.remove" [ActionDockerNetworkRemove]
  | DockerEnsureRequest_OPERATION_VOLUME_ENSURE => mutating "docker.volume.ensure" [ActionDockerVolumeEnsure]
  | DockerEnsureRequest_OPERATION_VOLUME_REMOVE => mutating "docker.volume.remove" [ActionDockerVolumeRemove]
  | _ => mutating "docker.declare.unknown" []
  end.

Definition expect_Compose (op : ComposeRequest_Operation) : Expectation :=
  match op with
  | ComposeRequest_OPERATION_PLAN => read "compose.plan"
  | _ => mutating "compose.deploy" [ActionComposeDeploy]
  end.

Definition expect_Schedule (op : ScheduleRequest_Operation) : Expectation :=
  match op with
  | ScheduleRequest_OPERATION_READ => read "schedule.read"
  | ScheduleRequest_OPERATION_ENSURE => mutating "schedule.ensure" [ActionScheduleEnsure]
  | ScheduleRequest_OPERATION_DISABLE => mutating "schedule.disable" [ActionScheduleDisable]
  | ScheduleRequest_OPERATION_REMOVE => mutating "schedule.remove" [ActionScheduleRemove]
  | ScheduleRequest_OPERATION_RUN_NOW => mutating "schedule.run_now" [ActionScheduleRunNow]
  | _ => mutating "schedule.unknown" []
  end.

Definition expect_Network (op : NetworkRequest_Operation) : Expectation :=
  match op with
  | NetworkRequest_OPERATION_READ | NetworkRequest_OPERATION_PLAN => read "network.read"
  | NetworkRequest_OPERATION_CONFIRM => read "network.confirm"
  | NetworkRequest_OPERATION_SET_MTU => mutating "network.mtu" [ActionNetworkMTUSet]
  | NetworkRequest_OPERATION_ENSURE_ROUTES => mutating "network.routes" [ActionNetworkRouteEnsure]
  | NetworkRequest_OPERATION_APPLY_PROFILE => mutating "network.profile" [ActionNetworkProfileApply]
  | NetworkRequest_OPERATION_ROLLBACK => mutating "network.rollback" [ActionNetworkRollback]
  | NetworkRequest_OPERATION_APPLY_LINK => mutating "network.link" [ActionNetworkLinkApply]
  | NetworkRequest_OPERATION_REMOVE_LINK => mutating "network.link.remove" [ActionNetworkLinkRemove]
  | _ => mutating "network.unknown" []
  end.

Definition expect_Dns (op : DnsRequest_Operation) : Expectation :=
  match op with
  | DnsRequest_OPERATION_PLAN => read "dns.plan"
  | _ => mutating "dns.apply" [ActionDNSHostApply]
  end.

Definition expect_Firewall (op : FirewallRequest_Operation) : Expectation :=
  match op with
  | FirewallRequest_OPERATION_READ | FirewallRequest_OPERATION_PLAN | FirewallRequest_OPERATION_CONFIRM => read "firewall.read"
  | FirewallRequest_OPERATION_RULE_ENSURE => mutating "firewall.rule.ensure" [ActionFirewallRuleEnsure]
  | FirewallRequest_OPERATION_RULE_REMOVE => mutating "firewall.rule.remove" [ActionFirewallRuleRemove]
  | FirewallRequest_OPERATION_ZONE_PORT => mutating "firewall.zone.port" [ActionFirewallZonePort]
  | FirewallRequest_OPERATION_ZONE_SERVICE => mutating "firewall.zone.service" [ActionFirewallZoneService]
  | FirewallRequest_OPERATION_RESTORE => mutating "firewall.restore" [ActionFirewallRulesetRestore]
  | _ => mutating "firewall.unknown" []
  end.

Definition expect_Storage (op : StorageRequest_Operation) : Expectation :=
  match op with
  | StorageRequest_OPERATION_READ_LVM | StorageRequest_OPERATION_MOUNT_PLAN | StorageRequest_OPERATION_DEVICE_PLAN | StorageRequest_OPERATION_SMART_READ | StorageRequest_OPERATION_READ_RAID => read "storage.read"
  | StorageRequest_OPERATION_MOUNT_ENSURE => mutating "mount.ensure" [ActionMountEnsure]
  | StorageRequest_OPERATION_MOUNT_REMOVE => mutating "mount.remove" [ActionMountRemove]
  | StorageRequest_OPERATION_FS_CHECK => mutating "filesystem.check" [ActionFilesystemCheck]
  | StorageRequest_OPERATION_LVM_EXTEND => mutating "lvm.extend" [ActionLVMExtend]
  | StorageRequest_OPERATION_FS_RESIZE => mutating "filesystem.resize" [ActionFilesystemResize]
  | StorageRequest_OPERATION_FS_CREATE => mutating "filesystem.create" [ActionFilesystemCreate]
  | StorageRequest_OPERATION_DISK_WIPE => mutating "disk.wipe" [ActionDiskWipe]
  | StorageRequest_OPERATION_RAID_MEMBER_FAIL => mutating "raid.member.fail" [ActionRAIDMemberFail]
  | StorageRequest_OPERATION_RAID_MEMBER_REMOVE => mutating "raid.member.remove" [ActionRAIDMemberRemove]
  | StorageRequest_OPERATION_RAID_MEMBER_ADD => mutating "raid.member.add" [ActionRAIDMemberAdd]
  | StorageRequest_OPERATION_LVM_LV_CREATE => mutating "lvm.volume.create" [ActionLVMVolumeCreate]
  | StorageRequest_OPERATION_LVM_LV_REMOVE => mutating "lvm.volume.remove" [ActionLVMVolumeRemove]
  | StorageRequest_OPERATION_LVM_VG_EXTEND => mutating "lvm.group.extend" [ActionLVMGroupExtend]
  | StorageRequest_OPERATION_LVM_SNAPSHOT_CREATE => mutating "lvm.snapshot.create" [ActionLVMSnapshotCreate]
  | StorageRequest_OPERATION_LVM_SNAPSHOT_REMOVE => mutating "lvm.snapshot.remove" [ActionLVMSnapshotRemove]
  | _ => mutating "storage.unknown" []
  end.

Definition expect_Ssh (op : SshRequest_Operation) : Expectation :=
  match op with
  | SshRequest_OPERATION_READ | SshRequest_OPERATION_PLAN => read "ssh.read"
  | SshRequest_OPERATION_APPLY => mutating "ssh.apply" [ActionSSHConfigApply]
  | SshRequest_OPERATION_ROTATE_HOSTKEY => mutating "ssh.hostkey" [ActionSSHHostKeyRotate]
  | _ => mutating "ssh.unknown" []
  end.

Definition expect_Kernel (op : KernelRequest_Operation) : Expectation :=
  match op with
  | KernelRequest_OPERATION_READ | KernelRequest_OPERATION_MODULE_PLAN => read "kernel.read"
  | KernelRequest_OPERATION_SYSCTL_ENSURE => mutating "sysctl.ensure" [ActionSysctlEnsure]
  | KernelRequest_OPERATION_MODULE_LOAD => mutating "kernel.module.load" [ActionKernelModuleLoad]
  | KernelRequest_OPERATION_MODULE_BLACKLIST => mutating "kernel.module.blacklist" [ActionKernelModuleBlacklist]
  | _ => mutating "kernel.unknown" []
  end.

Definition expect_File (op : FileRequest_Operation) : Expectation :=
  match op with
  | FileRequest_OPERATION_READ | FileRequest_OPERATION_LIST | FileRequest_OPERATION_PLAN => read "file.read"
  | FileRequest_OPERATION_ENSURE => mutating "file.ensure" [ActionFileEnsure; ActionFileRollback]
  | FileRequest_OPERATION_REMOVE => mutating "file.remove" [ActionFileRemove]
  | _ => mutating "file.unknown" []
  end.

Definition expect_Time (op : TimeRequest_Operation) : Expectation :=
  match op with
  | TimeRequest_OPERATION_PLAN => read "time.plan"
  | TimeRequest_OPERATION_CONFIG_APPLY => mutating "time.config" [ActionTimeConfigApply]
  | TimeRequest_OPERATION_TIMEZONE_SET => mutating "time.timezone" [ActionTimezoneSet]
  | _ => mutating "time.unknown" []
  end.

Definition expect_Security (op : SecurityRequest_Operation) : Expectation :=
  match op with
  | SecurityRequest_OPERATION_FACTS => read "security.facts"
  | SecurityRequest_OPERATION_SELINUX_MODE => mutating "selinux.mode" [ActionSELinuxModeSet; ActionSecurityRemediate]
  | SecurityRequest_OPERATION_AUDIT_RELOAD => mutating "audit.reload" [ActionAuditRulesReload; ActionSecurityRemediate]
  | _ => mutating "security.unknown" []
  end.

Definition expect_Certificate (op : CertificateRequest_Operation) : Expectation :=
  match op with
  | CertificateRequest_OPERATION_FACTS | CertificateRequest_OPERATION_PLAN | CertificateRequest_OPERATION_TRUST_PLAN => read "certificate.read"
  | CertificateRequest_OPERATION_DEPLOY => mutating "certificate.deploy" [ActionCertificateDeploy]
  | CertificateRequest_OPERATION_RENEW => mutating "certificate.renew" [ActionCertificateRenew]
  | CertificateRequest_OPERATION_TRUST_ENSURE => mutating "certificate.trust.ensure" [ActionCertificateTrustEnsure]
  | CertificateRequest_OPERATION_TRUST_REMOVE => mutating "certificate.trust.remove" [ActionCertificateTrustRemove]
  | _ => mutating "certificate.unknown" []
  end.

Definition expect_Backup (op : BackupRequest_Operation) : Expectation :=
  match op with
  | BackupRequest_OPERATION_PLAN => authorizedRead "backup.plan" [ActionBackupPlan; ActionBackupRun; ActionBackupVerify; ActionBackupRestore]
  | BackupRequest_OPERATION_RUN => mutating "backup.run" [ActionBackupRun]
  | BackupRequest_OPERATION_VERIFY => mutating "backup.verify" [ActionBackupVerify]
  | BackupRequest_OPERATION_RESTORE => mutating "backup.restore" [ActionBackupRestore]
  | _ => mutating "backup.unknown" []
  end.

Definition Expect (action : HelperAction) : Expectation :=
  match action with
  | HelperRequest_UnitAction op => expect_UnitAction op
  | HelperRequest_PackageAction op => expect_PackageAction op
  | HelperRequest_Reboot => mutating "system.reboot" [ActionSystemReboot]
  | HelperRequest_IdentityProbe => read "identity.probe"
  | HelperRequest_DomainEnroll preflight_only => if preflight_only then read "identity.preflight" else mutating "identity.enroll" [ActionDomainEnroll]
  | HelperRequest_LocalAccounts => read "accounts.read"
  | HelperRequest_LocalUserAction op => expect_LocalUserAction op
  | HelperRequest_PackageRepair => mutating "packages.repair" [ActionPackageRepair]
  | HelperRequest_DockerRead => read "docker.read"
  | HelperRequest_DockerEvents => read "docker.events"
  | HelperRequest_DockerAction op => expect_DockerAction op
  | HelperRequest_Compose op => expect_Compose op
  | HelperRequest_LogFile => read "logfile.read"
  | HelperRequest_ProcessSignal => mutating "process.signal" [ActionProcessSignal]
  | HelperRequest_Schedule op => expect_Schedule op
  | HelperRequest_Network op => expect_Network op
  | HelperRequest_Dns op => expect_Dns op
  | HelperRequest_Firewall op => expect_Firewall op
  | HelperRequest_Storage op => expect_Storage op
  | HelperRequest_Ssh op => expect_Ssh op
  | HelperRequest_Kernel op => expect_Kernel op
  | HelperRequest_File op => expect_File op
  | HelperRequest_Time op => expect_Time op
  | HelperRequest_Shutdown => mutating "system.shutdown" [ActionSystemShutdown]
  | HelperRequest_Security op => expect_Security op
  | HelperRequest_Certificate op => expect_Certificate op
  | HelperRequest_Repository => mutating "packages.repository" [ActionRepositorySet]
  | HelperRequest_Backup op => expect_Backup op
  | HelperRequest_DockerLogs => read "docker.logs"
  | HelperRequest_Hostname => mutating "system.hostname" [ActionSystemHostnameSet]
  | HelperRequest_FinalWipe => mutating "final_wipe" [ActionHostFinalWipe]
  | HelperRequest_DomainLeave => mutating "identity.leave" [ActionDomainLeave]
  | HelperRequest_System => read "system.read"
  | HelperRequest_KeytabRenew => mutating "identity.keytab" [ActionIdentityKeytabRenew]
  | HelperRequest_TrustUpdate => read "trust.update"
  | HelperRequest_DockerEnsure op => expect_DockerEnsure op
  | HelperRequest_nil => read "none"
  end.
