(* ===== verification/ExpectProps.v ===== *)
(** * ExpectProps: the helper's requests and the registry agree

    Two tables, in two packages, say what is a change: the registry of
    operations, and the requests the helper accepts with the operations that
    may order each. They say the same thing. *)
From S2P Require Import Prelude Bytes Text Actions ActionTables Registry RegistryProps Expect.

Open Scope Z_scope.

(** One request of every kind and operation the protocol names. *)
Definition named_requests : list HelperAction :=
  (HelperRequest_UnitAction <$> [UnitActionRequest_OPERATION_UNSPECIFIED; UnitActionRequest_OPERATION_START;
     UnitActionRequest_OPERATION_STOP; UnitActionRequest_OPERATION_RESTART;
     UnitActionRequest_OPERATION_RELOAD; UnitActionRequest_OPERATION_ENABLE;
     UnitActionRequest_OPERATION_DISABLE; UnitActionRequest_OPERATION_MASK;
     UnitActionRequest_OPERATION_UNMASK; UnitActionRequest_OPERATION_RESET_FAILED])
  ++ (HelperRequest_PackageAction <$> [PackageActionRequest_OPERATION_UNSPECIFIED;
     PackageActionRequest_OPERATION_REFRESH; PackageActionRequest_OPERATION_UPGRADE;
     PackageActionRequest_OPERATION_INSTALL; PackageActionRequest_OPERATION_REMOVE;
     PackageActionRequest_OPERATION_HOLD])
  ++ [HelperRequest_Reboot]
  ++ [HelperRequest_IdentityProbe]
  ++ (HelperRequest_DomainEnroll <$> [true; false])
  ++ [HelperRequest_LocalAccounts]
  ++ (HelperRequest_LocalUserAction <$> [LocalUserActionRequest_OPERATION_UNSPECIFIED;
     LocalUserActionRequest_OPERATION_CREATE; LocalUserActionRequest_OPERATION_LOCK;
     LocalUserActionRequest_OPERATION_UNLOCK; LocalUserActionRequest_OPERATION_SET_SSH_KEYS;
     LocalUserActionRequest_OPERATION_SET_GROUPS; LocalUserActionRequest_OPERATION_SET_EXPIRY;
     LocalUserActionRequest_OPERATION_DELETE; LocalUserActionRequest_OPERATION_ADD_SSH_KEYS;
     LocalUserActionRequest_OPERATION_REMOVE_SSH_KEYS; LocalUserActionRequest_OPERATION_REPLACE_SSH_KEYS])
  ++ [HelperRequest_PackageRepair]
  ++ [HelperRequest_DockerRead]
  ++ [HelperRequest_DockerEvents]
  ++ (HelperRequest_DockerAction <$> [DockerActionRequest_OPERATION_UNSPECIFIED;
     DockerActionRequest_OPERATION_START; DockerActionRequest_OPERATION_STOP;
     DockerActionRequest_OPERATION_RESTART; DockerActionRequest_OPERATION_REMOVE;
     DockerActionRequest_OPERATION_PULL_IMAGE; DockerActionRequest_OPERATION_PRUNE])
  ++ (HelperRequest_Compose <$> [ComposeRequest_OPERATION_UNSPECIFIED; ComposeRequest_OPERATION_PLAN;
     ComposeRequest_OPERATION_DEPLOY])
  ++ [HelperRequest_LogFile]
  ++ [HelperRequest_ProcessSignal]
  ++ (HelperRequest_Schedule <$> [ScheduleRequest_OPERATION_UNSPECIFIED; ScheduleRequest_OPERATION_ENSURE;
     ScheduleRequest_OPERATION_DISABLE; ScheduleRequest_OPERATION_REMOVE; ScheduleRequest_OPERATION_RUN_NOW;
     ScheduleRequest_OPERATION_READ])
  ++ (HelperRequest_Network <$> [NetworkRequest_OPERATION_UNSPECIFIED; NetworkRequest_OPERATION_READ;
     NetworkRequest_OPERATION_SET_MTU; NetworkRequest_OPERATION_ENSURE_ROUTES;
     NetworkRequest_OPERATION_APPLY_PROFILE; NetworkRequest_OPERATION_CONFIRM;
     NetworkRequest_OPERATION_ROLLBACK; NetworkRequest_OPERATION_PLAN; NetworkRequest_OPERATION_APPLY_LINK;
     NetworkRequest_OPERATION_REMOVE_LINK])
  ++ (HelperRequest_Dns <$> [DnsRequest_OPERATION_UNSPECIFIED; DnsRequest_OPERATION_APPLY;
     DnsRequest_OPERATION_PLAN])
  ++ (HelperRequest_Firewall <$> [FirewallRequest_OPERATION_UNSPECIFIED; FirewallRequest_OPERATION_READ;
     FirewallRequest_OPERATION_RULE_ENSURE; FirewallRequest_OPERATION_RULE_REMOVE;
     FirewallRequest_OPERATION_ZONE_PORT; FirewallRequest_OPERATION_ZONE_SERVICE;
     FirewallRequest_OPERATION_RESTORE; FirewallRequest_OPERATION_CONFIRM; FirewallRequest_OPERATION_PLAN])
  ++ (HelperRequest_Storage <$> [StorageRequest_OPERATION_UNSPECIFIED; StorageRequest_OPERATION_READ_LVM;
     StorageRequest_OPERATION_MOUNT_ENSURE; StorageRequest_OPERATION_MOUNT_REMOVE;
     StorageRequest_OPERATION_FS_CHECK; StorageRequest_OPERATION_LVM_EXTEND;
     StorageRequest_OPERATION_FS_RESIZE; StorageRequest_OPERATION_FS_CREATE;
     StorageRequest_OPERATION_DISK_WIPE; StorageRequest_OPERATION_MOUNT_PLAN;
     StorageRequest_OPERATION_DEVICE_PLAN; StorageRequest_OPERATION_SMART_READ;
     StorageRequest_OPERATION_READ_RAID; StorageRequest_OPERATION_RAID_MEMBER_FAIL;
     StorageRequest_OPERATION_RAID_MEMBER_REMOVE; StorageRequest_OPERATION_RAID_MEMBER_ADD;
     StorageRequest_OPERATION_LVM_LV_CREATE; StorageRequest_OPERATION_LVM_LV_REMOVE;
     StorageRequest_OPERATION_LVM_VG_EXTEND; StorageRequest_OPERATION_LVM_SNAPSHOT_CREATE;
     StorageRequest_OPERATION_LVM_SNAPSHOT_REMOVE])
  ++ (HelperRequest_Ssh <$> [SshRequest_OPERATION_UNSPECIFIED; SshRequest_OPERATION_READ;
     SshRequest_OPERATION_APPLY; SshRequest_OPERATION_ROTATE_HOSTKEY; SshRequest_OPERATION_PLAN])
  ++ (HelperRequest_Kernel <$> [KernelRequest_OPERATION_UNSPECIFIED; KernelRequest_OPERATION_READ;
     KernelRequest_OPERATION_SYSCTL_ENSURE; KernelRequest_OPERATION_MODULE_LOAD;
     KernelRequest_OPERATION_MODULE_BLACKLIST; KernelRequest_OPERATION_MODULE_PLAN])
  ++ (HelperRequest_File <$> [FileRequest_OPERATION_UNSPECIFIED; FileRequest_OPERATION_READ;
     FileRequest_OPERATION_ENSURE; FileRequest_OPERATION_REMOVE; FileRequest_OPERATION_LIST;
     FileRequest_OPERATION_PLAN])
  ++ (HelperRequest_Time <$> [TimeRequest_OPERATION_UNSPECIFIED; TimeRequest_OPERATION_CONFIG_APPLY;
     TimeRequest_OPERATION_TIMEZONE_SET; TimeRequest_OPERATION_PLAN])
  ++ [HelperRequest_Shutdown]
  ++ (HelperRequest_Security <$> [SecurityRequest_OPERATION_UNSPECIFIED; SecurityRequest_OPERATION_FACTS;
     SecurityRequest_OPERATION_SELINUX_MODE; SecurityRequest_OPERATION_AUDIT_RELOAD])
  ++ (HelperRequest_Certificate <$> [CertificateRequest_OPERATION_UNSPECIFIED;
     CertificateRequest_OPERATION_FACTS; CertificateRequest_OPERATION_DEPLOY;
     CertificateRequest_OPERATION_RENEW; CertificateRequest_OPERATION_PLAN;
     CertificateRequest_OPERATION_TRUST_PLAN; CertificateRequest_OPERATION_TRUST_ENSURE;
     CertificateRequest_OPERATION_TRUST_REMOVE])
  ++ [HelperRequest_Repository]
  ++ (HelperRequest_Backup <$> [BackupRequest_OPERATION_UNSPECIFIED; BackupRequest_OPERATION_PLAN;
     BackupRequest_OPERATION_RUN; BackupRequest_OPERATION_VERIFY; BackupRequest_OPERATION_RESTORE])
  ++ [HelperRequest_DockerLogs]
  ++ [HelperRequest_Hostname]
  ++ [HelperRequest_FinalWipe]
  ++ [HelperRequest_DomainLeave]
  ++ [HelperRequest_System]
  ++ [HelperRequest_KeytabRenew]
  ++ [HelperRequest_TrustUpdate]
  ++ (HelperRequest_DockerEnsure <$> [DockerEnsureRequest_OPERATION_UNSPECIFIED;
     DockerEnsureRequest_OPERATION_PLAN; DockerEnsureRequest_OPERATION_CONTAINER_ENSURE;
     DockerEnsureRequest_OPERATION_NETWORK_ENSURE; DockerEnsureRequest_OPERATION_NETWORK_REMOVE;
     DockerEnsureRequest_OPERATION_VOLUME_ENSURE; DockerEnsureRequest_OPERATION_VOLUME_REMOVE])
  ++ [HelperRequest_nil].

Lemma expected_actions_row r :
  forallb (λ a, if e_Mutating (Expect r) then Mutating a else UnderCapability a) (e_Actions (Expect r))
  && (bool_decide (e_Actions (Expect r) = []) || e_Mutating (Expect r) || e_Authorized (Expect r)) = true.
Proof.
  destruct r as [op|op| | |b| |op| | | |op|op| | |op|op|op|op|op|op|op|op|op| |op|op| |op| | | | | | | |op|];
    try destruct op; try destruct b; vm_compute; reflexivity.
Qed.

Lemma every_action_has_a_request :
  forallb (λ a, negb (UnderCapability a) || existsb (λ r, Allows (Expect r) a) named_requests)
          actionSpecs.*1 = true.
Proof. vm_compute. reflexivity. Qed.

(** The operations the registry puts under a capability are exactly the
    operations some request of the helper can be authorized by. A request the
    helper treats as a change is authorized by changes only, and one it carries
    out without a capability is authorized by nothing. *)
Theorem Expect_agrees_with_the_registry a r :
  (UnderCapability a = true ↔ ∃ r, Allows (Expect r) a = true)
  ∧ (Allows (Expect r) a = true → if e_Mutating (Expect r) then Mutating a = true else e_Authorized (Expect r) = true).
Proof.
  assert (Hr : ∀ r, Allows (Expect r) a = true →
    (if e_Mutating (Expect r) then Mutating a = true else UnderCapability a = true)
    ∧ (e_Mutating (Expect r) = true ∨ e_Authorized (Expect r) = true)).
  { intros r' Ha%bool_decide_eq_true. pose proof (expected_actions_row r') as [H1 H2]%andb_true_iff.
    rewrite forallb_forall in H1. specialize (H1 a ltac:(by apply list_elem_of_In)). split.
    - by destruct (e_Mutating (Expect r')).
    - apply orb_true_iff in H2 as [[H2|H2]%orb_true_iff|H2]; auto.
      apply bool_decide_eq_true in H2. rewrite H2 in Ha. by apply elem_of_nil in Ha. }
  split; [split|].
  - intros Ha. assert (Hk : Known a = true) by (unfold UnderCapability in Ha; by destruct (Known a)).
    pose proof (Known_all _ a every_action_has_a_request Hk) as H. cbv beta in H. rewrite Ha in H.
    apply existsb_exists in H as (r' & _ & H). eauto.
  - intros (r' & Ha). destruct (Hr r' Ha) as [H _]. destruct (e_Mutating (Expect r')); [|done].
    unfold Mutating, UnderCapability in *. apply andb_true_iff in H as [-> ->]. done.
  - intros Ha. destruct (Hr r Ha) as [H1 H2]. destruct (e_Mutating (Expect r)); [done|]. by destruct H2.
Qed.

Lemma Expect_agrees_with_the_registry_witness :
  (∃ r, Allows (Expect r) ActionBackupRun = true)
  ∧ e_Authorized (Expect (HelperRequest_Backup BackupRequest_OPERATION_PLAN)) = true.
Proof.
  split.
  - apply (Expect_agrees_with_the_registry ActionBackupRun HelperRequest_nil). vm_compute. reflexivity.
  - refine (proj2 (Expect_agrees_with_the_registry ActionBackupRun
                     (HelperRequest_Backup BackupRequest_OPERATION_PLAN)) _).
    vm_compute. reflexivity.
Defined.
