(* ===== verification/Messages.v ===== *)
(** * Messages: the requests the helper takes

    The messages of the helper's protocol, as records with a field for each
    getter of the generated code. A message pointer that may be nil is an
    option; the map types of the protocol are maps from strings. [no_X] is the
    zero value of the message X, the base of a composite literal. *)
From S2P Require Import Prelude Bytes Actions Capability Expect.

Open Scope Z_scope.

(** [timestamppb.Timestamp]. *)
Record Timestamp := mkTimestamp { ts_Seconds : Z; ts_Nanos : Z }.

Record UnitActionRequest := mkUnitActionRequest {
  UnitActionRequest_GetUnit : string;
  UnitActionRequest_GetOperation : UnitActionRequest_Operation;
}.
Definition no_UnitActionRequest : UnitActionRequest := mkUnitActionRequest EmptyString UnitActionRequest_OPERATION_UNSPECIFIED.

Record PackageExactSpec := mkPackageExactSpec {
  PackageExactSpec_GetName : string;
  PackageExactSpec_GetCurrentVersion : string;
  PackageExactSpec_GetCandidateVersion : string;
  PackageExactSpec_GetArchitecture : string;
  PackageExactSpec_GetOrigin : string;
  PackageExactSpec_GetAction : string;
}.
Definition no_PackageExactSpec : PackageExactSpec := mkPackageExactSpec EmptyString EmptyString EmptyString EmptyString EmptyString EmptyString.

Record PackageActionRequest := mkPackageActionRequest {
  PackageActionRequest_GetOperation : PackageActionRequest_Operation;
  PackageActionRequest_GetPackages : list string;
  PackageActionRequest_GetSecurityOnly : bool;
  PackageActionRequest_GetExpectedRemovals : list string;
  PackageActionRequest_GetHold : bool;
  PackageActionRequest_GetAllowDowngrade : bool;
  PackageActionRequest_GetPlanHash : bytes;
  PackageActionRequest_GetPlanSchemaVersion : Z;
  PackageActionRequest_GetPlannerVersion : string;
  PackageActionRequest_GetPlanHostId : string;
  PackageActionRequest_GetPlanInventoryRevision : string;
  PackageActionRequest_GetPlanResourceRevision : string;
  PackageActionRequest_GetPlanExpiresAtUnix : Z;
  PackageActionRequest_GetExactSpecs : list PackageExactSpec;
  PackageActionRequest_GetPackageSha256 : string;
  PackageActionRequest_GetRollbackVersion : string;
  PackageActionRequest_GetVerifyOnly : bool;
  PackageActionRequest_GetPackageSigner : string;
  PackageActionRequest_GetReleaseRollback : bool;
}.
Definition no_PackageActionRequest : PackageActionRequest := mkPackageActionRequest PackageActionRequest_OPERATION_UNSPECIFIED [] false [] false false [] 0 EmptyString EmptyString EmptyString EmptyString 0 [] EmptyString EmptyString false EmptyString false.

Record RebootRequest := mkRebootRequest {
  RebootRequest_GetDelaySeconds : Z;
  RebootRequest_GetReason : string;
  RebootRequest_GetIgnoreInhibitors : bool;
}.
Definition no_RebootRequest : RebootRequest := mkRebootRequest 0 EmptyString false.

Record IdentityProbeRequest := mkIdentityProbeRequest {
  IdentityProbeRequest_GetDomain : string;
}.
Definition no_IdentityProbeRequest : IdentityProbeRequest := mkIdentityProbeRequest EmptyString.

Record DomainEnrollRequest := mkDomainEnrollRequest {
  DomainEnrollRequest_GetDomain : string;
  DomainEnrollRequest_GetRealm : string;
  DomainEnrollRequest_GetServer : string;
  DomainEnrollRequest_GetOneTimePassword : string;
  DomainEnrollRequest_GetHostname : string;
  DomainEnrollRequest_GetPreflightOnly : bool;
}.
Definition no_DomainEnrollRequest : DomainEnrollRequest := mkDomainEnrollRequest EmptyString EmptyString EmptyString EmptyString EmptyString false.

Record LocalAccountsRequest := mkLocalAccountsRequest {
  LocalAccountsRequest_GetNames : list string;
}.
Definition no_LocalAccountsRequest : LocalAccountsRequest := mkLocalAccountsRequest [].

Record LocalSSHKeyInput := mkLocalSSHKeyInput {
  LocalSSHKeyInput_GetPublicKey : string;
  LocalSSHKeyInput_GetComment : string;
}.
Definition no_LocalSSHKeyInput : LocalSSHKeyInput := mkLocalSSHKeyInput EmptyString EmptyString.

Record LocalUserActionRequest := mkLocalUserActionRequest {
  LocalUserActionRequest_GetOperation : LocalUserActionRequest_Operation;
  LocalUserActionRequest_GetName : string;
  LocalUserActionRequest_GetGecos : string;
  LocalUserActionRequest_GetShell : string;
  LocalUserActionRequest_GetGroups : list string;
  LocalUserActionRequest_GetSshKeys : list string;
  LocalUserActionRequest_GetCreateHome : bool;
  LocalUserActionRequest_GetExpiresAt : string;
  LocalUserActionRequest_GetRemoveHome : bool;
  LocalUserActionRequest_GetKeys : list LocalSSHKeyInput;
  LocalUserActionRequest_GetFingerprints : list string;
  LocalUserActionRequest_GetIgnoreMissing : bool;
  LocalUserActionRequest_GetExpectedFingerprints : list string;
  LocalUserActionRequest_GetAllowLockout : bool;
  LocalUserActionRequest_GetManagedFile : bool;
  LocalUserActionRequest_GetSystem : bool;
  LocalUserActionRequest_GetInactive : bool;
}.
Definition no_LocalUserActionRequest : LocalUserActionRequest := mkLocalUserActionRequest LocalUserActionRequest_OPERATION_UNSPECIFIED EmptyString EmptyString EmptyString [] [] false EmptyString false [] [] false [] false false false false.

Record DebconfSelection := mkDebconfSelection {
  DebconfSelection_GetPackage : string;
  DebconfSelection_GetQuestion : string;
  DebconfSelection_GetType : string;
  DebconfSelection_GetValue : string;
}.
Definition no_DebconfSelection : DebconfSelection := mkDebconfSelection EmptyString EmptyString EmptyString EmptyString.

Record PackageRepairRequest := mkPackageRepairRequest {
  PackageRepairRequest_GetAnswers : list DebconfSelection;
}.
Definition no_PackageRepairRequest : PackageRepairRequest := mkPackageRepairRequest [].

Record DockerReadRequest := mkDockerReadRequest {
  DockerReadRequest_GetScope : Z;
}.
Definition no_DockerReadRequest : DockerReadRequest := mkDockerReadRequest 0.

Record DockerEventsRequest := mkDockerEventsRequest {
  DockerEventsRequest_GetSinceSeconds : Z;
  DockerEventsRequest_GetFollowSeconds : Z;
  DockerEventsRequest_GetTypes : list string;
  DockerEventsRequest_GetMaxEvents : Z;
}.
Definition no_DockerEventsRequest : DockerEventsRequest := mkDockerEventsRequest 0 0 [] 0.

Record DockerActionRequest := mkDockerActionRequest {
  DockerActionRequest_GetOperation : DockerActionRequest_Operation;
  DockerActionRequest_GetContainerId : string;
  DockerActionRequest_GetTimeoutSeconds : Z;
  DockerActionRequest_GetRemoveVolumes : bool;
  DockerActionRequest_GetImageReference : string;
  DockerActionRequest_GetImageIds : list string;
  DockerActionRequest_GetVolumeNames : list string;
  DockerActionRequest_GetNetworkIds : list string;
  DockerActionRequest_GetContainerName : string;
  DockerActionRequest_GetConfirmName : string;
  DockerActionRequest_GetExpectedImage : string;
}.
Definition no_DockerActionRequest : DockerActionRequest := mkDockerActionRequest DockerActionRequest_OPERATION_UNSPECIFIED EmptyString 0 false EmptyString [] [] [] EmptyString EmptyString EmptyString.

Record ComposeRequest := mkComposeRequest {
  ComposeRequest_GetOperation : ComposeRequest_Operation;
  ComposeRequest_GetProject : string;
  ComposeRequest_GetManifest : string;
  ComposeRequest_GetPlanDigest : string;
  ComposeRequest_GetImageDigests : gmap string string;
}.
Definition no_ComposeRequest : ComposeRequest := mkComposeRequest ComposeRequest_OPERATION_UNSPECIFIED EmptyString EmptyString EmptyString ∅.

Record LogFileRequest := mkLogFileRequest {
  LogFileRequest_GetPath : string;
  LogFileRequest_GetLines : Z;
}.
Definition no_LogFileRequest : LogFileRequest := mkLogFileRequest EmptyString 0.

Record ProcessSignalRequest := mkProcessSignalRequest {
  ProcessSignalRequest_GetPid : Z;
  ProcessSignalRequest_GetExpectedStartTicks : Z;
  ProcessSignalRequest_GetSignal : string;
}.
Definition no_ProcessSignalRequest : ProcessSignalRequest := mkProcessSignalRequest 0 0 EmptyString.

Record ScheduleRequest := mkScheduleRequest {
  ScheduleRequest_GetOperation : ScheduleRequest_Operation;
  ScheduleRequest_GetId : string;
  ScheduleRequest_GetExpression : string;
  ScheduleRequest_GetCommand : list string;
  ScheduleRequest_GetUser : string;
  ScheduleRequest_GetComment : string;
  ScheduleRequest_GetEnabled : bool;
  ScheduleRequest_GetAdopt : bool;
  ScheduleRequest_GetKind : string;
}.
Definition no_ScheduleRequest : ScheduleRequest := mkScheduleRequest ScheduleRequest_OPERATION_UNSPECIFIED EmptyString EmptyString [] EmptyString EmptyString false false EmptyString.

Record NetworkLink := mkNetworkLink {
  NetworkLink_GetName : string;
  NetworkLink_GetKind : string;
  NetworkLink_GetMembers : list string;
  NetworkLink_GetMode : string;
  NetworkLink_GetMiimonMs : Z;
  NetworkLink_GetPrimary : string;
  NetworkLink_GetLacpRate : string;
  NetworkLink_GetStp : bool;
  NetworkLink_GetVlanFiltering : bool;
  NetworkLink_GetParent : string;
  NetworkLink_GetVlanId : Z;
  NetworkLink_GetProtocol : string;
  NetworkLink_GetMtu : string;
}.
Definition no_NetworkLink : NetworkLink := mkNetworkLink EmptyString EmptyString [] EmptyString 0 EmptyString EmptyString false false EmptyString 0 EmptyString EmptyString.

Record NetworkRequest := mkNetworkRequest {
  NetworkRequest_GetOperation : NetworkRequest_Operation;
  NetworkRequest_GetInterface : string;
  NetworkRequest_GetMtu : string;
  NetworkRequest_GetRoutes : list string;
  NetworkRequest_GetMethod : string;
  NetworkRequest_GetAddresses : list string;
  NetworkRequest_GetGateway : string;
  NetworkRequest_GetDns : list string;
  NetworkRequest_GetRollbackSeconds : Z;
  NetworkRequest_GetRollbackId : string;
  NetworkRequest_GetReason : string;
  NetworkRequest_GetPlanHash : string;
  NetworkRequest_GetMethod6 : string;
  NetworkRequest_GetAddresses6 : list string;
  NetworkRequest_GetGateway6 : string;
  NetworkRequest_GetAcceptRa : string;
  NetworkRequest_GetPrivacy : string;
  NetworkRequest_GetLink : option NetworkLink;
  NetworkRequest_GetLinkRemove : bool;
  NetworkRequest_GetManagementAddress : string;
}.
Definition no_NetworkRequest : NetworkRequest := mkNetworkRequest NetworkRequest_OPERATION_UNSPECIFIED EmptyString EmptyString [] EmptyString [] EmptyString [] 0 EmptyString EmptyString EmptyString EmptyString [] EmptyString EmptyString EmptyString None false EmptyString.

Record DnsRequest := mkDnsRequest {
  DnsRequest_GetOperation : DnsRequest_Operation;
  DnsRequest_GetInterface : string;
  DnsRequest_GetServers : list string;
  DnsRequest_GetSearchDomains : list string;
  DnsRequest_GetIgnoreAutoDns : bool;
  DnsRequest_GetRollbackSeconds : Z;
  DnsRequest_GetPlanHash : string;
}.
Definition no_DnsRequest : DnsRequest := mkDnsRequest DnsRequest_OPERATION_UNSPECIFIED EmptyString [] [] false 0 EmptyString.

Record FirewallRequest := mkFirewallRequest {
  FirewallRequest_GetOperation : FirewallRequest_Operation;
  FirewallRequest_GetRuleId : string;
  FirewallRequest_GetChain : string;
  FirewallRequest_GetAction : string;
  FirewallRequest_GetProtocol : string;
  FirewallRequest_GetPorts : list string;
  FirewallRequest_GetSources : list string;
  FirewallRequest_GetInterface : string;
  FirewallRequest_GetComment : string;
  FirewallRequest_GetZone : string;
  FirewallRequest_GetService : string;
  FirewallRequest_GetEnable : bool;
  FirewallRequest_GetManagementAddress : string;
  FirewallRequest_GetManagementPort : Z;
  FirewallRequest_GetBreakGlass : bool;
  FirewallRequest_GetRollbackSeconds : Z;
  FirewallRequest_GetRollbackId : string;
  FirewallRequest_GetExpectedHash : string;
}.
Definition no_FirewallRequest : FirewallRequest := mkFirewallRequest FirewallRequest_OPERATION_UNSPECIFIED EmptyString EmptyString EmptyString EmptyString [] [] EmptyString EmptyString EmptyString EmptyString false EmptyString 0 false 0 EmptyString EmptyString.

Record StorageRequest := mkStorageRequest {
  StorageRequest_GetOperation : StorageRequest_Operation;
  StorageRequest_GetSource : string;
  StorageRequest_GetTarget : string;
  StorageRequest_GetFsType : string;
  StorageRequest_GetOptions : string;
  StorageRequest_GetPersist : bool;
  StorageRequest_GetDevice : string;
  StorageRequest_GetExpectedUuid : string;
  StorageRequest_GetRepair : bool;
  StorageRequest_GetExpectedSerial : string;
  StorageRequest_GetExpectedSizeBytes : Z;
  StorageRequest_GetSize : string;
  StorageRequest_GetLabel : string;
  StorageRequest_GetPlan : string;
  StorageRequest_GetPlanHash : string;
  StorageRequest_GetExpectedById : string;
  StorageRequest_GetExpectedWwn : string;
  StorageRequest_GetArray : string;
  StorageRequest_GetExpectedArrayUuid : string;
  StorageRequest_GetGroup : string;
  StorageRequest_GetExpectedGroupUuid : string;
  StorageRequest_GetVolume : string;
  StorageRequest_GetExpectedVolumeUuid : string;
}.
Definition no_StorageRequest : StorageRequest := mkStorageRequest StorageRequest_OPERATION_UNSPECIFIED EmptyString EmptyString EmptyString EmptyString false EmptyString EmptyString false EmptyString 0 EmptyString EmptyString EmptyString EmptyString EmptyString EmptyString EmptyString EmptyString EmptyString EmptyString EmptyString EmptyString.

Record SshRequest := mkSshRequest {
  SshRequest_GetOperation : SshRequest_Operation;
  SshRequest_GetPort : string;
  SshRequest_GetPermitRootLogin : string;
  SshRequest_GetPasswordAuthentication : string;
  SshRequest_GetPubkeyAuthentication : string;
  SshRequest_GetKbdInteractiveAuthentication : string;
  SshRequest_GetMaxAuthTries : string;
  SshRequest_GetAllowUsers : list string;
  SshRequest_GetAllowGroups : list string;
  SshRequest_GetDenyUsers : list string;
  SshRequest_GetAllowLockout : bool;
  SshRequest_GetKeyType : string;
  SshRequest_GetPlanHash : string;
}.
Definition no_SshRequest : SshRequest := mkSshRequest SshRequest_OPERATION_UNSPECIFIED EmptyString EmptyString EmptyString EmptyString EmptyString EmptyString [] [] [] false EmptyString EmptyString.

Record KernelRequest := mkKernelRequest {
  KernelRequest_GetOperation : KernelRequest_Operation;
  KernelRequest_GetSettings : gmap string string;
  KernelRequest_GetKeys : list string;
  KernelRequest_GetModule : string;
  KernelRequest_GetBlacklist : bool;
  KernelRequest_GetPlanHash : string;
}.
Definition no_KernelRequest : KernelRequest := mkKernelRequest KernelRequest_OPERATION_UNSPECIFIED ∅ [] EmptyString false EmptyString.

Record FileRequest := mkFileRequest {
  FileRequest_GetOperation : FileRequest_Operation;
  FileRequest_GetPath : string;
  FileRequest_GetContent : bytes;
  FileRequest_GetMode : string;
  FileRequest_GetOwner : string;
  FileRequest_GetGroup : string;
  FileRequest_GetExpectedSha256 : string;
  FileRequest_GetValidator : string;
  FileRequest_GetFromSecret : bool;
  FileRequest_GetAllowMissingValidator : bool;
  FileRequest_GetVersionSha256 : string;
}.
Definition no_FileRequest : FileRequest := mkFileRequest FileRequest_OPERATION_UNSPECIFIED EmptyString [] EmptyString EmptyString EmptyString EmptyString EmptyString false false EmptyString.

Record TimeRequest := mkTimeRequest {
  TimeRequest_GetOperation : TimeRequest_Operation;
  TimeRequest_GetServers : list string;
  TimeRequest_GetTimezone : string;
  TimeRequest_GetAllowStep : bool;
  TimeRequest_GetEnableDropin : bool;
  TimeRequest_GetPlanHash : string;
}.
Definition no_TimeRequest : TimeRequest := mkTimeRequest TimeRequest_OPERATION_UNSPECIFIED [] EmptyString false false EmptyString.

Record ShutdownRequest := mkShutdownRequest {
  ShutdownRequest_GetDelaySeconds : Z;
  ShutdownRequest_GetReason : string;
  ShutdownRequest_GetMode : string;
  ShutdownRequest_GetIgnoreInhibitors : bool;
}.
Definition no_ShutdownRequest : ShutdownRequest := mkShutdownRequest 0 EmptyString EmptyString false.

Record SecurityRequest := mkSecurityRequest {
  SecurityRequest_GetOperation : SecurityRequest_Operation;
  SecurityRequest_GetMode : string;
  SecurityRequest_GetFacts : list Z;
}.
Definition no_SecurityRequest : SecurityRequest := mkSecurityRequest SecurityRequest_OPERATION_UNSPECIFIED EmptyString [].

Record CertificateTarget := mkCertificateTarget {
  CertificateTarget_GetPath : string;
  CertificateTarget_GetKeyPath : string;
  CertificateTarget_GetService : string;
}.
Definition no_CertificateTarget : CertificateTarget := mkCertificateTarget EmptyString EmptyString EmptyString.

Record CertificateRequest := mkCertificateRequest {
  CertificateRequest_GetOperation : CertificateRequest_Operation;
  CertificateRequest_GetFacts : list Z;
  CertificateRequest_GetTargets : list CertificateTarget;
  CertificateRequest_GetPath : string;
  CertificateRequest_GetKeyPath : string;
  CertificateRequest_GetCertificate : bytes;
  CertificateRequest_GetKey : bytes;
  CertificateRequest_GetOwner : string;
  CertificateRequest_GetGroup : string;
  CertificateRequest_GetMode : string;
  CertificateRequest_GetKeyMode : string;
  CertificateRequest_GetReloadUnit : string;
  CertificateRequest_GetProbeTarget : string;
  CertificateRequest_GetRequest : string;
  CertificateRequest_GetAuthoritative : bool;
  CertificateRequest_GetKeySecretRef : string;
  CertificateRequest_GetPlanHash : string;
  CertificateRequest_GetAnchorId : string;
}.
Definition no_CertificateRequest : CertificateRequest := mkCertificateRequest CertificateRequest_OPERATION_UNSPECIFIED [] [] EmptyString EmptyString [] [] EmptyString EmptyString EmptyString EmptyString EmptyString EmptyString EmptyString false EmptyString EmptyString EmptyString.

Record RepositoryRequest := mkRepositoryRequest {
  RepositoryRequest_GetId : string;
  RepositoryRequest_GetName : string;
  RepositoryRequest_GetUrl : string;
  RepositoryRequest_GetSuites : list string;
  RepositoryRequest_GetComponents : list string;
  RepositoryRequest_GetArchitectures : list string;
  RepositoryRequest_GetEnabled : bool;
  RepositoryRequest_GetPriority : Z;
  RepositoryRequest_GetGpgKey : string;
  RepositoryRequest_GetAllowUnsigned : bool;
  RepositoryRequest_GetUsername : string;
  RepositoryRequest_GetPassword : bytes;
  RepositoryRequest_GetSecretName : string;
  RepositoryRequest_GetRemove : bool;
}.
Definition no_RepositoryRequest : RepositoryRequest := mkRepositoryRequest EmptyString EmptyString EmptyString [] [] [] false 0 EmptyString false EmptyString [] EmptyString false.

Record BackupRequest := mkBackupRequest {
  BackupRequest_GetOperation : BackupRequest_Operation;
  BackupRequest_GetId : string;
  BackupRequest_GetTool : string;
  BackupRequest_GetRepository : string;
  BackupRequest_GetPaths : list string;
  BackupRequest_GetExcludes : list string;
  BackupRequest_GetTags : list string;
  BackupRequest_GetKeepLast : Z;
  BackupRequest_GetKeepDaily : Z;
  BackupRequest_GetKeepWeekly : Z;
  BackupRequest_GetKeepMonthly : Z;
  BackupRequest_GetPrune : bool;
  BackupRequest_GetRunbook : string;
  BackupRequest_GetInitialize : bool;
  BackupRequest_GetPassword : bytes;
  BackupRequest_GetEnv : gmap string bytes;
  BackupRequest_GetReadData : bool;
  BackupRequest_GetSnapshotId : string;
  BackupRequest_GetTarget : string;
  BackupRequest_GetInclude : list string;
  BackupRequest_GetOverwrite : string;
  BackupRequest_GetPlan : string;
  BackupRequest_GetPlanHash : string;
}.
Definition no_BackupRequest : BackupRequest := mkBackupRequest BackupRequest_OPERATION_UNSPECIFIED EmptyString EmptyString EmptyString [] [] [] 0 0 0 0 false EmptyString false [] ∅ false EmptyString EmptyString [] EmptyString EmptyString EmptyString.

Record DockerLogsRequest := mkDockerLogsRequest {
  DockerLogsRequest_GetContainerId : string;
  DockerLogsRequest_GetLines : Z;
  DockerLogsRequest_GetSince : string;
  DockerLogsRequest_GetTimestamps : bool;
}.
Definition no_DockerLogsRequest : DockerLogsRequest := mkDockerLogsRequest EmptyString 0 EmptyString false.

Record HostnameRequest := mkHostnameRequest {
  HostnameRequest_GetHostname : string;
  HostnameRequest_GetPretty : string;
}.
Definition no_HostnameRequest : HostnameRequest := mkHostnameRequest EmptyString EmptyString.

Record FinalWipeRequest := mkFinalWipeRequest {
  FinalWipeRequest_GetReason : string;
}.
Definition no_FinalWipeRequest : FinalWipeRequest := mkFinalWipeRequest EmptyString.

Record DomainLeaveRequest := mkDomainLeaveRequest {
  DomainLeaveRequest_GetDomain : string;
  DomainLeaveRequest_GetRealm : string;
}.
Definition no_DomainLeaveRequest : DomainLeaveRequest := mkDomainLeaveRequest EmptyString EmptyString.

Record SystemRequest := mkSystemRequest {
  SystemRequest_GetFacts : list Z;
}.
Definition no_SystemRequest : SystemRequest := mkSystemRequest [].

Record KeytabRenewRequest := mkKeytabRenewRequest {
  KeytabRenewRequest_GetPrincipal : string;
}.
Definition no_KeytabRenewRequest : KeytabRenewRequest := mkKeytabRenewRequest EmptyString.

Record HelperTrustUpdateRequest := mkHelperTrustUpdateRequest {
  HelperTrustUpdateRequest_GetBundle : option HelperTrustBundle;
}.
Definition no_HelperTrustUpdateRequest : HelperTrustUpdateRequest := mkHelperTrustUpdateRequest None.

Record DockerEnsureRequest := mkDockerEnsureRequest {
  DockerEnsureRequest_GetOperation : DockerEnsureRequest_Operation;
  DockerEnsureRequest_GetKind : string;
  DockerEnsureRequest_GetName : string;
  DockerEnsureRequest_GetSpec : bytes;
  DockerEnsureRequest_GetPlanDigest : string;
  DockerEnsureRequest_GetForce : bool;
  DockerEnsureRequest_GetEnvValues : gmap string bytes;
}.
Definition no_DockerEnsureRequest : DockerEnsureRequest := mkDockerEnsureRequest DockerEnsureRequest_OPERATION_UNSPECIFIED EmptyString EmptyString [] EmptyString false ∅.

(** The union [isHelperRequest_Action]. *)
Inductive Action :=
| Action_UnitAction (m : UnitActionRequest)
| Action_PackageAction (m : PackageActionRequest)
| Action_Reboot (m : RebootRequest)
| Action_IdentityProbe (m : IdentityProbeRequest)
| Action_DomainEnroll (m : DomainEnrollRequest)
| Action_LocalAccounts (m : LocalAccountsRequest)
| Action_LocalUserAction (m : LocalUserActionRequest)
| Action_PackageRepair (m : PackageRepairRequest)
| Action_DockerRead (m : DockerReadRequest)
| Action_DockerEvents (m : DockerEventsRequest)
| Action_DockerAction (m : DockerActionRequest)
| Action_Compose (m : ComposeRequest)
| Action_LogFile (m : LogFileRequest)
| Action_ProcessSignal (m : ProcessSignalRequest)
| Action_Schedule (m : ScheduleRequest)
| Action_Network (m : NetworkRequest)
| Action_Dns (m : DnsRequest)
| Action_Firewall (m : FirewallRequest)
| Action_Storage (m : StorageRequest)
| Action_Ssh (m : SshRequest)
| Action_Kernel (m : KernelRequest)
| Action_File (m : FileRequest)
| Action_Time (m : TimeRequest)
| Action_Shutdown (m : ShutdownRequest)
| Action_Security (m : SecurityRequest)
| Action_Certificate (m : CertificateRequest)
| Action_Repository (m : RepositoryRequest)
| Action_Backup (m : BackupRequest)
| Action_DockerLogs (m : DockerLogsRequest)
| Action_Hostname (m : HostnameRequest)
| Action_FinalWipe (m : FinalWipeRequest)
| Action_DomainLeave (m : DomainLeaveRequest)
| Action_System (m : SystemRequest)
| Action_KeytabRenew (m : KeytabRenewRequest)
| Action_TrustUpdate (m : HelperTrustUpdateRequest)
| Action_DockerEnsure (m : DockerEnsureRequest)
| Action_nil.

Record HelperRequest := mkHelperRequest {
  HelperRequest_GetProtocolVersion : Z;
  HelperRequest_GetTaskId : string;
  HelperRequest_GetExpiresAt : option Timestamp;
  HelperRequest_GetTimeoutSeconds : Z;
  HelperRequest_GetMaxOutputBytes : Z;
  HelperRequest_GetAction : Action;
  HelperRequest_GetWantProgress : bool;
  HelperRequest_GetCapability : option HelperCapability;
  HelperRequest_GetCapabilitySignature : bytes;
  HelperRequest_GetCanonicalPayload : bytes;
  HelperRequest_GetSecretReceipts : list SecretReceipt;
}.

(** What [Expect] reads of a request. *)
Definition kind_of (a : Action) : HelperAction :=
  match a with
  | Action_UnitAction m => HelperRequest_UnitAction (UnitActionRequest_GetOperation m)
  | Action_PackageAction m => HelperRequest_PackageAction (PackageActionRequest_GetOperation m)
  | Action_Reboot _ => HelperRequest_Reboot
  | Action_IdentityProbe _ => HelperRequest_IdentityProbe
  | Action_DomainEnroll m => HelperRequest_DomainEnroll (DomainEnrollRequest_GetPreflightOnly m)
  | Action_LocalAccounts _ => HelperRequest_LocalAccounts
  | Action_LocalUserAction m => HelperRequest_LocalUserAction (LocalUserActionRequest_GetOperation m)
  | Action_PackageRepair _ => HelperRequest_PackageRepair
  | Action_DockerRead _ => HelperRequest_DockerRead
  | Action_DockerEvents _ => HelperRequest_DockerEvents
  | Action_DockerAction m => HelperRequest_DockerAction (DockerActionRequest_GetOperation m)
  | Action_Compose m => HelperRequest_Compose (ComposeRequest_GetOperation m)
  | Action_LogFile _ => HelperRequest_LogFile
  | Action_ProcessSignal _ => HelperRequest_ProcessSignal
  | Action_Schedule m => HelperRequest_Schedule (ScheduleRequest_GetOperation m)
  | Action_Network m => HelperRequest_Network (NetworkRequest_GetOperation m)
  | Action_Dns m => HelperRequest_Dns (DnsRequest_GetOperation m)
  | Action_Firewall m => HelperRequest_Firewall (FirewallRequest_GetOperation m)
  | Action_Storage m => HelperRequest_Storage (StorageRequest_GetOperation m)
  | Action_Ssh m => HelperRequest_Ssh (SshRequest_GetOperation m)
  | Action_Kernel m => HelperRequest_Kernel (KernelRequest_GetOperation m)
  | Action_File m => HelperRequest_File (FileRequest_GetOperation m)
  | Action_Time m => HelperRequest_Time (TimeRequest_GetOperation m)
  | Action_Shutdown _ => HelperRequest_Shutdown
  | Action_Security m => HelperRequest_Security (SecurityRequest_GetOperation m)
  | Action_Certificate m => HelperRequest_Certificate (CertificateRequest_GetOperation m)
  | Action_Repository _ => HelperRequest_Repository
  | Action_Backup m => HelperRequest_Backup (BackupRequest_GetOperation m)
  | Action_DockerLogs _ => HelperRequest_DockerLogs
  | Action_Hostname _ => HelperRequest_Hostname
  | Action_FinalWipe _ => HelperRequest_FinalWipe
  | Action_DomainLeave _ => HelperRequest_DomainLeave
  | Action_System _ => HelperRequest_System
  | Action_KeytabRenew _ => HelperRequest_KeytabRenew
  | Action_TrustUpdate _ => HelperRequest_TrustUpdate
  | Action_DockerEnsure m => HelperRequest_DockerEnsure (DockerEnsureRequest_GetOperation m)
  | Action_nil => HelperRequest_nil
  end.
