(* ===== verification/Payloads.v ===== *)
(** * Payloads: what an operation is ordered with

    The payload of an operation (src/internal/opspec/opspec.go) and the parts
    it is made of, as the structs of the source; a pointer that may be nil is
    an option. *)
From S2P Require Import Prelude.

Record UnitPayload := mkUnitPayload {
  UnitPayload_Unit : string;
}.

Record JournalPayload := mkJournalPayload {
  JournalPayload_Unit : string;
  JournalPayload_Lines : Z;
  JournalPayload_MaxPriority : option Z;
  JournalPayload_Since : string;
  JournalPayload_Until : string;
  JournalPayload_BootID : string;
  JournalPayload_FollowSeconds : Z;
  JournalPayload_AfterCursor : string;
}.

Record PackagePlanPayload := mkPackagePlanPayload {
  PackagePlanPayload_Mode : string;
  PackagePlanPayload_RefreshMetadata : bool;
  PackagePlanPayload_OnlyPackages : list string;
  PackagePlanPayload_SecurityOnly : bool;
}.

Record PlanChangeEntry := mkPlanChangeEntry {
  PlanChangeEntry_Name : string;
  PlanChangeEntry_CurrentVersion : string;
  PlanChangeEntry_CandidateVersion : string;
  PlanChangeEntry_Architecture : string;
  PlanChangeEntry_Origin : string;
  PlanChangeEntry_Action : string;
}.

Record PlanReference := mkPlanReference {
  PlanReference_SchemaVersion : Z;
  PlanReference_PlannerVersion : string;
  PlanReference_InventoryRevision : string;
  PlanReference_ResourceRevision : string;
  PlanReference_ExpiresAt : string;
  PlanReference_Changes : list PlanChangeEntry;
}.

Record PackageUpgradePayload := mkPackageUpgradePayload {
  PackageUpgradePayload_PlanHash : string;
  PackageUpgradePayload_Packages : list string;
  PackageUpgradePayload_SecurityOnly : bool;
  PackageUpgradePayload_Plan : option PlanReference;
}.

Record RebootPayload := mkRebootPayload {
  RebootPayload_DelaySeconds : Z;
  RebootPayload_Reason : string;
  RebootPayload_IgnoreInhibitors : bool;
}.

Record FinalWipePayload := mkFinalWipePayload {
  FinalWipePayload_Reason : string;
}.

Record UnitStatusPayload := mkUnitStatusPayload {
  UnitStatusPayload_Units : list string;
  UnitStatusPayload_All : bool;
  UnitStatusPayload_Detail : bool;
}.

Record DomainEnrollPayload := mkDomainEnrollPayload {
  DomainEnrollPayload_Domain : string;
  DomainEnrollPayload_Realm : string;
  DomainEnrollPayload_Server : string;
  DomainEnrollPayload_Hostname : string;
}.

Record DomainLeavePayload := mkDomainLeavePayload {
  DomainLeavePayload_Domain : string;
  DomainLeavePayload_Realm : string;
}.

Record KeytabPayload := mkKeytabPayload {
  KeytabPayload_Principal : string;
}.

Record SSHKeyInput := mkSSHKeyInput {
  SSHKeyInput_PublicKey : string;
  SSHKeyInput_Comment : string;
}.

Record LocalUserPayload := mkLocalUserPayload {
  LocalUserPayload_Name : string;
  LocalUserPayload_Gecos : string;
  LocalUserPayload_Shell : string;
  LocalUserPayload_Groups : list string;
  LocalUserPayload_SSHKeys : list string;
  LocalUserPayload_CreateHome : bool;
  LocalUserPayload_ExpiresAt : string;
  LocalUserPayload_RemoveHome : bool;
  LocalUserPayload_Keys : list SSHKeyInput;
  LocalUserPayload_Fingerprints : list string;
  LocalUserPayload_IgnoreMissing : bool;
  LocalUserPayload_ExpectedFingerprints : list string;
  LocalUserPayload_AllowLockout : bool;
  LocalUserPayload_ManagedFile : bool;
  LocalUserPayload_System : bool;
  LocalUserPayload_Inactive : bool;
}.

Record DebconfAnswer := mkDebconfAnswer {
  DebconfAnswer_Package : string;
  DebconfAnswer_Question : string;
  DebconfAnswer_Type : string;
  DebconfAnswer_Value : string;
}.

Record PackageRepairPayload := mkPackageRepairPayload {
  PackageRepairPayload_Answers : list DebconfAnswer;
}.

Record DockerReadPayload := mkDockerReadPayload {}.

Record DockerContainerPayload := mkDockerContainerPayload {
  DockerContainerPayload_ContainerID : string;
  DockerContainerPayload_Name : string;
  DockerContainerPayload_ConfirmName : string;
  DockerContainerPayload_ExpectedImage : string;
  DockerContainerPayload_TimeoutSeconds : Z;
  DockerContainerPayload_RemoveVolumes : bool;
}.

Record DockerImagePayload := mkDockerImagePayload {
  DockerImagePayload_Reference : string;
}.

Record DockerPrunePayload := mkDockerPrunePayload {
  DockerPrunePayload_ImageIDs : list string;
  DockerPrunePayload_VolumeName : list string;
  DockerPrunePayload_NetworkIDs : list string;
}.

Record DockerEventsPayload := mkDockerEventsPayload {
  DockerEventsPayload_SinceSeconds : Z;
  DockerEventsPayload_FollowSeconds : Z;
  DockerEventsPayload_Types : list string;
  DockerEventsPayload_MaxEvents : Z;
}.

Record DockerLogsPayload := mkDockerLogsPayload {
  DockerLogsPayload_ContainerID : string;
  DockerLogsPayload_Lines : Z;
  DockerLogsPayload_Since : string;
  DockerLogsPayload_Timestamps : bool;
}.

Record ContainerRequest := mkContainerRequest {
  ContainerRequest_Name : string;
  ContainerRequest_Image : string;
  ContainerRequest_Command : list string;
  ContainerRequest_Entrypoint : list string;
  ContainerRequest_Env : gmap string string;
  ContainerRequest_EnvSecrets : gmap string string;
  ContainerRequest_Ports : list string;
  ContainerRequest_Mounts : list string;
  ContainerRequest_Networks : list string;
  ContainerRequest_RestartPolicy : string;
  ContainerRequest_RestartMaxRetries : Z;
  ContainerRequest_Labels : gmap string string;
  ContainerRequest_HealthTest : list string;
  ContainerRequest_HealthDisable : bool;
  ContainerRequest_HealthIntervalSeconds : Z;
  ContainerRequest_HealthTimeoutSeconds : Z;
  ContainerRequest_HealthRetries : Z;
  ContainerRequest_HealthStartPeriodSeconds : Z;
  ContainerRequest_MemoryBytes : Z;
  ContainerRequest_MemoryReservationBytes : Z;
  ContainerRequest_NanoCPUs : Z;
  ContainerRequest_PidsLimit : Z;
  ContainerRequest_User : string;
  ContainerRequest_WorkingDir : string;
  ContainerRequest_Hostname : string;
  ContainerRequest_ReadOnlyRootFilesystem : bool;
  ContainerRequest_StopTimeoutSeconds : Z;
  ContainerRequest_Stopped : bool;
}.

Record NetworkSpec := mkNetworkSpec {
  NetworkSpec_Name : string;
  NetworkSpec_Driver : string;
  NetworkSpec_Subnet : string;
  NetworkSpec_Gateway : string;
  NetworkSpec_IPRange : string;
  NetworkSpec_IPv6 : bool;
  NetworkSpec_IPv6Subnet : string;
  NetworkSpec_IPv6Gateway : string;
  NetworkSpec_Internal : bool;
  NetworkSpec_Attachable : bool;
  NetworkSpec_Options : gmap string string;
  NetworkSpec_Labels : gmap string string;
}.

Record VolumeSpec := mkVolumeSpec {
  VolumeSpec_Name : string;
  VolumeSpec_Driver : string;
  VolumeSpec_Options : gmap string string;
  VolumeSpec_Labels : gmap string string;
}.

Record SecretRef := mkSecretRef {
  SecretRef_Name : string;
  SecretRef_Version : Z;
}.

Record DockerEnsurePayload := mkDockerEnsurePayload {
  DockerEnsurePayload_Container : option ContainerRequest;
  DockerEnsurePayload_Network : option NetworkSpec;
  DockerEnsurePayload_Volume : option VolumeSpec;
  DockerEnsurePayload_Kind : string;
  DockerEnsurePayload_Name : string;
  DockerEnsurePayload_EnvSecrets : gmap string SecretRef;
  DockerEnsurePayload_PlanDigest : string;
  DockerEnsurePayload_Force : bool;
}.

Record ComposePayload := mkComposePayload {
  ComposePayload_Project : string;
  ComposePayload_Manifest : string;
  ComposePayload_PlanDigest : string;
  ComposePayload_ImageDigests : gmap string string;
}.

Record UnitToggle := mkUnitToggle {
  UnitToggle_Unit : string;
  UnitToggle_Enabled : bool;
}.

Record LogFilePayload := mkLogFilePayload {
  LogFilePayload_Path : string;
  LogFilePayload_Lines : Z;
}.

Record ProcessListPayload := mkProcessListPayload {
  ProcessListPayload_SortBy : string;
  ProcessListPayload_Limit : Z;
}.

Record ProcessSignalPayload := mkProcessSignalPayload {
  ProcessSignalPayload_PID : Z;
  ProcessSignalPayload_ExpectedStart : Z;
  ProcessSignalPayload_Signal : string;
  ProcessSignalPayload_Command : string;
}.

Record SchedulePayload := mkSchedulePayload {
  SchedulePayload_ID : string;
  SchedulePayload_Expression : string;
  SchedulePayload_Command : list string;
  SchedulePayload_User : string;
  SchedulePayload_Comment : string;
  SchedulePayload_Enabled : bool;
  SchedulePayload_Adopt : bool;
  SchedulePayload_Kind : string;
}.

Record LinkSpec := mkLinkSpec {
  LinkSpec_Name : string;
  LinkSpec_Kind : string;
  LinkSpec_Members : list string;
  LinkSpec_Mode : string;
  LinkSpec_MIIMonMS : Z;
  LinkSpec_Primary : string;
  LinkSpec_LACPRate : string;
  LinkSpec_STP : bool;
  LinkSpec_VLANFiltering : bool;
  LinkSpec_Parent : string;
  LinkSpec_VLANID : Z;
  LinkSpec_Protocol : string;
  LinkSpec_MTU : string;
}.

Record NetworkPayload := mkNetworkPayload {
  NetworkPayload_Interface : string;
  NetworkPayload_MTU : string;
  NetworkPayload_Routes : list string;
  NetworkPayload_Method : string;
  NetworkPayload_Addresses : list string;
  NetworkPayload_Gateway : string;
  NetworkPayload_DNS : list string;
  NetworkPayload_RollbackSeconds : Z;
  NetworkPayload_RollbackID : string;
  NetworkPayload_PlanHash : string;
  NetworkPayload_Method6 : string;
  NetworkPayload_Addresses6 : list string;
  NetworkPayload_Gateway6 : string;
  NetworkPayload_AcceptRA : string;
  NetworkPayload_Privacy : string;
  NetworkPayload_Link : option LinkSpec;
  NetworkPayload_LinkRemove : bool;
}.

Record DNSPayload := mkDNSPayload {
  DNSPayload_Interface : string;
  DNSPayload_Servers : list string;
  DNSPayload_SearchDomains : list string;
  DNSPayload_IgnoreAutoDNS : bool;
  DNSPayload_RollbackSeconds : Z;
  DNSPayload_Names : list string;
  DNSPayload_PlanHash : string;
}.

Record FirewallPayload := mkFirewallPayload {
  FirewallPayload_RuleID : string;
  FirewallPayload_Chain : string;
  FirewallPayload_Action : string;
  FirewallPayload_Protocol : string;
  FirewallPayload_Ports : list string;
  FirewallPayload_Sources : list string;
  FirewallPayload_Interface : string;
  FirewallPayload_Comment : string;
  FirewallPayload_Zone : string;
  FirewallPayload_Service : string;
  FirewallPayload_Enable : bool;
  FirewallPayload_BreakGlass : bool;
  FirewallPayload_RollbackSeconds : Z;
  FirewallPayload_RollbackID : string;
  FirewallPayload_ExpectedHash : string;
}.

Record StoragePayload := mkStoragePayload {
  StoragePayload_Source : string;
  StoragePayload_Target : string;
  StoragePayload_FSType : string;
  StoragePayload_Options : string;
  StoragePayload_Persist : bool;
  StoragePayload_Device : string;
  StoragePayload_ExpectedSerial : string;
  StoragePayload_ExpectedSizeBytes : Z;
  StoragePayload_ExpectedByID : string;
  StoragePayload_ExpectedWWN : string;
  StoragePayload_Size : string;
  StoragePayload_Label : string;
  StoragePayload_ExpectedUUID : string;
  StoragePayload_Repair : bool;
  StoragePayload_Plan : string;
  StoragePayload_PlanHash : string;
  StoragePayload_Array : string;
  StoragePayload_ExpectedArrayUUID : string;
  StoragePayload_Group : string;
  StoragePayload_ExpectedGroupUUID : string;
  StoragePayload_Volume : string;
  StoragePayload_ExpectedVolumeUUID : string;
}.

Record SSHPayload := mkSSHPayload {
  SSHPayload_Port : string;
  SSHPayload_PermitRootLogin : string;
  SSHPayload_PasswordAuthentication : string;
  SSHPayload_PubkeyAuthentication : string;
  SSHPayload_KbdInteractive : string;
  SSHPayload_MaxAuthTries : string;
  SSHPayload_AllowUsers : list string;
  SSHPayload_AllowGroups : list string;
  SSHPayload_DenyUsers : list string;
  SSHPayload_AllowLockout : bool;
  SSHPayload_KeyType : string;
  SSHPayload_PlanHash : string;
}.

Record KernelPayload := mkKernelPayload {
  KernelPayload_Settings : gmap string string;
  KernelPayload_Keys : list string;
  KernelPayload_Module : string;
  KernelPayload_Blacklist : bool;
  KernelPayload_PlanHash : string;
}.

Record FilePayload := mkFilePayload {
  FilePayload_Path : string;
  FilePayload_Content : string;
  FilePayload_Mode : string;
  FilePayload_Owner : string;
  FilePayload_Group : string;
  FilePayload_ExpectedSHA256 : string;
  FilePayload_Validator : string;
  FilePayload_VersionSHA256 : string;
  FilePayload_ContentSecret : option SecretRef;
  FilePayload_AllowMissingValidator : bool;
}.

Record PackageChangePayload := mkPackageChangePayload {
  PackageChangePayload_Packages : list string;
  PackageChangePayload_ExpectedRemovals : list string;
  PackageChangePayload_Hold : bool;
  PackageChangePayload_PlanHash : string;
  PackageChangePayload_Plan : option PlanReference;
}.

Record TimePayload := mkTimePayload {
  TimePayload_Servers : list string;
  TimePayload_Probe : list string;
  TimePayload_Timezone : string;
  TimePayload_AllowStep : bool;
  TimePayload_EnableDropIn : bool;
  TimePayload_PlanHash : string;
}.

Record PowerPayload := mkPowerPayload {
  PowerPayload_Mode : string;
  PowerPayload_DelaySeconds : Z;
  PowerPayload_Reason : string;
  PowerPayload_IgnoreInhibitors : bool;
}.

Record SecurityPayload := mkSecurityPayload {
  SecurityPayload_Mode : string;
  SecurityPayload_CheckIDs : list string;
}.

Record AgentUpgradePayload := mkAgentUpgradePayload {
  AgentUpgradePayload_TargetVersion : string;
  AgentUpgradePayload_PackageSHA256 : string;
  AgentUpgradePayload_PackageSigner : string;
  AgentUpgradePayload_RollbackVersion : string;
  AgentUpgradePayload_ReleaseRollback : bool;
}.

Record PayloadCertificateTarget := mkPayloadCertificateTarget {
  PayloadCertificateTarget_Path : string;
  PayloadCertificateTarget_KeyPath : string;
  PayloadCertificateTarget_Service : string;
}.

Record CertificatePayload := mkCertificatePayload {
  CertificatePayload_Targets : list PayloadCertificateTarget;
  CertificatePayload_Path : string;
  CertificatePayload_KeyPath : string;
  CertificatePayload_Certificate : string;
  CertificatePayload_KeySecret : option SecretRef;
  CertificatePayload_Owner : string;
  CertificatePayload_Group : string;
  CertificatePayload_Mode : string;
  CertificatePayload_KeyMode : string;
  CertificatePayload_ReloadUnit : string;
  CertificatePayload_ProbeTarget : string;
  CertificatePayload_Request : string;
  CertificatePayload_AnchorID : string;
  CertificatePayload_PlanHash : string;
}.

Record RepositoryPayload := mkRepositoryPayload {
  RepositoryPayload_ID : string;
  RepositoryPayload_Name : string;
  RepositoryPayload_URL : string;
  RepositoryPayload_Suites : list string;
  RepositoryPayload_Components : list string;
  RepositoryPayload_Architectures : list string;
  RepositoryPayload_Enabled : bool;
  RepositoryPayload_Priority : Z;
  RepositoryPayload_GPGKey : string;
  RepositoryPayload_AllowUnsigned : bool;
  RepositoryPayload_Username : string;
  RepositoryPayload_PasswordSecret : option SecretRef;
  RepositoryPayload_Remove : bool;
}.

Record BackupPayload := mkBackupPayload {
  BackupPayload_ID : string;
  BackupPayload_Tool : string;
  BackupPayload_Repository : string;
  BackupPayload_Paths : list string;
  BackupPayload_Excludes : list string;
  BackupPayload_Tags : list string;
  BackupPayload_KeepLast : Z;
  BackupPayload_KeepDaily : Z;
  BackupPayload_KeepWeekly : Z;
  BackupPayload_KeepMonthly : Z;
  BackupPayload_Prune : bool;
  BackupPayload_Runbook : string;
  BackupPayload_Initialize : bool;
  BackupPayload_PasswordSecret : option SecretRef;
  BackupPayload_EnvSecrets : gmap string SecretRef;
  BackupPayload_ReadData : bool;
  BackupPayload_Plan : string;
  BackupPayload_PlanHash : string;
  BackupPayload_SnapshotID : string;
  BackupPayload_Target : string;
  BackupPayload_Include : list string;
  BackupPayload_Overwrite : string;
}.

Record MonitoringPayload := mkMonitoringPayload {
  MonitoringPayload_Kind : string;
  MonitoringPayload_Target : string;
  MonitoringPayload_ExpectStatus : Z;
  MonitoringPayload_ExpectBody : string;
  MonitoringPayload_TimeoutSeconds : Z;
}.

Record InventoryPayload := mkInventoryPayload {
  InventoryPayload_Modules : list string;
}.

Record HostnamePayload := mkHostnamePayload {
  HostnamePayload_Hostname : string;
  HostnamePayload_Pretty : string;
}.

Record Payload := mkPayload {
  Payload_Unit : option UnitPayload;
  Payload_Journal : option JournalPayload;
  Payload_PackagePlan : option PackagePlanPayload;
  Payload_PackageUpgrade : option PackageUpgradePayload;
  Payload_Reboot : option RebootPayload;
  Payload_FinalWipe : option FinalWipePayload;
  Payload_UnitStatus : option UnitStatusPayload;
  Payload_DomainEnroll : option DomainEnrollPayload;
  Payload_DomainLeave : option DomainLeavePayload;
  Payload_Keytab : option KeytabPayload;
  Payload_LocalUser : option LocalUserPayload;
  Payload_PackageRepair : option PackageRepairPayload;
  Payload_DockerRead : option DockerReadPayload;
  Payload_DockerContainer : option DockerContainerPayload;
  Payload_DockerImage : option DockerImagePayload;
  Payload_DockerPrune : option DockerPrunePayload;
  Payload_DockerEvents : option DockerEventsPayload;
  Payload_DockerLogs : option DockerLogsPayload;
  Payload_DockerEnsure : option DockerEnsurePayload;
  Payload_Compose : option ComposePayload;
  Payload_UnitToggle : option UnitToggle;
  Payload_LogFile : option LogFilePayload;
  Payload_ProcessList : option ProcessListPayload;
  Payload_ProcessSignal : option ProcessSignalPayload;
  Payload_Schedule : option SchedulePayload;
  Payload_Network : option NetworkPayload;
  Payload_DNS : option DNSPayload;
  Payload_Firewall : option FirewallPayload;
  Payload_Storage : option StoragePayload;
  Payload_SSH : option SSHPayload;
  Payload_Kernel : option KernelPayload;
  Payload_File : option FilePayload;
  Payload_PackageChange : option PackageChangePayload;
  Payload_Time : option TimePayload;
  Payload_Power : option PowerPayload;
  Payload_Security : option SecurityPayload;
  Payload_AgentUpgrade : option AgentUpgradePayload;
  Payload_Certificate : option CertificatePayload;
  Payload_Repository : option RepositoryPayload;
  Payload_Backup : option BackupPayload;
  Payload_Monitoring : option MonitoringPayload;
  Payload_Inventory : option InventoryPayload;
  Payload_Hostname : option HostnamePayload;
}.
