(* ===== verification/Binding.v ===== *)
(** * Binding: a request is what the panel signed

    CheckBinding of src/internal/helpercap/expect.go: the request of the
    helper against the payload its capability binds, kind by kind, with the
    orders of package_order.go and backup_order.go, and the secrets a request
    spends (secret_bytes.go). A refusal is its code; the texts are not
    modelled. The prior values of kernel settings, which the helper reads, are
    an argument. *)
From S2P Require Import Prelude Bytes Digest Text Times Actions Registry Capability Expect Messages Payloads.

Open Scope Z_scope.

(** [BoundPayload]. *)
Record BoundPayload := mkBound { bound_Action : ActionType; bound_Version : Z; bound_Payload : Payload }.

(** What a check of the source returns: [nil], or an error. *)
Abbreviation check := (result error unit).
Definition ok : check := Ok tt.
Definition ErrorPayloadUnchecked : string := "payload_binding_unchecked".
Definition binding : check := Err (refusal ErrorPayloadBinding).

(** [if !condition { return binding(...) }] *)
Definition require (condition : bool) : check := if condition then ok else binding.

Definition same (got want : string) : check := require (bool_decide (got = want)).
(** Two flags, or two numbers. *)
Definition agree {A} `{EqDecision A} (got want : A) : check := require (bool_decide (got = want)).
Definition sameSequence (got want : list string) : check := require (bool_decide (got = want)).
Definition sameList (got want : list string) : check := require (bool_decide (sorted got = sorted want)).

(** The part of a payload, or the refusal of a payload without it. *)
Definition described {A} (part : option A) (k : A → check) : check :=
  match part with Some p => k p | None => binding end.

Definition contentDigest (content : bytes) : string := bstring (hex_encode (sha256 content)).

(** [SecretRef.Empty]. *)
Definition Empty_ref (r : option SecretRef) : bool :=
  match r with Some r => bool_decide (SecretRef_Name r = "") | None => true end.

(** ** Units *)

Definition sameUnitDirection (operation : UnitActionRequest_Operation) (payload : Payload) : check :=
  match operation with
  | UnitActionRequest_OPERATION_ENABLE | UnitActionRequest_OPERATION_MASK =>
      described (Payload_UnitToggle payload) (λ t, agree (UnitToggle_Enabled t) true)
  | UnitActionRequest_OPERATION_DISABLE | UnitActionRequest_OPERATION_UNMASK =>
      described (Payload_UnitToggle payload) (λ t, agree (UnitToggle_Enabled t) false)
  | _ => ok
  end.

Definition bound_unit (payload : Payload) : string :=
  match Payload_Unit payload, Payload_UnitToggle payload with
  | Some u, _ => UnitPayload_Unit u
  | None, Some t => UnitToggle_Unit t
  | None, None => ""
  end.

Definition bindUnit (r : UnitActionRequest) (payload : Payload) : check :=
  same (UnitActionRequest_GetUnit r) (bound_unit payload);;
  sameUnitDirection (UnitActionRequest_GetOperation r) payload.

(** ** Packages *)

Definition normalHash (text : string) : string := read_word text.

Definition packageOperationName (operation : PackageActionRequest_Operation) : string :=
  match operation with
  | PackageActionRequest_OPERATION_INSTALL => "install"
  | PackageActionRequest_OPERATION_REMOVE => "remove"
  | PackageActionRequest_OPERATION_UPGRADE => "upgrade"
  | PackageActionRequest_OPERATION_HOLD => "hold"
  | PackageActionRequest_OPERATION_UNSPECIFIED => "OPERATION_UNSPECIFIED"
  | PackageActionRequest_OPERATION_REFRESH => "OPERATION_REFRESH"
  | PackageActionRequest_OPERATION_other n => FormatInt n
  end.

Definition change_tuple (c : PlanChangeEntry) : list string :=
  [PlanChangeEntry_Name c; PlanChangeEntry_CurrentVersion c; PlanChangeEntry_CandidateVersion c;
   PlanChangeEntry_Architecture c; PlanChangeEntry_Origin c; PlanChangeEntry_Action c].
Definition spec_tuple (s : PackageExactSpec) : list string :=
  [PackageExactSpec_GetName s; PackageExactSpec_GetCurrentVersion s; PackageExactSpec_GetCandidateVersion s;
   PackageExactSpec_GetArchitecture s; PackageExactSpec_GetOrigin s; PackageExactSpec_GetAction s].

(** The moment a plan expires, or 0 when it is not one. *)
Definition plan_expiry (text : string) : Z :=
  if bool_decide (text = "") then 0 else match parse_rfc3339 (sbytes text) with Some (moment, _) => moment | None => 0 end.

(** The order [packageOrderDigest] hashes. *)
Definition orderOfPackages (operation : string) (change : option PackageChangePayload)
    (upgrade : option PackageUpgradePayload) : packageOrder :=
  let '(packages, removals, hold, security, hash, reference) :=
    match change, upgrade with
    | Some c, _ => (PackageChangePayload_Packages c, PackageChangePayload_ExpectedRemovals c,
                    PackageChangePayload_Hold c, false, normalHash (PackageChangePayload_PlanHash c),
                    PackageChangePayload_Plan c)
    | None, Some u => (PackageUpgradePayload_Packages u, [], false, PackageUpgradePayload_SecurityOnly u,
                       normalHash (PackageUpgradePayload_PlanHash u), PackageUpgradePayload_Plan u)
    | None, None => ([], [], false, false, ""%string, None)
    end in
  match (if bool_decide (operation = "hold") then None else reference) with
  | None =>
      Build_packageOrder operation packages removals hold security false
        (if bool_decide (operation = "hold") then "" else hash) 0 "" "" "" 0 []
  | Some r =>
      Build_packageOrder operation packages removals hold security false hash
        (PlanReference_SchemaVersion r) (PlanReference_PlannerVersion r)
        (PlanReference_InventoryRevision r) (PlanReference_ResourceRevision r)
        (plan_expiry (PlanReference_ExpiresAt r)) (change_tuple <$> PlanReference_Changes r)
  end.

Definition packageOrderDigest (operation : string) (change : option PackageChangePayload)
    (upgrade : option PackageUpgradePayload) : string :=
  package_digest (orderOfPackages operation change upgrade).

Definition orderOfPackageRequest (r : PackageActionRequest) : packageOrder := {|
  pkg_Operation := packageOperationName (PackageActionRequest_GetOperation r);
  pkg_Packages := PackageActionRequest_GetPackages r;
  pkg_ExpectedRemovals := PackageActionRequest_GetExpectedRemovals r;
  pkg_Hold := PackageActionRequest_GetHold r;
  pkg_SecurityOnly := PackageActionRequest_GetSecurityOnly r;
  pkg_AllowDowngrade := PackageActionRequest_GetAllowDowngrade r;
  pkg_PlanHash := bstring (hex_encode (PackageActionRequest_GetPlanHash r));
  pkg_PlanSchemaVersion := PackageActionRequest_GetPlanSchemaVersion r;
  pkg_PlannerVersion := PackageActionRequest_GetPlannerVersion r;
  pkg_InventoryRevision := PackageActionRequest_GetPlanInventoryRevision r;
  pkg_ResourceRevision := PackageActionRequest_GetPlanResourceRevision r;
  pkg_PlanExpiresUnix := PackageActionRequest_GetPlanExpiresAtUnix r;
  pkg_Changes := spec_tuple <$> PackageActionRequest_GetExactSpecs r;
|}.

Definition packageRequestDigest (r : PackageActionRequest) : string := package_digest (orderOfPackageRequest r).

Definition agentPackagesOnly (r : PackageActionRequest) (upgrade : option AgentUpgradePayload) : check :=
  described upgrade (λ u,
    require (forallb (λ name, HasPrefix name "flotestro-agent") (PackageActionRequest_GetPackages r));;
    same (PackageActionRequest_GetPackageSha256 r) (AgentUpgradePayload_PackageSHA256 u);;
    same (PackageActionRequest_GetRollbackVersion r) (AgentUpgradePayload_RollbackVersion u)).

Definition samePackageOrder (r : PackageActionRequest) (payload : Payload) : check :=
  same (packageRequestDigest r)
       (packageOrderDigest (packageOperationName (PackageActionRequest_GetOperation r))
          (Payload_PackageChange payload) (Payload_PackageUpgrade payload)).

Definition bindPackage (r : PackageActionRequest) (bound : BoundPayload) : check :=
  let payload := bound_Payload bound in
  match PackageActionRequest_GetOperation r with
  | PackageActionRequest_OPERATION_UPGRADE =>
      described (Payload_PackageUpgrade payload) (λ u,
        sameList (PackageActionRequest_GetPackages r) (PackageUpgradePayload_Packages u);;
        samePackageOrder r payload)
  | PackageActionRequest_OPERATION_INSTALL | PackageActionRequest_OPERATION_REMOVE
  | PackageActionRequest_OPERATION_HOLD =>
      if bool_decide (bound_Action bound = ActionAgentUpgrade)
      then agentPackagesOnly r (Payload_AgentUpgrade payload)
      else
        described (Payload_PackageChange payload) (λ c,
          sameList (PackageActionRequest_GetPackages r) (PackageChangePayload_Packages c);;
          (match PackageActionRequest_GetOperation r with
           | PackageActionRequest_OPERATION_HOLD =>
               agree (PackageActionRequest_GetHold r) (PackageChangePayload_Hold c)
           | _ => ok
           end);;
          samePackageOrder r payload)
  | _ => ok
  end.

(** ** Schedules, files, accounts *)

Definition bindSchedule (r : ScheduleRequest) (p : SchedulePayload) : check :=
  same (ScheduleRequest_GetId r) (SchedulePayload_ID p);;
  same (ScheduleRequest_GetUser r) (SchedulePayload_User p);;
  match ScheduleRequest_GetOperation r with
  | ScheduleRequest_OPERATION_ENSURE | ScheduleRequest_OPERATION_RUN_NOW =>
      sameSequence (ScheduleRequest_GetCommand r) (SchedulePayload_Command p);;
      same (ScheduleRequest_GetExpression r) (SchedulePayload_Expression p)
  | _ => ok
  end.

Definition sameContent (r : FileRequest) (p : FilePayload) : check :=
  agree (FileRequest_GetFromSecret r) (negb (Empty_ref (FilePayload_ContentSecret p)));;
  if FileRequest_GetFromSecret r then ok
  else
    same (FileRequest_GetVersionSha256 r) (FilePayload_VersionSHA256 p);;
    if negb (bool_decide (FileRequest_GetVersionSha256 r = "")) then ok
    else same (contentDigest (FileRequest_GetContent r)) (contentDigest (sbytes (FilePayload_Content p))).

Definition sameFile (r : FileRequest) (p : FilePayload) : check :=
  same (FileRequest_GetPath r) (FilePayload_Path p);;
  same (FileRequest_GetMode r) (FilePayload_Mode p);;
  same (FileRequest_GetOwner r) (FilePayload_Owner p);;
  same (FileRequest_GetGroup r) (FilePayload_Group p);;
  same (FileRequest_GetValidator r) (FilePayload_Validator p);;
  same (FileRequest_GetExpectedSha256 r) (FilePayload_ExpectedSHA256 p);;
  agree (FileRequest_GetAllowMissingValidator r) (FilePayload_AllowMissingValidator p);;
  sameContent r p.

Definition publicKeys : list LocalSSHKeyInput → list string := fmap LocalSSHKeyInput_GetPublicKey.
Definition payloadKeys : list SSHKeyInput → list string := fmap SSHKeyInput_PublicKey.

Definition sameAccount (r : LocalUserActionRequest) (p : LocalUserPayload) : check :=
  same (LocalUserActionRequest_GetName r) (LocalUserPayload_Name p);;
  sameList (LocalUserActionRequest_GetSshKeys r) (LocalUserPayload_SSHKeys p);;
  sameList (publicKeys (LocalUserActionRequest_GetKeys r)) (payloadKeys (LocalUserPayload_Keys p));;
  sameList (LocalUserActionRequest_GetFingerprints r) (LocalUserPayload_Fingerprints p);;
  sameList (LocalUserActionRequest_GetGroups r) (LocalUserPayload_Groups p);;
  same (LocalUserActionRequest_GetShell r) (LocalUserPayload_Shell p);;
  same (LocalUserActionRequest_GetExpiresAt r) (LocalUserPayload_ExpiresAt p).

Definition bindSignal (r : ProcessSignalRequest) (p : ProcessSignalPayload) : check :=
  require (bool_decide (ProcessSignalRequest_GetPid r = ProcessSignalPayload_PID p)
           && bool_decide (ProcessSignalRequest_GetSignal r = ProcessSignalPayload_Signal p)
           && bool_decide (ProcessSignalRequest_GetExpectedStartTicks r = ProcessSignalPayload_ExpectedStart p)).

Definition bindHostname (r : HostnameRequest) (p : HostnamePayload) : check :=
  same (HostnameRequest_GetHostname r) (HostnamePayload_Hostname p);;
  same (HostnameRequest_GetPretty r) (HostnamePayload_Pretty p).

(** ** Containers *)

(** [ObjectKind] and [ObjectName] of a declaration. *)
Definition ObjectKind (p : DockerEnsurePayload) : string :=
  match DockerEnsurePayload_Container p, DockerEnsurePayload_Network p, DockerEnsurePayload_Volume p with
  | Some _, _, _ => "container"
  | None, Some _, _ => "network"
  | None, None, Some _ => "volume"
  | None, None, None => DockerEnsurePayload_Kind p
  end.
Definition ObjectName (p : DockerEnsurePayload) : string :=
  match DockerEnsurePayload_Container p, DockerEnsurePayload_Network p, DockerEnsurePayload_Volume p with
  | Some c, _, _ => ContainerRequest_Name c
  | None, Some n, _ => NetworkSpec_Name n
  | None, None, Some v => VolumeSpec_Name v
  | None, None, None => DockerEnsurePayload_Name p
  end.

Definition bindDockerEnsure (r : DockerEnsureRequest) (p : DockerEnsurePayload) : check :=
  same (DockerEnsureRequest_GetKind r) (ObjectKind p);;
  same (DockerEnsureRequest_GetName r) (ObjectName p);;
  same (DockerEnsureRequest_GetPlanDigest r) (DockerEnsurePayload_PlanDigest p).

Definition bindContainer (r : DockerActionRequest) (p : DockerContainerPayload) : check :=
  same (DockerActionRequest_GetContainerId r) (DockerContainerPayload_ContainerID p);;
  same (DockerActionRequest_GetContainerName r) (DockerContainerPayload_Name p);;
  same (DockerActionRequest_GetConfirmName r) (DockerContainerPayload_ConfirmName p);;
  same (DockerActionRequest_GetExpectedImage r) (DockerContainerPayload_ExpectedImage p);;
  agree (DockerActionRequest_GetRemoveVolumes r) (DockerContainerPayload_RemoveVolumes p);;
  agree (DockerActionRequest_GetTimeoutSeconds r) (DockerContainerPayload_TimeoutSeconds p).

Definition bindPrune (r : DockerActionRequest) (p : DockerPrunePayload) : check :=
  sameList (DockerActionRequest_GetImageIds r) (DockerPrunePayload_ImageIDs p);;
  sameList (DockerActionRequest_GetVolumeNames r) (DockerPrunePayload_VolumeName p);;
  sameList (DockerActionRequest_GetNetworkIds r) (DockerPrunePayload_NetworkIDs p).

Definition bindDocker (r : DockerActionRequest) (payload : Payload) : check :=
  match DockerActionRequest_GetOperation r with
  | DockerActionRequest_OPERATION_START | DockerActionRequest_OPERATION_STOP
  | DockerActionRequest_OPERATION_RESTART | DockerActionRequest_OPERATION_REMOVE =>
      described (Payload_DockerContainer payload) (bindContainer r)
  | DockerActionRequest_OPERATION_PULL_IMAGE =>
      described (Payload_DockerImage payload) (λ i,
        same (DockerActionRequest_GetImageReference r) (DockerImagePayload_Reference i))
  | DockerActionRequest_OPERATION_PRUNE => described (Payload_DockerPrune payload) (bindPrune r)
  | _ => ok
  end.

Definition serviceDigests (digests : gmap string string) : list string :=
  (λ sd, sd.1 +:+ "=" +:+ sd.2) <$> map_to_list digests.

Definition bindCompose (r : ComposeRequest) (p : ComposePayload) : check :=
  same (ComposeRequest_GetProject r) (ComposePayload_Project p);;
  same (contentDigest (sbytes (ComposeRequest_GetManifest r))) (contentDigest (sbytes (ComposePayload_Manifest p)));;
  same (ComposeRequest_GetPlanDigest r) (ComposePayload_PlanDigest p);;
  sameList (serviceDigests (ComposeRequest_GetImageDigests r)) (serviceDigests (ComposePayload_ImageDigests p)).

(** ** Package sources and backups *)

Definition orderOfRepository (p : RepositoryPayload) : repositoryOrder := {|
  repo_ID := RepositoryPayload_ID p; repo_Name := RepositoryPayload_Name p; repo_URL := RepositoryPayload_URL p;
  repo_Suites := RepositoryPayload_Suites p; repo_Components := RepositoryPayload_Components p;
  repo_Architectures := RepositoryPayload_Architectures p; repo_Enabled := RepositoryPayload_Enabled p;
  repo_Priority := RepositoryPayload_Priority p; repo_GPGKey := RepositoryPayload_GPGKey p;
  repo_AllowUnsigned := RepositoryPayload_AllowUnsigned p; repo_Username := RepositoryPayload_Username p;
  repo_SecretName := match RepositoryPayload_PasswordSecret p with
                     | Some s => if RepositoryPayload_Remove p then "" else SecretRef_Name s
                     | None => ""
                     end;
  repo_Remove := RepositoryPayload_Remove p;
|}.
Definition repositoryOrderDigest (p : RepositoryPayload) : string := repository_digest (orderOfRepository p).

Definition orderOfRepositoryRequest (r : RepositoryRequest) : repositoryOrder := {|
  repo_ID := RepositoryRequest_GetId r; repo_Name := RepositoryRequest_GetName r; repo_URL := RepositoryRequest_GetUrl r;
  repo_Suites := RepositoryRequest_GetSuites r; repo_Components := RepositoryRequest_GetComponents r;
  repo_Architectures := RepositoryRequest_GetArchitectures r; repo_Enabled := RepositoryRequest_GetEnabled r;
  repo_Priority := RepositoryRequest_GetPriority r; repo_GPGKey := RepositoryRequest_GetGpgKey r;
  repo_AllowUnsigned := RepositoryRequest_GetAllowUnsigned r; repo_Username := RepositoryRequest_GetUsername r;
  repo_SecretName := RepositoryRequest_GetSecretName r; repo_Remove := RepositoryRequest_GetRemove r;
|}.
Definition repositoryRequestDigest (r : RepositoryRequest) : string := repository_digest (orderOfRepositoryRequest r).

Definition bindRepository (r : RepositoryRequest) (p : RepositoryPayload) : check :=
  same (RepositoryRequest_GetId r) (RepositoryPayload_ID p);;
  same (RepositoryRequest_GetUrl r) (RepositoryPayload_URL p);;
  same (repositoryRequestDigest r) (repositoryOrderDigest p).

Definition orderOfPayload (p : BackupPayload) : backupOrder := {|
  bk_ID := BackupPayload_ID p; bk_Tool := BackupPayload_Tool p; bk_Repository := BackupPayload_Repository p;
  bk_Paths := BackupPayload_Paths p; bk_Excludes := BackupPayload_Excludes p; bk_Tags := BackupPayload_Tags p;
  bk_KeepLast := BackupPayload_KeepLast p; bk_KeepDaily := BackupPayload_KeepDaily p;
  bk_KeepWeekly := BackupPayload_KeepWeekly p; bk_KeepMonthly := BackupPayload_KeepMonthly p;
  bk_Prune := BackupPayload_Prune p; bk_Runbook := BackupPayload_Runbook p;
  bk_Initialize := BackupPayload_Initialize p; bk_ReadData := BackupPayload_ReadData p;
  bk_SnapshotID := BackupPayload_SnapshotID p; bk_Target := BackupPayload_Target p;
  bk_Include := BackupPayload_Include p; bk_Overwrite := BackupPayload_Overwrite p;
  bk_Plan := BackupPayload_Plan p; bk_PlanHash := BackupPayload_PlanHash p;
  bk_HasPassword := negb (Empty_ref (BackupPayload_PasswordSecret p));
  bk_EnvNames := (map_to_list (BackupPayload_EnvSecrets p)).*1;
|}.
Definition BackupOrderDigest (p : BackupPayload) : string := backup_digest (orderOfPayload p).

Definition orderOfRequest (r : BackupRequest) : backupOrder := {|
  bk_ID := BackupRequest_GetId r; bk_Tool := BackupRequest_GetTool r; bk_Repository := BackupRequest_GetRepository r;
  bk_Paths := BackupRequest_GetPaths r; bk_Excludes := BackupRequest_GetExcludes r; bk_Tags := BackupRequest_GetTags r;
  bk_KeepLast := BackupRequest_GetKeepLast r; bk_KeepDaily := BackupRequest_GetKeepDaily r;
  bk_KeepWeekly := BackupRequest_GetKeepWeekly r; bk_KeepMonthly := BackupRequest_GetKeepMonthly r;
  bk_Prune := BackupRequest_GetPrune r; bk_Runbook := BackupRequest_GetRunbook r;
  bk_Initialize := BackupRequest_GetInitialize r; bk_ReadData := BackupRequest_GetReadData r;
  bk_SnapshotID := BackupRequest_GetSnapshotId r; bk_Target := BackupRequest_GetTarget r;
  bk_Include := BackupRequest_GetInclude r; bk_Overwrite := BackupRequest_GetOverwrite r;
  bk_Plan := BackupRequest_GetPlan r; bk_PlanHash := BackupRequest_GetPlanHash r;
  bk_HasPassword := bool_decide (0 < len (BackupRequest_GetPassword r));
  bk_EnvNames := (map_to_list (BackupRequest_GetEnv r)).*1;
|}.
Definition backupRequestDigest (r : BackupRequest) : string := backup_digest (orderOfRequest r).

Definition bindBackup (r : BackupRequest) (p : BackupPayload) : check :=
  same (BackupRequest_GetId r) (BackupPayload_ID p);;
  require (bool_decide (backupRequestDigest r = BackupOrderDigest p)).

(** ** Certificates *)

Definition bindCertificate (r : CertificateRequest) (payload : Payload) : check :=
  match CertificateRequest_GetOperation r with
  | CertificateRequest_OPERATION_FACTS | CertificateRequest_OPERATION_PLAN
  | CertificateRequest_OPERATION_TRUST_PLAN => ok
  | operation =>
      described (Payload_Certificate payload) (λ p,
        same (CertificateRequest_GetPath r) (CertificatePayload_Path p);;
        same (CertificateRequest_GetKeyPath r) (CertificatePayload_KeyPath p);;
        same (CertificateRequest_GetOwner r) (CertificatePayload_Owner p);;
        same (CertificateRequest_GetGroup r) (CertificatePayload_Group p);;
        same (CertificateRequest_GetMode r) (CertificatePayload_Mode p);;
        same (CertificateRequest_GetKeyMode r) (CertificatePayload_KeyMode p);;
        same (CertificateRequest_GetReloadUnit r) (CertificatePayload_ReloadUnit p);;
        same (CertificateRequest_GetRequest r) (CertificatePayload_Request p);;
        same (CertificateRequest_GetAnchorId r) (CertificatePayload_AnchorID p);;
        same (CertificateRequest_GetPlanHash r) (CertificatePayload_PlanHash p);;
        match operation with
        | CertificateRequest_OPERATION_DEPLOY | CertificateRequest_OPERATION_TRUST_ENSURE =>
            same (contentDigest (CertificateRequest_GetCertificate r))
                 (contentDigest (sbytes (CertificatePayload_Certificate p)))
        | _ => ok
        end)
  end.

(** ** The directory and the repair of packages *)

Definition bindEnroll (r : DomainEnrollRequest) (p : DomainEnrollPayload) : check :=
  same (DomainEnrollRequest_GetDomain r) (DomainEnrollPayload_Domain p);;
  same (DomainEnrollRequest_GetRealm r) (DomainEnrollPayload_Realm p);;
  same (DomainEnrollRequest_GetServer r) (DomainEnrollPayload_Server p);;
  same (DomainEnrollRequest_GetHostname r) (DomainEnrollPayload_Hostname p).

Definition bindLeave (r : DomainLeaveRequest) (p : DomainLeavePayload) : check :=
  same (DomainLeaveRequest_GetDomain r) (DomainLeavePayload_Domain p);;
  same (DomainLeaveRequest_GetRealm r) (DomainLeavePayload_Realm p).

(** [strings.Join(parts, "\x00")]. *)
Definition join_nul (parts : list string) : string :=
  match parts with
  | [] => ""
  | part :: rest =>
      bstring (fold_left (λ (out : bytes) p, (out ++ Byte.x00 :: sbytes p)%list) rest (sbytes part))
  end.

Definition selectedAnswers : list DebconfSelection → list string := fmap (λ a,
  join_nul [DebconfSelection_GetPackage a; DebconfSelection_GetQuestion a; DebconfSelection_GetType a;
            DebconfSelection_GetValue a]).
Definition approvedAnswers : list DebconfAnswer → list string := fmap (λ a,
  join_nul [DebconfAnswer_Package a; DebconfAnswer_Question a; DebconfAnswer_Type a; DebconfAnswer_Value a]).

Definition bindRepair (r : PackageRepairRequest) (payload : Payload) : check :=
  sameList (selectedAnswers (PackageRepairRequest_GetAnswers r))
    (approvedAnswers (match Payload_PackageRepair payload with
                      | Some p => PackageRepairPayload_Answers p
                      | None => []
                      end)).

(** ** Power *)

Definition bindReboot (r : RebootRequest) (payload : Payload) : check :=
  let '(reason, delay, inhibitors) :=
    match Payload_Reboot payload with
    | Some p => (RebootPayload_Reason p, RebootPayload_DelaySeconds p, RebootPayload_IgnoreInhibitors p)
    | None => (""%string, 0, false)
    end in
  same (RebootRequest_GetReason r) reason;;
  (if bool_decide (delay ≠ 0) then agree (RebootRequest_GetDelaySeconds r) delay else ok);;
  agree (RebootRequest_GetIgnoreInhibitors r) inhibitors.

Definition bindShutdown (r : ShutdownRequest) (p : PowerPayload) : check :=
  same (ShutdownRequest_GetReason r) (PowerPayload_Reason p);;
  (if bool_decide (PowerPayload_Mode p ≠ "") then same (ShutdownRequest_GetMode r) (PowerPayload_Mode p) else ok);;
  (if bool_decide (PowerPayload_DelaySeconds p ≠ 0)
   then agree (ShutdownRequest_GetDelaySeconds r) (PowerPayload_DelaySeconds p) else ok);;
  agree (ShutdownRequest_GetIgnoreInhibitors r) (PowerPayload_IgnoreInhibitors p).

(** ** The network *)

Definition sameProfile (r : NetworkRequest) (p : NetworkPayload) : check :=
  same (NetworkRequest_GetMethod r) (NetworkPayload_Method p);;
  sameSequence (NetworkRequest_GetAddresses r) (NetworkPayload_Addresses p);;
  same (NetworkRequest_GetGateway r) (NetworkPayload_Gateway p);;
  sameSequence (NetworkRequest_GetDns r) (NetworkPayload_DNS p);;
  sameList (NetworkRequest_GetRoutes r) (NetworkPayload_Routes p);;
  same (NetworkRequest_GetMtu r) (NetworkPayload_MTU p);;
  same (NetworkRequest_GetMethod6 r) (NetworkPayload_Method6 p);;
  sameSequence (NetworkRequest_GetAddresses6 r) (NetworkPayload_Addresses6 p);;
  same (NetworkRequest_GetGateway6 r) (NetworkPayload_Gateway6 p);;
  same (NetworkRequest_GetAcceptRa r) (NetworkPayload_AcceptRA p);;
  same (NetworkRequest_GetPrivacy r) (NetworkPayload_Privacy p).

Definition sameLink (request : option NetworkLink) (payload : option LinkSpec) : check :=
  match request, payload with
  | None, None => ok
  | Some r, Some p =>
      same (NetworkLink_GetName r) (LinkSpec_Name p);;
      same (NetworkLink_GetKind r) (LinkSpec_Kind p);;
      sameList (NetworkLink_GetMembers r) (LinkSpec_Members p);;
      same (NetworkLink_GetMode r) (LinkSpec_Mode p);;
      same (NetworkLink_GetPrimary r) (LinkSpec_Primary p);;
      same (NetworkLink_GetLacpRate r) (LinkSpec_LACPRate p);;
      same (FormatInt (NetworkLink_GetMiimonMs r)) (FormatInt (u32 (LinkSpec_MIIMonMS p)));;
      require (bool_decide (NetworkLink_GetStp r = LinkSpec_STP p)
               && bool_decide (NetworkLink_GetVlanFiltering r = LinkSpec_VLANFiltering p));;
      same (NetworkLink_GetParent r) (LinkSpec_Parent p);;
      same (FormatInt (NetworkLink_GetVlanId r)) (FormatInt (u32 (LinkSpec_VLANID p)));;
      same (NetworkLink_GetProtocol r) (LinkSpec_Protocol p);;
      same (NetworkLink_GetMtu r) (LinkSpec_MTU p)
  | _, _ => binding
  end.

Definition bindNetwork (r : NetworkRequest) (p : NetworkPayload) : check :=
  same (NetworkRequest_GetInterface r) (NetworkPayload_Interface p);;
  same (NetworkRequest_GetPlanHash r) (NetworkPayload_PlanHash p);;
  same (NetworkRequest_GetRollbackId r) (NetworkPayload_RollbackID p);;
  match NetworkRequest_GetOperation r with
  | NetworkRequest_OPERATION_SET_MTU => same (NetworkRequest_GetMtu r) (NetworkPayload_MTU p)
  | NetworkRequest_OPERATION_ENSURE_ROUTES => sameList (NetworkRequest_GetRoutes r) (NetworkPayload_Routes p)
  | NetworkRequest_OPERATION_APPLY_PROFILE => sameProfile r p
  | NetworkRequest_OPERATION_APPLY_LINK => sameLink (NetworkRequest_GetLink r) (NetworkPayload_Link p)
  | _ => ok
  end.

Definition bindDns (r : DnsRequest) (p : DNSPayload) : check :=
  same (DnsRequest_GetInterface r) (DNSPayload_Interface p);;
  sameSequence (DnsRequest_GetServers r) (DNSPayload_Servers p);;
  sameSequence (DnsRequest_GetSearchDomains r) (DNSPayload_SearchDomains p);;
  agree (DnsRequest_GetIgnoreAutoDns r) (DNSPayload_IgnoreAutoDNS p);;
  same (DnsRequest_GetPlanHash r) (DNSPayload_PlanHash p).

Definition sameRule (r : FirewallRequest) (p : FirewallPayload) : check :=
  same (FirewallRequest_GetChain r) (FirewallPayload_Chain p);;
  same (FirewallRequest_GetAction r) (FirewallPayload_Action p);;
  same (FirewallRequest_GetProtocol r) (FirewallPayload_Protocol p);;
  sameList (FirewallRequest_GetPorts r) (FirewallPayload_Ports p);;
  sameList (FirewallRequest_GetSources r) (FirewallPayload_Sources p);;
  same (FirewallRequest_GetInterface r) (FirewallPayload_Interface p).

Definition sameSwitch (got want : bool) : check := agree got want.

Definition bindFirewall (r : FirewallRequest) (p : FirewallPayload) : check :=
  same (FirewallRequest_GetRuleId r) (FirewallPayload_RuleID p);;
  same (FirewallRequest_GetZone r) (FirewallPayload_Zone p);;
  same (FirewallRequest_GetExpectedHash r) (FirewallPayload_ExpectedHash p);;
  agree (FirewallRequest_GetBreakGlass r) (FirewallPayload_BreakGlass p);;
  match FirewallRequest_GetOperation r with
  | FirewallRequest_OPERATION_RULE_ENSURE => sameRule r p
  | FirewallRequest_OPERATION_ZONE_PORT =>
      sameList (FirewallRequest_GetPorts r) (FirewallPayload_Ports p);;
      same (FirewallRequest_GetProtocol r) (FirewallPayload_Protocol p);;
      sameSwitch (FirewallRequest_GetEnable r) (FirewallPayload_Enable p)
  | FirewallRequest_OPERATION_ZONE_SERVICE =>
      same (FirewallRequest_GetService r) (FirewallPayload_Service p);;
      sameSwitch (FirewallRequest_GetEnable r) (FirewallPayload_Enable p)
  | FirewallRequest_OPERATION_RESTORE => same (FirewallRequest_GetRollbackId r) (FirewallPayload_RollbackID p)
  | _ => ok
  end.

(** ** The rest of the host *)

Definition sameSSH (r : SshRequest) (p : SSHPayload) : check :=
  match SshRequest_GetOperation r with
  | SshRequest_OPERATION_ROTATE_HOSTKEY => same (SshRequest_GetKeyType r) (SSHPayload_KeyType p)
  | _ =>
      same (SshRequest_GetPort r) (SSHPayload_Port p);;
      same (SshRequest_GetPermitRootLogin r) (SSHPayload_PermitRootLogin p);;
      same (SshRequest_GetPasswordAuthentication r) (SSHPayload_PasswordAuthentication p);;
      same (SshRequest_GetPubkeyAuthentication r) (SSHPayload_PubkeyAuthentication p);;
      same (SshRequest_GetKbdInteractiveAuthentication r) (SSHPayload_KbdInteractive p);;
      same (SshRequest_GetMaxAuthTries r) (SSHPayload_MaxAuthTries p);;
      sameList (SshRequest_GetAllowUsers r) (SSHPayload_AllowUsers p);;
      sameList (SshRequest_GetAllowGroups r) (SSHPayload_AllowGroups p);;
      sameList (SshRequest_GetDenyUsers r) (SSHPayload_DenyUsers p);;
      agree (SshRequest_GetAllowLockout r) (SSHPayload_AllowLockout p);;
      same (SshRequest_GetPlanHash r) (SSHPayload_PlanHash p)
  end.

(** A key of the request and its values: a Go map reads the empty string where
    there is none. *)
Definition at_key (m : gmap string string) (key : string) : string := default "" (m !! key).

Fixpoint sysctl_values (got want before : gmap string string) (keys : list string) : check :=
  match keys with
  | [] => ok
  | key :: rest =>
      match want !! key with
      | None => binding
      | Some wanted =>
          if bool_decide (at_key got key = wanted) then sysctl_values got want before rest
          else match before !! key with
               | None => binding
               | Some was => if negb (bool_decide (at_key got key = was)) then binding
                             else sysctl_values got want before rest
               end
      end
  end.

Definition boundSysctl (got want before : gmap string string) : check :=
  let keys := sorted (map_to_list got).*1 in
  if bool_decide (keys = []) then binding
  else
    sysctl_values got want before keys;;
    let toDesired := forallb (λ key, bool_decide (at_key got key = at_key want key)) keys in
    let toPrevious := forallb (λ key, bool_decide (before !! key = Some (at_key got key))) keys in
    require (toDesired || toPrevious).

(** [PriorSysctl], which may be nil, asked for a task. *)
Definition PriorSysctl : Type := option (string → gmap string string).
Definition priorValues (prior : PriorSysctl) (taskID : string) : gmap string string :=
  match prior with
  | Some f => if bool_decide (taskID = "") then ∅ else f taskID
  | None => ∅
  end.

Definition bindKernel (r : KernelRequest) (p : KernelPayload) (before : gmap string string) : check :=
  match KernelRequest_GetOperation r with
  | KernelRequest_OPERATION_SYSCTL_ENSURE =>
      boundSysctl (KernelRequest_GetSettings r) (KernelPayload_Settings p) before
  | KernelRequest_OPERATION_MODULE_LOAD => same (KernelRequest_GetModule r) (KernelPayload_Module p)
  | KernelRequest_OPERATION_MODULE_BLACKLIST =>
      same (KernelRequest_GetModule r) (KernelPayload_Module p);;
      agree (KernelRequest_GetBlacklist r) (KernelPayload_Blacklist p);;
      same (KernelRequest_GetPlanHash r) (KernelPayload_PlanHash p)
  | _ => ok
  end.

Definition sameTimeSources (r : TimeRequest) (p : TimePayload) : check :=
  sameList (TimeRequest_GetServers r) (TimePayload_Servers p);;
  agree (TimeRequest_GetAllowStep r) (TimePayload_AllowStep p);;
  agree (TimeRequest_GetEnableDropin r) (TimePayload_EnableDropIn p);;
  same (TimeRequest_GetPlanHash r) (TimePayload_PlanHash p).

Definition bindTime (r : TimeRequest) (p : TimePayload) : check :=
  match TimeRequest_GetOperation r with
  | TimeRequest_OPERATION_TIMEZONE_SET => same (TimeRequest_GetTimezone r) (TimePayload_Timezone p)
  | TimeRequest_OPERATION_CONFIG_APPLY => sameTimeSources r p
  | _ => ok
  end.

Definition bindSecurity (r : SecurityRequest) (payload : Payload) : check :=
  match SecurityRequest_GetOperation r with
  | SecurityRequest_OPERATION_FACTS => ok
  | SecurityRequest_OPERATION_AUDIT_RELOAD =>
      match Payload_Security payload with
      | Some p => require (bool_decide (SecurityPayload_Mode p = ""))
      | None => ok
      end
  | _ => described (Payload_Security payload) (λ p, same (SecurityRequest_GetMode r) (SecurityPayload_Mode p))
  end.

Definition sameStorage (r : StorageRequest) (p : StoragePayload) : check :=
  same (StorageRequest_GetSource r) (StoragePayload_Source p);;
  same (StorageRequest_GetTarget r) (StoragePayload_Target p);;
  same (StorageRequest_GetFsType r) (StoragePayload_FSType p);;
  same (StorageRequest_GetOptions r) (StoragePayload_Options p);;
  same (StorageRequest_GetDevice r) (StoragePayload_Device p);;
  same (StorageRequest_GetExpectedUuid r) (StoragePayload_ExpectedUUID p);;
  same (StorageRequest_GetExpectedSerial r) (StoragePayload_ExpectedSerial p);;
  same (StorageRequest_GetExpectedById r) (StoragePayload_ExpectedByID p);;
  same (StorageRequest_GetExpectedWwn r) (StoragePayload_ExpectedWWN p);;
  same (StorageRequest_GetSize r) (StoragePayload_Size p);;
  same (StorageRequest_GetLabel r) (StoragePayload_Label p);;
  same (StorageRequest_GetPlan r) (StoragePayload_Plan p);;
  same (StorageRequest_GetPlanHash r) (StoragePayload_PlanHash p);;
  same (StorageRequest_GetArray r) (StoragePayload_Array p);;
  same (StorageRequest_GetExpectedArrayUuid r) (StoragePayload_ExpectedArrayUUID p);;
  same (StorageRequest_GetGroup r) (StoragePayload_Group p);;
  same (StorageRequest_GetExpectedGroupUuid r) (StoragePayload_ExpectedGroupUUID p);;
  same (StorageRequest_GetVolume r) (StoragePayload_Volume p);;
  same (StorageRequest_GetExpectedVolumeUuid r) (StoragePayload_ExpectedVolumeUUID p);;
  agree (StorageRequest_GetPersist r) (StoragePayload_Persist p);;
  agree (StorageRequest_GetRepair r) (StoragePayload_Repair p);;
  agree (StorageRequest_GetExpectedSizeBytes r) (StoragePayload_ExpectedSizeBytes p).

Definition bindStorage (r : StorageRequest) (payload : Payload) : check :=
  match StorageRequest_GetOperation r with
  | StorageRequest_OPERATION_READ_LVM | StorageRequest_OPERATION_READ_RAID | StorageRequest_OPERATION_SMART_READ
  | StorageRequest_OPERATION_MOUNT_PLAN | StorageRequest_OPERATION_DEVICE_PLAN => ok
  | _ => described (Payload_Storage payload) (sameStorage r)
  end.

(** ** CheckBinding *)

Definition CheckBinding (request : HelperRequest) (bound : BoundPayload) (prior : PriorSysctl) : check :=
  let payload := bound_Payload bound in
  match HelperRequest_GetAction request with
  | Action_UnitAction r => bindUnit r payload
  | Action_PackageAction r => bindPackage r bound
  | Action_Schedule r => described (Payload_Schedule payload) (bindSchedule r)
  | Action_File r => described (Payload_File payload) (sameFile r)
  | Action_LocalUserAction r => described (Payload_LocalUser payload) (sameAccount r)
  | Action_ProcessSignal r => described (Payload_ProcessSignal payload) (bindSignal r)
  | Action_FinalWipe r =>
      described (Payload_FinalWipe payload) (λ p, same (FinalWipeRequest_GetReason r) (FinalWipePayload_Reason p))
  | Action_Hostname r => described (Payload_Hostname payload) (bindHostname r)
  | Action_DockerEnsure r => described (Payload_DockerEnsure payload) (bindDockerEnsure r)
  | Action_Repository r => described (Payload_Repository payload) (bindRepository r)
  | Action_Backup r => described (Payload_Backup payload) (bindBackup r)
  | Action_Certificate r => bindCertificate r payload
  | Action_DockerAction r => bindDocker r payload
  | Action_Compose r => described (Payload_Compose payload) (bindCompose r)
  | Action_DomainEnroll r => described (Payload_DomainEnroll payload) (bindEnroll r)
  | Action_DomainLeave r => described (Payload_DomainLeave payload) (bindLeave r)
  | Action_KeytabRenew r =>
      described (Payload_Keytab payload) (λ p, same (KeytabRenewRequest_GetPrincipal r) (KeytabPayload_Principal p))
  | Action_PackageRepair r => bindRepair r payload
  | Action_Reboot r => bindReboot r payload
  | Action_Shutdown r => described (Payload_Power payload) (bindShutdown r)
  | Action_Network r => described (Payload_Network payload) (bindNetwork r)
  | Action_Dns r => described (Payload_DNS payload) (bindDns r)
  | Action_Firewall r => described (Payload_Firewall payload) (bindFirewall r)
  | Action_Ssh r => described (Payload_SSH payload) (sameSSH r)
  | Action_Kernel r =>
      described (Payload_Kernel payload) (λ p, bindKernel r p (priorValues prior (HelperRequest_GetTaskId request)))
  | Action_Time r => described (Payload_Time payload) (bindTime r)
  | Action_Security r => bindSecurity r payload
  | Action_Storage r => bindStorage r payload
  | _ => Err (refusal ErrorPayloadUnchecked)
  end.

(** ** The secrets a request spends *)

(** [secretSpend]: the reference of the payload and the bytes of the request. *)
Record secretSpend := mkSpend { spend_reference : SecretRef; spend_bytes : bytes }.

Definition spend (reference : option SecretRef) (carried : bool) (value : bytes) : list secretSpend :=
  match reference with
  | Some r => if negb (Empty_ref reference) && carried then [mkSpend r value] else []
  | None => []
  end.

Definition nonempty (b : bytes) : bool := bool_decide (0 < len b).

Definition spentSecrets (action : Action) (payload : Payload) : list secretSpend :=
  match action with
  | Action_File r =>
      match Payload_File payload with
      | Some p => spend (FilePayload_ContentSecret p) (FileRequest_GetFromSecret r) (FileRequest_GetContent r)
      | None => []
      end
  | Action_Backup r =>
      match Payload_Backup payload with
      | Some p =>
          let password := BackupRequest_GetPassword r in
          spend (BackupPayload_PasswordSecret p) (nonempty password) password
          ++ mjoin ((λ name,
               match BackupPayload_EnvSecrets p !! name, BackupRequest_GetEnv r !! name with
               | Some reference, Some value => [mkSpend reference value]
               | _, _ => []
               end) <$> sorted (map_to_list (BackupPayload_EnvSecrets p)).*1)
      | None => []
      end
  | Action_Certificate r =>
      match Payload_Certificate payload with
      | Some p => spend (CertificatePayload_KeySecret p) (nonempty (CertificateRequest_GetKey r))
                        (CertificateRequest_GetKey r)
      | None => []
      end
  | Action_Repository r =>
      match Payload_Repository payload with
      | Some p => spend (RepositoryPayload_PasswordSecret p) (nonempty (RepositoryRequest_GetPassword r))
                        (RepositoryRequest_GetPassword r)
      | None => []
      end
  | _ => []
  end.
