(* ===== verification/Canonical.v ===== *)
(** * Canonical: the bytes a capability binds

    src/internal/helpercap/payload.go: the canonical payload - a line with the
    scheme, the action, its version, and the canonical JSON of the payload
    without its empty parts - and the reading of it on the host. The JSON is an
    interface: jcs.Canonical of the struct and json.Unmarshal into it. A nil
    slice and an empty one are one value here. *)
From S2P Require Import Prelude Bytes Digest Text Actions Payloads Binding.

Open Scope Z_scope.

(** ** Equality of payloads, [reflect.DeepEqual] *)

#[export] Instance UnitPayload_eq_dec : EqDecision UnitPayload. Proof. solve_decision. Defined.
#[export] Instance JournalPayload_eq_dec : EqDecision JournalPayload. Proof. solve_decision. Defined.
#[export] Instance PackagePlanPayload_eq_dec : EqDecision PackagePlanPayload. Proof. solve_decision. Defined.
#[export] Instance PlanChangeEntry_eq_dec : EqDecision PlanChangeEntry. Proof. solve_decision. Defined.
#[export] Instance PlanReference_eq_dec : EqDecision PlanReference. Proof. solve_decision. Defined.
#[export] Instance PackageUpgradePayload_eq_dec : EqDecision PackageUpgradePayload. Proof. solve_decision. Defined.
#[export] Instance RebootPayload_eq_dec : EqDecision RebootPayload. Proof. solve_decision. Defined.
#[export] Instance FinalWipePayload_eq_dec : EqDecision FinalWipePayload. Proof. solve_decision. Defined.
#[export] Instance UnitStatusPayload_eq_dec : EqDecision UnitStatusPayload. Proof. solve_decision. Defined.
#[export] Instance DomainEnrollPayload_eq_dec : EqDecision DomainEnrollPayload. Proof. solve_decision. Defined.
#[export] Instance DomainLeavePayload_eq_dec : EqDecision DomainLeavePayload. Proof. solve_decision. Defined.
#[export] Instance KeytabPayload_eq_dec : EqDecision KeytabPayload. Proof. solve_decision. Defined.
#[export] Instance SSHKeyInput_eq_dec : EqDecision SSHKeyInput. Proof. solve_decision. Defined.
#[export] Instance LocalUserPayload_eq_dec : EqDecision LocalUserPayload. Proof. solve_decision. Defined.
#[export] Instance DebconfAnswer_eq_dec : EqDecision DebconfAnswer. Proof. solve_decision. Defined.
#[export] Instance PackageRepairPayload_eq_dec : EqDecision PackageRepairPayload. Proof. solve_decision. Defined.
#[export] Instance DockerReadPayload_eq_dec : EqDecision DockerReadPayload. Proof. solve_decision. Defined.
#[export] Instance DockerContainerPayload_eq_dec : EqDecision DockerContainerPayload. Proof. solve_decision. Defined.
#[export] Instance DockerImagePayload_eq_dec : EqDecision DockerImagePayload. Proof. solve_decision. Defined.
#[export] Instance DockerPrunePayload_eq_dec : EqDecision DockerPrunePayload. Proof. solve_decision. Defined.
#[export] Instance DockerEventsPayload_eq_dec : EqDecision DockerEventsPayload. Proof. solve_decision. Defined.
#[export] Instance DockerLogsPayload_eq_dec : EqDecision DockerLogsPayload. Proof. solve_decision. Defined.
#[export] Instance ContainerRequest_eq_dec : EqDecision ContainerRequest. Proof. solve_decision. Defined.
#[export] Instance NetworkSpec_eq_dec : EqDecision NetworkSpec. Proof. solve_decision. Defined.
#[export] Instance VolumeSpec_eq_dec : EqDecision VolumeSpec. Proof. solve_decision. Defined.
#[export] Instance SecretRef_eq_dec : EqDecision SecretRef. Proof. solve_decision. Defined.
#[export] Instance DockerEnsurePayload_eq_dec : EqDecision DockerEnsurePayload. Proof. solve_decision. Defined.
#[export] Instance ComposePayload_eq_dec : EqDecision ComposePayload. Proof. solve_decision. Defined.
#[export] Instance UnitToggle_eq_dec : EqDecision UnitToggle. Proof. solve_decision. Defined.
#[export] Instance LogFilePayload_eq_dec : EqDecision LogFilePayload. Proof. solve_decision. Defined.
#[export] Instance ProcessListPayload_eq_dec : EqDecision ProcessListPayload. Proof. solve_decision. Defined.
#[export] Instance ProcessSignalPayload_eq_dec : EqDecision ProcessSignalPayload. Proof. solve_decision. Defined.
#[export] Instance SchedulePayload_eq_dec : EqDecision SchedulePayload. Proof. solve_decision. Defined.
#[export] Instance LinkSpec_eq_dec : EqDecision LinkSpec. Proof. solve_decision. Defined.
#[export] Instance NetworkPayload_eq_dec : EqDecision NetworkPayload. Proof. solve_decision. Defined.
#[export] Instance DNSPayload_eq_dec : EqDecision DNSPayload. Proof. solve_decision. Defined.
#[export] Instance FirewallPayload_eq_dec : EqDecision FirewallPayload. Proof. solve_decision. Defined.
#[export] Instance StoragePayload_eq_dec : EqDecision StoragePayload. Proof. solve_decision. Defined.
#[export] Instance SSHPayload_eq_dec : EqDecision SSHPayload. Proof. solve_decision. Defined.
#[export] Instance KernelPayload_eq_dec : EqDecision KernelPayload. Proof. solve_decision. Defined.
#[export] Instance FilePayload_eq_dec : EqDecision FilePayload. Proof. solve_decision. Defined.
#[export] Instance PackageChangePayload_eq_dec : EqDecision PackageChangePayload. Proof. solve_decision. Defined.
#[export] Instance TimePayload_eq_dec : EqDecision TimePayload. Proof. solve_decision. Defined.
#[export] Instance PowerPayload_eq_dec : EqDecision PowerPayload. Proof. solve_decision. Defined.
#[export] Instance SecurityPayload_eq_dec : EqDecision SecurityPayload. Proof. solve_decision. Defined.
#[export] Instance AgentUpgradePayload_eq_dec : EqDecision AgentUpgradePayload. Proof. solve_decision. Defined.
#[export] Instance PayloadCertificateTarget_eq_dec : EqDecision PayloadCertificateTarget. Proof. solve_decision. Defined.
#[export] Instance CertificatePayload_eq_dec : EqDecision CertificatePayload. Proof. solve_decision. Defined.
#[export] Instance RepositoryPayload_eq_dec : EqDecision RepositoryPayload. Proof. solve_decision. Defined.
#[export] Instance BackupPayload_eq_dec : EqDecision BackupPayload. Proof. solve_decision. Defined.
#[export] Instance MonitoringPayload_eq_dec : EqDecision MonitoringPayload. Proof. solve_decision. Defined.
#[export] Instance InventoryPayload_eq_dec : EqDecision InventoryPayload. Proof. solve_decision. Defined.
#[export] Instance HostnamePayload_eq_dec : EqDecision HostnamePayload. Proof. solve_decision. Defined.
#[export] Instance Payload_eq_dec : EqDecision Payload. Proof. solve_decision. Defined.

(** ** Their zero values, [reflect.New] *)

Definition zero_UnitPayload : UnitPayload := mkUnitPayload "".
Definition zero_JournalPayload : JournalPayload := mkJournalPayload "" 0 None "" "" "" 0 "".
Definition zero_PackagePlanPayload : PackagePlanPayload := mkPackagePlanPayload "" false [] false.
Definition zero_PackageUpgradePayload : PackageUpgradePayload := mkPackageUpgradePayload "" [] false None.
Definition zero_RebootPayload : RebootPayload := mkRebootPayload 0 "" false.
Definition zero_FinalWipePayload : FinalWipePayload := mkFinalWipePayload "".
Definition zero_UnitStatusPayload : UnitStatusPayload := mkUnitStatusPayload [] false false.
Definition zero_DomainEnrollPayload : DomainEnrollPayload := mkDomainEnrollPayload "" "" "" "".
Definition zero_DomainLeavePayload : DomainLeavePayload := mkDomainLeavePayload "" "".
Definition zero_KeytabPayload : KeytabPayload := mkKeytabPayload "".
Definition zero_LocalUserPayload : LocalUserPayload := mkLocalUserPayload "" "" "" [] [] false "" false [] [] false
  [] false false false false.
Definition zero_PackageRepairPayload : PackageRepairPayload := mkPackageRepairPayload [].
Definition zero_DockerReadPayload : DockerReadPayload := mkDockerReadPayload .
Definition zero_DockerContainerPayload : DockerContainerPayload := mkDockerContainerPayload "" "" "" "" 0 false.
Definition zero_DockerImagePayload : DockerImagePayload := mkDockerImagePayload "".
Definition zero_DockerPrunePayload : DockerPrunePayload := mkDockerPrunePayload [] [] [].
Definition zero_DockerEventsPayload : DockerEventsPayload := mkDockerEventsPayload 0 0 [] 0.
Definition zero_DockerLogsPayload : DockerLogsPayload := mkDockerLogsPayload "" 0 "" false.
Definition zero_DockerEnsurePayload : DockerEnsurePayload := mkDockerEnsurePayload None None None "" "" ∅ "" false.
Definition zero_ComposePayload : ComposePayload := mkComposePayload "" "" "" ∅.
Definition zero_UnitToggle : UnitToggle := mkUnitToggle "" false.
Definition zero_LogFilePayload : LogFilePayload := mkLogFilePayload "" 0.
Definition zero_ProcessListPayload : ProcessListPayload := mkProcessListPayload "" 0.
Definition zero_ProcessSignalPayload : ProcessSignalPayload := mkProcessSignalPayload 0 0 "" "".
Definition zero_SchedulePayload : SchedulePayload := mkSchedulePayload "" "" [] "" "" false false "".
Definition zero_NetworkPayload : NetworkPayload := mkNetworkPayload "" "" [] "" [] "" [] 0 "" "" "" [] "" "" "" None
  false.
Definition zero_DNSPayload : DNSPayload := mkDNSPayload "" [] [] false 0 [] "".
Definition zero_FirewallPayload : FirewallPayload := mkFirewallPayload "" "" "" "" [] [] "" "" "" "" false false 0
  "" "".
Definition zero_StoragePayload : StoragePayload := mkStoragePayload "" "" "" "" false "" "" 0 "" "" "" "" "" false
  "" "" "" "" "" "" "" "".
Definition zero_SSHPayload : SSHPayload := mkSSHPayload "" "" "" "" "" "" [] [] [] false "" "".
Definition zero_KernelPayload : KernelPayload := mkKernelPayload ∅ [] "" false "".
Definition zero_FilePayload : FilePayload := mkFilePayload "" "" "" "" "" "" "" "" None false.
Definition zero_PackageChangePayload : PackageChangePayload := mkPackageChangePayload [] [] false "" None.
Definition zero_TimePayload : TimePayload := mkTimePayload [] [] "" false false "".
Definition zero_PowerPayload : PowerPayload := mkPowerPayload "" 0 "" false.
Definition zero_SecurityPayload : SecurityPayload := mkSecurityPayload "" [].
Definition zero_AgentUpgradePayload : AgentUpgradePayload := mkAgentUpgradePayload "" "" "" "" false.
Definition zero_CertificatePayload : CertificatePayload := mkCertificatePayload [] "" "" "" None "" "" "" "" "" ""
  "" "" "".
Definition zero_RepositoryPayload : RepositoryPayload := mkRepositoryPayload "" "" "" [] [] [] false 0 "" false ""
  None false.
Definition zero_BackupPayload : BackupPayload := mkBackupPayload "" "" "" [] [] [] 0 0 0 0 false "" false None ∅
  false "" "" "" "" [] "".
Definition zero_MonitoringPayload : MonitoringPayload := mkMonitoringPayload "" "" 0 "" 0.
Definition zero_InventoryPayload : InventoryPayload := mkInventoryPayload [].
Definition zero_HostnamePayload : HostnamePayload := mkHostnamePayload "" "".

(** ** The canonical payload *)

Class PayloadJson := {
  jcs_Canonical : Payload → option bytes;
  json_Unmarshal : bytes → option Payload;
}.

Definition nonzero {A} `{EqDecision A} (zero : A) (part : option A) : option A :=
  if bool_decide (part = Some zero) then None else part.

(** [withoutEmptySubPayloads]. *)
Definition withoutEmptySubPayloads (payload : Payload) : Payload :=
  mkPayload
    (nonzero zero_UnitPayload (Payload_Unit payload))
    (nonzero zero_JournalPayload (Payload_Journal payload))
    (nonzero zero_PackagePlanPayload (Payload_PackagePlan payload))
    (nonzero zero_PackageUpgradePayload (Payload_PackageUpgrade payload))
    (nonzero zero_RebootPayload (Payload_Reboot payload))
    (nonzero zero_FinalWipePayload (Payload_FinalWipe payload))
    (nonzero zero_UnitStatusPayload (Payload_UnitStatus payload))
    (nonzero zero_DomainEnrollPayload (Payload_DomainEnroll payload))
    (nonzero zero_DomainLeavePayload (Payload_DomainLeave payload))
    (nonzero zero_KeytabPayload (Payload_Keytab payload))
    (nonzero zero_LocalUserPayload (Payload_LocalUser payload))
    (nonzero zero_PackageRepairPayload (Payload_PackageRepair payload))
    (nonzero zero_DockerReadPayload (Payload_DockerRead payload))
    (nonzero zero_DockerContainerPayload (Payload_DockerContainer payload))
    (nonzero zero_DockerImagePayload (Payload_DockerImage payload))
    (nonzero zero_DockerPrunePayload (Payload_DockerPrune payload))
    (nonzero zero_DockerEventsPayload (Payload_DockerEvents payload))
    (nonzero zero_DockerLogsPayload (Payload_DockerLogs payload))
    (nonzero zero_DockerEnsurePayload (Payload_DockerEnsure payload))
    (nonzero zero_ComposePayload (Payload_Compose payload))
    (nonzero zero_UnitToggle (Payload_UnitToggle payload))
    (nonzero zero_LogFilePayload (Payload_LogFile payload))
    (nonzero zero_ProcessListPayload (Payload_ProcessList payload))
    (nonzero zero_ProcessSignalPayload (Payload_ProcessSignal payload))
    (nonzero zero_SchedulePayload (Payload_Schedule payload))
    (nonzero zero_NetworkPayload (Payload_Network payload))
    (nonzero zero_DNSPayload (Payload_DNS payload))
    (nonzero zero_FirewallPayload (Payload_Firewall payload))
    (nonzero zero_StoragePayload (Payload_Storage payload))
    (nonzero zero_SSHPayload (Payload_SSH payload))
    (nonzero zero_KernelPayload (Payload_Kernel payload))
    (nonzero zero_FilePayload (Payload_File payload))
    (nonzero zero_PackageChangePayload (Payload_PackageChange payload))
    (nonzero zero_TimePayload (Payload_Time payload))
    (nonzero zero_PowerPayload (Payload_Power payload))
    (nonzero zero_SecurityPayload (Payload_Security payload))
    (nonzero zero_AgentUpgradePayload (Payload_AgentUpgrade payload))
    (nonzero zero_CertificatePayload (Payload_Certificate payload))
    (nonzero zero_RepositoryPayload (Payload_Repository payload))
    (nonzero zero_BackupPayload (Payload_Backup payload))
    (nonzero zero_MonitoringPayload (Payload_Monitoring payload))
    (nonzero zero_InventoryPayload (Payload_Inventory payload))
    (nonzero zero_HostnamePayload (Payload_Hostname payload)).

Definition payloadScheme : string := "flotestro-payload-hash/2".

(** [bytes.SplitN(s, sep, n)]. *)
Fixpoint SplitN (sep : byte) (n : nat) (s : bytes) : list bytes :=
  match n with
  | O => []
  | S O => [s]
  | S n' => match cut_first sep s with Some (before, after) => before :: SplitN sep n' after | None => [s] end
  end.

Section canonical.
Context {PJ : PayloadJson}.

Definition canonical_text (action : ActionType) (version : Z) (encoded : bytes) : bytes :=
  sbytes payloadScheme ++ [Byte.x0a] ++ sbytes action ++ [Byte.x0a] ++ sbytes (FormatInt version) ++ [Byte.x0a] ++ encoded.

(** [CanonicalPayload] and [DecodeCanonicalPayload]. *)
Definition CanonicalPayload (action : ActionType) (version : Z) (payload : Payload) : option bytes :=
  encoded ← jcs_Canonical (withoutEmptySubPayloads payload); Some (canonical_text action version encoded).

Definition DecodeCanonicalPayload (canonical : bytes) : option BoundPayload :=
  match SplitN Byte.x0a 4 canonical with
  | [scheme; action; version; encoded] =>
      if negb (bool_decide (scheme = sbytes payloadScheme)) then None
      else match Atoi version with
           | (v, None) => payload ← json_Unmarshal encoded; Some (mkBound (bstring action) v payload)
           | (_, Some _) => None
           end
  | _ => None
  end.

(** [PayloadDigest]. *)
Definition PayloadDigest (canonical : bytes) : bytes := sha256 canonical.

(** ** The round trip *)

Lemma SplitN_sep sep n a b : sep ∉ a → SplitN sep (S (S n)) (a ++ sep :: b) = a :: SplitN sep (S n) b.
Proof. intros Ha. cbn [SplitN]. by rewrite cut_first_sep. Qed.

(** A payload its JSON carries: it reads back as what was written. *)
Definition carried (payload : Payload) : Prop :=
  ∃ encoded, jcs_Canonical payload = Some encoded ∧ json_Unmarshal encoded = Some payload.

Definition one_line (action : ActionType) : Prop := Byte.x0a ∉ sbytes action.

Lemma Decode_Canonical action version payload :
  one_line action → - 2 ^ 63 ≤ version < 2 ^ 63 → carried (withoutEmptySubPayloads payload) →
  ∃ canonical, CanonicalPayload action version payload = Some canonical
    ∧ DecodeCanonicalPayload canonical = Some (mkBound action version (withoutEmptySubPayloads payload)).
Proof.
  intros Ha Hv (encoded & He & Hd). exists (canonical_text action version encoded).
  unfold CanonicalPayload. rewrite He. split; [done|]. unfold DecodeCanonicalPayload, canonical_text. cbn [app].
  rewrite SplitN_sep by exact (bool_decide_unpack (Byte.x0a ∉ sbytes payloadScheme) I).
  rewrite SplitN_sep by done.
  rewrite SplitN_sep.
  - cbn. rewrite Atoi_FormatInt by done. by rewrite Hd, bstring_sbytes.
  - intros Hin. pose proof (FormatInt_inner version) as Hi. rewrite Forall_forall in Hi. by specialize (Hi _ Hin).
Qed.
End canonical.
