(* ===== verification/Orders.v ===== *)
(** * Orders: the requests the agent makes of an order

    What the agent asks the helper to do for an operation under a capability:
    [perform] of src/internal/agent/tasks.go and the handlers it hands the
    operation to, each up to its call of the helper. [None] is an order the
    handler refuses before it asks. The other arms of [perform] make reads,
    which carry no capability, and are not here. *)
From S2P Require Import Prelude Bytes Digest Text Times Actions Registry Capability Expect Messages Payloads Binding.
From coqutil Require Import Datatypes.RecordSetters.
Import OCamlLikeNotations.

Open Scope Z_scope.

(** ** The agent and the envelope *)

(** What a handler reads besides the order: the host, the clock in Unix
    nanoseconds, the values of the secret store ([None]: refused), the way to
    the panel, the package manager, the JSON text of a declared object, whether
    the host runs a version of the agent, and whether one of the time servers
    answered with a time the order lets the host take. *)
Record Agent := mkAgent {
  agent_hostID : string;
  agent_now : Z;
  agent_secret : SecretRef → option bytes;
  agent_panelAddress : string;
  agent_managementChannel : string * Z;
  agent_packageManager : option string;
  agent_spec : DockerEnsurePayload → option bytes;
  agent_ValidateServicePrincipal : string → bool;
  agent_atTarget : string → bool;
  agent_acceptsServers : TimePayload → bool;
}.

(** The messages of the envelope three handlers read themselves
    ([agentv1.UnitToggle], [DockerAction], [ComposeAction]). *)
Inductive UnitToggle_Property := PROPERTY_UNSPECIFIED | PROPERTY_ENABLED | PROPERTY_MASKED | PROPERTY_other (n : Z).
Record envelopeToggle := mkToggle {
  toggle_GetUnit : string; toggle_GetProperty : UnitToggle_Property; toggle_GetValue : bool }.

Inductive ComposeAction_Operation := COMPOSE_UNSPECIFIED | COMPOSE_PLAN | COMPOSE_DEPLOY | COMPOSE_other (n : Z).
Record envelopeCompose := mkCompose {
  compose_GetOperation : ComposeAction_Operation; compose_GetProject : string; compose_GetManifest : string;
  compose_GetPlanDigest : string; compose_GetImageDigests : gmap string string }.

Inductive DockerAction_Operation :=
  DOCKER_UNSPECIFIED | DOCKER_START | DOCKER_STOP | DOCKER_RESTART | DOCKER_REMOVE | DOCKER_PULL_IMAGE
| DOCKER_PRUNE | DOCKER_other (n : Z).
Record envelopeDocker := mkDocker {
  docker_GetOperation : DockerAction_Operation; docker_GetContainerId : string; docker_GetTimeoutSeconds : Z;
  docker_GetRemoveVolumes : bool; docker_GetImageReference : string; docker_GetImageIds : list string;
  docker_GetVolumeNames : list string; docker_GetNetworkIds : list string; docker_GetContainerName : string;
  docker_GetConfirmName : string; docker_GetExpectedImage : string }.

(** The rest of a task's envelope, as far as a handler reads it. *)
Record Envelope := mkEnvelope {
  env_UnitToggle : option envelopeToggle;
  env_DockerAction : option envelopeDocker;
  env_Compose : option envelopeCompose;
  env_OneTimePassword : string;
}.

(** The arms of [decodeAction] for these three. *)
Definition no_payload : Payload :=
  mkPayload None None None None None None None None None None None None None None None None None None None None
    None None None None None None None None None None None None None None None None None None None None None None None.

Definition decodeToggle (t : envelopeToggle) : ActionType * Payload :=
  (match toggle_GetProperty t with PROPERTY_MASKED => ActionUnitMaskSet | _ => ActionUnitEnableSet end,
   { no_payload with Payload_UnitToggle := Some (mkUnitToggle (toggle_GetUnit t) (toggle_GetValue t)) }).

Definition decodeCompose (c : envelopeCompose) : ActionType * Payload :=
  (match compose_GetOperation c with COMPOSE_DEPLOY => ActionComposeDeploy | _ => ActionComposePlan end,
   { no_payload with Payload_Compose := Some (mkComposePayload (compose_GetProject c) (compose_GetManifest c)
                                                (compose_GetPlanDigest c) (compose_GetImageDigests c)) }).

Definition dockerAction (d : envelopeDocker) : option (ActionType * Payload) :=
  let container := { no_payload with Payload_DockerContainer := Some
    (mkDockerContainerPayload (docker_GetContainerId d) (docker_GetContainerName d) (docker_GetConfirmName d)
       (docker_GetExpectedImage d) (docker_GetTimeoutSeconds d) (docker_GetRemoveVolumes d)) } in
  match docker_GetOperation d with
  | DOCKER_START => Some (ActionDockerStart, container)
  | DOCKER_STOP => Some (ActionDockerStop, container)
  | DOCKER_RESTART => Some (ActionDockerRestart, container)
  | DOCKER_REMOVE => Some (ActionDockerRemove, container)
  | DOCKER_PULL_IMAGE =>
      Some (ActionDockerPull,
            { no_payload with Payload_DockerImage := Some (mkDockerImagePayload (docker_GetImageReference d)) })
  | DOCKER_PRUNE =>
      Some (ActionDockerPrune,
            { no_payload with Payload_DockerPrune := Some
                (mkDockerPrunePayload (docker_GetImageIds d) (docker_GetVolumeNames d) (docker_GetNetworkIds d)) })
  | _ => None
  end.

(** ** Units *)

(** [helperOperation]: the operation of the unit, or the direction of the
    toggle in the envelope. *)
Definition helperOperation (action : ActionType) (toggle : option envelopeToggle) : UnitActionRequest_Operation :=
  let value := match toggle with Some t => toggle_GetValue t | None => false end in
  if bool_decide (action = ActionUnitEnableSet) then
    if value then UnitActionRequest_OPERATION_ENABLE else UnitActionRequest_OPERATION_DISABLE
  else if bool_decide (action = ActionUnitMaskSet) then
    if value then UnitActionRequest_OPERATION_MASK else UnitActionRequest_OPERATION_UNMASK
  else if bool_decide (action = ActionUnitStart) then UnitActionRequest_OPERATION_START
  else if bool_decide (action = ActionUnitStop) then UnitActionRequest_OPERATION_STOP
  else if bool_decide (action = ActionUnitRestart) then UnitActionRequest_OPERATION_RESTART
  else if bool_decide (action = ActionUnitReload) then UnitActionRequest_OPERATION_RELOAD
  else if bool_decide (action = ActionUnitResetFailed) then UnitActionRequest_OPERATION_RESET_FAILED
  else UnitActionRequest_OPERATION_UNSPECIFIED.

Definition applyUnitAction (env : Envelope) (action : ActionType) (payload : option UnitPayload) : option Action :=
  p ← payload;
  Some (Action_UnitAction (mkUnitActionRequest (UnitPayload_Unit p) (helperOperation action (env_UnitToggle env)))).

Definition applyUnitToggle (env : Envelope) (action : ActionType) : option Action :=
  t ← env_UnitToggle env;
  applyUnitAction env action (Some (mkUnitPayload (toggle_GetUnit t))).

(** ** Packages *)

Definition PlannerVersion : string := "packages/1".

(** [plan.ParseHash]: the 32 bytes of a digest in hex, none for no digest. *)
Definition ParseHash (text : string) : option bytes :=
  match TrimSpace (sbytes text) with
  | [] => Some []
  | text' => sum ← hex_decode text'; if bool_decide (len sum = 32) then Some sum else None
  end.

Definition exact_spec (c : PlanChangeEntry) : PackageExactSpec :=
  mkPackageExactSpec (PlanChangeEntry_Name c) (PlanChangeEntry_CurrentVersion c) (PlanChangeEntry_CandidateVersion c)
    (PlanChangeEntry_Architecture c) (PlanChangeEntry_Origin c) (PlanChangeEntry_Action c).

(** The expiry of the reference; [None]: not a time, or one that has passed. *)
Definition approved_expiry (agent : Agent) (text : string) : option Z :=
  if bool_decide (text = "") then Some 0
  else
    '(moment, ns) ← parse_rfc3339 (sbytes text);
    if bool_decide (moment * 1000000000 + ns < agent_now agent) then None else Some moment.

Definition approvedReference (agent : Agent) (hash : string) (reference : option PlanReference)
    (request : PackageActionRequest) : option PackageActionRequest :=
  if bool_decide (hash = "") then Some request
  else
    sum ← ParseHash hash;
    let request := { request with PackageActionRequest_GetPlanHash := sum } in
    match reference with
    | None => Some request
    | Some r =>
        let version := PlanReference_PlannerVersion r in
        if bool_decide (version ≠ "") && bool_decide (version ≠ PlannerVersion) then None
        else
          expiry ← approved_expiry agent (PlanReference_ExpiresAt r);
          Some { request with
            PackageActionRequest_GetPlanSchemaVersion := PlanReference_SchemaVersion r;
            PackageActionRequest_GetPlannerVersion := version;
            PackageActionRequest_GetPlanInventoryRevision := PlanReference_InventoryRevision r;
            PackageActionRequest_GetPlanResourceRevision := PlanReference_ResourceRevision r;
            PackageActionRequest_GetPlanExpiresAtUnix := expiry;
            PackageActionRequest_GetExactSpecs :=
              (PackageActionRequest_GetExactSpecs request ++ (exact_spec <$> PlanReference_Changes r))%list }
    end.

Definition upgradePackages (agent : Agent) (payload : option PackageUpgradePayload) : option Action :=
  _ ← agent_packageManager agent;
  p ← payload;
  request ← approvedReference agent (PackageUpgradePayload_PlanHash p) (PackageUpgradePayload_Plan p)
    { no_PackageActionRequest with
        PackageActionRequest_GetOperation := PackageActionRequest_OPERATION_UPGRADE;
        PackageActionRequest_GetPackages := PackageUpgradePayload_Packages p;
        PackageActionRequest_GetSecurityOnly := PackageUpgradePayload_SecurityOnly p;
        PackageActionRequest_GetPlanHostId := agent_hostID agent };
  Some (Action_PackageAction request).

Definition applyPackageLifecycle (agent : Agent) (action : ActionType) (payload : option PackageChangePayload)
  : option Action :=
  p ← payload;
  let operation := if bool_decide (action = ActionPackageRemove) then PackageActionRequest_OPERATION_REMOVE
                   else if bool_decide (action = ActionPackageHoldSet) then PackageActionRequest_OPERATION_HOLD
                   else PackageActionRequest_OPERATION_INSTALL in
  let request := { no_PackageActionRequest with
    PackageActionRequest_GetOperation := operation;
    PackageActionRequest_GetPackages := PackageChangePayload_Packages p;
    PackageActionRequest_GetExpectedRemovals := PackageChangePayload_ExpectedRemovals p;
    PackageActionRequest_GetHold := PackageChangePayload_Hold p;
    PackageActionRequest_GetPlanHostId := agent_hostID agent } in
  request ← (if bool_decide (action = ActionPackageHoldSet) then Some request
             else approvedReference agent (PackageChangePayload_PlanHash p) (PackageChangePayload_Plan p) request);
  Some (Action_PackageAction request).

(** [agentPackage]: the package with its version, as the manager names it. *)
Definition agentPackage (manager version : string) : option string :=
  if bool_decide (manager ∈ ["apt"; "pacman"]) then Some ("flotestro-agent=" +:+ version)
  else if bool_decide (manager = "dnf") then Some ("flotestro-agent-" +:+ version)
  else None.

Definition releaseKeptArtefact (agent : Agent) (p : AgentUpgradePayload) : option Action :=
  manager ← agent_packageManager agent;
  name ← agentPackage manager (AgentUpgradePayload_TargetVersion p);
  Some (Action_PackageAction { no_PackageActionRequest with
    PackageActionRequest_GetOperation := PackageActionRequest_OPERATION_INSTALL;
    PackageActionRequest_GetPackages := [name];
    PackageActionRequest_GetReleaseRollback := true }).

Definition replacementRequest (name : string) (p : AgentUpgradePayload) (verifyOnly : bool) : Action :=
  Action_PackageAction { no_PackageActionRequest with
    PackageActionRequest_GetOperation := PackageActionRequest_OPERATION_INSTALL;
    PackageActionRequest_GetPackages := [name];
    PackageActionRequest_GetAllowDowngrade := true;
    PackageActionRequest_GetPackageSha256 := AgentUpgradePayload_PackageSHA256 p;
    PackageActionRequest_GetPackageSigner := AgentUpgradePayload_PackageSigner p;
    PackageActionRequest_GetRollbackVersion := AgentUpgradePayload_RollbackVersion p;
    PackageActionRequest_GetVerifyOnly := verifyOnly }.

(** [upgradeAgent], past the refresh of the metadata. *)
Definition upgradeAgent (agent : Agent) (payload : option AgentUpgradePayload) : option Action :=
  p ← payload;
  let atTarget := agent_atTarget agent (AgentUpgradePayload_TargetVersion p) in
  if AgentUpgradePayload_ReleaseRollback p then releaseKeptArtefact agent p
  else if atTarget && bool_decide (AgentUpgradePayload_PackageSHA256 p = "") then None
  else
    manager ← agent_packageManager agent;
    name ← agentPackage manager (AgentUpgradePayload_TargetVersion p);
    Some (replacementRequest name p atTarget).

Definition repairPackages (payload : option PackageRepairPayload) : option Action :=
  p ← payload;
  Some (Action_PackageRepair (mkPackageRepairRequest
    ((λ a, mkDebconfSelection (DebconfAnswer_Package a) (DebconfAnswer_Question a) (DebconfAnswer_Type a)
             (DebconfAnswer_Value a)) <$> PackageRepairPayload_Answers p))).

(** ** Files, schedules, accounts, processes *)

Definition applyFile (agent : Agent) (action : ActionType) (payload : option FilePayload) : option Action :=
  p ← payload;
  let operation :=
    if bool_decide (action = ActionFileRead) then FileRequest_OPERATION_READ
    else if bool_decide (action ∈ [ActionFileEnsure; ActionFileRollback]) then FileRequest_OPERATION_ENSURE
    else if bool_decide (action = ActionFileRemove) then FileRequest_OPERATION_REMOVE
    else if bool_decide (action = ActionFilePlan) && negb (bool_decide (TrimSpace (sbytes (FilePayload_Path p)) = []))
    then FileRequest_OPERATION_PLAN
    else FileRequest_OPERATION_LIST in
  content ← (match FilePayload_ContentSecret p with
             | Some r => if Empty_ref (Some r) then Some (sbytes (FilePayload_Content p)) else agent_secret agent r
             | None => Some (sbytes (FilePayload_Content p))
             end);
  Some (Action_File { no_FileRequest with
    FileRequest_GetOperation := operation;
    FileRequest_GetPath := FilePayload_Path p;
    FileRequest_GetContent := content;
    FileRequest_GetMode := FilePayload_Mode p;
    FileRequest_GetOwner := FilePayload_Owner p;
    FileRequest_GetGroup := FilePayload_Group p;
    FileRequest_GetExpectedSha256 := FilePayload_ExpectedSHA256 p;
    FileRequest_GetValidator := FilePayload_Validator p;
    FileRequest_GetFromSecret := negb (Empty_ref (FilePayload_ContentSecret p));
    FileRequest_GetAllowMissingValidator := FilePayload_AllowMissingValidator p;
    FileRequest_GetVersionSha256 := FilePayload_VersionSHA256 p }).

Definition applySchedule (action : ActionType) (payload : option SchedulePayload) : option Action :=
  p ← payload;
  let operation :=
    if bool_decide (action = ActionScheduleDisable) then ScheduleRequest_OPERATION_DISABLE
    else if bool_decide (action = ActionScheduleRemove) then ScheduleRequest_OPERATION_REMOVE
    else if bool_decide (action = ActionScheduleRunNow) then ScheduleRequest_OPERATION_RUN_NOW
    else ScheduleRequest_OPERATION_ENSURE in
  Some (Action_Schedule { no_ScheduleRequest with
    ScheduleRequest_GetOperation := operation;
    ScheduleRequest_GetId := SchedulePayload_ID p;
    ScheduleRequest_GetExpression := SchedulePayload_Expression p;
    ScheduleRequest_GetCommand := SchedulePayload_Command p;
    ScheduleRequest_GetUser := SchedulePayload_User p;
    ScheduleRequest_GetComment := SchedulePayload_Comment p;
    ScheduleRequest_GetEnabled := SchedulePayload_Enabled p;
    ScheduleRequest_GetAdopt := SchedulePayload_Adopt p;
    ScheduleRequest_GetKind := SchedulePayload_Kind p }).

(** [helperUserOperations]. *)
Definition helperUserOperations : list (ActionType * LocalUserActionRequest_Operation) :=
  [(ActionLocalUserCreate, LocalUserActionRequest_OPERATION_CREATE);
   (ActionLocalUserLock, LocalUserActionRequest_OPERATION_LOCK);
   (ActionLocalUserUnlock, LocalUserActionRequest_OPERATION_UNLOCK);
   (ActionLocalSSHKeysSet, LocalUserActionRequest_OPERATION_SET_SSH_KEYS);
   (ActionLocalSSHKeysAdd, LocalUserActionRequest_OPERATION_ADD_SSH_KEYS);
   (ActionLocalSSHKeysRemove, LocalUserActionRequest_OPERATION_REMOVE_SSH_KEYS);
   (ActionLocalSSHKeysReplaceAll, LocalUserActionRequest_OPERATION_REPLACE_SSH_KEYS);
   (ActionLocalUserGroupsSet, LocalUserActionRequest_OPERATION_SET_GROUPS);
   (ActionLocalUserExpirySet, LocalUserActionRequest_OPERATION_SET_EXPIRY);
   (ActionLocalUserDelete, LocalUserActionRequest_OPERATION_DELETE)].

Definition applyLocalUser (action : ActionType) (payload : option LocalUserPayload) : option Action :=
  p ← payload;
  Some (Action_LocalUserAction { no_LocalUserActionRequest with
    LocalUserActionRequest_GetOperation :=
      default LocalUserActionRequest_OPERATION_UNSPECIFIED (assoc action helperUserOperations);
    LocalUserActionRequest_GetName := LocalUserPayload_Name p;
    LocalUserActionRequest_GetGecos := LocalUserPayload_Gecos p;
    LocalUserActionRequest_GetShell := LocalUserPayload_Shell p;
    LocalUserActionRequest_GetGroups := LocalUserPayload_Groups p;
    LocalUserActionRequest_GetSshKeys := LocalUserPayload_SSHKeys p;
    LocalUserActionRequest_GetCreateHome := LocalUserPayload_CreateHome p;
    LocalUserActionRequest_GetExpiresAt := LocalUserPayload_ExpiresAt p;
    LocalUserActionRequest_GetRemoveHome := LocalUserPayload_RemoveHome p;
    LocalUserActionRequest_GetKeys :=
      (λ k, mkLocalSSHKeyInput (SSHKeyInput_PublicKey k) (SSHKeyInput_Comment k)) <$> LocalUserPayload_Keys p;
    LocalUserActionRequest_GetFingerprints := LocalUserPayload_Fingerprints p;
    LocalUserActionRequest_GetIgnoreMissing := LocalUserPayload_IgnoreMissing p;
    LocalUserActionRequest_GetExpectedFingerprints := LocalUserPayload_ExpectedFingerprints p;
    LocalUserActionRequest_GetAllowLockout := LocalUserPayload_AllowLockout p;
    LocalUserActionRequest_GetManagedFile := LocalUserPayload_ManagedFile p;
    LocalUserActionRequest_GetSystem := LocalUserPayload_System p;
    LocalUserActionRequest_GetInactive := LocalUserPayload_Inactive p }).

Definition signalProcess (payload : option ProcessSignalPayload) : option Action :=
  p ← payload;
  Some (Action_ProcessSignal (mkProcessSignalRequest (ProcessSignalPayload_PID p) (ProcessSignalPayload_ExpectedStart p)
                                (ProcessSignalPayload_Signal p))).

Definition setHostname (payload : option HostnamePayload) : option Action :=
  p ← payload;
  Some (Action_Hostname (mkHostnameRequest (HostnamePayload_Hostname p) (HostnamePayload_Pretty p))).

(** ** Containers *)

Definition helperDockerOperation (operation : DockerAction_Operation) : DockerActionRequest_Operation :=
  match operation with
  | DOCKER_START => DockerActionRequest_OPERATION_START
  | DOCKER_STOP => DockerActionRequest_OPERATION_STOP
  | DOCKER_RESTART => DockerActionRequest_OPERATION_RESTART
  | DOCKER_REMOVE => DockerActionRequest_OPERATION_REMOVE
  | DOCKER_PULL_IMAGE => DockerActionRequest_OPERATION_PULL_IMAGE
  | DOCKER_PRUNE => DockerActionRequest_OPERATION_PRUNE
  | _ => DockerActionRequest_OPERATION_UNSPECIFIED
  end.

Definition applyDocker (env : Envelope) : option Action :=
  d ← env_DockerAction env;
  Some (Action_DockerAction (mkDockerActionRequest (helperDockerOperation (docker_GetOperation d))
    (docker_GetContainerId d) (docker_GetTimeoutSeconds d) (docker_GetRemoveVolumes d) (docker_GetImageReference d)
    (docker_GetImageIds d) (docker_GetVolumeNames d) (docker_GetNetworkIds d) (docker_GetContainerName d)
    (docker_GetConfirmName d) (docker_GetExpectedImage d))).

Definition applyCompose (env : Envelope) : option Action :=
  c ← env_Compose env;
  Some (Action_Compose (mkComposeRequest
    (match compose_GetOperation c with COMPOSE_DEPLOY => ComposeRequest_OPERATION_DEPLOY
                                     | _ => ComposeRequest_OPERATION_PLAN end)
    (compose_GetProject c) (compose_GetManifest c) (compose_GetPlanDigest c) (compose_GetImageDigests c))).

Definition helperDockerEnsureOperation (action : ActionType) : DockerEnsureRequest_Operation :=
  if bool_decide (action = ActionDockerPlan) then DockerEnsureRequest_OPERATION_PLAN
  else if bool_decide (action = ActionDockerContainerEnsure) then DockerEnsureRequest_OPERATION_CONTAINER_ENSURE
  else if bool_decide (action = ActionDockerNetworkEnsure) then DockerEnsureRequest_OPERATION_NETWORK_ENSURE
  else if bool_decide (action = ActionDockerNetworkRemove) then DockerEnsureRequest_OPERATION_NETWORK_REMOVE
  else if bool_decide (action = ActionDockerVolumeEnsure) then DockerEnsureRequest_OPERATION_VOLUME_ENSURE
  else if bool_decide (action = ActionDockerVolumeRemove) then DockerEnsureRequest_OPERATION_VOLUME_REMOVE
  else DockerEnsureRequest_OPERATION_UNSPECIFIED.

(** The values of the environment's secrets: all of them, or a refusal. *)
Definition fetch_all (agent : Agent) (references : gmap string SecretRef) : option (gmap string bytes) :=
  let values := omap (agent_secret agent) references in
  if bool_decide (dom values = dom references) then Some values else None.

Definition applyDockerEnsure (agent : Agent) (action : ActionType) (payload : option DockerEnsurePayload)
  : option Action :=
  p ← payload;
  spec ← agent_spec agent p;
  values ← fetch_all agent (DockerEnsurePayload_EnvSecrets p);
  Some (Action_DockerEnsure (mkDockerEnsureRequest (helperDockerEnsureOperation action) (ObjectKind p) (ObjectName p)
    spec (DockerEnsurePayload_PlanDigest p) (DockerEnsurePayload_Force p) values)).

(** ** The kernel, the clock, power, security *)

Definition applyKernel (action : ActionType) (payload : option KernelPayload) : option Action :=
  let operation :=
    if bool_decide (action = ActionSysctlEnsure) then KernelRequest_OPERATION_SYSCTL_ENSURE
    else if bool_decide (action = ActionKernelModuleLoad) then KernelRequest_OPERATION_MODULE_LOAD
    else if bool_decide (action = ActionKernelModuleBlacklist) then KernelRequest_OPERATION_MODULE_BLACKLIST
    else if bool_decide (action = ActionKernelModulePlan) then KernelRequest_OPERATION_MODULE_PLAN
    else KernelRequest_OPERATION_READ in
  Some (Action_Kernel (match payload with
    | Some p => mkKernelRequest operation (KernelPayload_Settings p) (KernelPayload_Keys p) (KernelPayload_Module p)
                  (KernelPayload_Blacklist p) (KernelPayload_PlanHash p)
    | None => { no_KernelRequest with KernelRequest_GetOperation := operation }
    end)).

(** [applyTime] past the check of the servers, which asks the network. *)
Definition applyTime (agent : Agent) (action : ActionType) (payload : option TimePayload) : option Action :=
  let p := default (mkTimePayload [] [] "" false false "") payload in
  if bool_decide (action = ActionTimeSyncTest) then None
  else if bool_decide (action = ActionTimeConfigApply) && negb (agent_acceptsServers agent p) then None
  else
    let operation := if bool_decide (action = ActionTimezoneSet) then TimeRequest_OPERATION_TIMEZONE_SET
                     else if bool_decide (action = ActionTimePlan) then TimeRequest_OPERATION_PLAN
                     else TimeRequest_OPERATION_CONFIG_APPLY in
    Some (Action_Time (mkTimeRequest operation (TimePayload_Servers p) (TimePayload_Timezone p) (TimePayload_AllowStep p)
                         (TimePayload_EnableDropIn p) (TimePayload_PlanHash p))).

Definition rebootHost (payload : option RebootPayload) : option Action :=
  p ← payload;
  let delay := RebootPayload_DelaySeconds p in
  Some (Action_Reboot (mkRebootRequest (if bool_decide (delay = 0) then 15 else delay) (RebootPayload_Reason p)
                         (RebootPayload_IgnoreInhibitors p))).

Definition shutdownHost (payload : option PowerPayload) : option Action :=
  p ← payload;
  let delay := PowerPayload_DelaySeconds p in
  let mode := PowerPayload_Mode p in
  Some (Action_Shutdown (mkShutdownRequest (if bool_decide (delay = 0) then 15 else delay) (PowerPayload_Reason p)
                           (if bool_decide (mode = "") then "poweroff" else mode) (PowerPayload_IgnoreInhibitors p))).

Definition applySecurity (action : ActionType) (payload : option SecurityPayload) : option Action :=
  if bool_decide (action = ActionSELinuxModeSet)
  then Some (Action_Security { no_SecurityRequest with
         SecurityRequest_GetOperation := SecurityRequest_OPERATION_SELINUX_MODE;
         SecurityRequest_GetMode := match payload with Some p => SecurityPayload_Mode p | None => "" end })
  else if bool_decide (action = ActionAuditRulesReload)
  then Some (Action_Security { no_SecurityRequest with
         SecurityRequest_GetOperation := SecurityRequest_OPERATION_AUDIT_RELOAD })
  else None.

(** ** Sources, backups, certificates *)

(** [int32(value)]. *)
Definition i32 (z : Z) : Z := (z + 2 ^ 31) mod 2 ^ 32 - 2 ^ 31.

Definition applyRepository (agent : Agent) (payload : option RepositoryPayload) : option Action :=
  p ← payload;
  let request := mkRepositoryRequest (RepositoryPayload_ID p) (RepositoryPayload_Name p) (RepositoryPayload_URL p)
    (RepositoryPayload_Suites p) (RepositoryPayload_Components p) (RepositoryPayload_Architectures p)
    (RepositoryPayload_Enabled p) (i32 (RepositoryPayload_Priority p)) (RepositoryPayload_GPGKey p)
    (RepositoryPayload_AllowUnsigned p) (RepositoryPayload_Username p) [] "" (RepositoryPayload_Remove p) in
  match RepositoryPayload_PasswordSecret p with
  | Some r =>
      if Empty_ref (Some r) || RepositoryPayload_Remove p then Some (Action_Repository request)
      else
        value ← agent_secret agent r;
        Some (Action_Repository { request with
          RepositoryRequest_GetPassword := value; RepositoryRequest_GetSecretName := SecretRef_Name r })
  | None => Some (Action_Repository request)
  end.

Definition applyBackup (agent : Agent) (action : ActionType) (payload : option BackupPayload) : option Action :=
  p ← payload;
  let operation := if bool_decide (action = ActionBackupRun) then BackupRequest_OPERATION_RUN
                   else if bool_decide (action = ActionBackupVerify) then BackupRequest_OPERATION_VERIFY
                   else if bool_decide (action = ActionBackupRestore) then BackupRequest_OPERATION_RESTORE
                   else BackupRequest_OPERATION_PLAN in
  password ← (match BackupPayload_PasswordSecret p with
              | Some r => if Empty_ref (Some r) then Some [] else agent_secret agent r
              | None => Some []
              end);
  values ← fetch_all agent (BackupPayload_EnvSecrets p);
  Some (Action_Backup (mkBackupRequest operation (BackupPayload_ID p) (BackupPayload_Tool p) (BackupPayload_Repository p)
    (BackupPayload_Paths p) (BackupPayload_Excludes p) (BackupPayload_Tags p)
    (i32 (BackupPayload_KeepLast p)) (i32 (BackupPayload_KeepDaily p)) (i32 (BackupPayload_KeepWeekly p))
    (i32 (BackupPayload_KeepMonthly p)) (BackupPayload_Prune p) (BackupPayload_Runbook p) (BackupPayload_Initialize p)
    password values (BackupPayload_ReadData p) (BackupPayload_SnapshotID p) (BackupPayload_Target p)
    (BackupPayload_Include p) (BackupPayload_Overwrite p) (BackupPayload_Plan p) (BackupPayload_PlanHash p))).

(** [SecretRef.String]. *)
Definition ref_string (r : SecretRef) : string :=
  if Empty_ref (Some r) then ""
  else if bool_decide (SecretRef_Version r ≤ 0) then SecretRef_Name r +:+ "#current"
  else SecretRef_Name r +:+ "#" +:+ FormatInt (SecretRef_Version r).

Definition applyCertificate (agent : Agent) (action : ActionType) (payload : option CertificatePayload) : option Action :=
  if bool_decide (action = ActionCertificateScan) then None
  else
    p ← payload;
    let certificate := sbytes (CertificatePayload_Certificate p) in
    let hash := CertificatePayload_PlanHash p in
    let request := { no_CertificateRequest with
      CertificateRequest_GetOperation := CertificateRequest_OPERATION_RENEW;
      CertificateRequest_GetAnchorId := CertificatePayload_AnchorID p;
      CertificateRequest_GetPath := CertificatePayload_Path p;
      CertificateRequest_GetKeyPath := CertificatePayload_KeyPath p;
      CertificateRequest_GetOwner := CertificatePayload_Owner p;
      CertificateRequest_GetGroup := CertificatePayload_Group p;
      CertificateRequest_GetMode := CertificatePayload_Mode p;
      CertificateRequest_GetKeyMode := CertificatePayload_KeyMode p;
      CertificateRequest_GetReloadUnit := CertificatePayload_ReloadUnit p;
      CertificateRequest_GetProbeTarget := CertificatePayload_ProbeTarget p;
      CertificateRequest_GetRequest := CertificatePayload_Request p } in
    let secret_ref := match CertificatePayload_KeySecret p with Some r => ref_string r | None => "" end in
    if bool_decide (action = ActionCertificateTrustPlan) then
      Some (Action_Certificate { request with
        CertificateRequest_GetOperation := CertificateRequest_OPERATION_TRUST_PLAN;
        CertificateRequest_GetCertificate := certificate })
    else if bool_decide (action = ActionCertificateTrustEnsure) then
      Some (Action_Certificate { request with
        CertificateRequest_GetOperation := CertificateRequest_OPERATION_TRUST_ENSURE;
        CertificateRequest_GetCertificate := certificate;
        CertificateRequest_GetPlanHash := hash })
    else if bool_decide (action = ActionCertificateTrustRemove) then
      Some (Action_Certificate { request with
        CertificateRequest_GetOperation := CertificateRequest_OPERATION_TRUST_REMOVE;
        CertificateRequest_GetPlanHash := hash })
    else if bool_decide (action = ActionCertificateRenew) then
      Some (Action_Certificate { request with CertificateRequest_GetPlanHash := hash })
    else if bool_decide (action = ActionCertificatePlan) then
      Some (Action_Certificate { request with
        CertificateRequest_GetOperation := CertificateRequest_OPERATION_PLAN;
        CertificateRequest_GetCertificate := certificate;
        CertificateRequest_GetKeySecretRef := secret_ref })
    else if bool_decide (action = ActionCertificateDeploy) then
      key ← (match CertificatePayload_KeySecret p with
             | Some r => if Empty_ref (Some r) then Some [] else agent_secret agent r
             | None => Some []
             end);
      Some (Action_Certificate { request with
        CertificateRequest_GetOperation := CertificateRequest_OPERATION_DEPLOY;
        CertificateRequest_GetCertificate := certificate;
        CertificateRequest_GetPlanHash := hash;
        CertificateRequest_GetKeySecretRef := secret_ref;
        CertificateRequest_GetKey := key })
    else Some (Action_Certificate request).

(** ** The directory *)

Definition enrollDomain (env : Envelope) (payload : option DomainEnrollPayload) (preflightOnly : bool) : option Action :=
  p ← payload;
  Some (Action_DomainEnroll (mkDomainEnrollRequest (DomainEnrollPayload_Domain p) (DomainEnrollPayload_Realm p)
    (DomainEnrollPayload_Server p) (env_OneTimePassword env) (DomainEnrollPayload_Hostname p) preflightOnly)).

Definition leaveDomain (payload : option DomainLeavePayload) : option Action :=
  p ← payload;
  Some (Action_DomainLeave (mkDomainLeaveRequest (DomainLeavePayload_Domain p) (DomainLeavePayload_Realm p))).

Definition renewKeytab (agent : Agent) (payload : option KeytabPayload) : option Action :=
  p ← payload;
  if negb (agent_ValidateServicePrincipal agent (KeytabPayload_Principal p)) then None
  else Some (Action_KeytabRenew (mkKeytabRenewRequest (KeytabPayload_Principal p))).

(** ** The network, the firewall, sshd, the disks *)

Definition networkLinkRequest (spec : option LinkSpec) : option NetworkLink :=
  s ← spec;
  Some (mkNetworkLink (LinkSpec_Name s) (LinkSpec_Kind s) (LinkSpec_Members s) (LinkSpec_Mode s)
    (u32 (LinkSpec_MIIMonMS s)) (LinkSpec_Primary s) (LinkSpec_LACPRate s) (LinkSpec_STP s) (LinkSpec_VLANFiltering s)
    (LinkSpec_Parent s) (u32 (LinkSpec_VLANID s)) (LinkSpec_Protocol s) (LinkSpec_MTU s)).

(** [NetworkPayload.DescribesChange]; a Go slice that is nil and an empty one
    are one list here, and the JSON reader leaves nil where there is no field. *)
Definition DescribesChange (p : NetworkPayload) : bool :=
  if bool_decide (is_Some (NetworkPayload_Link p)) || NetworkPayload_LinkRemove p then true
  else negb (bool_decide (NetworkPayload_Interface p = "")) &&
       (negb (bool_decide (NetworkPayload_MTU p = "")) || negb (bool_decide (NetworkPayload_Routes p = []))
        || negb (bool_decide (NetworkPayload_Method p = "")) || negb (bool_decide (NetworkPayload_Method6 p = ""))
        || negb (bool_decide (NetworkPayload_AcceptRA p = "")) || negb (bool_decide (NetworkPayload_Privacy p = ""))).

Definition applyNetwork (agent : Agent) (action : ActionType) (payload : option NetworkPayload) : option Action :=
  p ← payload;
  let operation :=
    if bool_decide (action = ActionNetworkPlan) then
      if DescribesChange p then NetworkRequest_OPERATION_PLAN else NetworkRequest_OPERATION_READ
    else if bool_decide (action = ActionNetworkMTUSet) then NetworkRequest_OPERATION_SET_MTU
    else if bool_decide (action = ActionNetworkRouteEnsure) then NetworkRequest_OPERATION_ENSURE_ROUTES
    else if bool_decide (action = ActionNetworkRollback) then NetworkRequest_OPERATION_ROLLBACK
    else if bool_decide (action = ActionNetworkLinkApply) then NetworkRequest_OPERATION_APPLY_LINK
    else if bool_decide (action = ActionNetworkLinkRemove) then NetworkRequest_OPERATION_REMOVE_LINK
    else NetworkRequest_OPERATION_APPLY_PROFILE in
  Some (Action_Network { no_NetworkRequest with
    NetworkRequest_GetOperation := operation;
    NetworkRequest_GetInterface := NetworkPayload_Interface p;
    NetworkRequest_GetMtu := NetworkPayload_MTU p;
    NetworkRequest_GetRoutes := NetworkPayload_Routes p;
    NetworkRequest_GetMethod := NetworkPayload_Method p;
    NetworkRequest_GetAddresses := NetworkPayload_Addresses p;
    NetworkRequest_GetGateway := NetworkPayload_Gateway p;
    NetworkRequest_GetDns := NetworkPayload_DNS p;
    NetworkRequest_GetRollbackSeconds := NetworkPayload_RollbackSeconds p;
    NetworkRequest_GetRollbackId := NetworkPayload_RollbackID p;
    NetworkRequest_GetPlanHash := NetworkPayload_PlanHash p;
    NetworkRequest_GetMethod6 := NetworkPayload_Method6 p;
    NetworkRequest_GetAddresses6 := NetworkPayload_Addresses6 p;
    NetworkRequest_GetGateway6 := NetworkPayload_Gateway6 p;
    NetworkRequest_GetAcceptRa := NetworkPayload_AcceptRA p;
    NetworkRequest_GetPrivacy := NetworkPayload_Privacy p;
    NetworkRequest_GetLink := networkLinkRequest (NetworkPayload_Link p);
    NetworkRequest_GetLinkRemove := NetworkPayload_LinkRemove p;
    NetworkRequest_GetManagementAddress := agent_panelAddress agent }).

(** [applyDNS]; a resolve test is a read the agent makes itself. *)
Definition applyDNS (action : ActionType) (payload : option DNSPayload) : option Action :=
  if bool_decide (action = ActionDNSResolveTest) then None
  else
    p ← payload;
    Some (Action_Dns (mkDnsRequest
      (if bool_decide (action = ActionDNSPlan) then DnsRequest_OPERATION_PLAN else DnsRequest_OPERATION_APPLY)
      (DNSPayload_Interface p) (DNSPayload_Servers p) (DNSPayload_SearchDomains p) (DNSPayload_IgnoreAutoDNS p)
      (DNSPayload_RollbackSeconds p) (DNSPayload_PlanHash p))).

Definition applyFirewall (agent : Agent) (action : ActionType) (payload : option FirewallPayload) : option Action :=
  p ← payload;
  let blank s := bool_decide (TrimSpace (sbytes s) = []) in
  let operation :=
    if bool_decide (action = ActionFirewallPlan) then
      if negb (blank (FirewallPayload_RuleID p)) || negb (blank (FirewallPayload_Zone p))
      then FirewallRequest_OPERATION_PLAN else FirewallRequest_OPERATION_READ
    else if bool_decide (action = ActionFirewallRuleRemove) then FirewallRequest_OPERATION_RULE_REMOVE
    else if bool_decide (action = ActionFirewallZonePort) then FirewallRequest_OPERATION_ZONE_PORT
    else if bool_decide (action = ActionFirewallZoneService) then FirewallRequest_OPERATION_ZONE_SERVICE
    else if bool_decide (action = ActionFirewallRulesetRestore) then FirewallRequest_OPERATION_RESTORE
    else FirewallRequest_OPERATION_RULE_ENSURE in
  let '(address, port) := agent_managementChannel agent in
  Some (Action_Firewall (mkFirewallRequest operation (FirewallPayload_RuleID p) (FirewallPayload_Chain p)
    (FirewallPayload_Action p) (FirewallPayload_Protocol p) (FirewallPayload_Ports p) (FirewallPayload_Sources p)
    (FirewallPayload_Interface p) (FirewallPayload_Comment p) (FirewallPayload_Zone p) (FirewallPayload_Service p)
    (FirewallPayload_Enable p) address (u32 port) (FirewallPayload_BreakGlass p) (FirewallPayload_RollbackSeconds p)
    (FirewallPayload_RollbackID p) (FirewallPayload_ExpectedHash p))).

(** [SSHPayload.DescribesChange]. *)
Definition DescribesSSHChange (p : SSHPayload) : bool :=
  negb (bool_decide (SSHPayload_Port p = "")) || negb (bool_decide (SSHPayload_PermitRootLogin p = ""))
  || negb (bool_decide (SSHPayload_PasswordAuthentication p = ""))
  || negb (bool_decide (SSHPayload_PubkeyAuthentication p = ""))
  || negb (bool_decide (SSHPayload_KbdInteractive p = "")) || negb (bool_decide (SSHPayload_MaxAuthTries p = ""))
  || negb (bool_decide (SSHPayload_AllowUsers p = [])) || negb (bool_decide (SSHPayload_AllowGroups p = []))
  || negb (bool_decide (SSHPayload_DenyUsers p = [])).

Definition applySSH (action : ActionType) (payload : option SSHPayload) : option Action :=
  let operation :=
    if bool_decide (action = ActionSSHConfigPlan) then
      if match payload with Some p => DescribesSSHChange p | None => false end
      then SshRequest_OPERATION_PLAN else SshRequest_OPERATION_READ
    else if bool_decide (action = ActionSSHConfigApply) then SshRequest_OPERATION_APPLY
    else if bool_decide (action = ActionSSHHostKeyRotate) then SshRequest_OPERATION_ROTATE_HOSTKEY
    else SshRequest_OPERATION_READ in
  Some (Action_Ssh (match payload with
    | Some p => mkSshRequest operation (SSHPayload_Port p) (SSHPayload_PermitRootLogin p)
        (SSHPayload_PasswordAuthentication p) (SSHPayload_PubkeyAuthentication p) (SSHPayload_KbdInteractive p)
        (SSHPayload_MaxAuthTries p) (SSHPayload_AllowUsers p) (SSHPayload_AllowGroups p) (SSHPayload_DenyUsers p)
        (SSHPayload_AllowLockout p) (SSHPayload_KeyType p) (SSHPayload_PlanHash p)
    | None => { no_SshRequest with SshRequest_GetOperation := operation }
    end)).

(** The operation of the changes of [applyStorage]; any other is the mount. *)
Definition storageOperations : list (ActionType * StorageRequest_Operation) :=
  [(ActionMountRemove, StorageRequest_OPERATION_MOUNT_REMOVE);
   (ActionFilesystemCheck, StorageRequest_OPERATION_FS_CHECK);
   (ActionLVMExtend, StorageRequest_OPERATION_LVM_EXTEND);
   (ActionFilesystemResize, StorageRequest_OPERATION_FS_RESIZE);
   (ActionFilesystemCreate, StorageRequest_OPERATION_FS_CREATE);
   (ActionDiskWipe, StorageRequest_OPERATION_DISK_WIPE);
   (ActionRAIDMemberFail, StorageRequest_OPERATION_RAID_MEMBER_FAIL);
   (ActionRAIDMemberRemove, StorageRequest_OPERATION_RAID_MEMBER_REMOVE);
   (ActionRAIDMemberAdd, StorageRequest_OPERATION_RAID_MEMBER_ADD);
   (ActionLVMVolumeCreate, StorageRequest_OPERATION_LVM_LV_CREATE);
   (ActionLVMVolumeRemove, StorageRequest_OPERATION_LVM_LV_REMOVE);
   (ActionLVMGroupExtend, StorageRequest_OPERATION_LVM_VG_EXTEND);
   (ActionLVMSnapshotCreate, StorageRequest_OPERATION_LVM_SNAPSHOT_CREATE);
   (ActionLVMSnapshotRemove, StorageRequest_OPERATION_LVM_SNAPSHOT_REMOVE)].

Definition applyStorage (action : ActionType) (payload : option StoragePayload) : option Action :=
  p ← payload;
  if bool_decide (action = ActionStoragePlan) && bool_decide (TrimSpace (sbytes (StoragePayload_Target p)) = [])
     && bool_decide (StoragePayload_Plan p = "") then None
  else
    let operation :=
      if bool_decide (action = ActionStoragePlan) then
        if bool_decide (StoragePayload_Plan p ≠ "") then StorageRequest_OPERATION_DEVICE_PLAN
        else StorageRequest_OPERATION_MOUNT_PLAN
      else default StorageRequest_OPERATION_MOUNT_ENSURE (assoc action storageOperations) in
    Some (Action_Storage (mkStorageRequest operation (StoragePayload_Source p) (StoragePayload_Target p)
      (StoragePayload_FSType p) (StoragePayload_Options p) (StoragePayload_Persist p) (StoragePayload_Device p)
      (StoragePayload_ExpectedUUID p) (StoragePayload_Repair p) (StoragePayload_ExpectedSerial p)
      (StoragePayload_ExpectedSizeBytes p) (StoragePayload_Size p) (StoragePayload_Label p) (StoragePayload_Plan p)
      (StoragePayload_PlanHash p) (StoragePayload_ExpectedByID p) (StoragePayload_ExpectedWWN p)
      (StoragePayload_Array p) (StoragePayload_ExpectedArrayUUID p) (StoragePayload_Group p)
      (StoragePayload_ExpectedGroupUUID p) (StoragePayload_Volume p) (StoragePayload_ExpectedVolumeUUID p))).

(** ** The dispatch

    [perform], the arms of the operations under a capability. *)
Definition dockerActions : list ActionType :=
  [ActionDockerStart; ActionDockerStop; ActionDockerRestart; ActionDockerRemove; ActionDockerPull; ActionDockerPrune].
Definition dockerEnsureActions : list ActionType :=
  [ActionDockerPlan; ActionDockerContainerEnsure; ActionDockerNetworkEnsure; ActionDockerNetworkRemove;
   ActionDockerVolumeEnsure; ActionDockerVolumeRemove].
Definition fileActions : list ActionType :=
  [ActionFilePlan; ActionFileRead; ActionFileEnsure; ActionFileRemove; ActionFileRollback].
Definition kernelActions : list ActionType :=
  [ActionSysctlPlan; ActionSysctlEnsure; ActionKernelModulePlan; ActionKernelModuleLoad; ActionKernelModuleBlacklist].
Definition timeActions : list ActionType :=
  [ActionTimeSyncTest; ActionTimePlan; ActionTimeConfigApply; ActionTimezoneSet].
Definition securityActions : list ActionType := [ActionSecurityScan; ActionSELinuxModeSet; ActionAuditRulesReload].
Definition certificateActions : list ActionType :=
  [ActionCertificateScan; ActionCertificatePlan; ActionCertificateDeploy; ActionCertificateTrustPlan;
   ActionCertificateTrustEnsure; ActionCertificateTrustRemove; ActionCertificateRenew].
Definition backupActions : list ActionType :=
  [ActionBackupPlan; ActionBackupRun; ActionBackupVerify; ActionBackupRestore].
Definition sshActions : list ActionType := [ActionSSHConfigPlan; ActionSSHConfigApply; ActionSSHHostKeyRotate].
Definition storageActions : list ActionType :=
  [ActionStoragePlan; ActionMountEnsure; ActionMountRemove; ActionFilesystemCheck; ActionLVMExtend;
   ActionFilesystemResize; ActionFilesystemCreate; ActionDiskWipe; ActionRAIDMemberFail; ActionRAIDMemberRemove;
   ActionRAIDMemberAdd; ActionLVMVolumeCreate; ActionLVMVolumeRemove; ActionLVMGroupExtend;
   ActionLVMSnapshotCreate; ActionLVMSnapshotRemove].
Definition firewallActions : list ActionType :=
  [ActionFirewallPlan; ActionFirewallRuleEnsure; ActionFirewallRuleRemove; ActionFirewallZonePort;
   ActionFirewallZoneService; ActionFirewallRulesetRestore].
Definition networkActions : list ActionType :=
  [ActionNetworkPlan; ActionNetworkMTUSet; ActionNetworkRouteEnsure; ActionNetworkProfileApply;
   ActionNetworkRollback; ActionNetworkLinkApply; ActionNetworkLinkRemove].
Definition scheduleActions : list ActionType :=
  [ActionScheduleEnsure; ActionScheduleDisable; ActionScheduleRemove; ActionScheduleRunNow].
Definition unitActions : list ActionType :=
  [ActionUnitStart; ActionUnitStop; ActionUnitRestart; ActionUnitReload; ActionUnitResetFailed].

(** The handler of an operation, as the cases of the switch name it. *)
Definition handlers (agent : Agent) (env : Envelope) (action : ActionType) (payload : Payload)
  : list (list ActionType * option Action) :=
  [([ActionPackageUpgrade], upgradePackages agent (Payload_PackageUpgrade payload));
   ([ActionAgentUpgrade], upgradeAgent agent (Payload_AgentUpgrade payload));
   ([ActionPackageRepair], repairPackages (Payload_PackageRepair payload));
   ([ActionSystemReboot], rebootHost (Payload_Reboot payload));
   ([ActionSystemHostnameSet], setHostname (Payload_Hostname payload));
   (dockerActions, applyDocker env);
   ([ActionComposePlan; ActionComposeDeploy], applyCompose env);
   (dockerEnsureActions, applyDockerEnsure agent action (Payload_DockerEnsure payload));
   ([ActionUnitEnableSet; ActionUnitMaskSet], applyUnitToggle env action);
   ([ActionPackageInstall; ActionPackageRemove; ActionPackageHoldSet],
    applyPackageLifecycle agent action (Payload_PackageChange payload));
   (fileActions, applyFile agent action (Payload_File payload));
   (kernelActions, applyKernel action (Payload_Kernel payload));
   (timeActions, applyTime agent action (Payload_Time payload));
   ([ActionSystemShutdown], shutdownHost (Payload_Power payload));
   (securityActions, applySecurity action (Payload_Security payload));
   (certificateActions, applyCertificate agent action (Payload_Certificate payload));
   ([ActionRepositorySet], applyRepository agent (Payload_Repository payload));
   (backupActions, applyBackup agent action (Payload_Backup payload));
   (sshActions, applySSH action (Payload_SSH payload));
   (storageActions, applyStorage action (Payload_Storage payload));
   (firewallActions, applyFirewall agent action (Payload_Firewall payload));
   ([ActionDNSResolveTest; ActionDNSPlan; ActionDNSHostApply], applyDNS action (Payload_DNS payload));
   (networkActions, applyNetwork agent action (Payload_Network payload));
   (scheduleActions, applySchedule action (Payload_Schedule payload));
   ([ActionProcessSignal], signalProcess (Payload_ProcessSignal payload));
   (helperUserOperations.*1, applyLocalUser action (Payload_LocalUser payload));
   ([ActionDomainPreflight], enrollDomain env (Payload_DomainEnroll payload) true);
   ([ActionDomainEnroll], enrollDomain env (Payload_DomainEnroll payload) false);
   ([ActionDomainLeave], leaveDomain (Payload_DomainLeave payload));
   ([ActionIdentityKeytabRenew], renewKeytab agent (Payload_Keytab payload));
   (unitActions, applyUnitAction env action (Payload_Unit payload))].

Fixpoint dispatch {A} (cases : list (list ActionType * option A)) (action : ActionType) : option A :=
  match cases with
  | [] => None
  | (actions, handled) :: rest => if bool_decide (action ∈ actions) then handled else dispatch rest action
  end.

Definition perform (agent : Agent) (env : Envelope) (action : ActionType) (payload : Payload) : option Action :=
  dispatch (handlers agent env action payload) action.

(** ** The rollback of a change nobody could observe (verify.go) *)

(** The file as it was read before the change. *)
Record fileState := mkFileState {
  previous_exists : bool; previous_content : bytes; previous_mode : string; previous_owner : string;
  previous_group : string }.

Definition rollbackFile (p : FilePayload) (previous : fileState) : Action :=
  Action_File
    (if previous_exists previous then
       { no_FileRequest with
           FileRequest_GetOperation := FileRequest_OPERATION_ENSURE;
           FileRequest_GetPath := FilePayload_Path p;
           FileRequest_GetContent := previous_content previous;
           FileRequest_GetMode := previous_mode previous;
           FileRequest_GetOwner := previous_owner previous;
           FileRequest_GetGroup := previous_group previous;
           FileRequest_GetAllowMissingValidator := true }
     else
       { no_FileRequest with
           FileRequest_GetOperation := FileRequest_OPERATION_REMOVE;
           FileRequest_GetPath := FilePayload_Path p }).

Definition rollbackSysctl (previous : gmap string string) : Action :=
  Action_Kernel { no_KernelRequest with
    KernelRequest_GetOperation := KernelRequest_OPERATION_SYSCTL_ENSURE;
    KernelRequest_GetSettings := previous }.
