(* ===== verification/BindingProps.v ===== *)
(** * BindingProps: an honest request passes, and what a consent pins

    The order of a host goes from the panel to the agent, which makes a
    request of it (Orders.v), and to the helper, which holds the request
    against the payload the panel signed (Binding.v). Here: the two agree on
    every operation the agent performs, the digests bind what they are made
    of, and kernel settings can only be the ones ordered or the ones from
    before. *)
From S2P Require Import Prelude Bytes Digest Text Times Actions ActionTables Registry Frames.
From S2P Require Import Capability CapabilityProps Expect ExpectProps Messages Payloads Binding Orders.
From coqutil Require Import Datatypes.RecordSetters.
Import OCamlLikeNotations.

Open Scope Z_scope.

(** A closed name that is not on a closed list. *)
Ltac off_list H := exfalso; lazymatch type of H with ?P => exact (bool_decide_unpack (¬ P) I H) end.

(** ** Checks *)

Lemma check_and (c k : check) : (c;; k) = ok ↔ c = ok ∧ k = ok.
Proof.
  split; [|by intros [-> ->]]. intros H%result_bind_Ok. destruct H as ([] & H & Hk). done.
Qed.
Lemma require_ok b : require b = ok ↔ b = true.
Proof. by destruct b. Qed.
Lemma same_ok got want : same got want = ok ↔ got = want.
Proof. unfold same. rewrite require_ok. apply bool_decide_eq_true. Qed.
Lemma agree_ok {A} `{EqDecision A} (got want : A) : agree got want = ok ↔ got = want.
Proof. unfold agree. rewrite require_ok. apply bool_decide_eq_true. Qed.
Lemma sameSequence_ok got want : sameSequence got want = ok ↔ got = want.
Proof. unfold sameSequence. rewrite require_ok. apply bool_decide_eq_true. Qed.
Lemma sameList_ok got want : sameList got want = ok ↔ got ≡ₚ want.
Proof. unfold sameList. rewrite require_ok, bool_decide_eq_true. apply sorted_eq. Qed.
Lemma described_ok {A} (part : option A) k : described part k = ok ↔ ∃ p, part = Some p ∧ k p = ok.
Proof. destruct part; cbn; [|split; [done|by intros (? & ? & ?)]]. split; [eauto|by intros (? & [= <-] & ?)]. Qed.

Lemma unless_ok (b : bool) (c : check) : c = ok → (if b then ok else c) = ok.
Proof. by destruct b. Qed.

(** A value the agent replaces by a default where the order leaves it out. *)
Lemma defaulted_ok {A} `{EqDecision A} (f : A → check) (value zero fallback : A) :
  (value ≠ zero → f value = ok) →
  (if bool_decide (value ≠ zero) then f (if bool_decide (value = zero) then fallback else value) else ok) = ok.
Proof.
  intros Hf. destruct (decide (value = zero)) as [Hz|Hz].
  - by rewrite (bool_decide_eq_false_2 (value ≠ zero)) by auto.
  - by rewrite (bool_decide_eq_true_2 (value ≠ zero)), (bool_decide_eq_false_2 (value = zero)), Hf by done.
Qed.

Create Rewrite HintDb checks.
#[export] Hint Rewrite check_and require_ok same_ok (@agree_ok string) (@agree_ok bool) (@agree_ok Z) sameSequence_ok
  sameList_ok @described_ok andb_true_iff @bool_decide_eq_true : checks.

(** A request made of the payload field by field. *)
Ltac field_by_field := cbn; unfold constant; cbn; autorewrite with checks; repeat split; try done.

(** ** Digests of hashes *)

Lemma hex_char a v : hex_value a = Some v → hex_digit v = lower_byte a ∧ 0 ≤ v < 16.
Proof. destruct a; intros H; vm_compute in H; try discriminate H; injection H as <-; by vm_compute. Qed.

Lemma ToLower_hex a v s : hex_value a = Some v → ToLower (a :: s) = lower_byte a :: ToLower s.
Proof. destruct a; intros H; try reflexivity; by vm_compute in H. Qed.

Lemma hex_encode_cons b s :
  hex_encode (b :: s) = hex_digit (b2z b / 16) :: hex_digit (b2z b mod 16) :: hex_encode s.
Proof. done. Qed.

Lemma hex_encode_decode n text sum :
  (List.length text ≤ n)%nat → hex_decode text = Some sum → hex_encode sum = ToLower text.
Proof.
  revert text sum. induction n as [|n IH]; intros [|a [|b rest]] sum Hn Hd; cbn [List.length hex_decode] in Hn, Hd;
    try lia; try discriminate Hd; try by injection Hd as <-. destruct (hex_value a) as [x|] eqn:Ha; [|done].
  destruct (hex_value b) as [y|] eqn:Hb; [|done]. destruct (hex_decode rest) as [r|] eqn:Hr; [|done].
  injection Hd as <-. rewrite (ToLower_hex _ _ _ Ha), (ToLower_hex _ _ _ Hb), hex_encode_cons.
  destruct (hex_char _ _ Ha) as [Hda Hx], (hex_char _ _ Hb) as [Hdb Hy].
  rewrite b2z_z2b, Z.mod_small by lia.
  rewrite (Z.add_comm (16 * x)), (Z.mul_comm 16), Z.div_add, Z.mod_add, Z.div_small, Z.mod_small by lia.
  rewrite Z.add_0_l, Hda, Hdb. do 2 f_equal. apply IH; [lia|done].
Qed.

(** The hash of a plan reaches the helper as the panel hashed it. *)
Lemma ParseHash_normal text sum : ParseHash text = Some sum → bstring (hex_encode sum) = normalHash text.
Proof.
  unfold ParseHash, normalHash, read_word. destruct (TrimSpace (sbytes text)) as [|c s] eqn:Ht; [by intros [= <-]|].
  intros Hp. apply bind_Some in Hp as (d & Hd & Hp). case_bool_decide; [|done]. injection Hp as <-.
  f_equal. by apply (hex_encode_decode (List.length (c :: s))).
Qed.

Lemma normalHash_nil : normalHash "" = "".
Proof. done. Qed.

(** ** An orderly order *)

(** The envelope of the task decodes to this operation and payload. *)
Record decoded (env : Envelope) (action : ActionType) (payload : Payload) : Prop := {
  decoded_toggle t : env_UnitToggle env = Some t → decodeToggle t = (action, payload);
  decoded_docker d : env_DockerAction env = Some d → dockerAction d = Some (action, payload);
  decoded_compose c : env_Compose env = Some c → decodeCompose c = (action, payload);
}.

(** What the order has besides, for the helper to take what the agent makes of
    it: a plan has a hash, numbers fit the fields of the message, a secret is
    not empty, kernel settings name a setting, and a part the handler does
    without is there. *)
Record orderly (agent : Agent) (action : ActionType) (payload : Payload) : Prop := {
  planned_upgrade p : Payload_PackageUpgrade payload = Some p → PackageUpgradePayload_PlanHash p = "" →
    PackageUpgradePayload_Plan p = None;
  planned_change p : Payload_PackageChange payload = Some p → PackageChangePayload_PlanHash p = "" →
    PackageChangePayload_Plan p = None;
  upgrade_alone : action = ActionPackageUpgrade → Payload_PackageChange payload = None;
  release_alone p : Payload_AgentUpgrade payload = Some p → AgentUpgradePayload_ReleaseRollback p = true →
    AgentUpgradePayload_PackageSHA256 p = "" ∧ AgentUpgradePayload_RollbackVersion p = "";
  settings_given p : action = ActionSysctlEnsure → Payload_Kernel payload = Some p → KernelPayload_Settings p ≠ ∅;
  kernel_given : action ∈ kernelActions → is_Some (Payload_Kernel payload);
  time_given : action ∈ timeActions → is_Some (Payload_Time payload);
  ssh_given : action ∈ sshActions → is_Some (Payload_SSH payload);
  selinux_given : action = ActionSELinuxModeSet → is_Some (Payload_Security payload);
  reload_plain p : action = ActionAuditRulesReload → Payload_Security payload = Some p → SecurityPayload_Mode p = "";
  priority_fits p : Payload_Repository payload = Some p → - 2 ^ 31 ≤ RepositoryPayload_Priority p < 2 ^ 31;
  keeps_fit p : Payload_Backup payload = Some p →
    Forall (λ n, - 2 ^ 31 ≤ n < 2 ^ 31)
      [BackupPayload_KeepLast p; BackupPayload_KeepDaily p; BackupPayload_KeepWeekly p; BackupPayload_KeepMonthly p];
  secrets_filled r value : agent_secret agent r = Some value → 0 < len value;
}.

Lemma i32_small z : - 2 ^ 31 ≤ z < 2 ^ 31 → i32 z = z.
Proof. intros H. unfold i32. rewrite Z.mod_small; lia. Qed.

(** What a payload binds, however the rest of the request is. *)
Definition binds (action : ActionType) (payload : Payload) (a : Action) : Prop := ∀ request version prior,
  HelperRequest_GetAction request = a → CheckBinding request (mkBound action version payload) prior = ok.

(** ** The requests of the agent are bound *)

Ltac made H := first [injection H as <- | by exfalso; discriminate H].
(** The steps of a handler that returned a request. *)
Ltac handler H := repeat lazymatch type of H with
  | mbind _ _ = Some _ => let x := fresh "p" in let E := fresh "E" in apply bind_Some in H as (x & E & H)
  | Some _ = Some _ => injection H as <-
  | (if ?b then _ else _) = Some _ => destruct b eqn:?; try discriminate H
  | (let _ := _ in _) = Some _ => cbv zeta in H
  | (let '(_, _) := ?x in _) = Some _ => destruct x eqn:?
  end.
Ltac bound := intros request version prior Hr; unfold constant in Hr; unfold CheckBinding; rewrite Hr; cbn.

(** *** Kernel settings *)

Lemma elem_of_names {A} (m : gmap string A) key : key ∈ (map_to_list m).*1 ↔ is_Some (m !! key).
Proof.
  rewrite list_elem_of_fmap. split.
  - intros ([k v] & -> & Hk%elem_of_map_to_list). by exists v.
  - intros [v Hv]. exists (key, v). split; [done|]. by apply elem_of_map_to_list.
Qed.

Lemma elem_of_keys {A} (m : gmap string A) key : key ∈ sorted (map_to_list m).*1 ↔ is_Some (m !! key).
Proof. rewrite (sorted_perm _). apply elem_of_names. Qed.

Lemma sysctl_values_ok got want before keys :
  sysctl_values got want before keys = ok ↔
  Forall (λ key, is_Some (want !! key) ∧
            (want !! key = Some (at_key got key) ∨ before !! key = Some (at_key got key))) keys.
Proof.
  induction keys as [|key keys IH]; cbn; [by rewrite Forall_nil|]. rewrite Forall_cons, <- IH.
  destruct (want !! key) as [w|]; [|split; [done|by intros [[[? ?] ?] ?]]].
  case_bool_decide as Hw; [subst w; split; [intros H; split; [split; [done|by left]|done]|by intros [_ H]]|].
  destruct (before !! key) as [b|]; [|split; [done|intros [[_ [[= ->]|?]] _]; done]].
  case_bool_decide as Hb; cbn; [subst b; split; [intros H; split; [split; [done|by right]|done]|by intros [_ H]]|].
  split; [done|]. intros [[_ [[= ->]|[= ->]]] _]; done.
Qed.

(** Some value for each of some kernel settings. *)
Lemma boundSysctl_ok_iff got want before :
  boundSysctl got want before = ok ↔
  got ≠ ∅ ∧ dom got ⊆ dom want ∧ (got ⊆ want ∨ got ⊆ before).
Proof.
  unfold boundSysctl. set (keys := sorted (map_to_list got).*1).
  assert (Hk : ∀ key, key ∈ keys ↔ is_Some (got !! key)) by apply elem_of_keys.
  assert (Hat : ∀ key v, got !! key = Some v → at_key got key = v) by (intros key v Hv; unfold at_key; by rewrite Hv).
  assert (Hne : keys = [] ↔ got = ∅).
  { split; [|by intros Hg; subst keys; rewrite Hg]. intros Hn. apply map_empty. intros key.
    destruct (got !! key) eqn:Hg; [|done]. exfalso. apply (not_elem_of_nil key). rewrite <- Hn. by apply Hk; eexists. }
  assert (Hsub : ∀ m : gmap string string, got ⊆ m ↔ ∀ key, key ∈ keys → m !! key = Some (at_key got key)).
  { intros m. rewrite map_subseteq_spec. split.
    - intros Hs key [v Hv]%Hk. rewrite (Hat _ _ Hv). by apply Hs.
    - intros Hs key v Hv. rewrite <- (Hat _ _ Hv). by apply Hs, Hk; eexists. }
  rewrite !Hsub. case_bool_decide as He; [split; [done|by intros [? _]; apply Hne in He]|].
  rewrite check_and, sysctl_values_ok, require_ok, orb_true_iff, !forallb_forall, Forall_forall.
  setoid_rewrite <- list_elem_of_In. setoid_rewrite bool_decide_eq_true. split.
  - intros [Hv Hd]. split; [by rewrite <- Hne|]. split.
    + intros key [v Hg]%elem_of_dom. apply elem_of_dom. apply Hv, Hk. by eexists.
    + destruct Hd as [Hd|Hd]; [left|by right]. intros key Hin. destruct (Hv _ Hin) as [[w Hw] _].
      specialize (Hd _ Hin). unfold at_key in Hd at 2. rewrite Hw in Hd. cbn in Hd. by rewrite Hd.
  - intros (Hg & Hd & Hs). split.
    + intros key Hin. split; [|by destruct Hs; [left|right]; auto].
      apply elem_of_dom, Hd, elem_of_dom. by apply Hk.
    + destruct Hs as [Hs|Hs]; [left|by right]. intros key Hin. unfold at_key at 2. by rewrite (Hs _ Hin).
Qed.

(** *** Packages *)

(** The order with the plan it was approved by. *)
Definition planned (hash : string) (reference : option PlanReference) (o : packageOrder) : packageOrder :=
  match reference with
  | None => { o with pkg_PlanHash := hash }
  | Some f => { o with
      pkg_PlanHash := hash;
      pkg_PlanSchemaVersion := PlanReference_SchemaVersion f;
      pkg_PlannerVersion := PlanReference_PlannerVersion f;
      pkg_InventoryRevision := PlanReference_InventoryRevision f;
      pkg_ResourceRevision := PlanReference_ResourceRevision f;
      pkg_PlanExpiresUnix := plan_expiry (PlanReference_ExpiresAt f);
      pkg_Changes := change_tuple <$> PlanReference_Changes f }
  end.

Lemma approved_expiry_plan agent text expiry : approved_expiry agent text = Some expiry → expiry = plan_expiry text.
Proof.
  unfold approved_expiry, plan_expiry. destruct (bool_decide (text = "")); [by intros [= <-]|].
  intros H. apply bind_Some in H as ([moment ns] & -> & H). case_bool_decide; [done|]. by injection H as <-.
Qed.

(** The reference the agent puts on the request is the one the panel hashed. *)
Lemma approvedReference_planned agent hash reference request r :
  approvedReference agent hash reference request = Some r → (hash = "" → reference = None) →
  PackageActionRequest_GetPlanHash request = [] → PackageActionRequest_GetExactSpecs request = [] →
  orderOfPackageRequest r = planned (normalHash hash) reference (orderOfPackageRequest request)
  ∧ PackageActionRequest_GetOperation r = PackageActionRequest_GetOperation request.
Proof.
  intros H Hn Hh Hx. destruct request. cbn in Hh, Hx. subst. unfold approvedReference in H. case_bool_decide as He.
  - injection H as <-. by rewrite (Hn He), He.
  - handler H. apply ParseHash_normal in E. destruct reference as [f|]; handler H; (split; [|done]);
      unfold orderOfPackageRequest, planned; cbn; unfold constant; cbn; rewrite E; [|done].
    apply approved_expiry_plan in E0 as ->. f_equal. by rewrite <- list_fmap_compose.
Qed.

(** An order hashed by both sides. *)
Lemma bindPackage_order r action version payload :
  orderOfPackageRequest r = orderOfPackages (packageOperationName (PackageActionRequest_GetOperation r))
    (Payload_PackageChange payload) (Payload_PackageUpgrade payload) →
  action ≠ ActionAgentUpgrade →
  match PackageActionRequest_GetOperation r with
  | PackageActionRequest_OPERATION_UPGRADE =>
      is_Some (Payload_PackageUpgrade payload) ∧ Payload_PackageChange payload = None
  | _ => is_Some (Payload_PackageChange payload)
  end →
  bindPackage r (mkBound action version payload) = ok.
Proof.
  intros He Hn Hp. pose proof (f_equal pkg_Packages He) as Hk. pose proof (f_equal pkg_Hold He) as Hh.
  assert (Hs : samePackageOrder r payload = ok).
  { unfold samePackageOrder, packageRequestDigest, packageOrderDigest. by rewrite same_ok, He. }
  unfold bindPackage. cbn [bound_Payload bound_Action]. rewrite (bool_decide_eq_false_2 (action = _)) by done.
  unfold orderOfPackages in Hk, Hh.
  destruct (PackageActionRequest_GetOperation r) eqn:Ho; cbn [packageOperationName] in *; try done;
    [destruct Hp as [[u Hu] Hc]|destruct Hp as [c Hc]..]; rewrite ?Hu, ?Hc in *; cbn [described];
    autorewrite with checks.
  - destruct (PackageUpgradePayload_Plan u); cbn in *; by rewrite Hk.
  - destruct (PackageChangePayload_Plan c); cbn in *; by rewrite Hk.
  - destruct (PackageChangePayload_Plan c); cbn in *; by rewrite Hk.
  - cbn in *. by rewrite Hk, Hh.
Qed.

Section handlers.
Context (agent : Agent) (env : Envelope) (action : ActionType) (payload : Payload).
Context (Hd : decoded env action payload) (Ho : orderly agent action payload).
Implicit Types (a : Action).

Lemma unit_bound a : action ∈ unitActions → applyUnitAction env action (Payload_Unit payload) = Some a →
  binds action payload a.
Proof.
  intros Ha H. unfold applyUnitAction in H. handler H. bound. unfold bindUnit, bound_unit. rewrite E.
  autorewrite with checks; split; [done|]. cbn.
  repeat (apply elem_of_cons in Ha as [->|Ha]; [reflexivity|]). by apply elem_of_nil in Ha.
Qed.

Lemma toggle_bound a : applyUnitToggle env action = Some a → binds action payload a.
Proof.
  unfold applyUnitToggle, applyUnitAction. intros H. handler H. injection E0 as <-.
  pose proof (decoded_toggle _ _ _ Hd _ E) as [= <- <-]. rewrite E. bound. unfold bindUnit, bound_unit. cbn.
  autorewrite with checks. split; [done|]. unfold helperOperation.
  destruct p as [u [] []]; reflexivity.
Qed.

Lemma docker_bound a : applyDocker env = Some a → binds action payload a.
Proof.
  unfold applyDocker. intros H. handler H. pose proof (decoded_docker _ _ _ Hd _ E) as Hp. bound.
  unfold bindDocker, dockerAction in *. cbn. destruct (docker_GetOperation p); try discriminate Hp;
    injection Hp as <- <-; unfold constant; cbn; unfold bindContainer, bindPrune; field_by_field.
Qed.

Lemma compose_bound a : applyCompose env = Some a → binds action payload a.
Proof.
  unfold applyCompose. intros H. handler H. pose proof (decoded_compose _ _ _ Hd _ E) as [= <- <-]. bound.
  unfold bindCompose. field_by_field.
Qed.

Lemma upgrade_bound a : action = ActionPackageUpgrade →
  upgradePackages agent (Payload_PackageUpgrade payload) = Some a → binds action payload a.
Proof.
  intros Ha H. unfold upgradePackages in H. handler H. bound.
  destruct (approvedReference_planned _ _ _ _ _ E1 (planned_upgrade _ _ _ Ho _ E0)) as [Hr' Hop]; [done..|].
  assert (Hc := upgrade_alone _ _ _ Ho Ha). apply bindPackage_order; rewrite ?Hop, ?E0, ?Hc, ?Ha; [|done..].
  rewrite Hr'. unfold orderOfPackages. cbn. unfold constant. cbn. by destruct (PackageUpgradePayload_Plan p0).
Qed.

Lemma lifecycle_bound a : action ∈ [ActionPackageInstall; ActionPackageRemove; ActionPackageHoldSet] →
  applyPackageLifecycle agent action (Payload_PackageChange payload) = Some a → binds action payload a.
Proof.
  intros Ha H. assert (Hn : action ≠ ActionAgentUpgrade) by (intros ->; off_list Ha).
  unfold applyPackageLifecycle in H. handler H. bound.
  destruct (bool_decide (action = ActionPackageHoldSet)) eqn:Hh.
  - injection E0 as <-. apply bool_decide_eq_true in Hh. subst action. apply bindPackage_order; rewrite ?E; first [reflexivity|exact Hn|by eexists].
  - destruct (approvedReference_planned _ _ _ _ _ E0 (planned_change _ _ _ Ho _ E)) as [Hr' Hop]; [done..|].
    cbn in Hop. unfold constant in Hop.
    apply bindPackage_order; rewrite ?Hr', ?Hop, ?E; [|done|];
      destruct (bool_decide (action = ActionPackageRemove)); cbn; try done; unfold orderOfPackages; cbn;
      unfold constant; cbn; by destruct (PackageChangePayload_Plan p).
Qed.

Lemma agentPackage_prefix manager version name :
  agentPackage manager version = Some name → HasPrefix name "flotestro-agent" = true.
Proof.
  unfold agentPackage. intros H. handler H;
    [change "flotestro-agent=" with ("flotestro-agent" +:+ "=")
    |change "flotestro-agent-" with ("flotestro-agent" +:+ "-")];
    rewrite <- app_string_assoc; apply HasPrefix_app.
Qed.

Lemma agent_bound a : action = ActionAgentUpgrade → upgradeAgent agent (Payload_AgentUpgrade payload) = Some a →
  binds action payload a.
Proof.
  intros Ha H. unfold upgradeAgent, releaseKeptArtefact, replacementRequest in H. handler H; bound;
    unfold bindPackage; cbn; rewrite (bool_decide_eq_true_2 (action = _)), E by done; unfold agentPackagesOnly; cbn;
    rewrite (agentPackage_prefix _ _ _ E1); autorewrite with checks; repeat split.
  - by destruct (release_alone _ _ _ Ho _ E) as [-> _].
  - by destruct (release_alone _ _ _ Ho _ E) as [_ ->].
Qed.

Lemma repair_bound a : repairPackages (Payload_PackageRepair payload) = Some a → binds action payload a.
Proof.
  unfold repairPackages. intros H. handler H. bound. unfold bindRepair. rewrite E. autorewrite with checks.
  cbn. unfold selectedAnswers, approvedAnswers. by rewrite <- list_fmap_compose.
Qed.

(** *** Files, schedules, accounts, processes *)

Lemma file_bound a : applyFile agent action (Payload_File payload) = Some a → binds action payload a.
Proof.
  unfold applyFile. intros H. handler H. bound. rewrite E. unfold sameFile, sameContent. cbn.
  autorewrite with checks. repeat split.
  destruct (FilePayload_ContentSecret p) as [r|] eqn:Es; cbn in *; [destruct (bool_decide (SecretRef_Name r = "")); cbn in *|].
  - injection E0 as <-. autorewrite with checks. split; [done|]. by apply unless_ok, same_ok.
  - done.
  - injection E0 as <-. autorewrite with checks. split; [done|]. by apply unless_ok, same_ok.
Qed.

Lemma schedule_bound a : applySchedule action (Payload_Schedule payload) = Some a → binds action payload a.
Proof.
  unfold applySchedule. intros H. handler H. bound. rewrite E. unfold bindSchedule. cbn.
  autorewrite with checks. repeat split. by repeat destruct (bool_decide _); autorewrite with checks.
Qed.

Lemma account_bound a : applyLocalUser action (Payload_LocalUser payload) = Some a → binds action payload a.
Proof.
  unfold applyLocalUser. intros H. handler H. bound. rewrite E. unfold sameAccount. field_by_field.
  unfold publicKeys, payloadKeys. by rewrite <- list_fmap_compose.
Qed.

Lemma signal_bound a : signalProcess (Payload_ProcessSignal payload) = Some a → binds action payload a.
Proof. unfold signalProcess. intros H. handler H. bound. rewrite E. unfold bindSignal. field_by_field. Qed.

Lemma hostname_bound a : setHostname (Payload_Hostname payload) = Some a → binds action payload a.
Proof. unfold setHostname. intros H. handler H. bound. rewrite E. unfold bindHostname. field_by_field. Qed.

(** *** Containers, the kernel, the clock, power, security *)

Lemma ensure_bound a : applyDockerEnsure agent action (Payload_DockerEnsure payload) = Some a → binds action payload a.
Proof. unfold applyDockerEnsure. intros H. handler H. bound. rewrite E. unfold bindDockerEnsure. field_by_field. Qed.

Lemma reboot_bound a : rebootHost (Payload_Reboot payload) = Some a → binds action payload a.
Proof.
  unfold rebootHost. intros H. handler H. bound. unfold bindReboot. rewrite E. autorewrite with checks. cbn.
  repeat split. apply (defaulted_ok (λ z, agree z _)). intros _. by apply agree_ok.
Qed.

Lemma shutdown_bound a : shutdownHost (Payload_Power payload) = Some a → binds action payload a.
Proof.
  unfold shutdownHost. intros H. handler H. bound. rewrite E. unfold bindShutdown. cbn. autorewrite with checks.
  repeat split; [apply (defaulted_ok (λ z, same z _)); intros _; by apply same_ok
                |apply (defaulted_ok (λ z, agree z _)); intros _; by apply agree_ok].
Qed.

Lemma kernel_bound a : action ∈ kernelActions → applyKernel action (Payload_Kernel payload) = Some a →
  binds action payload a.
Proof.
  intros Ha H. destruct (kernel_given _ _ _ Ho Ha) as [p E]. rewrite E in H. unfold applyKernel in H. injection H as <-.
  bound. rewrite E. unfold bindKernel. cbn.
  destruct (bool_decide (action = ActionSysctlEnsure)) eqn:Hs; [|by repeat destruct (bool_decide _); field_by_field].
  apply bool_decide_eq_true in Hs. apply boundSysctl_ok_iff. split; [by apply (settings_given _ _ _ Ho)|]. split; [done|by left].
Qed.

Lemma time_bound a : action ∈ timeActions → applyTime agent action (Payload_Time payload) = Some a →
  binds action payload a.
Proof.
  intros Ha H. destruct (time_given _ _ _ Ho Ha) as [p E]. rewrite E in H. unfold applyTime in H. cbn in H. handler H.
  bound. rewrite E. unfold bindTime, sameTimeSources. cbn. repeat destruct (bool_decide _); field_by_field.
Qed.

Lemma security_bound a : applySecurity action (Payload_Security payload) = Some a → binds action payload a.
Proof.
  unfold applySecurity. intros H. handler H; bound; unfold bindSecurity; cbn.
  - apply bool_decide_eq_true in Heqb. destruct (selinux_given _ _ _ Ho Heqb) as [p ->]. field_by_field.
  - apply bool_decide_eq_true in Heqb0. destruct (Payload_Security payload) as [p|] eqn:E; [|done].
    autorewrite with checks. by apply (reload_plain _ _ _ Ho).
Qed.

(** *** Sources, backups, certificates *)

Lemma repository_bound a : applyRepository agent (Payload_Repository payload) = Some a → binds action payload a.
Proof.
  unfold applyRepository. intros H. handler H.
  assert (Hp : i32 (RepositoryPayload_Priority p) = RepositoryPayload_Priority p)
    by (apply i32_small, (priority_fits _ _ _ Ho _ E)).
  assert (Hs : ∀ r, orderOfRepositoryRequest r = orderOfRepository p → binds action payload (Action_Repository r)).
  { intros r Hr. intros request version prior Ha. unfold CheckBinding. rewrite Ha. cbn. rewrite E.
    unfold bindRepository, repositoryRequestDigest, repositoryOrderDigest. rewrite Hr. cbn.
    pose proof (f_equal repo_ID Hr). pose proof (f_equal repo_URL Hr). field_by_field. }
  destruct (RepositoryPayload_PasswordSecret p) as [r|] eqn:Er; [|handler H].
  - handler H; apply Hs; unfold orderOfRepositoryRequest, orderOfRepository; cbn; unfold constant; rewrite Hp, Er.
    + destruct (RepositoryPayload_Remove p); [done|]. rewrite orb_false_r in Heqb.
      by apply bool_decide_eq_true in Heqb as ->.
    + by apply orb_false_iff in Heqb as [_ ->].
  - apply Hs. unfold orderOfRepositoryRequest, orderOfRepository. cbn. by rewrite Hp, Er.
Qed.

Lemma fetch_all_keys (references : gmap string SecretRef) values :
  fetch_all agent references = Some values → (map_to_list values).*1 ≡ₚ (map_to_list references).*1.
Proof.
  unfold fetch_all. case_bool_decide as He; [|done]. intros [= <-].
  apply NoDup_Permutation; [apply NoDup_fst_map_to_list..|]. intros key.
  by rewrite !elem_of_names, <- !elem_of_dom, He.
Qed.

(** The names of the environment, in whatever order. *)
Lemma backup_digest_names o o' :
  { o with bk_EnvNames := [] } = { o' with bk_EnvNames := [] } → bk_EnvNames o ≡ₚ bk_EnvNames o' →
  backup_digest o = backup_digest o'.
Proof.
  intros He Hn%sorted_eq. destruct o, o'. cbn in *. injection He; intros; subst. unfold backup_digest, backup_bytes. cbn.
  by rewrite Hn.
Qed.

Lemma backup_bound a : applyBackup agent action (Payload_Backup payload) = Some a → binds action payload a.
Proof.
  unfold applyBackup. intros H. handler H.
  pose proof (keeps_fit _ _ _ Ho _ E) as Hk. rewrite !Forall_cons in Hk. destruct Hk as (K1 & K2 & K3 & K4 & _).
  apply fetch_all_keys in E1. bound. rewrite E. unfold bindBackup. cbn. autorewrite with checks. split; [done|].
  apply backup_digest_names; [|done]. unfold orderOfRequest, orderOfPayload. cbn. unfold constant.
  rewrite !i32_small by done. f_equal. destruct (BackupPayload_PasswordSecret p) as [r|] eqn:Er; cbn.
  - cbn in E0. destruct (bool_decide (SecretRef_Name r = "")); [by injection E0 as <-|].
    apply (secrets_filled _ _ _ Ho) in E0. by apply bool_decide_eq_true.
  - by injection E0 as <-.
Qed.

Lemma certificate_bound a : action ∈ certificateActions →
  applyCertificate agent action (Payload_Certificate payload) = Some a → binds action payload a.
Proof.
  unfold applyCertificate. intros Ha H. handler H; bound; unfold bindCertificate; cbn; try done; rewrite E; field_by_field.
  unfold certificateActions in Ha. rewrite !elem_of_cons, elem_of_nil in Ha.
  repeat match goal with Hf : bool_decide _ = false |- _ => apply bool_decide_eq_false in Hf end. tauto.
Qed.

(** *** The directory *)

Lemma enroll_bound a preflight : enrollDomain env (Payload_DomainEnroll payload) preflight = Some a →
  binds action payload a.
Proof. unfold enrollDomain. intros H. handler H. bound. rewrite E. unfold bindEnroll. field_by_field. Qed.

Lemma leave_bound a : leaveDomain (Payload_DomainLeave payload) = Some a → binds action payload a.
Proof. unfold leaveDomain. intros H. handler H. bound. rewrite E. unfold bindLeave. field_by_field. Qed.

Lemma keytab_bound a : renewKeytab agent (Payload_Keytab payload) = Some a → binds action payload a.
Proof. unfold renewKeytab. intros H. handler H. bound. rewrite E. field_by_field. Qed.

(** *** The network, the firewall, sshd, the disks *)

Lemma sameLink_request spec : sameLink (networkLinkRequest spec) spec = ok.
Proof. destruct spec as [s|]; [|done]. unfold sameLink. field_by_field. Qed.

Lemma network_bound a : applyNetwork agent action (Payload_Network payload) = Some a → binds action payload a.
Proof.
  unfold applyNetwork. intros H. handler H. bound. rewrite E. unfold bindNetwork. cbn. autorewrite with checks.
  do 3 (split; [done|]). repeat destruct (bool_decide _); try destruct (DescribesChange p);
    rewrite ?sameLink_request; unfold sameProfile; field_by_field.
Qed.

Lemma dns_bound a : applyDNS action (Payload_DNS payload) = Some a → binds action payload a.
Proof. unfold applyDNS. intros H. handler H. bound. rewrite E. unfold bindDns. field_by_field. Qed.

Lemma firewall_bound a : applyFirewall agent action (Payload_Firewall payload) = Some a → binds action payload a.
Proof.
  unfold applyFirewall. intros H. apply bind_Some in H as (p & E & H). cbv zeta in H.
  destruct (agent_managementChannel agent) as [address port]. handler H. bound. rewrite E.
  unfold bindFirewall. cbn. autorewrite with checks. do 4 (split; [done|]).
  set (operation := if bool_decide _ then _ else _). clearbody operation.
  destruct operation; unfold sameRule, sameSwitch; field_by_field.
Qed.

Lemma ssh_bound a : action ∈ sshActions → applySSH action (Payload_SSH payload) = Some a → binds action payload a.
Proof.
  intros Ha H. destruct (ssh_given _ _ _ Ho Ha) as [p E]. rewrite E in H. unfold applySSH in H. injection H as <-.
  bound. rewrite E. unfold sameSSH. cbn. repeat destruct (bool_decide _); try destruct (DescribesSSHChange p); field_by_field.
Qed.

Lemma storage_bound a : applyStorage action (Payload_Storage payload) = Some a → binds action payload a.
Proof.
  unfold applyStorage. intros H. handler H. set (r := mkStorageRequest _ _ _ _ _ _ _ _ _ _ _ _ _ _ _ _ _ _ _ _ _ _ _).
  assert (Hs : sameStorage r p = ok) by (subst r; unfold sameStorage; field_by_field). clearbody r.
  bound. unfold bindStorage. rewrite E. by destruct (StorageRequest_GetOperation r).
Qed.

End handlers.

(** *** Every operation of [perform] *)

Lemma dispatch_Some {A} (cases : list (list ActionType * option A)) action a :
  dispatch cases action = Some a → ∃ actions, (actions, Some a) ∈ cases ∧ action ∈ actions.
Proof.
  induction cases as [|[actions handled] cases IH]; cbn; [done|]. case_bool_decide as Ha.
  - intros ->. exists actions. split; [by left|done].
  - intros (l & Hl & Hin)%IH. exists l. split; [by right|done].
Qed.

(** Of the handlers, the one that was asked. *)
Ltac which_handler Hin := repeat lazymatch type of Hin with
  | _ ∨ _ => destruct Hin as [Hin|Hin]; [apply pair_equal_spec in Hin as [-> Hin]; symmetry in Hin|]
  | False => destruct Hin
  end.

Lemma perform_bound agent env action payload a :
  decoded env action payload → orderly agent action payload → perform agent env action payload = Some a →
  binds action payload a.
Proof.
  intros Hd Ho (actions & Hin & Ha)%dispatch_Some. unfold handlers in Hin. rewrite !elem_of_cons, elem_of_nil in Hin.
  which_handler Hin; rewrite ?list_elem_of_singleton in Ha;
  eauto using unit_bound, toggle_bound, docker_bound, compose_bound, upgrade_bound, lifecycle_bound, agent_bound,
    repair_bound, file_bound, schedule_bound, account_bound, signal_bound, hostname_bound, ensure_bound, reboot_bound,
    shutdown_bound, kernel_bound, time_bound, security_bound, repository_bound, backup_bound, certificate_bound,
    enroll_bound, leave_bound, keytab_bound, network_bound, dns_bound, firewall_bound, ssh_bound, storage_bound.
Qed.

(** ** The requests of the agent are expected *)

Definition expected (action : ActionType) (a : Action) : Prop := Allows (Expect (kind_of a)) action = true.

(** One operation at a time: what the handler makes of it is evaluated. *)
Ltac each_action H := repeat lazymatch type of H with
  | _ ∈ _ :: _ => apply elem_of_cons in H as [->|H]
  | _ ∈ [] => by apply elem_of_nil in H
  end.
Ltac impossible := match goal with
  | H : bool_decide _ = _ |- _ => vm_compute in H; discriminate H
  | H : (_ && _)%bool = _ |- _ => vm_compute in H; discriminate H
  | H : UnderCapability _ = true |- _ => vm_compute in H; discriminate H
  end.

Lemma approvedReference_operation agent hash reference request r :
  approvedReference agent hash reference request = Some r →
  PackageActionRequest_GetOperation r = PackageActionRequest_GetOperation request.
Proof.
  unfold approvedReference. intros H. destruct request. case_bool_decide; [by injection H as <-|]. handler H.
  destruct reference; handler H; done.
Qed.

Ltac evaluated Ha Hin :=
  unfold fileActions, kernelActions, timeActions, securityActions, certificateActions, backupActions, sshActions,
    storageActions, firewallActions, networkActions, scheduleActions, unitActions, dockerEnsureActions,
    helperUserOperations in Ha; cbn [fmap list_fmap fst] in Ha;
  each_action Ha; try impossible;
  unfold upgradeAgent, releaseKeptArtefact, replacementRequest, repairPackages, rebootHost, setHostname,
    applyDockerEnsure, applyFile, applyKernel, applyTime, shutdownHost, applySecurity, applyCertificate,
    applyRepository, applyBackup, applySSH, applyStorage, applyFirewall, applyDNS, applyNetwork, applySchedule,
    signalProcess, applyLocalUser, enrollDomain, leaveDomain, renewKeytab, applyUnitAction in Hin;
  handler Hin; try impossible; try (match goal with |- context [match ?x with _ => _ end] => destruct x end);
  vm_compute; reflexivity.

Lemma perform_expected agent env action payload a :
  decoded env action payload → UnderCapability action = true → perform agent env action payload = Some a →
  expected action a.
Proof.
  intros Hd Hu (actions & Hin & Ha)%dispatch_Some. unfold handlers in Hin. rewrite !elem_of_cons, elem_of_nil in Hin.
  which_handler Hin; try by evaluated Ha Hin.
  - each_action Ha. unfold upgradePackages in Hin. handler Hin. apply approvedReference_operation in E1.
    unfold expected. cbn. by rewrite E1.
  - unfold applyDocker in Hin. handler Hin. pose proof (decoded_docker _ _ _ Hd _ E) as Hp. unfold dockerAction in Hp.
    unfold expected. cbn. by destruct (docker_GetOperation p); try discriminate Hp; injection Hp as <- _.
  - unfold applyCompose in Hin. handler Hin. pose proof (decoded_compose _ _ _ Hd _ E) as Hp. unfold decodeCompose in Hp.
    unfold expected. cbn. destruct (compose_GetOperation p); injection Hp as <- _; try impossible; done.
  - unfold applyUnitToggle, applyUnitAction in Hin. handler Hin. pose proof (decoded_toggle _ _ _ Hd _ E) as Hp.
    unfold decodeToggle in Hp. unfold expected, helperOperation. cbn. rewrite E.
    destruct p as [? [] []]; injection Hp as <- _; vm_compute; reflexivity.
  - unfold applyPackageLifecycle in Hin. handler Hin.
    each_action Ha; cbv zeta in E0; [..|by injection E0 as <-];
      (eapply approvedReference_operation in E0; unfold expected; cbn; by rewrite E0).
  - each_action Ha. unfold applyRepository in Hin. handler Hin.
    destruct (RepositoryPayload_PasswordSecret p); handler Hin; vm_compute; reflexivity.
Qed.
