(* ===== verification/Consent.v ===== *)
(** * Consent: what a signed payload lets the helper do

    The claims about the binding of requests: the request an honest agent
    makes of an order passes, and what passes is the order - up to the fields
    no comparison looks at, which two of the claims here name. *)
From S2P Require Import Prelude Bytes Digest Text Actions ActionTables Registry Capability.
From S2P Require Import CapabilityProps Expect Messages Payloads Binding Orders BindingProps.
From coqutil Require Import Datatypes.RecordSetters.
Import OCamlLikeNotations.

Open Scope Z_scope.

(** ** The honest agent *)

(** C7: For every operation under a capability, the request the agent makes of
    an orderly order is one the helper expects of that operation and finds
    bound by the payload the panel signed: no honest order is refused. *)
Theorem honest_order_is_accepted agent env action payload a request version prior :
  UnderCapability action = true → decoded env action payload → orderly agent action payload →
  perform agent env action payload = Some a → HelperRequest_GetAction request = a →
  Allows (Expect (kind_of (HelperRequest_GetAction request))) action = true
  ∧ CheckBinding request (mkBound action version payload) prior = ok.
Proof.
  intros Hu Hd Ho Ha Hr. split; [rewrite Hr; by eapply perform_expected|by eapply perform_bound].
Qed.

(** A host, and the removal of a package with a plan whose hash was pasted in
    capitals. *)
Definition demo_agent : Agent :=
  mkAgent "host-7" 1760000000000000000 (λ _, None) "panel.example:7443" ("192.0.2.1", 7443) (Some "apt")
    (λ _, None) (λ _, false) (λ _, false) (λ _, true).
Definition demo_plan : PlanReference :=
  mkPlanReference 1 "packages/1" "inv-9" "res-4" "2026-01-02T03:04:05Z"
    [mkPlanChangeEntry "nginx" "1.24.0-2" "" "amd64" "stable" "remove"].
Definition demo_change : PackageChangePayload :=
  mkPackageChangePayload ["nginx"] ["nginx-common"] false
    " 9F86D081884C7D659A2FEAA0C55AD015A3BF4F1B2B0B822CD15D6C15B0F00A08" (Some demo_plan).
Definition demo_removal : Payload := { no_payload with Payload_PackageChange := Some demo_change }.
Definition demo_envelope : Envelope := mkEnvelope None None None "".
Definition demo_request (a : Action) : HelperRequest :=
  mkHelperRequest 1 "task-1" None 60 65536 a false None [] [] [].

Lemma honest_order_is_accepted_witness :
  let a := default Action_nil (perform demo_agent demo_envelope ActionPackageRemove demo_removal) in
  Allows (Expect (kind_of a)) ActionPackageRemove = true
  ∧ CheckBinding (demo_request a) (mkBound ActionPackageRemove 1 demo_removal) None = ok.
Proof.
  intros a. apply (honest_order_is_accepted demo_agent demo_envelope ActionPackageRemove demo_removal a (demo_request a));
    [vm_compute; reflexivity|by split| |vm_compute; reflexivity|reflexivity].
  split; try done.
  - by intros p [= <-].
  - intros Hk. off_list Hk.
  - intros Hk. off_list Hk.
  - intros Hk. off_list Hk.
Defined.

(** ** What a request may carry *)

(** Kernel settings: a consent lets the helper write some of the ordered
    keys with the ordered values, or put some of them back to the values the
    helper itself read before the change - never a mix of the two, a value of
    the requester's own, or a key the order does not name. *)
Theorem sysctl_consent_is_exact request r bound p prior :
  HelperRequest_GetAction request = Action_Kernel r →
  KernelRequest_GetOperation r = KernelRequest_OPERATION_SYSCTL_ENSURE →
  Payload_Kernel (bound_Payload bound) = Some p →
  let settings := KernelRequest_GetSettings r in
  CheckBinding request bound prior = ok ↔
  settings ≠ ∅ ∧ dom settings ⊆ dom (KernelPayload_Settings p)
  ∧ (settings ⊆ KernelPayload_Settings p ∨ settings ⊆ priorValues prior (HelperRequest_GetTaskId request)).
Proof.
  intros Hr Hop Hp settings. unfold CheckBinding. rewrite Hr, Hp. cbn. unfold bindKernel. rewrite Hop.
  apply boundSysctl_ok_iff.
Qed.

(** The rollback of a change of settings, with the record of the helper. *)
Lemma sysctl_consent_is_exact_witness :
  let before : gmap string string := {["kernel.dmesg_restrict" := "0"]} in
  let wanted : gmap string string := {["kernel.dmesg_restrict" := "1"; "vm.swappiness" := "10"]} in
  let payload := { no_payload with Payload_Kernel := Some (mkKernelPayload wanted [] "" false "") } in
  CheckBinding (demo_request (rollbackSysctl before)) (mkBound ActionSysctlEnsure 1 payload) (Some (λ _, before)) = ok.
Proof.
  intros before wanted payload.
  apply (sysctl_consent_is_exact _ { no_KernelRequest with
           KernelRequest_GetOperation := KernelRequest_OPERATION_SYSCTL_ENSURE;
           KernelRequest_GetSettings := before } _ (mkKernelPayload wanted [] "" false "")); [reflexivity..|].
  cbn. split; [apply map_non_empty_singleton|]. split; [|by right].
  rewrite <- (bool_decide_eq_true (dom before ⊆ dom wanted)). vm_compute. reflexivity.
Defined.





(** ** The rollback of a change nobody could observe *)

(** A change of a file whose verifier could not confirm it is rolled back
    by the agent under the same consent. The helper lets that rollback through
    only when it writes the ordered content with the ordered mode and owner
    once more: a file that was there before the change is never put back, and
    one that was not is never removed. *)
Theorem file_rollback_restores_nothing request version prior action payload p previous :
  OnUnverified action = UnverifiedRollback → Payload_File payload = Some p →
  HelperRequest_GetAction request = rollbackFile p previous →
  Allows (Expect (kind_of (rollbackFile p previous))) action = true →
  CheckBinding request (mkBound action version payload) prior = ok →
  previous_exists previous = true
  ∧ previous_mode previous = FilePayload_Mode p ∧ previous_owner previous = FilePayload_Owner p
  ∧ previous_group previous = FilePayload_Group p
  ∧ contentDigest (previous_content previous) = contentDigest (sbytes (FilePayload_Content p)).
Proof.
  intros Hu Hp Hr He Hb. unfold CheckBinding in Hb. rewrite Hr in Hb.
  destruct (previous_exists previous) eqn:Hx; unfold rollbackFile in *; rewrite Hx in Hb, He.
  - cbn in Hb. rewrite Hp in Hb. unfold constant in Hb. cbn in Hb. unfold sameFile, sameContent in Hb. cbn in Hb.
    rewrite (bool_decide_eq_true_2 (EmptyString = EmptyString)) in Hb by done. cbn in Hb.
    autorewrite with checks in Hb. naive_solver.
  - exfalso. apply bool_decide_eq_true, list_elem_of_singleton in He as ->. vm_compute in Hu. discriminate Hu.
Qed.

(** The verifier lost sight of a file that already held what was ordered. *)
Definition demo_file : FilePayload :=
  mkFilePayload "/etc/motd" "welcome" "0644" "root" "root" "" "" "" None true.
Definition demo_previous : fileState := mkFileState true (sbytes "welcome") "0644" "root" "root".

Lemma file_rollback_restores_nothing_witness :
  contentDigest (previous_content demo_previous) = contentDigest (sbytes (FilePayload_Content demo_file)).
Proof.
  apply (file_rollback_restores_nothing (demo_request (rollbackFile demo_file demo_previous)) 1 None ActionFileEnsure
           { no_payload with Payload_File := Some demo_file } demo_file demo_previous); vm_compute; reflexivity.
Defined.

(** ** What a consent does not say *)

(** An account: whether the home directory is removed or made, whether the
    operator may lock themselves out, which keys the account is expected to
    hold and which file holds them are not held against the payload: the answer
    is the same whatever the request says there. *)
Theorem account_consent_leaves_free request r bound prior home remove lockout missing fingerprints managed system
    inactive gecos :
  let asked r := { request with HelperRequest_GetAction := Action_LocalUserAction r } in
  CheckBinding (asked { r with
      LocalUserActionRequest_GetCreateHome := home; LocalUserActionRequest_GetRemoveHome := remove;
      LocalUserActionRequest_GetAllowLockout := lockout; LocalUserActionRequest_GetIgnoreMissing := missing;
      LocalUserActionRequest_GetExpectedFingerprints := fingerprints;
      LocalUserActionRequest_GetManagedFile := managed; LocalUserActionRequest_GetSystem := system;
      LocalUserActionRequest_GetInactive := inactive; LocalUserActionRequest_GetGecos := gecos }) bound prior
  = CheckBinding (asked r) bound prior.
Proof. by destruct r. Qed.
