(* ===== verification/Signer.v ===== *)
(** * Signer: what the panel issues

    The control plane's capability key of src/internal/helpercap/signer.go:
    the capability of an order, the keyring of a host, and the receipt of a
    released secret (receipt.go). A private key is its bytes; the nonce and the
    identifier a capability draws are arguments. *)
From S2P Require Import Prelude Bytes Digest Text Capability Registry.

Open Scope Z_scope.

(** ** What the trust of the helper takes from Go's libraries

    The signatures of crypto/ed25519 and the PEM form of a public key
    (encoding/pem, crypto/x509) as interfaces: the operations the program
    calls and the facts it relies on. [toy_signatures] and [toy_keys] satisfy
    the facts and can be run; they are no cryptography. *)

(** [ed25519.Verify], [ed25519.Sign] and the public half of a private key. *)
Class SignatureScheme := {
  ed25519_Verify : bytes → bytes → bytes → bool;
  ed25519_Sign : bytes → bytes → bytes;
  ed25519_Public : bytes → bytes;
  Verify_Sign : ∀ key m, ed25519_Verify (ed25519_Public key) m (ed25519_Sign key m) = true;
  len_Public : ∀ key, len (ed25519_Public key) = PublicKeySize;
  len_Sign : ∀ key m, len (ed25519_Sign key m) = SignatureSize;
}.

(** [EncodePublicKeyPEM] and [ParsePublicKeyPEM]. *)
Class KeyText := {
  EncodePublicKeyPEM : bytes → bytes;
  ParsePublicKeyPEM : bytes → option bytes;
  Parse_Encode : ∀ key, len key = PublicKeySize → ParsePublicKeyPEM (EncodePublicKeyPEM key) = Some key;
}.

(** ** Instances to run *)

Definition toy_sign (key m : bytes) : bytes := sha256 (key ++ m) ++ sha256 (m ++ key).

Program Definition toy_signatures : SignatureScheme := {|
  ed25519_Verify public m signature := bool_decide (signature = toy_sign public m);
  ed25519_Sign key m := toy_sign (sha256 key) m;
  ed25519_Public key := sha256 key;
|}.
Next Obligation. intros key m. cbn. by apply bool_decide_eq_true. Qed.
Next Obligation. intros key. apply len_sha256. Qed.
Next Obligation. intros key m. unfold toy_sign. by rewrite len_app, !len_sha256. Qed.

Program Definition toy_keys : KeyText := {|
  EncodePublicKeyPEM key := Byte.x2d :: key;
  ParsePublicKeyPEM text := match text with Byte.x2d :: key => Some key | _ => None end;
|}.
Next Obligation. done. Qed.

(** [Signer]: the key, and the one a rotation retired. *)
Inductive Signer := only (key : bytes) | rotated (key : bytes) (previous : Signer).

Section signer.
Context {SS : SignatureScheme}.

Definition signer_key (s : Signer) : bytes := match s with only key | rotated key _ => key end.
Definition signer_previous (s : Signer) : option Signer :=
  match s with only _ => None | rotated _ previous => Some previous end.

Definition PublicKey (s : Signer) : bytes := ed25519_Public (signer_key s).
Definition signer_KeyID (s : Signer) : string := KeyID (PublicKey s).

Definition NewSignerFromKey (private : bytes) : Signer := only private.

Definition WithPrevious (s : Signer) (previous : option Signer) : Signer :=
  match previous with
  | Some p => if bool_decide (signer_KeyID p = signer_KeyID s) then s else rotated (signer_key s) p
  | None => s
  end.

Definition TrustedKeys (s : Signer) : list HelperTrustKey :=
  {| key_KeyId := signer_KeyID s; key_PublicKey := PublicKey s |}
  :: match signer_previous s with
     | Some p => [{| key_KeyId := signer_KeyID p; key_PublicKey := PublicKey p |}]
     | None => []
     end.

Definition Fingerprints (s : Signer) : list string :=
  KeyFingerprint (PublicKey s)
  :: match signer_previous s with Some p => [KeyFingerprint (PublicKey p)] | None => [] end.

(** The key a bundle is signed with: during a rotation, the retired one. *)
Definition bundle_signer (s : Signer) : Signer := default s (signer_previous s).

(** [TrustBundle] at a Unix second. *)
Definition TrustBundle (s : Signer) (hostID : string) (now : Z) : HelperTrustBundle :=
  let signer := bundle_signer s in
  let unsigned := {| bundle_HostId := hostID; bundle_Keys := TrustedKeys s; bundle_IssuedUnix := now;
                     bundle_SignedByKeyId := signer_KeyID signer; bundle_Signature := [] |} in
  {| bundle_HostId := hostID; bundle_Keys := TrustedKeys s; bundle_IssuedUnix := now;
     bundle_SignedByKeyId := signer_KeyID signer;
     bundle_Signature := ed25519_Sign (signer_key signer) (TrustBundleSigningBytes unsigned) |}.

(** [Mint]: the capability to issue. *)
Record Mint := mkMint {
  mint_HostID : string; mint_TaskID : string; mint_ActionType : string; mint_PayloadSHA256 : bytes;
  mint_Grants : list string; mint_PolicyRevision : Z; mint_Now : time }.

(** [Issue], the capability and its signature, at [now] in nanoseconds. *)
Definition Issue (s : Signer) (mint : Mint) (nonce : bytes) (id : string) : result error (HelperCapability * bytes) :=
  if bool_decide (mint_HostID mint = "") || bool_decide (mint_TaskID mint = "")
     || bool_decide (mint_ActionType mint = "")
  then Err (failure "a capability needs a host, a task and an action")
  else if negb (bool_decide (len (mint_PayloadSHA256 mint) = 32))
  then Err (failure "a capability binds a 32-byte payload digest")
  else
    let capability := {|
      cap_SchemaVersion := SchemaVersion; cap_KeyId := signer_KeyID s; cap_CapabilityId := id;
      cap_HostId := mint_HostID mint; cap_TaskId := mint_TaskID mint; cap_ActionType := mint_ActionType mint;
      cap_PayloadSha256 := mint_PayloadSHA256 mint;
      cap_NotBeforeUnix := (mint_Now mint - ClockSkew * second) / second;
      cap_ExpiresUnix := (mint_Now mint + TTLOf (mint_ActionType mint) * second) / second;
      cap_Nonce := nonce; cap_PolicyRevision := mint_PolicyRevision mint; cap_Grants := mint_Grants mint |} in
    Ok (capability, ed25519_Sign (signer_key s) (SigningBytes capability)).

(** [VerifySignature] and [VerifyReceiptSignature]. *)
Definition VerifySignature (public : bytes) (capability : HelperCapability) (signature : bytes) : bool :=
  if negb (bool_decide (len public = PublicKeySize)) || negb (bool_decide (len signature = SignatureSize)) then false
  else ed25519_Verify public (SigningBytes capability) signature.

Definition VerifyReceiptSignature (public : bytes) (receipt : SecretReceipt) (signature : bytes) : bool :=
  if negb (bool_decide (len public = PublicKeySize)) || negb (bool_decide (len signature = SignatureSize)) then false
  else ed25519_Verify public (ReceiptSigningBytes receipt) signature.

(** [Release], and the receipt of it. *)
Record Release := mkRelease {
  release_HostID : string; release_TaskID : string; release_SecretName : string; release_Version : Z;
  release_SHA256 : string; release_Now : time }.

Definition IssueReceipt (s : Signer) (release : Release) : result error SecretReceipt :=
  if bool_decide (release_HostID release = "") || bool_decide (release_TaskID release = "")
     || bool_decide (release_SecretName release = "")
  then Err (failure "a receipt needs a host, a task and a secret")
  else if bool_decide (release_SHA256 release = "")
  then Err (failure "a receipt binds the digest of the bytes released")
  else
    let signed signature := {|
      receipt_HostId := release_HostID release; receipt_TaskId := release_TaskID release;
      receipt_SecretName := release_SecretName release; receipt_SecretVersion := release_Version release;
      receipt_Sha256 := release_SHA256 release; receipt_IssuedUnix := release_Now release / second;
      receipt_SignedByKeyId := signer_KeyID s; receipt_Signature := signature |} in
    Ok (signed (ed25519_Sign (signer_key s) (ReceiptSigningBytes (signed [])))).
End signer.
