(* ===== verification/Trust.v ===== *)
(** * Trust: the keyring of the helper

    TrustStore of src/internal/helpercap/keyring.go: the root-owned key files,
    the host identity, the note of the bundle last accepted and the pins of the
    first enrollment. A write or a removal can fail ([trust_io]); what was done
    before it stays done. *)
From S2P Require Import Prelude Bytes Digest Text Capability Signer.
From coqutil Require Import Datatypes.RecordSetters.
Import OCamlLikeNotations.

Open Scope Z_scope.

(** ** On the disk *)

(** A file of the trust directory: whether it is a regular file, whether it is
    root's and writable by nobody else, and its text. [writeRootFile] replaces
    whatever was there by a regular file of root's. *)
Record key_file := mkKeyFile { regular : bool; rooted : bool; text : bytes }.

Record acceptedBundle := mkAccepted {
  accepted_HostID : string; accepted_IssuedUnix : Z; accepted_SignedBy : string }.
Definition no_accepted : acceptedBundle := mkAccepted "" 0 "".

(** The note: none, one that is not JSON any more, or what was written. *)
Inductive note := NoNote | Damaged | Note (b : acceptedBundle).

#[export] Instance acceptedBundle_eq_dec : EqDecision acceptedBundle. Proof. solve_decision. Defined.
#[export] Instance note_eq_dec : EqDecision note. Proof. solve_decision. Defined.

Record TrustStore := mkTrust {
  key_files : gmap string key_file;
  host_file : option bytes;
  accepted_note : note;
  pin_file : option bytes;
  bootstrap_policy : Bootstrap;
}.

(** What the operating system refuses during one call. *)
Record trust_io := mkTrustIo {
  keyring_fails : bool;      (* the directory cannot be read, or is not root's *)
  host_fails : bool;
  note_fails : bool;
  pin_fails : bool;
  mkdir_fails : bool;
  write_fails : string → bool;
  remove_fails : string → bool;
}.
Definition good_trust_io : trust_io := mkTrustIo false false false false false (λ _, false) (λ _, false).

Definition hostIDPath : string := "host-id".
Definition acceptedPath : string := "accepted.json".
Definition keyPath (id : string) : string := id +:+ ".pub".

(** ** The pins *)

Definition sha256HexLength : Z := 64.

(** [Pins]: a line that is no fingerprint is an error of the whole file. *)
Fixpoint pin_lines (lines : list bytes) : option (list string) :=
  match lines with
  | [] => Some []
  | line :: rest =>
      let line := bstring (TrimSpace line) in
      if bool_decide (line = "") || HasPrefix line "#" then pin_lines rest
      else
        let pin := bstring (ToLower (sbytes (TrimPrefix line "sha256:"))) in
        if bool_decide (slen pin ≠ sha256HexLength) then None
        else pins ← pin_lines rest; Some (pin :: pins)
  end.

Definition Pins (i : trust_io) (t : TrustStore) : result error (list string) :=
  if pin_fails i then Err (failure "reading the pins")
  else match pin_file t with
       | None => Ok []
       | Some raw => match pin_lines (split_on Byte.x0a raw) with
                     | Some pins => Ok pins
                     | None => Err (failure "not a fingerprint")
                     end
       end.

(** [WritePins]. *)
Definition pin_header : bytes :=
  sbytes "# The panels this host may be enrolled by: the SHA-256 of the signing" ++ [Byte.x0a]
  ++ sbytes "# key of the bundle, as the panel prints it when it starts." ++ [Byte.x0a].

Definition written_pin (pin : string) : option bytes :=
  let pin := ToLower (TrimSpace (sbytes (TrimPrefix pin "sha256:"))) in
  if negb (bool_decide (len pin = sha256HexLength)) || negb (bool_decide (is_Some (hex_decode pin))) then None
  else Some (pin ++ [Byte.x0a]).

Definition WritePins (i : trust_io) (pins : list string) : M TrustStore error unit := λ t,
  if bool_decide (pins = []) then
    if remove_fails i "panel-trust.pin" && bool_decide (is_Some (pin_file t)) then (Err (failure "removing the pins"), t)
    else (Ok tt, { t with pin_file := None })
  else match mapM written_pin pins with
       | None => (Err (failure "not a fingerprint"), t)
       | Some lines =>
           if write_fails i "panel-trust.pin" then (Err (failure "writing the pins"), t)
           else (Ok tt, { t with pin_file := Some (pin_header ++ mjoin lines) })
       end.

Definition checkPin (i : trust_io) (t : TrustStore) (signer : bytes) : result error unit :=
  pins ← Pins i t;
  if bool_decide (pins = []) then
    if bool_decide (bootstrap_policy t = BootstrapTOFU) then Ok tt else Err (refusal ErrorTrustPin)
  else if bool_decide (KeyFingerprint signer ∈ pins) then Ok tt else Err (refusal ErrorTrustPin).

(** ** The keyring *)

(** [Keyring]: keys by identifier. *)
Abbreviation Keyring := (gmap string bytes).
Definition Lookup (k : Keyring) (keyID : string) : option bytes := k !! keyID.
Definition IDs (k : Keyring) : list string := sorted (map_to_list k).*1.
Definition Empty (k : Keyring) : bool := bool_decide (k = ∅).

Definition NewKeyring (keys : list bytes) : Keyring := fold_left (λ ring key, <[KeyID key := key]> ring) keys ∅.

Section trust.
Context {SS : SignatureScheme} {KT : KeyText} {MO : MapOrder}.

Definition readKey (f : key_file) : option bytes := if regular f && rooted f then ParsePublicKeyPEM (text f) else None.

(** [Keyring]: the key files in the order of their names; one that cannot be
    read is skipped. *)
Definition loaded_keys (t : TrustStore) : list bytes :=
  omap (λ name, if HasSuffix name ".pub" then key_files t !! name ≫= readKey else None)
       (sorted (map_to_list (key_files t)).*1).
Definition loadKeyring (t : TrustStore) : Keyring := NewKeyring (loaded_keys t).
Definition KeyringOf (i : trust_io) (t : TrustStore) : result error Keyring :=
  if keyring_fails i then Err (failure "reading the keyring") else Ok (loadKeyring t).

Definition host_id (t : TrustStore) : string :=
  match host_file t with Some raw => bstring (TrimSpace raw) | None => "" end.
Definition HostID (i : trust_io) (t : TrustStore) : result error string :=
  if host_fails i then Err (failure "reading the host identity") else Ok (host_id t).

(** [acceptedState]: a damaged note says nothing about any moment. *)
Definition accepted (t : TrustStore) : acceptedBundle :=
  match accepted_note t with Note b => b | NoNote | Damaged => no_accepted end.
Definition acceptedState (i : trust_io) (t : TrustStore) : result error acceptedBundle :=
  if note_fails i then Err (failure "reading the note") else Ok (accepted t).

(** [checkBundle]. *)
Definition ErrorTrustInvalid : string := "trust_bundle_invalid".
Definition ErrorTrustUntrusted : string := "trust_bundle_untrusted".

Fixpoint bundle_keys (keys : list HelperTrustKey) (ring : Keyring) : result error Keyring :=
  match keys with
  | [] => Ok ring
  | key :: rest =>
      if negb (bool_decide (len (key_PublicKey key) = PublicKeySize)) then Err (refusal ErrorTrustInvalid)
      else if negb (bool_decide (KeyID (key_PublicKey key) = key_KeyId key)) then Err (refusal ErrorTrustInvalid)
      else bundle_keys rest (<[key_KeyId key := key_PublicKey key]> ring)
  end.

Definition checkBundle (bundle : option HelperTrustBundle) : result error (HelperTrustBundle * Keyring) :=
  match bundle with
  | None => Err (refusal ErrorTrustInvalid)
  | Some b =>
      if bool_decide (bundle_HostId b = "") then Err (refusal ErrorTrustInvalid)
      else if bool_decide (bundle_Keys b = []) then Err (refusal ErrorTrustInvalid)
      else if negb (bool_decide (len (bundle_Signature b) = SignatureSize)) then Err (refusal ErrorTrustInvalid)
      else keys ← bundle_keys (bundle_Keys b) ∅; Ok (b, keys)
  end.

(** ** Apply *)

Record TrustUpdate := mkUpdate {
  update_HostID : string; update_KeyIDs : list string; update_Changed : bool; update_Bootstrap : bool }.

(** A read of the store. *)
Definition reads {E A} (f : TrustStore → result E A) : M TrustStore E A := λ t, (f t, t).

(** A key file is left alone when it holds the key already. *)
Definition write_key (i : trust_io) (id : string) (key : bytes) : M TrustStore error bool := λ t,
  let path := keyPath id in
  let encoded := EncodePublicKeyPEM key in
  if bool_decide (text <$> key_files t !! path = Some encoded) then (Ok false, t)
  else if write_fails i path then (Err (failure "writing a key"), t)
  else (Ok true, { t with key_files := <[path := mkKeyFile true true encoded]> (key_files t) }).

Fixpoint write_keys (i : trust_io) (keys : list (string * bytes)) : M TrustStore error bool :=
  match keys with
  | [] => mret false
  | (id, key) :: rest => changed ← write_key i id key; more ← write_keys i rest; mret (changed || more)
  end.

(** A key the bundle does not carry; a file that is not there is no error. *)
Definition remove_key (i : trust_io) (id : string) : M TrustStore error unit := λ t,
  let path := keyPath id in
  if remove_fails i path && bool_decide (is_Some (key_files t !! path)) then (Err (failure "removing a key"), t)
  else (Ok tt, { t with key_files := delete path (key_files t) }).

Definition write_host (i : trust_io) (host : string) : M TrustStore error unit := λ t,
  if write_fails i hostIDPath then (Err (failure "writing the host identity"), t)
  else (Ok tt, { t with host_file := Some (sbytes host ++ [Byte.x0a]) }).

Definition rememberAccepted (i : trust_io) (b : HelperTrustBundle) : M TrustStore error unit := λ t,
  if write_fails i acceptedPath then (Err (failure "writing the note"), t)
  else (Ok tt, { t with accepted_note :=
                   Note (mkAccepted (bundle_HostId b) (bundle_IssuedUnix b) (bundle_SignedByKeyId b)) }).

(** The key the bundle is verified with. *)
Definition signer_of (i : trust_io) (t : TrustStore) (bootstrap : bool) (keys current : Keyring) (b : HelperTrustBundle)
  : result error bytes :=
  if bootstrap then
    match Lookup keys (bundle_SignedByKeyId b) with
    | Some signer => checkPin i t signer;; Ok signer
    | None => Err (refusal ErrorTrustUntrusted)
    end
  else match Lookup current (bundle_SignedByKeyId b) with
       | Some signer => Ok signer
       | None => Err (refusal ErrorTrustUntrusted)
       end.

(** The bundle against the bundle accepted before. *)
Definition order_check (i : trust_io) (t : TrustStore) (keys current : Keyring) (b : HelperTrustBundle)
  : result error unit :=
  before ← acceptedState i t;
  if bool_decide (bundle_IssuedUnix b < accepted_IssuedUnix before) then Err (refusal ErrorTrustStale)
  else if bool_decide (accepted_IssuedUnix before = bundle_IssuedUnix b)
          && negb (forallb (λ id, bool_decide (is_Some (keys !! id))) (IDs current))
  then Err (refusal ErrorTrustStale)
  else Ok tt.

(** What the checks let through: the keys of the bundle and of the host, the
    identity of the host, and whether this is an enrollment. *)
Definition admitted (i : trust_io) (bundle : option HelperTrustBundle) (t : TrustStore)
  : result error (HelperTrustBundle * Keyring * Keyring * string * bool) :=
  '(b, keys) ← checkBundle bundle;
  current ← KeyringOf i t;
  currentHost ← HostID i t;
  let bootstrap := Empty current && bool_decide (currentHost = "") in
  if Empty current && negb (bool_decide (currentHost = "")) then Err (refusal ErrorTrustUntrusted)
  else
    signer ← signer_of i t bootstrap keys current b;
    if negb (ed25519_Verify signer (TrustBundleSigningBytes b) (bundle_Signature b))
    then Err (refusal ErrorTrustUntrusted)
    else if negb bootstrap && negb (bool_decide (currentHost = bundle_HostId b)) then Err (refusal ErrorWrongHost)
    else order_check i t keys current b;; Ok (b, keys, current, currentHost, bootstrap).

Definition dropped (keys current : Keyring) : list string :=
  filter (λ id, keys !! id = None) (IDs current).

(** [Apply]. *)
Definition Apply (i : trust_io) (bundle : option HelperTrustBundle) : M TrustStore error TrustUpdate :=
  '(b, keys, current, currentHost, bootstrap) ← reads (admitted i bundle);
  (if mkdir_fails i then fail (failure "making the trust directory") else mret tt);;
  written ← write_keys i (range_order (map_to_list keys));
  mfor (dropped keys current) (remove_key i);;
  (if bool_decide (currentHost = bundle_HostId b) then mret tt else write_host i (bundle_HostId b));;
  rememberAccepted i b;;
  mret (mkUpdate (bundle_HostId b) (IDs keys)
          (written || negb (bool_decide (dropped keys current = [])) || negb (bool_decide (currentHost = bundle_HostId b)))
          bootstrap).

(** [Reset]: the host identity, the note, and every key file. *)
Definition Reset (i : trust_io) : M TrustStore error unit := λ t,
  if remove_fails i hostIDPath && bool_decide (is_Some (host_file t)) then (Err (failure "removing the host identity"), t)
  else
    let t := { t with host_file := None } in
    if remove_fails i acceptedPath && negb (bool_decide (accepted_note t = NoNote)) then (Err (failure "removing the note"), t)
    else
      let t := { t with accepted_note := NoNote } in
      if keyring_fails i then (Err (failure "reading the trust directory"), t)
      else
        mfor (filter (λ name, HasSuffix name ".pub" = true ∧ (regular <$> key_files t !! name) = Some true)
                 (sorted (map_to_list (key_files t)).*1))
          (λ name t, if remove_fails i name then (Err (failure "removing a key"), t)
                     else (Ok tt, { t with key_files := delete name (key_files t) })) t.
End trust.
