(* ===== verification/TrustProps.v ===== *)
(** * TrustProps: the keyring only moves forward

    The laws of Trust.v: what a bundle that is taken leaves on the disk, that
    neither the identity nor the moment of the last bundle goes back, whatever
    fails on the way, and where an enrollment that was cut short ends. *)
From S2P Require Import Prelude Bytes Digest Text Capability Signer Trust.
From coqutil Require Import Datatypes.RecordSetters.
Import OCamlLikeNotations.

Open Scope Z_scope.

Lemma keyPath_inj a b : keyPath a = keyPath b → a = b.
Proof.
  intros Hp. apply sbytes_inj. apply (f_equal sbytes) in Hp. unfold keyPath in Hp. rewrite !sbytes_app in Hp.
  by apply app_inv_tail in Hp.
Qed.

Lemma keyPath_pub id : HasSuffix (keyPath id) ".pub" = true.
Proof. apply HasSuffix_app. Qed.

(** ** Keyrings *)

Lemma NewKeyring_snoc l key : NewKeyring (l ++ [key]) = <[KeyID key := key]> (NewKeyring l).
Proof. unfold NewKeyring. by rewrite fold_left_app. Qed.

Lemma NewKeyring_elem l id key : NewKeyring l !! id = Some key → key ∈ l ∧ KeyID key = id.
Proof.
  induction l as [|k l IH] using rev_ind; [change (NewKeyring []) with (∅ : gmap string bytes); by rewrite lookup_empty|]. rewrite NewKeyring_snoc.
  destruct (decide (KeyID k = id)) as [<-|Hn].
  - rewrite lookup_insert_eq. intros [= <-]. split; [|done]. apply elem_of_app. right. by left.
  - rewrite lookup_insert_ne by done. intros [Hin Hid]%IH. split; [|done]. apply elem_of_app. by left.
Qed.

(** Where an identifier names one key, the keyring holds it. *)
Lemma NewKeyring_lookup l id key :
  (∀ k, k ∈ l → KeyID k = KeyID key → k = key) →
  NewKeyring l !! id = Some key ↔ key ∈ l ∧ KeyID key = id.
Proof.
  intros Hone. split; [apply NewKeyring_elem|]. intros [Hin <-]. revert Hone Hin.
  induction l as [|k l IH] using rev_ind; intros Hone Hin; [by apply elem_of_nil in Hin|]. rewrite NewKeyring_snoc.
  destruct (decide (KeyID k = KeyID key)) as [He|Hn].
  - rewrite He, lookup_insert_eq. f_equal. apply Hone; [|done]. apply elem_of_app. right. by left.
  - rewrite lookup_insert_ne by done. apply IH.
    + intros k' Hk'. apply Hone, elem_of_app. by left.
    + apply elem_of_app in Hin as [?|Hin]; [done|]. apply list_elem_of_singleton in Hin. congruence.
Qed.

Section trust.
Context {SS : SignatureScheme} {KT : KeyText} {MO : MapOrder}.

(** ** A directory of keys named by their identifiers *)

Definition key_of_file (name : string) (f : key_file) (key : bytes) : Prop :=
  f = mkKeyFile true true (EncodePublicKeyPEM key) ∧ len key = PublicKeySize ∧ name = keyPath (KeyID key).

Definition well_named (t : TrustStore) : Prop := ∀ name f,
  key_files t !! name = Some f → HasSuffix name ".pub" = true → ∃ key, key_of_file name f key.

Definition held (t : TrustStore) (key : bytes) : Prop :=
  key_files t !! keyPath (KeyID key) = Some (mkKeyFile true true (EncodePublicKeyPEM key)) ∧ len key = PublicKeySize.

Lemma held_inj t k k' : held t k → held t k' → KeyID k = KeyID k' → k = k'.
Proof.
  intros [Hk Hl] [Hk' Hl'] He. rewrite He, Hk' in Hk. injection Hk as Hk.
  enough (Some k = Some k') by congruence. by rewrite <- !Parse_Encode, Hk.
Qed.

Lemma loaded_held t key : well_named t → key ∈ loaded_keys t ↔ held t key.
Proof.
  intros Hw. unfold loaded_keys. rewrite list_elem_of_omap. split.
  - intros (name & Hin & Hk). destruct (HasSuffix name ".pub") eqn:Hs; [|done].
    apply bind_Some in Hk as (f & Hf & Hr). destruct (Hw _ _ Hf Hs) as (k & -> & Hl & ->).
    unfold readKey in Hr. cbn in Hr. rewrite Parse_Encode in Hr by done. injection Hr as <-. by split.
  - intros [Hf Hl]. exists (keyPath (KeyID key)). split.
    + rewrite (sorted_perm _). apply list_elem_of_fmap. eexists (_, _). split; [done|]. by apply elem_of_map_to_list.
    + rewrite keyPath_pub, Hf. cbn. unfold readKey. cbn. by apply Parse_Encode.
Qed.

Lemma loadKeyring_held t id key : well_named t → loadKeyring t !! id = Some key ↔ held t key ∧ KeyID key = id.
Proof.
  intros Hw. unfold loadKeyring. split.
  - intros [Hin Hid]%NewKeyring_elem. split; [|done]. by apply loaded_held.
  - intros [Hh Hid]. apply NewKeyring_lookup; [|split; [by apply loaded_held|done]].
    intros k Hk%loaded_held He; [|done]. by apply (held_inj t).
Qed.

(** ** The keys of a bundle *)

Definition ring_ok (ring : Keyring) : Prop := map_Forall (λ id key, len key = PublicKeySize ∧ KeyID key = id) ring.

Lemma bundle_keys_ok l ring keys : bundle_keys l ring = Ok keys → ring_ok ring → ring_ok keys.
Proof.
  revert ring. induction l as [|k l IH]; cbn; intros ring Hb Hr; [by injection Hb as <-|].
  destruct (bool_decide (len (key_PublicKey k) = PublicKeySize)) eqn:Hl; [|done].
  destruct (bool_decide (KeyID (key_PublicKey k) = key_KeyId k)) eqn:Hi; [|done]. cbn in Hb.
  apply (IH _ Hb). apply map_Forall_insert_2; [|done]. apply bool_decide_eq_true in Hl, Hi. by split.
Qed.

Lemma checkBundle_Ok bundle b keys :
  checkBundle bundle = Ok (b, keys) →
  bundle = Some b ∧ bundle_HostId b ≠ "" ∧ ring_ok keys ∧ bundle_keys (bundle_Keys b) ∅ = Ok keys.
Proof.
  unfold checkBundle. destruct bundle as [b'|]; [|done]. case_bool_decide as Hh; [done|]. case_bool_decide; [done|].
  destruct (negb _); [done|]. destruct (bundle_keys _ _) as [ks|] eqn:Hk; cbn; [|done]. intros [= -> ->].
  split_and!; [done|done| |done]. eapply bundle_keys_ok; [exact Hk|]. apply map_Forall_empty.
Qed.

(** ** What the steps of [Apply] change *)

Definition same_rest (t t' : TrustStore) : Prop :=
  host_file t' = host_file t ∧ accepted_note t' = accepted_note t ∧ pin_file t' = pin_file t
  ∧ bootstrap_policy t' = bootstrap_policy t.

#[local] Instance same_rest_refl : Reflexive same_rest. Proof. done. Qed.
#[local] Instance same_rest_trans : Transitive same_rest.
Proof. intros a b c (?&?&?&?) (?&?&?&?). unfold same_rest. intuition congruence. Qed.

Lemma well_named_insert t id key :
  well_named t → len key = PublicKeySize → KeyID key = id →
  well_named { t with key_files := <[keyPath id := mkKeyFile true true (EncodePublicKeyPEM key)]> (key_files t) }.
Proof.
  intros Hw Hl <- name f Hf Hs. cbn in Hf. unfold constant in Hf.
  destruct (decide (name = keyPath (KeyID key))) as [->|Hn].
  - rewrite lookup_insert_eq in Hf. injection Hf as <-. by exists key.
  - rewrite lookup_insert_ne in Hf by done. by apply (Hw name).
Qed.

Lemma well_named_delete t name :
  well_named t → well_named { t with key_files := delete name (key_files t) }.
Proof. intros Hw name' f Hf. cbn in Hf. unfold constant in Hf. apply lookup_delete_Some in Hf as [_ Hf]. by apply Hw. Qed.

(** One key: it is held, and the others stay as they were. *)
Lemma write_key_run i id key t r t' :
  write_key i id key t = (r, t') → len key = PublicKeySize → KeyID key = id → well_named t →
  well_named t' ∧ same_rest t t'
  ∧ (∀ name, name ≠ keyPath id → key_files t' !! name = key_files t !! name)
  ∧ (is_ok r = true → held t' key)
  ∧ (key_files t' = key_files t ∨ held t' key).
Proof.
  intros Hr Hl Hid Hw. unfold write_key in Hr. case_bool_decide as He; [|destruct (write_fails i _)]; injection Hr as <- <-.
  - assert (Hh : held t key).
    { split; [|done]. rewrite Hid. destruct (key_files t !! keyPath id) as [f|] eqn:Hf; [|done].
      destruct (Hw _ _ Hf (keyPath_pub id)) as (k & -> & _ & _). cbn in He. injection He as ->. done. }
    by split_and!; [|done|..|left].
  - by split_and!; [|done|..|left].
  - assert (Hh : held { t with key_files := <[keyPath id := mkKeyFile true true (EncodePublicKeyPEM key)]> (key_files t) } key).
    { split; [|done]. cbn. unfold constant. rewrite Hid. apply lookup_insert_eq. }
    split_and!; [by apply well_named_insert|done| |done|by right].
    intros name Hn. cbn. unfold constant. by rewrite lookup_insert_ne.
Qed.

Lemma write_keys_run i keys t r t' :
  write_keys i keys t = (r, t') → Forall (λ ik, len ik.2 = PublicKeySize ∧ KeyID ik.2 = ik.1) keys → NoDup keys.*1 →
  well_named t →
  well_named t' ∧ same_rest t t'
  ∧ (∀ name, (∀ id, id ∈ keys.*1 → name ≠ keyPath id) → key_files t' !! name = key_files t !! name)
  ∧ (is_ok r = true → ∀ id key, (id, key) ∈ keys → held t' key)
  ∧ (key_files t' = key_files t ∨ ∃ id key, (id, key) ∈ keys ∧ held t' key).
Proof.
  revert t r t'. induction keys as [|[id key] keys IH]; intros t r t' Hr Hk Hn Hw.
  - injection Hr as <- <-. split_and!; try done; [|by left]. by intros _ ? ? ?%elem_of_nil.
  - cbn in Hr, Hn. unfold mbind, M_bind in Hr. apply Forall_cons in Hk as [[Hl Hid] Hk]. cbn in Hl, Hid.
    apply NoDup_cons in Hn as [Hnew Hn].
    destruct (write_key i id key t) as [r1 t1] eqn:H1.
    destruct (write_key_run _ _ _ _ _ _ H1 Hl Hid Hw) as (Hw1 & Hs1 & Hf1 & Hk1 & Hc1).
    destruct r1 as [changed|e].
    + destruct (write_keys i keys t1) as [r2 t2] eqn:H2.
      destruct (IH _ _ _ H2 Hk Hn Hw1) as (Hw2 & Hs2 & Hf2 & Hk2 & Hc2).
      assert (Ht : t' = t2 ∧ is_ok r = is_ok r2) by (destruct r2; by injection Hr as <- <-).
      destruct Ht as [-> ->].
      assert (Hheld : held t2 key).
      { split; [|done]. rewrite Hf2; [by apply Hk1|]. intros id' Hin Hp%keyPath_inj. apply Hnew. by rewrite <- Hid, Hp. }
      split_and!; [done|by etrans| | |right; exists id, key; by split; [left|]].
      * intros name Hname. rewrite Hf2, Hf1; [done|apply Hname; by left|]. intros id' Hin. apply Hname. by right.
      * intros Hok id' key' [Heq|Hin]%elem_of_cons; [injection Heq as -> ->; exact Hheld|]. by apply (Hk2 Hok id' key').
    + injection Hr as <- <-. split_and!; [done|done| |done|].
      * intros name Hname. apply Hf1, Hname. by left.
      * destruct Hc1 as [Hc1|Hc1]; [by left|right; exists id, key; by split; [left|]].
Qed.

(** The keys the bundle does not carry. *)
Lemma remove_keys_run i ids t r t' :
  mfor ids (remove_key i) t = (r, t') → well_named t →
  well_named t' ∧ same_rest t t'
  ∧ (∀ name, (∀ id, id ∈ ids → name ≠ keyPath id) → key_files t' !! name = key_files t !! name)
  ∧ (is_ok r = true → ∀ id, id ∈ ids → key_files t' !! keyPath id = None).
Proof.
  revert t r t'. induction ids as [|id ids IH]; intros t r t' Hr Hw.
  - injection Hr as <- <-. split_and!; try done. by intros _ ? ?%elem_of_nil.
  - cbn in Hr. unfold mbind, M_bind, remove_key at 1 in Hr. destruct (remove_fails i (keyPath id) && _).
    + injection Hr as <- <-. by split_and!.
    + set (t1 := { t with key_files := delete (keyPath id) (key_files t) }) in Hr.
      assert (H1 : ∀ name, key_files t1 !! name = delete (keyPath id) (key_files t) !! name) by done.
      destruct (IH _ _ _ Hr (well_named_delete _ (keyPath id) Hw)) as (Hw2 & Hs2 & Hf2 & Hg2). split_and!; [done|done| |].
      * intros name Hn. rewrite Hf2, H1, lookup_delete_ne; [done| |intros id' Hin; apply Hn; by right].
        intros Hp. apply (Hn id); [by left|done].
      * intros Hok id' [->|Hin]%elem_of_cons; [|by apply Hg2].
        destruct (decide (id ∈ ids)); [by apply Hg2|]. rewrite Hf2, H1, lookup_delete_eq; [done|].
        intros id' Hin Hp%keyPath_inj. by subst.
Qed.

(** ** [Apply] *)

Lemma admitted_Ok i bundle t b keys current host boot :
  admitted i bundle t = Ok (b, keys, current, host, boot) →
  bundle = Some b ∧ bundle_HostId b ≠ "" ∧ ring_ok keys ∧ bundle_keys (bundle_Keys b) ∅ = Ok keys
  ∧ current = loadKeyring t ∧ host = host_id t
  ∧ boot = Empty current && bool_decide (host = "")
  ∧ (boot = false → current ≠ ∅ ∧ host = bundle_HostId b)
  ∧ (∃ signer, signer_of i t boot keys current b = Ok signer
       ∧ ed25519_Verify signer (TrustBundleSigningBytes b) (bundle_Signature b) = true)
  ∧ order_check i t keys current b = Ok tt.
Proof.
  unfold admitted. intros Ha. apply result_bind_Ok in Ha as ([b' keys'] & (-> & Hh & Hk & Hl)%checkBundle_Ok & Ha).
  apply result_bind_Ok in Ha as (current' & Hc & Ha). apply result_bind_Ok in Ha as (host' & Hi & Ha).
  unfold KeyringOf, HostID in Hc, Hi. destruct (keyring_fails i); [done|]. destruct (host_fails i); [done|].
  injection Hc as <-. injection Hi as <-.
  destruct (Empty (loadKeyring t) && negb _) eqn:He; [done|].
  apply result_bind_Ok in Ha as (signer & Hs & Ha).
  destruct (ed25519_Verify signer _ _) eqn:Hv; [|done]. cbn [negb] in Ha.
  destruct (negb _ && negb (bool_decide (host_id t = bundle_HostId b'))) eqn:Hn; [done|].
  apply result_bind_Ok in Ha as ([] & Ho & Ha). injection Ha as <- <- <- <- <-.
  split_and!; try done; [|by eexists]. intros Hb. rewrite Hb in Hn. cbn in Hn.
  apply negb_false_iff, bool_decide_eq_true in Hn. split; [|done].
  unfold Empty in *. destruct (bool_decide (loadKeyring t = ∅)) eqn:Hz; [|by apply bool_decide_eq_false in Hz].
  cbn in Hb, He. rewrite Hb in He. done.
Qed.

Lemma order_check_Ok i t keys current b :
  order_check i t keys current b = Ok tt →
  accepted_IssuedUnix (accepted t) ≤ bundle_IssuedUnix b
  ∧ (accepted_IssuedUnix (accepted t) = bundle_IssuedUnix b → ∀ id, is_Some (current !! id) → is_Some (keys !! id)).
Proof.
  unfold order_check, acceptedState. destruct (note_fails i); [done|]. cbn. case_bool_decide as Hl; [done|].
  intros Ho. split; [lia|]. intros He id Hid. rewrite (bool_decide_eq_true_2 _ He) in Ho. cbn in Ho.
  destruct (forallb _ _) eqn:Hf; [|done]. rewrite forallb_forall in Hf. apply (bool_decide_eq_true (is_Some (keys !! id))).
  apply Hf, list_elem_of_In. unfold IDs. rewrite (sorted_perm _), list_elem_of_fmap.
  destruct Hid as [k Hk]. exists (id, k). split; [done|]. by apply elem_of_map_to_list.
Qed.

Definition noted (b : HelperTrustBundle) : note :=
  Note (mkAccepted (bundle_HostId b) (bundle_IssuedUnix b) (bundle_SignedByKeyId b)).
Definition host_line (host : string) : bytes := sbytes host ++ [Byte.x0a].

(** A bundle the checks let through, whatever fails afterwards. *)
Record advanced (b : HelperTrustBundle) (t t' : TrustStore) : Prop := {
  advanced_named : well_named t';
  advanced_pins : pin_file t' = pin_file t ∧ bootstrap_policy t' = bootstrap_policy t;
  advanced_host : host_file t' = host_file t
    ∨ host_id t ≠ bundle_HostId b ∧ host_file t' = Some (host_line (bundle_HostId b));
  advanced_note : accepted_note t' = accepted_note t ∨ accepted_note t' = noted b;
}.

(** And one that was taken to the end. *)
Record installed (b : HelperTrustBundle) (keys : Keyring) (t t' : TrustStore) : Prop := {
  installed_ring : loadKeyring t' = keys;
  installed_note : accepted_note t' = noted b;
  installed_host : host_file t' = if decide (host_id t = bundle_HostId b) then host_file t
                                  else Some (host_line (bundle_HostId b));
}.

Lemma ring_pairs keys : ring_ok keys →
  Forall (λ ik, len ik.2 = PublicKeySize ∧ KeyID ik.2 = ik.1) (range_order (map_to_list keys))
  ∧ NoDup (range_order (map_to_list keys)).*1.
Proof.
  intros Hr. rewrite range_order_perm. split; [|apply NoDup_fst_map_to_list].
  apply Forall_forall. intros [id key] Hin. apply (Hr id key), elem_of_map_to_list, Hin.
Qed.

Lemma dropped_elem keys current id : id ∈ dropped keys current ↔ keys !! id = None ∧ is_Some (current !! id).
Proof.
  unfold dropped, IDs. rewrite list_elem_of_filter, (sorted_perm _), list_elem_of_fmap. apply and_iff_compat_l. split.
  - intros ([id' key] & -> & Hin). exists key. by apply elem_of_map_to_list.
  - intros [key Hk]. exists (id, key). split; [done|]. by apply elem_of_map_to_list.
Qed.

(** The keyring after the writes and the removals. *)
Lemma replaced_ring t t1 t2 keys :
  well_named t → well_named t2 → ring_ok keys →
  (∀ id key, keys !! id = Some key → held t1 key) →
  (∀ name, (∀ id, is_Some (keys !! id) → name ≠ keyPath id) → key_files t1 !! name = key_files t !! name) →
  (∀ name, (∀ id, id ∈ dropped keys (loadKeyring t) → name ≠ keyPath id) → key_files t2 !! name = key_files t1 !! name) →
  (∀ id, id ∈ dropped keys (loadKeyring t) → key_files t2 !! keyPath id = None) →
  loadKeyring t2 = keys.
Proof.
  intros Hw Hw2 Hr Hwritten Hkept Hkept2 Hgone.
  assert (Hheld : ∀ id key, keys !! id = Some key → held t2 key).
  { intros id key Hk. destruct (Hwritten id key Hk) as [Hf Hl]. split; [|done]. rewrite Hkept2; [done|].
    intros id' [Hn _]%dropped_elem Hp%keyPath_inj. destruct (Hr id key Hk) as [_ Hid]. congruence. }
  apply map_eq. intros id. apply option_eq. intros key. rewrite loadKeyring_held by done. split.
  - intros [Hh Hid]. destruct (keys !! id) as [key'|] eqn:Hk.
    + f_equal. destruct (Hr id key' Hk) as [_ Hid']. apply (held_inj t2); [by eapply Hheld|done|by rewrite Hid', Hid].
    + exfalso. destruct (decide (id ∈ dropped keys (loadKeyring t))) as [Hd|Hd].
      * destruct Hh as [Hf _]. rewrite Hid, (Hgone id Hd) in Hf. done.
      * apply Hd, dropped_elem. split; [done|]. exists key. apply loadKeyring_held; [done|]. split; [|done].
        destruct Hh as [Hf Hl]. split; [|done]. rewrite <- Hf, Hid, Hkept2, Hkept; [done| |].
        -- intros id' [k' Hk'] Hp%keyPath_inj. congruence.
        -- intros id' Hd' Hp%keyPath_inj. by subst.
  - intros Hk. split; [by eapply Hheld|]. by destruct (Hr id key Hk).
Qed.

Definition outcome (b : HelperTrustBundle) (keys : Keyring) (t : TrustStore) (rt : result error TrustUpdate * TrustStore) : Prop :=
  advanced b t rt.2 ∧ ∀ u, rt.1 = Ok u → installed b keys t rt.2 ∧ update_KeyIDs u = IDs keys ∧ update_HostID u = bundle_HostId b.

Lemma same_rest_advanced b t t' : well_named t' → same_rest t t' → advanced b t t'.
Proof. intros Hw (Hh & Hn & Hp & Hb). split; [done|by split|by left|by left]. Qed.

(** The last two writes. *)
Lemma finish_run i b keys u t t2 :
  well_named t2 → same_rest t t2 → loadKeyring t2 = keys →
  update_KeyIDs u = IDs keys → update_HostID u = bundle_HostId b →
  outcome b keys t
    (((if bool_decide (host_id t = bundle_HostId b) then mret tt else write_host i (bundle_HostId b));;
      rememberAccepted i b;; mret u) t2).
Proof.
  intros Hw Hs Hk Hids Hhost. pose proof Hs as (Hh & Hn & Hp & Hb). unfold mbind, M_bind, write_host, rememberAccepted.
  case_bool_decide as He; cbn; [|destruct (write_fails i hostIDPath); cbn];
    [|by split; [apply same_rest_advanced|]|]; destruct (write_fails i acceptedPath); cbn.
  - by split; [apply same_rest_advanced|].
  - split; [split; [done|by split|by left|by right]|]. intros _ [= <-]. split; [|done].
    split; [done|done|]. cbn. by rewrite decide_True.
  - split; [|done]. split; [done|by split|right; by split|by left].
  - split; [split; [done|by split|right; by split|by right]|]. intros _ [= <-]. split; [|done].
    split; [done|done|]. cbn. by rewrite decide_False.
Qed.

Lemma Apply_run i bundle t : well_named t →
  match admitted i bundle t with
  | Err e => Apply i bundle t = (Err e, t)
  | Ok (b, keys, _, _, _) => outcome b keys t (Apply i bundle t)
  end.
Proof.
  intros Hw. unfold Apply. destruct (admitted i bundle t) as [[[[[b keys] current] host] boot]|e] eqn:Ha.
  2: { apply bind_Err. unfold reads. by rewrite Ha. }
  destruct (admitted_Ok _ _ _ _ _ _ _ _ Ha) as (_ & _ & Hr & _ & -> & -> & _).
  destruct (ring_pairs keys Hr) as [Hpairs Hdup].
  erewrite bind_Ok by (unfold reads; by rewrite Ha).
  destruct (mkdir_fails i); [erewrite bind_Err by done; by split; [apply same_rest_advanced|]|mstep].
  destruct (write_keys i (range_order (map_to_list keys)) t) as [[written|e] t1] eqn:H1;
    destruct (write_keys_run _ _ _ _ _ H1 Hpairs Hdup Hw) as (Hw1 & Hs1 & Hf1 & Hk1 & _);
    [mstep with H1|erewrite bind_Err by exact H1; by split; [apply same_rest_advanced|]].
  destruct (mfor (dropped keys (loadKeyring t)) (remove_key i) t1) as [[[]|e] t2] eqn:H2;
    destruct (remove_keys_run _ _ _ _ _ H2 Hw1) as (Hw2 & Hs2 & Hf2 & Hg2);
    [mstep with H2|erewrite bind_Err by exact H2; by split; [apply same_rest_advanced; [|etrans]|]].
  apply finish_run; [done|by etrans| |done|done].
  apply (replaced_ring t t1); [done|done|done| | |done|by apply Hg2].
  - intros id key Hk. apply (Hk1 eq_refl id key). rewrite range_order_perm. by apply elem_of_map_to_list.
  - intros name Hn. apply Hf1. intros id Hin. apply Hn. rewrite range_order_perm in Hin.
    apply list_elem_of_fmap in Hin as ([id' key] & -> & Hin). exists key. by apply elem_of_map_to_list.
Qed.
End trust.
