(* ===== verification/TrustLaws.v ===== *)
(** * TrustLaws: what the trust of a helper promises

    The theorems of Trust.v and Signer.v: a bundle that is taken replaces the
    keyring, the trust only moves forward, a key rotation of the panel
    completes, and an enrollment cut short leaves a helper no bundle reaches. *)
From S2P Require Import Prelude Bytes Digest Text Capability Signer Trust TrustProps.
From coqutil Require Import Datatypes.RecordSetters.
Import OCamlLikeNotations.

Open Scope Z_scope.

Section laws.
Context {SS : SignatureScheme} {KT : KeyText} {MO : MapOrder}.

(** Bundles one after the other, each with its own faults. *)
Definition apply_all (l : list (trust_io * option HelperTrustBundle)) (t : TrustStore) : TrustStore :=
  fold_left (λ t ib, (Apply ib.1 ib.2 t).2) l t.

Definition forward (t t' : TrustStore) : Prop :=
  well_named t' ∧ pin_file t' = pin_file t ∧ bootstrap_policy t' = bootstrap_policy t
  ∧ accepted_IssuedUnix (accepted t) ≤ accepted_IssuedUnix (accepted t')
  ∧ (host_id t ≠ "" → host_file t' = host_file t).

Lemma admitted_host i bundle t b keys current host boot :
  admitted i bundle t = Ok (b, keys, current, host, boot) → host_id t ≠ "" → host_id t = bundle_HostId b.
Proof.
  intros Ha Hh. destruct (admitted_Ok _ _ _ _ _ _ _ _ Ha) as (_ & _ & _ & _ & _ & -> & Hb & Hn & _).
  apply Hn. rewrite Hb, (bool_decide_eq_false_2 _ Hh). apply andb_false_r.
Qed.

Lemma Apply_forward i bundle t : well_named t → forward t (Apply i bundle t).2.
Proof.
  intros Hw. pose proof (Apply_run i bundle t Hw) as Hr.
  destruct (admitted i bundle t) as [[[[[b keys] current] host] boot]|e] eqn:Ha.
  - destruct Hr as [[Hw' [Hp Hb] Hh Hn] _]. unfold forward. split_and!; [done..| |].
    + destruct (admitted_Ok _ _ _ _ _ _ _ _ Ha) as (_ & _ & _ & _ & -> & _ & _ & _ & _ & [Ho _]%order_check_Ok).
      unfold accepted in Ho |- *. destruct Hn as [->| ->]; [done|]. apply Ho.
    + intros Hne. destruct Hh as [?|[Hdiff _]]; [done|]. by destruct Hdiff; eapply admitted_host.
  - rewrite Hr. unfold forward. by split_and!.
Qed.

Lemma apply_all_forward l t : well_named t → forward t (apply_all l t).
Proof.
  revert t. induction l as [|[i bundle] l IH]; intros t Hw; [by unfold forward; split_and!|].
  destruct (Apply_forward i bundle t Hw) as (Hw1 & Hp1 & Hb1 & Ha1 & Hh1).
  destruct (IH _ Hw1) as (Hw2 & Hp2 & Hb2 & Ha2 & Hh2). unfold forward. cbn [apply_all fold_left] in *.
  split_and!; [done|by rewrite <- Hp1|by rewrite <- Hb1|by etrans|].
  intros Hne. unfold host_id in Hh2. rewrite (Hh1 Hne) in Hh2. by apply Hh2.
Qed.

Lemma Apply_Ok_inv i bundle t u t' : well_named t → Apply i bundle t = (Ok u, t') →
  ∃ b keys current host boot, admitted i bundle t = Ok (b, keys, current, host, boot)
    ∧ advanced b t t' ∧ installed b keys t t' ∧ update_KeyIDs u = IDs keys ∧ update_HostID u = bundle_HostId b.
Proof.
  intros Hw Hr. pose proof (Apply_run i bundle t Hw) as Ho. rewrite Hr in Ho.
  destruct (admitted i bundle t) as [[[[[b keys] current] host] boot]|e]; [|done].
  destruct Ho as [Hadv Hi]. destruct (Hi u eq_refl) as (Hin & Hids & Hhost). by exists b, keys, current, host, boot.
Qed.

(** A bundle that is taken replaces the keyring: what the helper loads
    afterwards is exactly the keys of the bundle, whatever keys it had, and the
    identity and the note are those of the bundle. *)
Theorem Apply_installs_the_bundle i bundle t u t' :
  well_named t → Apply i bundle t = (Ok u, t') →
  ∃ b keys, bundle = Some b ∧ bundle_keys (bundle_Keys b) ∅ = Ok keys ∧ loadKeyring t' = keys
    ∧ update_KeyIDs u = IDs keys ∧ accepted t' = mkAccepted (bundle_HostId b) (bundle_IssuedUnix b) (bundle_SignedByKeyId b)
    ∧ well_named t' ∧ (host_file t' = host_file t ∧ host_id t = bundle_HostId b
                       ∨ host_id t = "" ∧ host_file t' = Some (host_line (bundle_HostId b))).
Proof.
  intros Hw Hr. destruct (Apply_Ok_inv _ _ _ _ _ Hw Hr) as (b & keys & current & host & boot & Ha & Hadv & [Hring Hn Hh] & Hids & _).
  destruct (admitted_Ok _ _ _ _ _ _ _ _ Ha) as (-> & _ & _ & Hk & _).
  exists b, keys. split_and!; try done; [by unfold accepted; rewrite Hn|by apply Hadv|]. rewrite Hh.
  case_decide as He; [by left|right]. split; [|done].
  destruct (decide (host_id t = "")) as [|Hne]; [done|]. by destruct He; eapply admitted_host.
Qed.

(** A bundle older than one the helper has taken is refused and changes
    nothing, whatever bundles and failures came in between: no replay of an
    older bundle undoes a key rotation. *)
Theorem an_older_bundle_changes_nothing i b1 t u t1 l j b :
  well_named t → Apply i (Some b1) t = (Ok u, t1) → bundle_IssuedUnix b < bundle_IssuedUnix b1 →
  ∃ e, Apply j (Some b) (apply_all l t1) = (Err e, apply_all l t1).
Proof.
  intros Hw Hr Hold. destruct (Apply_Ok_inv _ _ _ _ _ Hw Hr) as (b' & keys & c & h & o & Ha & Hadv & [_ Hn _] & _).
  destruct (admitted_Ok _ _ _ _ _ _ _ _ Ha) as ([= <-] & _).
  destruct (apply_all_forward l t1) as (Hw2 & _ & _ & Hle & _); [by apply Hadv|].
  unfold accepted in Hle at 1. rewrite Hn in Hle. cbn in Hle.
  pose proof (Apply_run j (Some b) (apply_all l t1) Hw2) as Ho.
  destruct (admitted j (Some b) (apply_all l t1)) as [[[[[b' keys'] c'] h'] o']|e] eqn:Ha'; [|by exists e].
  destruct (admitted_Ok _ _ _ _ _ _ _ _ Ha') as ([= <-] & _ & _ & _ & _ & _ & _ & _ & _ & [Hge _]%order_check_Ok). lia.
Qed.

(** C6: What it takes to change the trust of a helper: any change follows a
    bundle signed by a key of the keyring that names this host, or, on a host
    with no key and no identity, a bundle signed by a key it carries itself
    that the pins name (or that no pin excludes under tofu). *)
Theorem trust_changes_only_by_a_trusted_bundle i bundle t :
  well_named t → (Apply i bundle t).2 ≠ t →
  ∃ b keys signer, bundle = Some b ∧ bundle_keys (bundle_Keys b) ∅ = Ok keys
    ∧ ed25519_Verify signer (TrustBundleSigningBytes b) (bundle_Signature b) = true
    ∧ (loadKeyring t !! bundle_SignedByKeyId b = Some signer ∧ host_id t = bundle_HostId b
       ∨ loadKeyring t = ∅ ∧ host_id t = "" ∧ keys !! bundle_SignedByKeyId b = Some signer
         ∧ ∃ pins, Pins i t = Ok pins ∧ (KeyFingerprint signer ∈ pins ∨ pins = [] ∧ bootstrap_policy t = BootstrapTOFU)).
Proof.
  intros Hw Hne. pose proof (Apply_run i bundle t Hw) as Ho.
  destruct (admitted i bundle t) as [[[[[b keys] c] h] o]|e] eqn:Ha; [|by destruct Hne; rewrite Ho].
  destruct (admitted_Ok _ _ _ _ _ _ _ _ Ha) as (-> & _ & _ & Hk & -> & -> & Hb & Hn & (signer & Hs & Hv) & _).
  exists b, keys, signer. split_and!; [done..|]. unfold signer_of in Hs. destruct o.
  - right. symmetry in Hb. apply andb_true_iff in Hb as [He Hh]. unfold Empty in He. apply bool_decide_eq_true in He, Hh.
    destruct (Lookup keys _) as [k|] eqn:Hl; [|done]. apply result_bind_Ok in Hs as ([] & Hp & [= <-]).
    split_and!; [done..|]. unfold checkPin in Hp. apply result_bind_Ok in Hp as (pins & Hpins & Hp). exists pins.
    split; [done|]. case_bool_decide; [right|left]; by case_bool_decide.
  - left. destruct (Hn eq_refl) as [_ Hh]. by destruct (Lookup (loadKeyring t) _) as [k|] eqn:Hl; [injection Hs as ->|].
Qed.

(** ** A helper that no bundle reaches *)

(** Keys, and no identity. *)
Definition wedged (t : TrustStore) : Prop := host_id t = "" ∧ loadKeyring t ≠ ∅.

Lemma wedged_refuses t i bundle : well_named t → wedged t → ∃ e, Apply i bundle t = (Err e, t).
Proof.
  intros Hw [Hh Hk]. pose proof (Apply_run i bundle t Hw) as Ho.
  destruct (admitted i bundle t) as [[[[[b keys] c] h] o]|e] eqn:Ha; [|by exists e].
  destruct (admitted_Ok _ _ _ _ _ _ _ _ Ha) as (_ & Hne & _ & _ & -> & -> & Hb & Hn & _).
  unfold Empty in Hb. rewrite (bool_decide_eq_false_2 _ Hk) in Hb. cbn in Hb. destruct (Hn Hb) as [_ He]. congruence.
Qed.

(** ** The bundles of the panel *)

Definition panel_ring (s : Signer) : Keyring := NewKeyring (key_PublicKey <$> TrustedKeys s).

Lemma bundle_keys_NewKeyring l ring :
  Forall (λ k, len (key_PublicKey k) = PublicKeySize ∧ KeyID (key_PublicKey k) = key_KeyId k) l →
  bundle_keys l ring = Ok (fold_left (λ r key, <[KeyID key := key]> r) (key_PublicKey <$> l) ring).
Proof.
  intros Hl. revert ring. induction Hl as [|k l [Hlen Hid] _ IH]; intros ring; [done|]. cbn.
  rewrite (bool_decide_eq_true_2 _ Hlen), (bool_decide_eq_true_2 _ Hid). cbn. rewrite IH. by rewrite <- Hid.
Qed.

Lemma panel_checks s host now : host ≠ "" →
  checkBundle (Some (TrustBundle s host now)) = Ok (TrustBundle s host now, panel_ring s).
Proof.
  intros Hh. unfold checkBundle. cbn [TrustBundle bundle_HostId bundle_Keys bundle_Signature].
  rewrite (bool_decide_eq_false_2 _ Hh), len_Sign. unfold SignatureSize. rewrite bundle_keys_NewKeyring; [done|].
  unfold TrustedKeys. destruct (signer_previous s); repeat constructor; cbn; try done; apply len_Public.
Qed.

Lemma panel_signs s host now :
  ed25519_Verify (PublicKey (bundle_signer s)) (TrustBundleSigningBytes (TrustBundle s host now))
    (bundle_Signature (TrustBundle s host now)) = true.
Proof. apply (Verify_Sign (signer_key (bundle_signer s))). Qed.

Lemma write_keys_succeeds i keys t : (∀ id, write_fails i (keyPath id) = false) → is_ok (write_keys i keys t).1 = true.
Proof.
  intros Hi. revert t. induction keys as [|[id key] keys IH]; intros t; [done|]. cbn [write_keys].
  assert (H1 : is_ok (write_key i id key t).1 = true) by (unfold write_key; rewrite Hi; by case_bool_decide).
  destruct (write_key i id key t) as [[c|] t1] eqn:Hk; [mstep with Hk|done].
  specialize (IH t1). by destruct (write_keys i keys t1) as [[d|] t2] eqn:Hr; [mstep with Hr|].
Qed.

Lemma remove_keys_succeeds i ids t : (∀ name, remove_fails i name = false) → is_ok (mfor ids (remove_key i) t).1 = true.
Proof.
  intros Hi. revert t. induction ids as [|id ids IH]; intros t; [done|]. cbn. unfold mbind, M_bind, remove_key at 1.
  rewrite Hi. apply IH.
Qed.

Lemma admitted_is_taken b keys c h o t :
  well_named t → admitted good_trust_io (Some b) t = Ok (b, keys, c, h, o) →
  ∃ u t', Apply good_trust_io (Some b) t = (Ok u, t') ∧ advanced b t t' ∧ installed b keys t t'.
Proof.
  intros Hw Ha. pose proof (Apply_run good_trust_io (Some b) t Hw) as Ho. rewrite Ha in Ho.
  assert (Hok : is_ok (Apply good_trust_io (Some b) t).1 = true).
  { unfold Apply. erewrite bind_Ok by (unfold reads; by rewrite Ha). cbn [mkdir_fails good_trust_io]. mstep.
    pose proof (write_keys_succeeds good_trust_io (range_order (map_to_list keys)) t (λ _, eq_refl)) as Hwr.
    destruct (write_keys _ _ t) as [[written|] t1] eqn:H1; [|done]. mstep with H1.
    pose proof (remove_keys_succeeds good_trust_io (dropped keys c) t1 (λ _, eq_refl)) as Hrm.
    destruct (mfor _ _ t1) as [[[]|] t2] eqn:H2; [|done]. mstep with H2.
    generalize (mkUpdate (bundle_HostId b) (IDs keys)
      (written || negb (bool_decide (dropped keys c = [])) || negb (bool_decide (h = bundle_HostId b))) o).
    by case_bool_decide. }
  destruct (Apply good_trust_io (Some b) t) as [[u|e] t']; [|done]. destruct Ho as [Hadv Hi].
  exists u, t'. split_and!; [done|done|]. by destruct (Hi u eq_refl).
Qed.

(** A helper that trusts the signing key of the panel takes its bundle. *)
Lemma panel_bundle_is_taken i s host now t :
  well_named t → i = good_trust_io → host ≠ "" → host_id t = host →
  loadKeyring t !! signer_KeyID (bundle_signer s) = Some (PublicKey (bundle_signer s)) →
  accepted_IssuedUnix (accepted t) < now →
  ∃ u t', Apply i (Some (TrustBundle s host now)) t = (Ok u, t') ∧ well_named t' ∧ loadKeyring t' = panel_ring s
    ∧ host_id t' = host ∧ accepted_IssuedUnix (accepted t') = now.
Proof.
  intros Hw -> Hne Hh Hk Hnow.
  assert (Ha : admitted good_trust_io (Some (TrustBundle s host now)) t
               = Ok (TrustBundle s host now, panel_ring s, loadKeyring t, host, false)).
  { unfold admitted. rewrite panel_checks by done. cbn -[TrustBundle panel_ring].
    assert (He : Empty (loadKeyring t) = false) by (apply bool_decide_eq_false_2; intros He; by rewrite He, lookup_empty in Hk).
    rewrite He, Hh. cbn -[TrustBundle panel_ring]. unfold signer_of, Lookup.
    change (bundle_SignedByKeyId (TrustBundle s host now)) with (signer_KeyID (bundle_signer s)).
    rewrite Hk. cbn -[TrustBundle panel_ring]. rewrite panel_signs. cbn -[TrustBundle panel_ring].
    rewrite bool_decide_eq_true_2 by done. cbn -[TrustBundle panel_ring]. unfold order_check, acceptedState. cbn -[panel_ring].
    rewrite bool_decide_eq_false_2 by lia. rewrite bool_decide_eq_false_2 by lia. done. }
  destruct (admitted_is_taken _ _ _ _ _ _ Hw Ha) as (u & t' & Hr & Hadv & [Hring Hn Hhost]). exists u, t'.
  split_and!; [done|by apply Hadv|done| |by unfold accepted; rewrite Hn].
  rewrite decide_True in Hhost by done. unfold host_id. by rewrite Hhost.
Qed.

(** C32: A key rotation of the panel completes on a helper it reaches: from the
    keyring of the old key alone, the bundle of the overlap leaves both keys
    and the bundle after it the new key alone, and the identity of the host is
    the same throughout. *)
Theorem rotation_completes new old host now1 now2 t :
  KeyID (ed25519_Public new) ≠ KeyID (ed25519_Public old) →
  well_named t → host ≠ "" → host_id t = host → loadKeyring t = panel_ring (NewSignerFromKey old) →
  accepted_IssuedUnix (accepted t) < now1 < now2 →
  let overlap := WithPrevious (NewSignerFromKey new) (Some (NewSignerFromKey old)) in
  ∃ u1 t1 u2 t2,
    Apply good_trust_io (Some (TrustBundle overlap host now1)) t = (Ok u1, t1)
    ∧ loadKeyring t1 = {[KeyID (ed25519_Public new) := ed25519_Public new; KeyID (ed25519_Public old) := ed25519_Public old]}
    ∧ Apply good_trust_io (Some (TrustBundle (NewSignerFromKey new) host now2)) t1 = (Ok u2, t2)
    ∧ loadKeyring t2 = {[KeyID (ed25519_Public new) := ed25519_Public new]} ∧ host_id t2 = host.
Proof.
  intros Hkeys Hw Hne Hh Hk [Hnow1 Hnow2].
  assert (Ho : WithPrevious (NewSignerFromKey new) (Some (NewSignerFromKey old)) = rotated new (NewSignerFromKey old)).
  { cbn. by rewrite bool_decide_eq_false_2 by (intros He; by apply Hkeys). }
  rewrite Ho. cbn zeta.
  destruct (panel_bundle_is_taken good_trust_io (rotated new (NewSignerFromKey old)) host now1 t) as (u1 & t1 & Hr1 & Hw1 & Hk1 & Hh1 & Ha1);
    [done..|rewrite Hk; apply lookup_insert_eq|done|].
  assert (Hring : panel_ring (rotated new (NewSignerFromKey old))
    = {[KeyID (ed25519_Public new) := ed25519_Public new; KeyID (ed25519_Public old) := ed25519_Public old]}).
  { unfold panel_ring, NewKeyring. cbn. rewrite insert_insert_ne by done. done. }
  destruct (panel_bundle_is_taken good_trust_io (NewSignerFromKey new) host now2 t1) as (u2 & t2 & Hr2 & Hw2 & Hk2 & Hh2 & Ha2);
    [done..|rewrite Hk1, Hring; apply lookup_insert_eq|lia|].
  exists u1, t1, u2, t2. split_and!; [done|by rewrite Hk1|done|by rewrite Hk2|done].
Qed.

(** ** An enrollment cut short *)

Definition fresh (policy : Bootstrap) : TrustStore := mkTrust ∅ None NoNote None policy.

(** Only the identity of the host cannot be written. *)
Definition no_host_write : trust_io := { good_trust_io with write_fails := λ path, bool_decide (path = hostIDPath) }.

Lemma panel_ring_signer s : panel_ring s !! signer_KeyID (bundle_signer s) = Some (PublicKey (bundle_signer s)).
Proof. destruct s; apply lookup_insert_eq. Qed.

Lemma fresh_well_named policy : well_named (fresh policy).
Proof. intros name f Hf. cbn in Hf. by rewrite lookup_empty in Hf. Qed.

Lemma fresh_ring policy : loadKeyring (fresh policy) = ∅.
Proof. apply map_eq. intros id. rewrite lookup_empty. apply eq_None_not_Some. intros [k [[Hf _] _]%loadKeyring_held]; [done|].
  apply fresh_well_named. Qed.

Lemma enrollment_is_admitted s host now : host ≠ "" → 0 ≤ now →
  admitted no_host_write (Some (TrustBundle s host now)) (fresh BootstrapTOFU)
  = Ok (TrustBundle s host now, panel_ring s, ∅, "", true).
Proof.
  intros Hh Hnow. unfold admitted. rewrite panel_checks by done. cbn -[TrustBundle panel_ring loadKeyring].
  rewrite fresh_ring. change (Empty ∅) with true. cbn -[TrustBundle panel_ring]. unfold signer_of, Lookup.
  change (bundle_SignedByKeyId (TrustBundle s host now)) with (signer_KeyID (bundle_signer s)).
  rewrite panel_ring_signer, (bool_decide_eq_true_2 ("" = "")) by done. cbn -[TrustBundle panel_ring checkPin].
  change (checkPin _ _ _) with (Ok tt : result error unit). cbn -[TrustBundle panel_ring]. rewrite panel_signs. cbn -[TrustBundle panel_ring].
  unfold order_check, acceptedState. cbn -[panel_ring]. rewrite bool_decide_eq_false_2 by lia. by rewrite andb_false_r.
Qed.

(** An enrollment that fails between the keys and the identity of the host
    cannot be repeated: the helper holds the keys and no name, so the next
    bundle is no enrollment and no bundle names the host it is not. Every
    bundle is refused until the keyring is reset on the host. *)
Theorem interrupted_enrollment_is_wedged s host now :
  host ≠ "" → 0 ≤ now →
  let t1 := (Apply no_host_write (Some (TrustBundle s host now)) (fresh BootstrapTOFU)).2 in
  ∀ l i bundle, apply_all l t1 = t1 ∧ ∃ e, Apply i bundle t1 = (Err e, t1).
Proof.
  intros Hh Hnow t1. assert (Hw : well_named t1 ∧ wedged t1).
  { pose proof (enrollment_is_admitted s host now Hh Hnow) as Ha. subst t1. unfold Apply.
    erewrite bind_Ok by (unfold reads; by rewrite Ha). cbn [mkdir_fails no_host_write good_trust_io]. mstep.
    destruct (ring_pairs (panel_ring s)) as [Hpairs Hdup].
    { by destruct (admitted_Ok _ _ _ _ _ _ _ _ Ha) as (_ & _ & Hr & _). }
    assert (Hok : is_ok (write_keys no_host_write (range_order (map_to_list (panel_ring s))) (fresh BootstrapTOFU)).1 = true).
    { apply write_keys_succeeds. intros id. apply bool_decide_eq_false_2. intros He.
      pose proof (keyPath_pub id) as Hp. by rewrite He in Hp. }
    destruct (write_keys _ _ _) as [[written|] t2] eqn:H1; [|done].
    destruct (write_keys_run _ _ _ _ _ H1 Hpairs Hdup (fresh_well_named _)) as (Hw2 & (Hhost & _) & _ & Hheld & _).
    mstep with H1. change (dropped (panel_ring s) ∅) with (@nil string). erewrite bind_Ok by done.
    rewrite (bool_decide_eq_false_2 ("" = bundle_HostId _)) by (intros He; by apply Hh).
    rewrite !(bind_Err (write_host _ _) _ t2 (failure "writing the host identity") t2) by done. split; [done|]. cbn [snd]. split; [unfold host_id; by rewrite Hhost|].
    intros He. assert (Hin : loadKeyring t2 !! signer_KeyID (bundle_signer s) = Some (PublicKey (bundle_signer s))).
    { apply loadKeyring_held; [done|]. split; [|done]. eapply Hheld; [done|]. rewrite range_order_perm.
      apply elem_of_map_to_list, panel_ring_signer. }
    by rewrite He, lookup_empty in Hin. }
  clearbody t1. destruct Hw as [Hw Hwedged]. intros l i bundle. split; [|by apply wedged_refuses].
  induction l as [|[j b] l IH]; [done|]. cbn. destruct (wedged_refuses t1 j b Hw Hwedged) as [e He]. by rewrite He.
Qed.
End laws.

(** ** A host, a panel and a rotation to run *)

Section demo.
#[local] Existing Instance toy_signatures.
#[local] Existing Instance toy_keys.
#[local] Existing Instance identity_order.

Definition first_key : bytes := sbytes "first".
Definition second_key : bytes := sbytes "second".
Definition first_bundle : HelperTrustBundle := TrustBundle (NewSignerFromKey first_key) "web1" 100.
Definition overlap_bundle : HelperTrustBundle :=
  TrustBundle (WithPrevious (NewSignerFromKey second_key) (Some (NewSignerFromKey first_key))) "web1" 200.
Definition enrolled : TrustStore := (Apply good_trust_io (Some first_bundle) (fresh BootstrapTOFU)).2.
Definition overlapping : TrustStore := (Apply good_trust_io (Some overlap_bundle) enrolled).2.

Lemma enrolled_named : well_named enrolled.
Proof. apply Apply_forward, fresh_well_named. Qed.

Lemma enrolled_run : Apply good_trust_io (Some first_bundle) (fresh BootstrapTOFU)
  = (Ok (mkUpdate "web1" [KeyID (ed25519_Public first_key)] true true), enrolled).
Proof. vm_compute. reflexivity. Qed.

Lemma enrolled_ring : loadKeyring enrolled = panel_ring (NewSignerFromKey first_key).
Proof. vm_compute. reflexivity. Qed.

Lemma Apply_installs_the_bundle_witness :
  ∃ b keys, Some first_bundle = Some b ∧ bundle_keys (bundle_Keys b) ∅ = Ok keys ∧ loadKeyring enrolled = keys
    ∧ [KeyID (ed25519_Public first_key)] = IDs keys
    ∧ accepted enrolled = mkAccepted (bundle_HostId b) (bundle_IssuedUnix b) (bundle_SignedByKeyId b)
    ∧ well_named enrolled ∧ (host_file enrolled = None ∧ "" = bundle_HostId b
                             ∨ "" = "" ∧ host_file enrolled = Some (host_line (bundle_HostId b))).
Proof. exact (Apply_installs_the_bundle _ _ _ _ _ (fresh_well_named BootstrapTOFU) enrolled_run). Defined.

Definition overlap_update : TrustUpdate :=
  mkUpdate "web1" (IDs (panel_ring (rotated second_key (NewSignerFromKey first_key)))) true false.

Lemma overlapping_run : Apply good_trust_io (Some overlap_bundle) enrolled = (Ok overlap_update, overlapping).
Proof. vm_compute. reflexivity. Qed.

Lemma an_older_bundle_changes_nothing_witness :
  ∃ e, Apply good_trust_io (Some first_bundle) (apply_all [] overlapping) = (Err e, apply_all [] overlapping).
Proof.
  apply (an_older_bundle_changes_nothing good_trust_io overlap_bundle enrolled overlap_update overlapping []
           good_trust_io first_bundle enrolled_named overlapping_run).
  vm_compute. reflexivity.
Defined.

Lemma enrolled_moment : accepted_IssuedUnix (accepted enrolled) = 100.
Proof. vm_compute. reflexivity. Qed.

Lemma overlap_moves : (Apply good_trust_io (Some overlap_bundle) enrolled).2 ≠ enrolled.
Proof.
  assert (Hm : accepted_IssuedUnix (accepted (Apply good_trust_io (Some overlap_bundle) enrolled).2) = 200)
    by (vm_compute; reflexivity).
  intros He. rewrite He, enrolled_moment in Hm. clear He. discriminate Hm.
Qed.

Lemma trust_changes_only_by_a_trusted_bundle_witness :
  ∃ b keys signer, Some overlap_bundle = Some b ∧ bundle_keys (bundle_Keys b) ∅ = Ok keys
    ∧ ed25519_Verify signer (TrustBundleSigningBytes b) (bundle_Signature b) = true
    ∧ (loadKeyring enrolled !! bundle_SignedByKeyId b = Some signer ∧ host_id enrolled = bundle_HostId b
       ∨ loadKeyring enrolled = ∅ ∧ host_id enrolled = "" ∧ keys !! bundle_SignedByKeyId b = Some signer
         ∧ ∃ pins, Pins good_trust_io enrolled = Ok pins
                   ∧ (KeyFingerprint signer ∈ pins ∨ pins = [] ∧ bootstrap_policy enrolled = BootstrapTOFU)).
Proof.
  exact (trust_changes_only_by_a_trusted_bundle good_trust_io (Some overlap_bundle) enrolled enrolled_named overlap_moves).
Defined.

Lemma rotation_completes_witness :
  ∃ u1 t1 u2 t2,
    Apply good_trust_io
      (Some (TrustBundle (WithPrevious (NewSignerFromKey second_key) (Some (NewSignerFromKey first_key))) "web1" 200))
      enrolled = (Ok u1, t1)
    ∧ loadKeyring t1 = {[KeyID (ed25519_Public second_key) := ed25519_Public second_key;
                         KeyID (ed25519_Public first_key) := ed25519_Public first_key]}
    ∧ Apply good_trust_io (Some (TrustBundle (NewSignerFromKey second_key) "web1" 300)) t1 = (Ok u2, t2)
    ∧ loadKeyring t2 = {[KeyID (ed25519_Public second_key) := ed25519_Public second_key]} ∧ host_id t2 = "web1".
Proof.
  apply (rotation_completes second_key first_key "web1" 200 300 enrolled); [|exact enrolled_named|done| |exact enrolled_ring|].
  - vm_compute. discriminate.
  - vm_compute. reflexivity.
  - vm_compute. split; reflexivity.
Defined.

Lemma interrupted_enrollment_is_wedged_witness :
  ∃ e, Apply good_trust_io (Some first_bundle)
         (Apply no_host_write (Some first_bundle) (fresh BootstrapTOFU)).2
       = (Err e, (Apply no_host_write (Some first_bundle) (fresh BootstrapTOFU)).2).
Proof.
  apply (interrupted_enrollment_is_wedged (NewSignerFromKey first_key) "web1" 100 ltac:(done) ltac:(lia)
           [] good_trust_io (Some first_bundle)).
Defined.
End demo.
