(* ===== verification/Dispatch.v ===== *)
(** * Dispatch: the authorization a task leaves the panel with

    src/internal/helpercap/grants.go, PermissionsOfSubject of
    src/internal/app/app.go and attachCapability of
    src/internal/scheduler/capability.go: at the moment a task is delivered its
    creator's rights on the host are read again and the capability is minted
    from them. The identities and the hosts are what the store answers. *)
From S2P Require Import Prelude Bytes Text Digest Actions ActionTables Registry AuthzTables Authz AuthzProps Capability.
From S2P Require Import Signer Payloads Binding Canonical Orders.

Open Scope Z_scope.
Open Scope list_scope.

(** ** Grants *)







(** ** The rights of the creator on the host *)








(** ** The capability of a task *)





Section dispatch.
Context {SS : SignatureScheme} {PJ : PayloadJson}.

End dispatch.

(** ** What the grants are *)




Section laws.
Context {SS : SignatureScheme} {PJ : PayloadJson}.

End laws.

(** ** A delivery *)

#[local] Existing Instance toy_signatures.
#[local] Opaque sha256.

Definition one_payload : PayloadJson :=
  {| jcs_Canonical := λ _, Some (sbytes "{}"); json_Unmarshal := λ _, Some no_payload |}.
#[local] Existing Instance one_payload.

