(* ===== verification/Acks.v ===== *)
(** * Acks: results of tasks and what the panel signs about them

    The message TaskResult, src/internal/helpercap/result_ack.go and
    resultAckVerifier of src/internal/agent/resultdelivery.go. *)
From S2P Require Import Prelude Bytes Digest Capability CapabilityProps Signer Trust TrustProps.
From coqutil Require Import Datatypes.RecordSetters. Import OCamlLikeNotations.

Open Scope Z_scope.
Open Scope list_scope.

(** ** The message *)

Definition STATUS_SUCCEEDED : Z := 1.
Definition STATUS_FAILED : Z := 2.
Definition STATUS_TIMED_OUT : Z := 3.
Definition STATUS_REJECTED : Z := 4.
Definition STATUS_EXPIRED : Z := 5.
Definition STATUS_CANCELED : Z := 6.

Definition ACK_UNSPECIFIED : Z := 0.
Definition ACK_SETTLED : Z := 1.
Definition ACK_DUPLICATE : Z := 2.
Definition ACK_REJECTED_STALE : Z := 3.

Record Verification := mkVerification {
  ver_Verifier : string; ver_Verified : bool; ver_Expected : string; ver_Observed : string; ver_Reason : string }.

(** [res_Detail] is the rest of the message: the moments, the states of a unit
    and the answers of the operations, in their encoding. *)
Record TaskResult := mkTaskResult {
  res_TaskId : string; res_IdempotencyKey : string; res_Status : Z; res_ExitCode : Z;
  res_Stdout : bytes; res_Stderr : bytes; res_OutputTruncated : bool;
  res_ErrorCode : string; res_Message : string; res_Replayed : bool;
  res_Verification : option Verification;
  res_Revision : string;      (* inventory_refresh_result.revision *)
  res_Detail : bytes }.

#[export] Instance Verification_eq_dec : EqDecision Verification. Proof. solve_decision. Defined.
#[export] Instance TaskResult_eq_dec : EqDecision TaskResult. Proof. solve_decision. Defined.

(** The wire form of a result: [proto.Marshal], [proto.Unmarshal] and the
    deterministic form. What was written is read back. *)
Class ResultWire := {
  result_Marshal : TaskResult → option bytes;
  result_Unmarshal : bytes → option TaskResult;
  result_Deterministic : TaskResult → option bytes;
  Unmarshal_Marshal : ∀ r body, result_Marshal r = Some body → result_Unmarshal body = Some r;
}.

(** ** Acknowledgements *)

Inductive ack_error := ErrResultAckUnsigned | ErrResultAckKey | ErrResultAckInvalid | ErrResultAckKeyring (e : error).

Section acks.
Context {SS : SignatureScheme} {KT : KeyText}.

(** [ResultDigest]: nil for no result and for one that cannot be encoded. *)
Definition ResultDigest {RW : ResultWire} (result : option TaskResult) : bytes :=
  match result with
  | None => []
  | Some r => match result_Deterministic r with Some encoded => sha256 encoded | None => [] end
  end.

(** [SignResultAck]. *)
Definition SignResultAck (s : Signer) (hostID : string) (ack : TaskResultAck) : TaskResultAck :=
  let named := { ack with ack_KeyId := signer_KeyID s } in
  let signed := { named with ack_Signature := ed25519_Sign (signer_key s) (ResultAckSigningBytes hostID named) } in
  let bare := { signed with ack_DigestSignature := [] } in
  if bool_decide (0 < len (ack_ResultDigest bare))
  then { bare with ack_DigestSignature := ed25519_Sign (signer_key s) (ResultAckDigestSigningBytes hostID bare) }
  else bare.

Definition ack_signature_fits (public : bytes) (message signature : bytes) : bool :=
  bool_decide (len signature = SignatureSize) && ed25519_Verify public message signature.

(** [VerifyResultAck]. *)
Definition VerifyResultAck (ring : Keyring) (hostID : string) (ack : TaskResultAck) : result ack_error unit :=
  if bool_decide (len (ack_Signature ack) = 0) then Err ErrResultAckUnsigned
  else match Lookup ring (ack_KeyId ack) with
  | None => Err ErrResultAckKey
  | Some public =>
      if negb (ack_signature_fits public (ResultAckSigningBytes hostID ack) (ack_Signature ack)) then Err ErrResultAckInvalid
      else
        let digest := ack_ResultDigest ack in
        let signature := ack_DigestSignature ack in
        if bool_decide (len digest = 0) && bool_decide (len signature = 0) then Ok tt
        else if bool_decide (len digest = 0)
                || negb (ack_signature_fits public (ResultAckDigestSigningBytes hostID ack) signature)
        then Err ErrResultAckInvalid
        else Ok tt
  end.

(** [resultAckVerifier]: a host that holds no key of the panel takes every
    acknowledgement as it comes. *)
Definition resultAckVerifier (i : trust_io) (t : TrustStore) (hostID : string) (ack : TaskResultAck) : result ack_error unit :=
  match KeyringOf i t with
  | Err e => Err (ErrResultAckKeyring e)
  | Ok ring => if bool_decide (len (IDs ring) = 0) then Ok tt else VerifyResultAck ring hostID ack
  end.

(** ** What a verified acknowledgement says *)

(** An acknowledgement that passes carries a signature of a key of the ring
    over its words for this host, and one over its digest when it has one. *)
Lemma VerifyResultAck_Ok ring hostID ack :
  VerifyResultAck ring hostID ack = Ok tt →
  ∃ public, ring !! ack_KeyId ack = Some public
    ∧ ed25519_Verify public (ResultAckSigningBytes hostID ack) (ack_Signature ack) = true
    ∧ (ack_ResultDigest ack ≠ [] →
       ed25519_Verify public (ResultAckDigestSigningBytes hostID ack) (ack_DigestSignature ack) = true).
Proof.
  unfold VerifyResultAck, Lookup, ack_signature_fits. case_bool_decide as H0; [done|].
  destruct (ring !! _) as [public|]; [|done]. destruct (bool_decide (len (ack_Signature ack) = _) && _) eqn:Hs; cbn [negb]; [|done].
  apply andb_true_iff in Hs as [_ Hs]. intros H. exists public. split_and!; [done..|]. intros Hd.
  assert (Hl : bool_decide (len (ack_ResultDigest ack) = 0) = false).
  { apply bool_decide_eq_false. by intros ?%len_nil_inv. }
  rewrite Hl in H. cbn [andb orb] in H. destruct (bool_decide (len (ack_DigestSignature ack) = _) && _) eqn:Hg; [|done].
  by apply andb_true_iff in Hg as [_ Hg].
Qed.

(** The signed bytes leave out the key and the signatures. *)
Lemma ack_bytes_same hostID a b :
  ack_TaskId a = ack_TaskId b → ack_IdempotencyKey a = ack_IdempotencyKey b → ack_Status a = ack_Status b →
  ack_ReasonCode a = ack_ReasonCode b → ResultAckSigningBytes hostID a = ResultAckSigningBytes hostID b.
Proof. unfold ResultAckSigningBytes. by intros -> -> -> ->. Qed.

Lemma ack_digest_bytes_same hostID a b :
  ResultAckSigningBytes hostID a = ResultAckSigningBytes hostID b → ack_ResultDigest a = ack_ResultDigest b →
  ResultAckDigestSigningBytes hostID a = ResultAckDigestSigningBytes hostID b.
Proof. unfold ResultAckDigestSigningBytes. by intros -> ->. Qed.

Lemma SignResultAck_words s hostID ack :
  let a := SignResultAck s hostID ack in
  ack_TaskId a = ack_TaskId ack ∧ ack_IdempotencyKey a = ack_IdempotencyKey ack ∧ ack_Status a = ack_Status ack
  ∧ ack_ReasonCode a = ack_ReasonCode ack ∧ ack_ResultDigest a = ack_ResultDigest ack ∧ ack_KeyId a = signer_KeyID s
  ∧ ack_Signature a = ed25519_Sign (signer_key s) (ResultAckSigningBytes hostID ack)
  ∧ ack_DigestSignature a
    = (if bool_decide (ack_ResultDigest ack = []) then [] else ed25519_Sign (signer_key s) (ResultAckDigestSigningBytes hostID ack)).
Proof.
  cbv zeta. unfold SignResultAck. destruct ack as [task key status reason sig kid digest dsig].
  unfold constant. cbn. destruct digest as [|b digest]; [by split_and!|].
  rewrite bool_decide_eq_true_2 by (rewrite len_cons; pose proof (len_nonneg digest); lia).
  rewrite (bool_decide_eq_false_2 (b :: digest = [])) by done. by split_and!.
Qed.

(** What the panel signs passes under its key, also without the digest. *)
Lemma VerifyResultAck_signed ring s hostID ack a :
  ring !! signer_KeyID s = Some (PublicKey s) →
  ack_TaskId a = ack_TaskId ack → ack_IdempotencyKey a = ack_IdempotencyKey ack → ack_Status a = ack_Status ack →
  ack_ReasonCode a = ack_ReasonCode ack → ack_KeyId a = signer_KeyID s →
  ack_Signature a = ed25519_Sign (signer_key s) (ResultAckSigningBytes hostID ack) →
  (ack_ResultDigest a = [] ∧ ack_DigestSignature a = []
   ∨ ack_ResultDigest a ≠ [] ∧ ack_ResultDigest a = ack_ResultDigest ack
     ∧ ack_DigestSignature a = ed25519_Sign (signer_key s) (ResultAckDigestSigningBytes hostID ack)) →
  VerifyResultAck ring hostID a = Ok tt.
Proof.
  intros Hring Ht Hk Hs Hr Hid Hsig Hd. pose proof (ack_bytes_same hostID a ack Ht Hk Hs Hr) as Hb.
  unfold VerifyResultAck, Lookup, ack_signature_fits. rewrite Hid, Hring, Hsig, Hb.
  change (PublicKey s) with (ed25519_Public (signer_key s)).
  rewrite len_Sign, Verify_Sign. cbn [bool_decide].
  rewrite (bool_decide_eq_false_2 (SignatureSize = 0)), (bool_decide_eq_true_2 (SignatureSize = SignatureSize)) by done. cbn [andb negb].
  destruct Hd as [[-> ->]|(Hn & Hd & ->)]; [done|].
  rewrite (ack_digest_bytes_same hostID a ack Hb Hd), len_Sign, Verify_Sign.
  rewrite (bool_decide_eq_false_2 (len (ack_ResultDigest a) = 0)) by (by intros ?%len_nil_inv).
  by rewrite (bool_decide_eq_true_2 (SignatureSize = SignatureSize)).
Qed.

Lemma VerifyResultAck_SignResultAck ring s hostID ack :
  ring !! signer_KeyID s = Some (PublicKey s) → VerifyResultAck ring hostID (SignResultAck s hostID ack) = Ok tt.
Proof.
  intros Hring. destruct (SignResultAck_words s hostID ack) as (H1 & H2 & H3 & H4 & H5 & H6 & H7 & H8).
  eapply VerifyResultAck_signed; try done. rewrite H5, H8. case_bool_decide as Hd; [by left|]. right. done.
Qed.
End acks.
