(* ===== verification/SpoolRecord.v ===== *)
(** * SpoolRecord: one spooled message of a relay and its form on disk

    Models src/internal/relay/spool/record.go: the streams and their
    priorities, the classification of an agent message, the record built of
    it, the checksummed frame and the body codec. The protobuf library is not
    part of the repository; what the code asks of it is the class [Wire]. *)
From S2P Require Import Prelude Bytes Digest.

Open Scope Z_scope.

(** ** Streams and priorities *)

Definition StreamControl : string := "control".
Definition StreamJobResult : string := "job_result".
Definition StreamInventory : string := "inventory".
Definition StreamMetric : string := "metric".
Definition StreamLog : string := "log".

Definition PriorityControl : Z := 0.
Definition PriorityJobResult : Z := 1.
Definition PriorityInventory : Z := 2.
Definition PriorityMetric : Z := 3.
Definition PriorityLog : Z := 4.

Definition PriorityOf (stream : string) : Z :=
  if bool_decide (stream = StreamControl) then PriorityControl
  else if bool_decide (stream = StreamJobResult) then PriorityJobResult
  else if bool_decide (stream = StreamInventory) then PriorityInventory
  else if bool_decide (stream = StreamMetric) then PriorityMetric
  else PriorityLog.

Definition Durable (stream : string) : bool :=
  bool_decide (PriorityOf stream ≤ PriorityInventory).

(** ** The messages of an agent

    The oneof of AgentMessage with its members; the contents of a member the
    spool never looks into are opaque, except the [full] flag of an inventory
    report. *)

Record RelayedEnvelope := mkEnvelope {
  schema_version : Z;
  relay_id : string;
  env_host_id : string;
  certificate_serial : string;
  session_id : string;
  sequence : Z;
  issued_at_unix : Z;
  nonce : bytes;
  message_kind : string;
  body_sha256 : bytes;
  host_signature : bytes;
}.

Inductive payload (C : Type) : Type :=
| AgentMessage_Hello (c : C)
| AgentMessage_Heartbeat (c : C)
| AgentMessage_Inventory (full : bool) (c : C)
| AgentMessage_TaskResult (c : C)
| AgentMessage_TaskProgress (c : C)
| AgentMessage_TaskLogLines (c : C)
| AgentMessage_MetricsSample (c : C)
| AgentMessage_FinalReady (c : C)
| AgentMessage_CancelAck (c : C)
| AgentMessage_FinalWipeReport (c : C)
| AgentMessage_none.
Arguments AgentMessage_Hello {C} c.
Arguments AgentMessage_Heartbeat {C} c.
Arguments AgentMessage_Inventory {C} full c.
Arguments AgentMessage_TaskResult {C} c.
Arguments AgentMessage_TaskProgress {C} c.
Arguments AgentMessage_TaskLogLines {C} c.
Arguments AgentMessage_MetricsSample {C} c.
Arguments AgentMessage_FinalReady {C} c.
Arguments AgentMessage_CancelAck {C} c.
Arguments AgentMessage_FinalWipeReport {C} c.
Arguments AgentMessage_none {C}.

Record AgentMessage (C : Type) := mkMessage {
  Payload_ : payload C;
  Envelope_ : option RelayedEnvelope;
  RelayMessageId : string;
}.
Arguments mkMessage {C} _ _ _.
Arguments Payload_ {C} _.
Arguments Envelope_ {C} _.
Arguments RelayMessageId {C} _.

(** The envelope with every field at its protobuf default. *)
Definition empty_envelope : RelayedEnvelope :=
  mkEnvelope 0 "" "" "" "" 0 0 [] "" [] [].

(** What the code uses of google.golang.org/protobuf and google/uuid. *)
Class Wire := {
  content : Type;
  marshal_message : AgentMessage content → option bytes;
  unmarshal_message : bytes → option (AgentMessage content);
  marshal_envelope : RelayedEnvelope → option bytes;
  unmarshal_envelope : bytes → option RelayedEnvelope;
  uuid_string : bytes → string;
}.

(** The documented behaviour of protobuf the spool relies on: what Marshal
    wrote, Unmarshal reads back, and a message with no field set encodes to
    nothing. *)
Class WireLaws `{Wire} : Prop := {
  message_roundtrip m b : marshal_message m = Some b → unmarshal_message b = Some m;
  envelope_roundtrip e b : marshal_envelope e = Some b → unmarshal_envelope b = Some e;
  envelope_default : unmarshal_envelope [] = Some empty_envelope;
}.

Definition Classify {C} (message : AgentMessage C) : string :=
  match Payload_ message with
  | AgentMessage_TaskResult _ | AgentMessage_TaskProgress _ => StreamJobResult
  | AgentMessage_Inventory _ _ => StreamInventory
  | AgentMessage_MetricsSample _ => StreamMetric
  | AgentMessage_TaskLogLines _ => StreamLog
  | _ => StreamControl
  end.

(** [message.GetInventory().GetFull()]: false for any other member. *)
Definition inventory_full {C} (message : AgentMessage C) : bool :=
  match Payload_ message with
  | AgentMessage_Inventory full _ => full
  | _ => false
  end.

(** ** Records *)

Abbreviation uuid := bytes.
Definition uuid_nil : uuid := replicate 16 Byte.x00.

Record Record_ := mkRecord {
  ID : uuid;
  Site : string;
  HostID : string;
  SessionID : string;
  Stream : string;
  Priority : Z;
  Sequence : Z;
  CreatedAt : time;
  ExpiresAt : option time;
  Envelope : bytes;
  Payload : bytes;
  PayloadHash : bytes;
}.

Definition lifetimeOf (stream : string) : Z :=
  if bool_decide (stream = StreamMetric) then 6 * hour
  else if bool_decide (stream = StreamLog) then hour
  else 30 * 24 * hour.

Section wire.
Context `{Wire}.

(** [Message] rebuilds the message of the agent with its envelope. *)
Definition Message (r : Record_) : option (AgentMessage content) :=
  match unmarshal_message (Payload r) with
  | None => None
  | Some message =>
      if bool_decide (0 < len (Envelope r)) then
        match unmarshal_envelope (Envelope r) with
        | None => None
        | Some envelope => Some (mkMessage (Payload_ message) (Some envelope) (uuid_string (ID r)))
        end
      else Some (mkMessage (Payload_ message) (Envelope_ message) (uuid_string (ID r)))
  end.

Definition Full (r : Record_) : bool :=
  if bool_decide (Stream r ≠ StreamInventory) then false
  else match Message r with
       | None => false
       | Some message => inventory_full message
       end.

(** [FromMessage]; [newID] is what [uuid.New()] returned. *)
Definition FromMessage (newID : uuid) (site hostID : string)
    (message : option (AgentMessage content)) (now : time) : option Record_ :=
  match message with
  | None => None
  | Some message =>
      let stream := Classify message in
      let enveloped :=
        match Envelope_ message with
        | None => Some ([], ""%string, 0)
        | Some envelope =>
            match marshal_envelope envelope with
            | None => None
            | Some encoded => Some (encoded, session_id envelope, sequence envelope)
            end
        end in
      match enveloped with
      | None => None
      | Some (encoded, session, seq) =>
          let bare := mkMessage (Payload_ message) None ""%string in
          match marshal_message bare with
          | None => None
          | Some payload =>
              let expires := lifetimeOf stream in
              Some {| ID := newID; Site := site; HostID := hostID; SessionID := session;
                      Stream := stream; Priority := PriorityOf stream; Sequence := seq;
                      CreatedAt := now;
                      ExpiresAt := if bool_decide (0 < expires) then Some (now + expires) else None;
                      Envelope := encoded; Payload := payload;
                      PayloadHash := sha256 payload |}
          end
      end
  end.
End wire.

(** ** Frames *)

Definition headerSize : Z := 13.
Definition kindRecord : byte := Byte.x01.
Definition kindTombstone : byte := Byte.x02.
Definition bodyVersion : byte := Byte.x01.
Definition magic : bytes := [Byte.x46; Byte.x53; Byte.x50; Byte.x31].
Definition maxRecordBytes : Z := 64 * 2 ^ 20.

Definition frame (kind : byte) (body : bytes) : bytes :=
  magic ++ [kind] ++ le_put 4 (len body) ++ le_put 4 (crc32c body) ++ body.

Inductive frame_read :=
| FrameEOF
| FrameTorn
| FrameRead (kind : byte) (body rest : bytes).

(** [readFrame]; a reader is the bytes it has not given out yet. *)
Definition readFrame (reader : bytes) : frame_read :=
  match read_full headerSize reader with
  | None => if bool_decide (reader = []) then FrameEOF else FrameTorn
  | Some (header, reader) =>
      if negb (bool_decide (take 4 header = magic)) then FrameTorn
      else
        let kind := nth 4 header Byte.x00 in
        let length := le_get (take 4 (drop 5 header)) in
        if bool_decide (maxRecordBytes < length) then FrameTorn
        else
          match read_full length reader with
          | None => FrameTorn
          | Some (body, reader) =>
              if bool_decide (crc32c body ≠ le_get (take 4 (drop 9 header))) then FrameTorn
              else FrameRead kind body reader
          end
  end.

(** ** The body of a record *)

Definition bodySize (r : Record_) : Z :=
  1 + 16 + 1 + 8 + 8 + 8 +
  2 + slen (Site r) + 2 + slen (HostID r) + 2 + slen (SessionID r) + 1 + slen (Stream r) +
  32 + 4 + len (Envelope r) + 4 + len (Payload r).

Definition Size (r : Record_) : Z := headerSize + bodySize r.

Definition put64 (value : Z) : bytes := le_put 8 value.
Definition put16 (value : string) : bytes := le_put 2 (slen value) ++ sbytes value.
Definition put32 (value : bytes) : bytes := le_put 4 (len value) ++ value.

(** The fields after the version byte, in the order [encode] writes them. *)
Definition encode_fields (r : Record_) : bytes :=
  ID r ++ [z2b (Priority r)]
  ++ put64 (Sequence r) ++ put64 (CreatedAt r)
  ++ put64 (match ExpiresAt r with Some at_ => at_ | None => 0 end)
  ++ put16 (Site r) ++ put16 (HostID r) ++ put16 (SessionID r)
  ++ [z2b (slen (Stream r))] ++ sbytes (Stream r)
  ++ PayloadHash r
  ++ put32 (Envelope r) ++ put32 (Payload r).

Definition encode (r : Record_) : bytes := [bodyVersion] ++ encode_fields r.

Inductive decode_error :=
| BadVersion (version : Z)
| ShortBody
| HashMismatch.

(** The readers of [decode]: a value and what is left of the body. *)
Definition get (A : Type) : Type := bytes → option (A * bytes).

Definition get_raw (n : Z) : get bytes := read_full n.
Definition get_byte : get byte := read_byte.
Definition get64 : get Z := λ r,
  '(scratch, r) ← read_full 8 r; Some (le_get scratch, r).
Definition get16 : get string := λ r,
  '(scratch, r) ← read_full 2 r;
  '(value, r) ← read_full (le_get scratch) r; Some (bstring value, r).
Definition get32 : get bytes := λ r,
  '(scratch, r) ← read_full 4 r; read_full (le_get scratch) r.

(** The fields after the version byte, in the order [decode] reads them. *)
Definition decode_fields (r : bytes) : option (Record_ * bytes) :=
  '(id, r) ← get_raw 16 r;
  '(priority, r) ← get_byte r;
  '(seq, r) ← get64 r;
  '(created, r) ← get64 r;
  '(expires, r) ← get64 r;
  '(site, r) ← get16 r;
  '(host, r) ← get16 r;
  '(session, r) ← get16 r;
  '(length, r) ← get_byte r;
  '(stream, r) ← get_raw (b2z length) r;
  '(hash, r) ← get_raw 32 r;
  '(envelope, r) ← get32 r;
  '(payload, r) ← get32 r;
  Some ({| ID := id; Site := site; HostID := host; SessionID := session;
           Stream := bstring stream; Priority := b2z priority; Sequence := seq;
           CreatedAt := i64 created;
           ExpiresAt := if bool_decide (expires ≠ 0) then Some (i64 expires) else None;
           Envelope := envelope; Payload := payload; PayloadHash := hash |}, r).

Definition decode (body : bytes) : result decode_error Record_ :=
  match read_byte body with
  | None => Err (BadVersion 0)
  | Some (version, reader) =>
      if bool_decide (version ≠ bodyVersion) then Err (BadVersion (b2z version))
      else
        match decode_fields reader with
        | None => Err ShortBody
        | Some (record, _) =>
            if bool_decide (sha256 (Payload record) ≠ PayloadHash record) then Err HashMismatch
            else Ok record
        end
  end.

(** A record whose fields fit the widths the layout gives them. *)
Definition record_ok (r : Record_) : Prop :=
  len (ID r) = 16 ∧ 0 ≤ Priority r < 2 ^ 8 ∧ 0 ≤ Sequence r < 2 ^ 64
  ∧ - 2 ^ 63 ≤ CreatedAt r < 2 ^ 63
  ∧ match ExpiresAt r with Some t => - 2 ^ 63 ≤ t < 2 ^ 63 ∧ t ≠ 0 | None => True end
  ∧ slen (Site r) < 2 ^ 16 ∧ slen (HostID r) < 2 ^ 16 ∧ slen (SessionID r) < 2 ^ 16
  ∧ slen (Stream r) < 2 ^ 8
  ∧ len (Envelope r) < 2 ^ 32 ∧ len (Payload r) < 2 ^ 32
  ∧ PayloadHash r = sha256 (Payload r).

#[export] Instance record_ok_dec r : Decision (record_ok r).
Proof.
  unfold record_ok. destruct (ExpiresAt r); apply _.
Defined.

(** ** Lemmas: the readers undo the writers *)

Lemma get64_put z rest : get64 (put64 z ++ rest) = Some (u64 z, rest).
Proof.
  unfold get64, put64. rewrite read_full_app by (by rewrite len_le_put).
  cbn [mbind option_bind]. by rewrite le_get_put.
Qed.

Lemma get16_put s rest : slen s < 2 ^ 16 → get16 (put16 s ++ rest) = Some (s, rest).
Proof.
  intros Hs. unfold get16, put16. rewrite <- app_assoc.
  rewrite read_full_app by (by rewrite len_le_put). cbn [mbind option_bind].
  rewrite le_get_put, Z.mod_small by (split; [apply len_nonneg|exact Hs]).
  rewrite read_full_app by done. cbn [mbind option_bind]. by rewrite bstring_sbytes.
Qed.

Lemma get32_put b rest : len b < 2 ^ 32 → get32 (put32 b ++ rest) = Some (b, rest).
Proof.
  intros Hb. unfold get32, put32. rewrite <- app_assoc.
  rewrite read_full_app by (by rewrite len_le_put). cbn [mbind option_bind].
  rewrite le_get_put, Z.mod_small by (split; [apply len_nonneg|exact Hb]).
  by rewrite read_full_app.
Qed.

Lemma get64_inv r v rest :
  get64 r = Some (v, rest) → r = put64 v ++ rest ∧ 0 ≤ v < 2 ^ 64.
Proof.
  unfold get64, put64. destruct (read_full 8 r) as [[sc r']|] eqn:E; [|done]. cbn [mbind option_bind].
  intros [= <- <-]. apply read_full_Some in E as [-> Hl]; [|lia].
  unfold len in Hl. replace 8%nat with (List.length sc) by lia. rewrite le_put_get.
  split; [done|]. pose proof (le_get_range sc) as Hr. unfold len in Hr.
  by rewrite Hl in Hr.
Qed.

Lemma get16_inv r v rest :
  get16 r = Some (v, rest) → r = put16 v ++ rest ∧ slen v < 2 ^ 16.
Proof.
  unfold get16, put16. destruct (read_full 2 r) as [[sc r']|] eqn:E; [|done]. cbn [mbind option_bind].
  apply read_full_Some in E as [-> Hl]; [|lia].
  destruct (read_full (le_get sc) r') as [[val r'']|] eqn:E2; [|done]. cbn [mbind option_bind].
  intros [= <- <-]. pose proof (le_get_range sc) as Hr.
  apply read_full_Some in E2 as [-> Hl2]; [|lia].
  unfold slen. rewrite sbytes_bstring, Hl2. rewrite Hl in Hr. split; [|lia].
  unfold len in Hl. replace 2%nat with (List.length sc) by lia.
  by rewrite le_put_get, <- app_assoc.
Qed.

Lemma get32_inv r v rest :
  get32 r = Some (v, rest) → r = put32 v ++ rest ∧ len v < 2 ^ 32.
Proof.
  unfold get32, put32. destruct (read_full 4 r) as [[sc r']|] eqn:E; [|done]. cbn [mbind option_bind].
  apply read_full_Some in E as [-> Hl]; [|lia].
  pose proof (le_get_range sc) as Hr. intros E2.
  apply read_full_Some in E2 as [-> Hl2]; [|lia]. rewrite Hl2.
  rewrite Hl in Hr. split; [|lia].
  unfold len in Hl. replace 4%nat with (List.length sc) by lia.
  by rewrite le_put_get, <- app_assoc.
Qed.

Lemma len_put64 z : len (put64 z) = 8.
Proof. apply len_le_put. Qed.
Lemma len_put16 s : len (put16 s) = 2 + slen s.
Proof. unfold put16. by rewrite len_app, len_le_put. Qed.
Lemma len_put32 b : len (put32 b) = 4 + len b.
Proof. unfold put32. by rewrite len_app, len_le_put. Qed.
#[export] Hint Rewrite len_put64 len_put16 len_put32 : len.

(** The body takes exactly the room [bodySize] announces. *)
Lemma len_encode r :
  len (ID r) = 16 → len (PayloadHash r) = 32 → len (encode r) = bodySize r.
Proof.
  intros Hid Hh. unfold encode, encode_fields, bodySize, slen.
  autorewrite with len. unfold slen. lia.
Qed.

Lemma decode_fields_encode r rest :
  record_ok r →
  decode_fields (encode_fields r ++ rest) = Some (r, rest).
Proof.
  intros (Hid & Hp & Hs & Hc & He & H1 & H2 & H3 & H4 & H5 & H6 & Hh).
  unfold encode_fields. rewrite <- !app_assoc. unfold decode_fields.
  unfold get_raw at 1. rewrite (read_full_app 16) by done.
  cbn [mbind option_bind app get_byte read_byte].
  rewrite get64_put. cbn [mbind option_bind].
  rewrite get64_put. cbn [mbind option_bind].
  rewrite get64_put. cbn [mbind option_bind].
  rewrite !get16_put by done. cbn [mbind option_bind].
  rewrite get16_put by done. cbn [mbind option_bind].
  rewrite get16_put by done. cbn [mbind option_bind app get_byte read_byte].
  rewrite (b2z_z2b (slen (Stream r))), (Z.mod_small (slen (Stream r))) by (split; [apply len_nonneg|exact H4]).
  unfold get_raw. rewrite read_full_app by done. cbn [mbind option_bind].
  rewrite read_full_app by (by rewrite Hh, len_sha256). cbn [mbind option_bind].
  rewrite get32_put by done. cbn [mbind option_bind].
  rewrite get32_put by done. cbn [mbind option_bind].
  rewrite bstring_sbytes, b2z_z2b, (Z.mod_small (Priority r)), (u64_small (Sequence r)) by done.
  rewrite i64_u64 by done.
  destruct r as [? ? ? ? ? ? ? ? ex ? ? ?]; cbn in *. do 3 f_equal.
  destruct ex as [t|]; [|done]. destruct He as [He He0].
  rewrite i64_u64 by done. case_bool_decide as Hz; [done|].
  exfalso. apply He0. by rewrite <- (i64_u64 t He), Hz.
Qed.

Lemma decode_encode r : record_ok r → decode (encode r) = Ok r.
Proof.
  intros Hr. unfold decode, encode. cbn [app read_byte].
  rewrite bool_decide_eq_false_2 by (intros []; done).
  rewrite <- (app_nil_r (encode_fields r)), decode_fields_encode by done.
  destruct Hr as (_ & _ & _ & _ & _ & _ & _ & _ & _ & _ & _ & Hh).
  by rewrite bool_decide_eq_false_2 by (rewrite Hh; auto).
Qed.

(** [decode_fields] reads only what [encode_fields] writes. *)
Lemma decode_fields_inv r rec rest :
  decode_fields r = Some (rec, rest) →
  r = encode_fields rec ++ rest
  ∧ (PayloadHash rec = sha256 (Payload rec) → record_ok rec).
Proof.
  unfold decode_fields.
  destruct (get_raw 16 r) as [[id r1]|] eqn:E1; [|done]. cbn [mbind option_bind].
  apply read_full_Some in E1 as [-> Hid]; [|lia].
  destruct (get_byte r1) as [[pr r2]|] eqn:E2; [|done]. cbn [mbind option_bind].
  apply read_byte_Some in E2 as ->.
  destruct (get64 r2) as [[sq r3]|] eqn:E3; [|done]. cbn [mbind option_bind].
  apply get64_inv in E3 as [-> Hsq].
  destruct (get64 r3) as [[cr r4]|] eqn:E4; [|done]. cbn [mbind option_bind].
  apply get64_inv in E4 as [-> Hcr].
  destruct (get64 r4) as [[ex r5]|] eqn:E5; [|done]. cbn [mbind option_bind].
  apply get64_inv in E5 as [-> Hex].
  destruct (get16 r5) as [[si r6]|] eqn:E6; [|done]. cbn [mbind option_bind].
  apply get16_inv in E6 as [-> Hsi].
  destruct (get16 r6) as [[ho r7]|] eqn:E7; [|done]. cbn [mbind option_bind].
  apply get16_inv in E7 as [-> Hho].
  destruct (get16 r7) as [[se r8]|] eqn:E8; [|done]. cbn [mbind option_bind].
  apply get16_inv in E8 as [-> Hse].
  destruct (get_byte r8) as [[ln r9]|] eqn:E9; [|done]. cbn [mbind option_bind].
  apply read_byte_Some in E9 as ->.
  destruct (get_raw (b2z ln) r9) as [[st ra]|] eqn:Ea; [|done]. cbn [mbind option_bind].
  pose proof (b2z_range ln).
  apply read_full_Some in Ea as [-> Hst]; [|lia].
  destruct (get_raw 32 ra) as [[ha rb]|] eqn:Eb; [|done]. cbn [mbind option_bind].
  apply read_full_Some in Eb as [-> Hha]; [|lia].
  destruct (get32 rb) as [[en rc]|] eqn:Ec; [|done]. cbn [mbind option_bind].
  apply get32_inv in Ec as [-> Hen].
  destruct (get32 rc) as [[pa rd]|] eqn:Ed; [|done]. cbn [mbind option_bind].
  apply get32_inv in Ed as [-> Hpa].
  intros [= <- <-]. unfold encode_fields, record_ok, slen; cbn [ID Site HostID SessionID Stream
    Priority Sequence CreatedAt ExpiresAt Envelope Payload PayloadHash].
  rewrite sbytes_bstring, Hst, !z2b_b2z.
  assert (Hput : ∀ v, 0 ≤ v < 2 ^ 64 → put64 (i64 v) = put64 v).
  { intros v Hv. unfold put64. rewrite <- (le_put_mod 8 (i64 v)).
    change (i64 v `mod` 2 ^ (8 * Z.of_nat 8)) with (u64 (i64 v)). by rewrite u64_i64. }
  split.
  - rewrite Hput by done.
    replace (put64 match (if bool_decide (ex ≠ 0) then Some (i64 ex) else None) with
                   | Some at_ => at_ | None => 0 end) with (put64 ex).
    + rewrite <- !app_assoc. done.
    + case_bool_decide as Hz; [by rewrite Hput|]. by rewrite Hz.
  - intros Hh. pose proof (b2z_range pr). pose proof (i64_range cr). pose proof (i64_range ex).
    repeat split; try assumption; try lia.
    case_bool_decide as Hz; [|done]. repeat split; try lia.
    intros Hz0. apply Hz. by rewrite <- (u64_i64 ex), Hz0 by lia.
Qed.

Lemma decode_inv body r :
  decode body = Ok r → record_ok r ∧ ∃ rest, body = encode r ++ rest.
Proof.
  unfold decode. destruct (read_byte body) as [[v r0]|] eqn:E; [|done].
  apply read_byte_Some in E as ->.
  case_bool_decide as Hv; [done|].
  destruct (decode_fields r0) as [[rec rest]|] eqn:E; [|done].
  case_bool_decide as Hh; [done|]. intros [= <-].
  apply decode_fields_inv in E as [-> Hok].
  split; [apply Hok; done|].
  exists rest. unfold encode. by rewrite Hv.
Qed.

(** ** Lemmas: frames *)

Definition frame_header (kind : byte) (body : bytes) : bytes :=
  magic ++ [kind] ++ le_put 4 (len body) ++ le_put 4 (crc32c body).

Lemma frame_split k b : frame k b = frame_header k b ++ b.
Proof. unfold frame, frame_header. by rewrite <- !app_assoc. Qed.

Lemma len_frame_header k b : len (frame_header k b) = headerSize.
Proof. done. Qed.

Lemma len_frame k b : len (frame k b) = headerSize + len b.
Proof. by rewrite frame_split, len_app. Qed.

Lemma frame_not_nil k b : frame k b ≠ [].
Proof. done. Qed.

(** What [readFrame] sees once the header of a frame is off the reader. *)
Lemma readFrame_header k b reader :
  len b < 2 ^ 32 →
  readFrame (frame_header k b ++ reader) =
    if bool_decide (maxRecordBytes < len b) then FrameTorn
    else match read_full (len b) reader with
         | None => FrameTorn
         | Some (body, rest) =>
             if bool_decide (crc32c body ≠ crc32c b) then FrameTorn else FrameRead k body rest
         end.
Proof.
  intros Hb. unfold readFrame. rewrite read_full_app by (by rewrite len_frame_header).
  change (take 4 (frame_header k b)) with magic.
  change (nth 4 (frame_header k b) Byte.x00) with k.
  change (take 4 (drop 5 (frame_header k b))) with (le_put 4 (len b)).
  change (take 4 (drop 9 (frame_header k b))) with (le_put 4 (crc32c b)).
  rewrite !le_get_put.
  rewrite (Z.mod_small (len b)) by (split; [apply len_nonneg|exact Hb]).
  rewrite (Z.mod_small (crc32c b)) by apply crc32c_range.
  rewrite (bool_decide_eq_true_2 (magic = magic)) by done. done.
Qed.

Lemma readFrame_frame k b rest :
  len b ≤ maxRecordBytes → readFrame (frame k b ++ rest) = FrameRead k b rest.
Proof.
  intros Hb. rewrite frame_split, <- app_assoc, readFrame_header
    by (unfold maxRecordBytes in Hb; lia).
  rewrite bool_decide_eq_false_2 by lia. rewrite read_full_app by done.
  by rewrite bool_decide_eq_false_2 by auto.
Qed.

Lemma readFrame_inv bs k b rest :
  readFrame bs = FrameRead k b rest → bs = frame k b ++ rest ∧ len b ≤ maxRecordBytes.
Proof.
  unfold readFrame. destruct (read_full headerSize bs) as [[h r]|] eqn:E; [|by case_bool_decide].
  apply read_full_Some in E as [-> Hh]; [|done].
  case_bool_decide as Hm; [|done]. cbn [negb].
  case_bool_decide as Hl; [done|].
  destruct (read_full _ r) as [[b' r']|] eqn:E; [|done].
  apply read_full_Some in E as [-> Hb]; [|apply le_get_range].
  case_bool_decide as Hc; [done|]. intros [= <- <- <-].
  split; [|lia]. rewrite frame_split, <- app_assoc. f_equal.
  assert (Hn : List.length h = 13%nat) by (unfold len, headerSize in Hh; lia). clear Hh.
  destruct h as [|m0 [|m1 [|m2 [|m3 [|kd [|l0 [|l1 [|l2 [|l3 [|c0 [|c1 [|c2 [|c3 [|]]]]]]]]]]]]]];
    try discriminate Hn.
  pose proof (le_put_get [l0; l1; l2; l3]) as H1. pose proof (le_put_get [c0; c1; c2; c3]) as H2.
  cbn [List.length] in H1, H2.
  change (take 4 (drop 5 _)) with [l0; l1; l2; l3] in Hb.
  change (take 4 (drop 9 _)) with [c0; c1; c2; c3] in Hc.
  change (take 4 _) with [m0; m1; m2; m3] in Hm.
  unfold frame_header. by rewrite Hc, Hb, H1, H2, <- Hm.
Qed.

(** A reader that ends inside a frame, past its first byte, is torn. *)
Lemma readFrame_prefix k b p q :
  len b < 2 ^ 32 → frame k b = p ++ q → p ≠ [] → q ≠ [] → readFrame p = FrameTorn.
Proof.
  intros Hb Hf Hp Hq.
  destruct (read_full headerSize p) as [[h r]|] eqn:E.
  - pose proof E as E'. apply read_full_Some in E' as [-> Hh]; [|done].
    rewrite frame_split, <- app_assoc in Hf.
    apply app_inj_1 in Hf as [<- Hr]; [|rewrite <- (Nat2Z.id (List.length h)); fold (len h); rewrite Hh; done].
    rewrite readFrame_header by done.
    case_bool_decide; [done|].
    assert (read_full (len b) r = None) as ->; [|done].
    apply read_full_None. rewrite Hr, len_app.
    destruct q; [done|]. rewrite len_cons. pose proof (len_nonneg q). lia.
  - unfold readFrame. rewrite E. by rewrite bool_decide_eq_false_2.
Qed.

Lemma readFrame_nil : readFrame [] = FrameEOF.
Proof. done. Qed.

(** ** Properties *)

Section wire_properties.
Context `{WireLaws}.

Lemma envelope_encoding_nonempty e b :
  marshal_envelope e = Some b → e ≠ empty_envelope → 0 < len b.
Proof.
  intros He Hne. destruct b; [|rewrite len_cons; pose proof (len_nonneg b0); lia].
  apply envelope_roundtrip in He. rewrite envelope_default in He. congruence.
Qed.

(** a record built of an agent's message gives back that message: the
    payload as it came, the host's envelope untouched, and the record's own
    identifier as the relay message id; the record is classified by the
    message, is a full report exactly when the message is one, and hashes
    what it carries. *)
Theorem FromMessage_Message id site host m now r :
  FromMessage id site host (Some m) now = Some r →
  Envelope_ m ≠ Some empty_envelope →
  Message r = Some (mkMessage (Payload_ m) (Envelope_ m) (uuid_string id))
  ∧ Stream r = Classify m ∧ Priority r = PriorityOf (Classify m)
  ∧ Full r = inventory_full m
  ∧ PayloadHash r = sha256 (Payload r).
Proof.
  intros HF Henv. unfold FromMessage in HF.
  destruct (match Envelope_ m with None => _ | Some _ => _ end) as [[[enc ses] sq]|] eqn:E; [|done].
  destruct (marshal_message _) as [pl|] eqn:Em; [|done].
  apply message_roundtrip in Em. injection HF as <-.
  assert (HM : Message {| ID := id; Site := site; HostID := host; SessionID := ses;
     Stream := Classify m; Priority := PriorityOf (Classify m); Sequence := sq;
     CreatedAt := now;
     ExpiresAt := if bool_decide (0 < lifetimeOf (Classify m)) then Some (now + lifetimeOf (Classify m)) else None;
     Envelope := enc; Payload := pl; PayloadHash := sha256 pl |}
     = Some (mkMessage (Payload_ m) (Envelope_ m) (uuid_string id))).
  { unfold Message; cbn -[lifetimeOf]. rewrite Em. cbn.
    destruct (Envelope_ m) as [e|].
    - destruct (marshal_envelope e) as [b|] eqn:Ee; [|done]. injection E as <- <- <-.
      rewrite bool_decide_eq_true_2
        by (eapply envelope_encoding_nonempty; [exact Ee|congruence]).
      by rewrite (envelope_roundtrip e b Ee).
    - injection E as <- <- <-. by rewrite bool_decide_eq_false_2 by (unfold len; simpl; lia). }
  split; [exact HM|]. repeat (split; [done|]). split; [|done].
  unfold Full. rewrite HM. cbn [Stream].
  unfold Classify, inventory_full. cbn [Payload_].
  by destruct (Payload_ m).
Qed.
End wire_properties.

(** C30: a record that fits the layout survives the disk: its frame takes the
    room [Size] announces, whatever follows it the reader gives back exactly
    that frame, and the body decodes to the very record. *)
Theorem record_disk_roundtrip r rest :
  record_ok r → bodySize r ≤ maxRecordBytes →
  len (frame kindRecord (encode r)) = Size r
  ∧ readFrame (frame kindRecord (encode r) ++ rest) = FrameRead kindRecord (encode r) rest
  ∧ decode (encode r) = Ok r.
Proof.
  intros Hr Hs.
  assert (Hl : len (encode r) = bodySize r).
  { apply len_encode; [apply Hr|].
    destruct Hr as (_ & _ & _ & _ & _ & _ & _ & _ & _ & _ & _ & ->). apply len_sha256. }
  split; [by rewrite len_frame, Hl|]. split; [|by apply decode_encode].
  apply readFrame_frame. lia.
Qed.

(** [decode] accepts nothing but encodings: a body it takes is the
    encoding of the record it returns, followed at most by bytes it ignores,
    and that record fits the layout with its hash checked. *)
Theorem decode_accepts_only_encodings body r :
  decode body = Ok r → record_ok r ∧ ∃ rest, body = encode r ++ rest.
Proof. apply decode_inv. Qed.

(** A power cut inside a frame is always noticed: whatever proper,
    non-empty part of a frame the disk kept, the reader calls it torn; and a
    frame whose body is over the bound of the reader is torn even when all of
    it is there. *)
Theorem cut_frame_is_torn k b p q :
  len b < 2 ^ 32 → frame k b = p ++ q → p ≠ [] →
  q ≠ [] ∨ maxRecordBytes < len b →
  readFrame p = FrameTorn.
Proof.
  intros Hb Hf Hp [Hq|Hmax]; [by eapply readFrame_prefix|].
  destruct (decide (q = [])) as [->|Hq]; [|by eapply readFrame_prefix].
  rewrite app_nil_r in Hf. subst p. rewrite frame_split, readFrame_header by done.
  by rewrite bool_decide_eq_true_2.
Qed.

(** ** A concrete wire format

    A small encoding that meets [WireLaws], for evaluating the model on
    concrete messages: bare messages only, envelopes with a session and a
    sequence only; anything else does not marshal. *)

#[export] Instance envelope_eq_dec : EqDecision RelayedEnvelope.
Proof. solve_decision. Defined.

Definition demo_tag (p : payload bytes) : byte * bytes :=
  match p with
  | AgentMessage_Hello c => (Byte.x01, c)
  | AgentMessage_Heartbeat c => (Byte.x02, c)
  | AgentMessage_Inventory false c => (Byte.x03, c)
  | AgentMessage_TaskResult c => (Byte.x04, c)
  | AgentMessage_TaskProgress c => (Byte.x05, c)
  | AgentMessage_TaskLogLines c => (Byte.x06, c)
  | AgentMessage_MetricsSample c => (Byte.x07, c)
  | AgentMessage_FinalReady c => (Byte.x08, c)
  | AgentMessage_CancelAck c => (Byte.x09, c)
  | AgentMessage_FinalWipeReport c => (Byte.x0a, c)
  | AgentMessage_Inventory true c => (Byte.x0b, c)
  | AgentMessage_none => (Byte.x00, [])
  end.

Definition demo_untag (b : byte) (c : bytes) : payload bytes :=
  match b with
  | Byte.x01 => AgentMessage_Hello c
  | Byte.x02 => AgentMessage_Heartbeat c
  | Byte.x03 => AgentMessage_Inventory false c
  | Byte.x04 => AgentMessage_TaskResult c
  | Byte.x05 => AgentMessage_TaskProgress c
  | Byte.x06 => AgentMessage_TaskLogLines c
  | Byte.x07 => AgentMessage_MetricsSample c
  | Byte.x08 => AgentMessage_FinalReady c
  | Byte.x09 => AgentMessage_CancelAck c
  | Byte.x0a => AgentMessage_FinalWipeReport c
  | Byte.x0b => AgentMessage_Inventory true c
  | _ => AgentMessage_none
  end.

Definition session_envelope (session : string) (seq : Z) : RelayedEnvelope :=
  mkEnvelope 0 "" "" "" session seq 0 [] "" [] [].

#[export] Instance demo_wire : Wire := {|
  content := bytes;
  marshal_message m :=
    if bool_decide (Envelope_ m = None ∧ RelayMessageId m = ""%string)
    then let '(t, c) := demo_tag (Payload_ m) in Some (t :: c) else None;
  unmarshal_message b :=
    match b with
    | [] => None
    | t :: c => Some (mkMessage (demo_untag t c) None ""%string)
    end;
  marshal_envelope e :=
    if bool_decide (e = empty_envelope) then Some []
    else if bool_decide (e = session_envelope (session_id e) (u64 (sequence e)))
    then Some (le_put 8 (sequence e) ++ sbytes (session_id e)) else None;
  unmarshal_envelope b :=
    if bool_decide (b = []) then Some empty_envelope
    else '(s, r) ← read_full 8 b; Some (session_envelope (bstring r) (le_get s));
  uuid_string b := bstring (hex_encode b);
|}.

#[export] Instance demo_wire_laws : WireLaws.
Proof.
  split.
  - intros [p e i] b. cbn -[bool_decide]. case_bool_decide as Hb; [|done].
    destruct Hb as [[=->] [=->]].
    destruct p as [c|c|[] c|c|c|c|c|c|c|c|]; intros [= <-]; done.
  - intros e b. cbn -[bool_decide le_put read_full]. case_bool_decide as He.
    { intros [= <-]. by rewrite bool_decide_eq_true_2, He. }
    case_bool_decide as Hs; [|done]. intros [= <-].
    rewrite bool_decide_eq_false_2 by done.
    change (read_full 8 _) with (read_full 8 (le_put 8 (sequence e) ++ sbytes (session_id e))).
    rewrite read_full_app by (by rewrite len_le_put). cbn [mbind option_bind].
    rewrite bstring_sbytes, le_get_put. by rewrite Hs at 3.
  - done.
Qed.

Definition demo_id (n : Z) : uuid := le_put 16 n.

(** A record of a stream with a given identifier, host, sequence and payload. *)
Definition demo_record (n : Z) (host : string) (m : payload bytes) (session : string) (seq : Z)
    (now : time) : Record_ :=
  match FromMessage (demo_id n) "waw" host
          (Some (mkMessage m (if bool_decide (seq = 0) then None
                              else Some (session_envelope session seq)) "")) now with
  | Some r => r
  | None => mkRecord [] "" "" "" "" 0 0 0 None [] [] []
  end.

Lemma FromMessage_Message_witness :
  ∃ r, FromMessage (demo_id 7) "waw" "h1"
         (Some (mkMessage (AgentMessage_TaskResult [Byte.x2a]) (Some (session_envelope "s1" 5)) "")) 1000
       = Some r
  ∧ Message r = Some (mkMessage (AgentMessage_TaskResult [Byte.x2a]) (Some (session_envelope "s1" 5))
                        (uuid_string (demo_id 7))).
Proof.
  eexists. split; [reflexivity|].
  refine (proj1 (FromMessage_Message (demo_id 7) "waw" "h1"
    (mkMessage (AgentMessage_TaskResult [Byte.x2a]) (Some (session_envelope "s1" 5)) "") 1000 _ eq_refl _)).
  vm_compute. discriminate.
Defined.

Lemma record_disk_roundtrip_witness :
  readFrame (frame kindRecord (encode (demo_record 7 "h1" (AgentMessage_TaskResult [Byte.x2a]) "s1" 5 1000))
             ++ [Byte.x00])
  = FrameRead kindRecord (encode (demo_record 7 "h1" (AgentMessage_TaskResult [Byte.x2a]) "s1" 5 1000)) [Byte.x00].
Proof.
  apply (record_disk_roundtrip (demo_record 7 "h1" (AgentMessage_TaskResult [Byte.x2a]) "s1" 5 1000) [Byte.x00]).
  - refine (bool_decide_eq_true_1 (record_ok _) _). vm_compute. reflexivity.
  - vm_compute. discriminate.
Defined.

Lemma decode_accepts_only_encodings_witness :
  ∃ rest, encode (demo_record 7 "h1" (AgentMessage_TaskResult [Byte.x2a]) "s1" 5 1000) ++ [Byte.x01]
  = encode (demo_record 7 "h1" (AgentMessage_TaskResult [Byte.x2a]) "s1" 5 1000) ++ rest.
Proof.
  apply (decode_accepts_only_encodings _ (demo_record 7 "h1" (AgentMessage_TaskResult [Byte.x2a]) "s1" 5 1000)).
  vm_compute. reflexivity.
Defined.

Lemma cut_frame_is_torn_witness :
  readFrame (take 20 (frame kindTombstone (demo_id 3))) = FrameTorn.
Proof.
  apply (cut_frame_is_torn kindTombstone (demo_id 3) _ (drop 20 (frame kindTombstone (demo_id 3)))).
  - vm_compute. reflexivity.
  - symmetry. apply take_drop.
  - vm_compute. discriminate.
  - left. vm_compute. discriminate.
Defined.
