(* ===== verification/ResultSpool.v ===== *)
(** * ResultSpool: the answers the panel has not said it holds

    src/internal/agent/resultspool.go and resultdelivery.go: the directory of
    undelivered results, the books the agent keeps of it, and the delivery of
    one session over it. A method holds the mutex to its end and is one step;
    [Pending] reads the files after it let the mutex go, so its reads are steps
    of their own. The moments come from the caller's clock. *)
From S2P Require Import Prelude Bytes Digest Text Capability CapabilityProps Signer Trust Acks.
From coqutil Require Import Datatypes.RecordSetters. Import OCamlLikeNotations.

Open Scope Z_scope.
Open Scope list_scope.

#[global] Arguments constant {E} newValue / _.

(** ** The directory and the books *)

Definition ResultSpoolSize : Z := 64.
Definition ResultSpoolBytes : Z := 32 ≪ 20.
Definition ResultSpoolTTL : Z := 24 * hour.
Definition resultSpoolSuffix : string := ".result".
Definition resultSpoolHeader : Z := 8.
Definition resultSpoolMagic : bytes := sbytes "FRS1".
Definition resultRetryInterval : Z := 2 * minute.

(** A file of the directory: its content and when it was written. *)
Record spool_file := mkSpoolFile { sf_raw : bytes; sf_modified : time }.

(** What the operating system does during one call: a write that fails before
    the rename, a sync of the directory that fails after it, files that cannot
    be read, described or removed, a directory that cannot be listed. *)
Record spool_io := mkSpoolIo {
  sio_write_fails : bool;
  sio_dirsync_fails : bool;
  sio_unreadable : string → bool;
  sio_undescribed : string → bool;
  sio_undeletable : string → bool;
  sio_unlisted : bool }.
Definition good_spool_io : spool_io := mkSpoolIo false false (λ _, false) (λ _, false) (λ _, false) false.

Record spooledResult := mkSpooled {
  sr_file : string; sr_sequence : Z; sr_taskID : string; sr_idempotencyKey : string; sr_spooledAt : time; sr_size : Z }.

Record ResultSpool := mkResultSpool {
  rs_disk : gmap string spool_file;
  rs_limit : Z; rs_maxSize : Z; rs_ttl : Z;
  rs_spooled : bool;           (* the signal, a channel of one *)
  rs_sequence : Z;
  rs_entries : list spooledResult;
  rs_bytes : Z }.

#[export] Instance spooledResult_eq_dec : EqDecision spooledResult. Proof. solve_decision. Defined.

(** ** Names *)

(** [spoolableTaskID]: 64 bytes of letters, digits, hyphens and underscores.
    Go ranges over runes; a rune beyond ASCII is no letter here and none of its
    bytes is either. *)
Definition task_letter (c : byte) : bool :=
  bool_decide (48 ≤ b2z c ≤ 57) || bool_decide (97 ≤ b2z c ≤ 122) || bool_decide (65 ≤ b2z c ≤ 90)
  || bool_decide (c = Byte.x2d) || bool_decide (c = Byte.x5f).
Definition spoolableTaskID (taskID : string) : bool :=
  negb (bool_decide (taskID = "") || bool_decide (64 < slen taskID)) && forallb task_letter (sbytes taskID).

Definition resultSpoolName (sequence : Z) (taskID : string) : string :=
  pad_zeros 19 (FormatUint (Z.to_N sequence)) +:+ "-" +:+ taskID +:+ resultSpoolSuffix.

Definition parseResultName (name : string) : option (Z * string) :=
  if negb (HasSuffix name resultSpoolSuffix) then None
  else match cut_first Byte.x2d (sbytes (TrimSuffix name resultSpoolSuffix)) with
  | None => None
  | Some (number, rest) =>
      match ParseUint (bstring number) with
      | None => None
      | Some sequence =>
          if bool_decide (sequence = 0%N) || negb (spoolableTaskID (bstring rest)) then None
          else Some (Z.of_N sequence, bstring rest)
      end
  end.

Section spool.
Context {RW : ResultWire}.

(** ** Files *)

Definition spool_frame (body : bytes) : bytes := resultSpoolMagic ++ le_put 4 (crc32c body) ++ body.

Definition spool_decode (maxSize : Z) (raw : bytes) : option TaskResult :=
  if bool_decide (len raw < resultSpoolHeader) || bool_decide (maxSize < len raw) then None
  else if negb (bool_decide (take 4 raw = resultSpoolMagic)) then None
  else
    let body := drop 8 raw in
    if negb (bool_decide (crc32c body = le_get (take 4 (drop 4 raw)))) then None else result_Unmarshal body.

(** [read]. *)
Definition read_result (i : spool_io) (s : ResultSpool) (name : string) : option TaskResult :=
  if sio_unreadable i name then None else f ← rs_disk s !! name; spool_decode (rs_maxSize s) (sf_raw f).

(** [remove] and [discard]: a failure is only logged. *)
Definition remove_file (i : spool_io) (name : string) (s : ResultSpool) : ResultSpool :=
  if sio_undeletable i name then s else { s with rs_disk := delete name (rs_disk s) }.

(** [write]: whether it failed; the file may be in place all the same. *)
Definition write_file (i : spool_io) (now : time) (name : string) (body : bytes) (s : ResultSpool) : bool * ResultSpool :=
  if sio_write_fails i then (true, s)
  else (sio_dirsync_fails i, { s with rs_disk := <[name := mkSpoolFile (spool_frame body) now]> (rs_disk s) }).

(** ** The books *)

(** [forget]: the first entry of the attempt. *)
Fixpoint first_of (taskID : string) (entries : list spooledResult) : option (spooledResult * list spooledResult) :=
  match entries with
  | [] => None
  | e :: rest =>
      if bool_decide (sr_taskID e = taskID) then Some (e, rest)
      else '(found, kept) ← first_of taskID rest; Some (found, e :: kept)
  end.
Definition forget (i : spool_io) (taskID : string) (s : ResultSpool) : ResultSpool :=
  match first_of taskID (rs_entries s) with
  | None => s
  | Some (e, kept) =>
      let s := remove_file i (sr_file e) s in
      { { s with rs_bytes := rs_bytes s - sr_size e } with rs_entries := kept }
  end.

(** [evict]: the oldest leave until the spool is within its bounds. *)
Fixpoint evict_from (i : spool_io) (entries : list spooledResult) (s : ResultSpool) : ResultSpool :=
  match entries with
  | [] => { s with rs_entries := [] }
  | oldest :: rest =>
      if bool_decide (rs_limit s < len entries) || bool_decide (rs_maxSize s < rs_bytes s) && bool_decide (1 < len entries)
      then let s := remove_file i (sr_file oldest) s in
           evict_from i rest { s with rs_bytes := rs_bytes s - sr_size oldest }
      else { s with rs_entries := entries }
  end.
Definition evict (i : spool_io) (s : ResultSpool) : ResultSpool := evict_from i (rs_entries s) s.

(** [expire]. *)
Definition stale (now : time) (s : ResultSpool) (e : spooledResult) : bool :=
  negb (bool_decide (time_sub now (sr_spooledAt e) < rs_ttl s)).
Definition let_go (i : spool_io) (s : ResultSpool) (e : spooledResult) : ResultSpool :=
  remove_file i (sr_file e) { s with rs_bytes := rs_bytes s - sr_size e }.
Definition expire (i : spool_io) (now : time) (s : ResultSpool) : ResultSpool :=
  let kept := filter (λ e, stale now s e = false) (rs_entries s) in
  let s := fold_left (let_go i) (filter (λ e, stale now s e = true) (rs_entries s)) s in
  { s with rs_entries := kept }.

(** ** Opening *)

(** One name of the listing. *)
Inductive found := Ignored | Discarded | Found (e : spooledResult).
Definition look_at (i : spool_io) (s : ResultSpool) (name : string) (f : spool_file) : found :=
  if negb (HasSuffix name resultSpoolSuffix) then Ignored
  else match parseResultName name with
  | None => Discarded
  | Some (sequence, taskID) =>
      if sio_undescribed i name then Discarded
      else match read_result i s name with
      | None => Discarded
      | Some result =>
          if negb (bool_decide (res_TaskId result = taskID)) then Discarded
          else Found (mkSpooled name sequence taskID (res_IdempotencyKey result) (sf_modified f) (len (sf_raw f)))
      end
  end.

Definition load_one (i : spool_io) (s : ResultSpool) (nf : string * spool_file) : ResultSpool :=
  match look_at i s nf.1 nf.2 with
  | Ignored => s
  | Discarded => remove_file i nf.1 s
  | Found e =>
      { { { s with rs_entries := rs_entries s ++ [e] } with rs_bytes := rs_bytes s + sr_size e }
        with rs_sequence := Z.max (rs_sequence s) (sr_sequence e) }
  end.

(** The names of the directory in their order, as os.ReadDir lists them. *)
Definition listing (disk : gmap string spool_file) : list (string * spool_file) :=
  sort_stable (λ a b, bytes_less (sbytes a.1) (sbytes b.1)) (map_to_list disk).

(** [load] sorts by the sequence. Two files the spool itself wrote do not share
    one; for others the stable order stands for the one Go leaves open. *)
Definition load (i : spool_io) (s : ResultSpool) : option ResultSpool :=
  if sio_unlisted i then None
  else
    let s := fold_left (load_one i) (listing (rs_disk s)) s in
    Some (evict i { s with rs_entries := sort_stable (λ a b, bool_decide (sr_sequence a < sr_sequence b)) (rs_entries s) }).

(** [OpenResultSpool] over what the directory holds. *)
Definition or_default (value standard : Z) : Z := if bool_decide (value ≤ 0) then standard else value.
Definition OpenResultSpool (i : spool_io) (limit maxSize ttl : Z) (disk : gmap string spool_file) : option ResultSpool :=
  load i (mkResultSpool disk (or_default limit ResultSpoolSize) (or_default maxSize ResultSpoolBytes)
            (or_default ttl ResultSpoolTTL) false 0 [] 0).

(** ** The methods *)

Inductive spool_error := ErrUnspoolable | ErrEncoding | ErrTooLarge | ErrWriting
| ErrOtherKey | ErrUnreadable | ErrOtherContent.

(** [Enqueue]. *)
Definition Enqueue (i : spool_io) (now : time) (result : TaskResult) (s : ResultSpool)
  : Prelude.result spool_error unit * ResultSpool :=
  let taskID := res_TaskId result in
  if negb (spoolableTaskID taskID) then (Err ErrUnspoolable, s)
  else match result_Marshal result with
  | None => (Err ErrEncoding, s)
  | Some body =>
      if bool_decide (rs_maxSize s < len body + resultSpoolHeader) then (Err ErrTooLarge, s)
      else
        let s := forget i taskID s in
        let s := { s with rs_sequence := u64 (rs_sequence s + 1) } in
        let name := resultSpoolName (rs_sequence s) taskID in
        let '(failed, s) := write_file i now name body s in
        if failed : bool then (Err ErrWriting, s)
        else
          let size := len body + resultSpoolHeader in
          let e := mkSpooled name (rs_sequence s) taskID (res_IdempotencyKey result) now size in
          let s := { { s with rs_entries := rs_entries s ++ [e] } with rs_bytes := rs_bytes s + size } in
          (Ok tt, { evict i s with rs_spooled := true })
  end.

(** [Pending] in its two halves: what is held once the stale are given up, and
    the read of one of them. *)
Definition pending_held (i : spool_io) (now : time) (s : ResultSpool) : list spooledResult * ResultSpool :=
  let s := expire i now s in (rs_entries s, s).
Definition pending_read (i : spool_io) (e : spooledResult) (s : ResultSpool) : option TaskResult * ResultSpool :=
  match read_result i s (sr_file e) with
  | Some result => (Some result, s)
  | None => (None, forget i (sr_taskID e) s)
  end.
Fixpoint pending_reads (i : spool_io) (held : list spooledResult) (s : ResultSpool) : list TaskResult * ResultSpool :=
  match held with
  | [] => ([], s)
  | e :: held =>
      let '(found, s) := pending_read i e s in
      let '(more, s) := pending_reads i held s in
      (match found with Some result => result :: more | None => more end, s)
  end.
Definition Pending (i : spool_io) (now : time) (s : ResultSpool) : list TaskResult * ResultSpool :=
  let '(held, s) := pending_held i now s in pending_reads i held s.

(** [Acknowledge]. *)
Definition about (i : spool_io) (s : ResultSpool) (e : spooledResult) (ack : TaskResultAck) : Prelude.result spool_error unit :=
  if negb (bool_decide (sr_idempotencyKey e = "")) && negb (bool_decide (sr_idempotencyKey e = ack_IdempotencyKey ack))
  then Err ErrOtherKey
  else if bool_decide (0 < len (ack_ResultDigest ack)) then
    match read_result i s (sr_file e) with
    | None => Err ErrUnreadable
    | Some held => if bool_decide (ResultDigest (Some held) = ack_ResultDigest ack) then Ok tt else Err ErrOtherContent
    end
  else Ok tt.
Definition Acknowledge (i : spool_io) (ack : TaskResultAck) (s : ResultSpool) : Prelude.result spool_error unit * ResultSpool :=
  if bool_decide (ack_TaskId ack = "") then (Ok tt, s)
  else match first_of (ack_TaskId ack) (rs_entries s) with
  | None => (Ok tt, s)
  | Some (e, _) =>
      match about i s e ack with
      | Err err => (Err err, s)
      | Ok _ => (Ok tt, forget i (sr_taskID e) s)
      end
  end.

(** ** The delivery of a session *)

Context {SS : SignatureScheme} {KT : KeyText}.

Record resultDelivery := mkDelivery {
  rd_spool : option ResultSpool;
  rd_acknowledged : bool;
  rd_retryEvery : Z;
  rd_sent : gmap string time }.

Definition retry_every (d : resultDelivery) : Z := if bool_decide (rd_retryEvery d ≤ 0) then resultRetryInterval else rd_retryEvery d.
Definition due (d : resultDelivery) (now : time) (taskID : string) : bool :=
  match rd_sent d !! taskID with None => true | Some at_ => bool_decide (retry_every d ≤ time_sub now at_) end.
Definition noteSent (taskID : string) (now : time) (d : resultDelivery) : resultDelivery :=
  { d with rd_sent := <[taskID := now]> (rd_sent d) }.
Definition forgetSent (taskID : string) (d : resultDelivery) : resultDelivery :=
  { d with rd_sent := delete taskID (rd_sent d) }.
Definition with_spool (f : ResultSpool → ResultSpool) (d : resultDelivery) : resultDelivery :=
  { d with rd_spool := f <$> rd_spool d }.

(** [deliver]: the copy on disk comes first. [sent] is whether the send
    succeeds. *)
Definition deliver (i : spool_io) (now : time) (sent : bool) (result : TaskResult) (d : resultDelivery) : resultDelivery :=
  let d := match rd_spool d with
           | None => d
           | Some s => noteSent (res_TaskId result) now (with_spool (λ s, (Enqueue i now result s).2) d)
           end in
  if negb sent then d
  else if negb (rd_acknowledged d) then with_spool (forget i (res_TaskId result)) d else d.

(** [offer]: what goes out, for the outcomes of the sends, until one fails. *)
Fixpoint offer_each (i : spool_io) (now : time) (outcomes : list bool) (owed : list TaskResult) (d : resultDelivery)
  {struct owed} : list TaskResult * resultDelivery :=
  match owed with
  | [] => ([], d)
  | result :: owed =>
      let d := noteSent (res_TaskId result) now d in
      match outcomes with
      | true :: outcomes =>
          let d := if negb (rd_acknowledged d) then with_spool (forget i (res_TaskId result)) d else d in
          let '(went, d) := offer_each i now outcomes owed d in (result :: went, d)
      | _ => ([], d)
      end
  end.
Definition offer (i : spool_io) (now : time) (outcomes : list bool) (d : resultDelivery) : list TaskResult * resultDelivery :=
  match rd_spool d with
  | None => ([], d)
  | Some s =>
      let '(pending, s) := Pending i now s in
      let d := { d with rd_spool := Some s } in
      offer_each i now outcomes (filter (λ r, due d now (res_TaskId r) = true) pending) d
  end.

(** [acknowledge], for what the check of the signature says. *)
Definition known_status (status : Z) : bool :=
  bool_decide (status = ACK_REJECTED_STALE) || bool_decide (status = ACK_DUPLICATE) || bool_decide (status = ACK_SETTLED).
Definition acknowledge (i : spool_io) (verified : Prelude.result ack_error unit) (ack : TaskResultAck) (d : resultDelivery)
  : resultDelivery :=
  match rd_spool d with
  | None => d
  | Some s =>
      if bool_decide (ack_TaskId ack = "") then d
      else match verified with
      | Err _ => d
      | Ok _ =>
          if negb (known_status (ack_Status ack)) then d
          else match Acknowledge i ack s with
          | (Err _, s) => { d with rd_spool := Some s }
          | (Ok _, s) => forgetSent (ack_TaskId ack) { d with rd_spool := Some s }
          end
      end
  end.
End spool.
