(* ===== verification/ResultSpoolProps.v ===== *)
(** * ResultSpoolProps: the books of the spool and its directory

    What every method of ResultSpool.v keeps: the books add up and stay within
    the bounds, and behind every entry there is a file that reads back as the
    answer it names. *)
From S2P Require Import SpoolRecord.
From S2P Require Import Prelude Bytes Digest Text Capability CapabilityProps Signer Trust Acks ResultSpool.

Open Scope Z_scope.
Open Scope list_scope.

(** ** Names *)

Lemma task_letter_no_dash c : isDigit c = true → c ≠ Byte.x2d.
Proof. by intros [? _]%isDigit_not_sign. Qed.

Lemma pad_no_dash w n : Byte.x2d ∉ sbytes (pad_zeros w (FormatUint n)).
Proof.
  unfold pad_zeros. rewrite sbytes_app, sbytes_bstring, elem_of_app. intros [H|H].
  - apply elem_of_replicate in H as [H _]. discriminate H.
  - pose proof (FormatUint_digits n) as Hd. rewrite Forall_forall in Hd. by apply Hd, task_letter_no_dash in H.
Qed.

Lemma parse_name sequence taskID :
  0 < sequence < 2 ^ 64 → spoolableTaskID taskID = true →
  parseResultName (resultSpoolName sequence taskID) = Some (sequence, taskID).
Proof.
  intros Hs Ht. unfold parseResultName, resultSpoolName.
  set (pad := pad_zeros 19 (FormatUint (Z.to_N sequence))).
  replace (pad +:+ "-" +:+ taskID +:+ resultSpoolSuffix) with ((pad +:+ "-" +:+ taskID) +:+ resultSpoolSuffix)
    by (by rewrite !app_string_assoc).
  rewrite HasSuffix_app, TrimSuffix_app. cbn [negb]. rewrite !sbytes_app.
  change (sbytes "-") with [Byte.x2d]. cbn [app]. rewrite cut_first_sep by apply pad_no_dash.
  rewrite !bstring_sbytes. subst pad. rewrite ParseUint_pad by lia.
  rewrite bool_decide_eq_false_2 by lia. rewrite Ht. cbn [orb negb]. by rewrite Z2N.id by lia.
Qed.

(** ** Giving entries up *)

(** [s'] is [s] without the entries of [gone]: their bytes are off the books,
    and no other file was touched. *)
Record sheds (gone : list spooledResult) (s s' : ResultSpool) : Prop := {
  sh_bounds : rs_limit s' = rs_limit s ∧ rs_maxSize s' = rs_maxSize s ∧ rs_ttl s' = rs_ttl s;
  sh_counts : rs_sequence s' = rs_sequence s ∧ rs_spooled s' = rs_spooled s;
  sh_entries : rs_entries s ≡ₚ gone ++ rs_entries s';
  sh_order : rs_entries s' `sublist_of` rs_entries s;
  sh_bytes : rs_bytes s' = rs_bytes s - sumZ sr_size gone;
  sh_disk : ∀ name, name ∉ sr_file <$> gone → rs_disk s' !! name = rs_disk s !! name;
}.

Lemma sumZ_app {A} (w : A → Z) (l k : list A) : sumZ w (l ++ k) = sumZ w l + sumZ w k.
Proof. unfold sumZ. induction l as [|x l IH]; cbn [app foldr]; lia. Qed.

Lemma sumZ_perm {A} (w : A → Z) (l k : list A) : l ≡ₚ k → sumZ w l = sumZ w k.
Proof. unfold sumZ. induction 1; cbn [foldr] in *; lia. Qed.

Lemma sheds_nothing s : sheds [] s s.
Proof. split; try done. unfold sumZ. cbn. lia. Qed.

Lemma sheds_trans g1 g2 s1 s2 s3 : sheds g1 s1 s2 → sheds g2 s2 s3 → sheds (g1 ++ g2) s1 s3.
Proof.
  intros [(A1 & A2 & A3) [A4 A5] A6 A7 A8 A9] [(B1 & B2 & B3) [B4 B5] B6 B7 B8 B9]. split.
  - split_and!; congruence.
  - split; congruence.
  - by rewrite A6, B6, app_assoc.
  - by etrans.
  - rewrite B8, A8, sumZ_app. lia.
  - intros n Hn. rewrite fmap_app, elem_of_app in Hn. rewrite B9, A9; tauto.
Qed.

Lemma remove_file_disk i name n s : n ≠ name → rs_disk (remove_file i name s) !! n = rs_disk s !! n.
Proof. unfold remove_file. destruct (sio_undeletable i name); [done|]. intros ?. cbn. by rewrite lookup_delete_ne. Qed.

Lemma remove_file_rest i name s :
  rs_limit (remove_file i name s) = rs_limit s ∧ rs_maxSize (remove_file i name s) = rs_maxSize s
  ∧ rs_ttl (remove_file i name s) = rs_ttl s ∧ rs_sequence (remove_file i name s) = rs_sequence s
  ∧ rs_spooled (remove_file i name s) = rs_spooled s ∧ rs_entries (remove_file i name s) = rs_entries s
  ∧ rs_bytes (remove_file i name s) = rs_bytes s.
Proof. unfold remove_file. by destruct (sio_undeletable i name). Qed.

Lemma first_of_Some taskID l e kept :
  first_of taskID l = Some (e, kept) → sr_taskID e = taskID ∧ l ≡ₚ e :: kept ∧ kept `sublist_of` l.
Proof.
  revert e kept. induction l as [|x l IH]; cbn; intros e kept H; [done|]. case_bool_decide as Hx.
  - injection H as <- <-. split_and!; [done..|]. by apply sublist_cons.
  - destruct (first_of taskID l) as [[found more]|]; [|done]. injection H as <- <-.
    destruct (IH _ _ eq_refl) as (? & Hp & Hs). split_and!; [done| |by apply sublist_skip].
    rewrite Hp. apply Permutation_swap.
Qed.

Lemma first_of_None taskID l : first_of taskID l = None → ∀ e, e ∈ l → sr_taskID e ≠ taskID.
Proof.
  induction l as [|x l IH]; cbn; intros H e He; [by apply elem_of_nil in He|]. case_bool_decide as Hx; [done|].
  destruct (first_of taskID l) as [[]|]; [done|]. apply elem_of_cons in He as [->|He]; auto.
Qed.

Lemma forget_sheds i taskID s :
  ∃ gone, sheds gone s (forget i taskID s) ∧ Forall (λ e, sr_taskID e = taskID) gone
    ∧ (first_of taskID (rs_entries s) = None ∧ gone = [] ∧ forget i taskID s = s
       ∨ ∃ e kept, first_of taskID (rs_entries s) = Some (e, kept) ∧ gone = [e] ∧ rs_entries (forget i taskID s) = kept).
Proof.
  unfold forget. destruct (first_of taskID (rs_entries s)) as [[e kept]|] eqn:Hf.
  - destruct (first_of_Some _ _ _ _ Hf) as (Ht & Hp & Hs). destruct (remove_file_rest i (sr_file e) s) as (H1 & H2 & H3 & H4 & H5 & H6 & H7).
    exists [e]. split_and!; [|by apply Forall_singleton|right; by exists e, kept]. split; cbn; try done.
    + unfold sumZ. cbn. lia.
    + intros n Hn. apply remove_file_disk. set_solver.
  - exists []. split_and!; [apply sheds_nothing|done|by left].
Qed.

(** ** Eviction *)

Definition with_entries (l : list spooledResult) (s : ResultSpool) : ResultSpool :=
  mkResultSpool (rs_disk s) (rs_limit s) (rs_maxSize s) (rs_ttl s) (rs_spooled s) (rs_sequence s) l (rs_bytes s).

Lemma with_entries_same s : with_entries (rs_entries s) s = s.
Proof. by destruct s. Qed.

(** The spool without its first entry, as the loops give it up. *)
Lemma gave_up_sheds i e l s :
  sheds [e] (with_entries (e :: l) s) (with_entries l (let_go i s e)).
Proof.
  unfold let_go, remove_file. destruct (sio_undeletable i (sr_file e)); split; cbn; try done;
    try (by apply sublist_cons); try (unfold sumZ; cbn; lia).
  intros n Hn. by rewrite lookup_delete_ne by set_solver.
Qed.

Lemma evict_from_cons i e l s :
  evict_from i (e :: l) s
  = if bool_decide (rs_limit s < len (e :: l)) || bool_decide (rs_maxSize s < rs_bytes s) && bool_decide (1 < len (e :: l))
    then evict_from i l (let_go i s e) else with_entries (e :: l) s.
Proof.
  cbn [evict_from]. destruct (_ || _); [|by destruct s]. f_equal. unfold let_go, remove_file.
  by destruct (sio_undeletable i (sr_file e)), s.
Qed.

Lemma evict_from_sheds i l s :
  rs_bytes s = sumZ sr_size l → Forall (λ e, 0 ≤ sr_size e ≤ rs_maxSize s) l → 0 ≤ rs_limit s → 0 ≤ rs_maxSize s →
  ∃ gone, sheds gone (with_entries l s) (evict_from i l s) ∧ l = gone ++ rs_entries (evict_from i l s)
    ∧ len (rs_entries (evict_from i l s)) ≤ rs_limit s ∧ rs_bytes (evict_from i l s) ≤ rs_maxSize s
    ∧ (gone ≠ [] → rs_limit s < len l ∨ rs_maxSize s < rs_bytes s).
Proof.
  revert s. induction l as [|e l IH]; intros s Hb Hs Hl Hm.
  - exists []. change (sumZ sr_size []) with 0 in Hb. change (evict_from i [] s) with (with_entries [] s).
    split_and!; [apply sheds_nothing|done|exact Hl|cbn; lia|done].
  - rewrite evict_from_cons. apply Forall_cons in Hs as [He Hs].
    assert (Hsum : sumZ sr_size (e :: l) = sr_size e + sumZ sr_size l) by done.
    destruct (bool_decide (rs_limit s < len (e :: l)) || _) eqn:Hover.
    + pose proof (gave_up_sheds i e l s) as Hg. destruct (sh_bounds _ _ _ Hg) as (B1 & B2 & B3). cbn in B1, B2, B3.
      destruct (IH (let_go i s e)) as (gone & Hsh & Hsplit & Hn & Hby & _).
      { pose proof (sh_bytes _ _ _ Hg) as Hbytes. unfold sumZ at 1 in Hbytes. cbn in Hbytes. lia. }
      { rewrite B2. done. } { lia. } { lia. }
      exists (e :: gone). rewrite B1 in Hn. rewrite B2 in Hby. split_and!; try done.
      * by apply (sheds_trans [e] gone _ (with_entries l (let_go i s e))).
      * cbn. by f_equal.
      * intros _. apply orb_true_iff in Hover as [H|H]; [left; by apply bool_decide_eq_true in H|].
        apply andb_true_iff in H as [H _]. right. by apply bool_decide_eq_true in H.
    + apply orb_false_iff in Hover as [H1 H2]. apply bool_decide_eq_false in H1. exists []. cbn.
      split_and!; try done; [apply (sheds_nothing (with_entries (e :: l) s))|lia|].
      apply andb_false_iff in H2 as [H2|H2]; apply bool_decide_eq_false in H2; [lia|].
      rewrite len_cons in H2. pose proof (len_nonneg l). assert (l = []) as -> by (apply len_nil_inv; lia).
      rewrite Hb, Hsum. unfold sumZ. cbn. lia.
Qed.

(** ** Expiry *)

Lemma give_up_all i gone l s :
  sheds gone (with_entries (gone ++ l) s) (with_entries l (fold_left (let_go i) gone s)).
Proof.
  revert s. induction gone as [|e gone IH]; intros s; [apply sheds_nothing|]. cbn [app fold_left].
  apply (sheds_trans [e] gone _ (with_entries (gone ++ l) (let_go i s e))); [apply gave_up_sheds|apply IH].
Qed.

Lemma filter_split {A} (p : A → bool) (l : list A) :
  l ≡ₚ filter (λ x, p x = true) l ++ filter (λ x, p x = false) l.
Proof.
  induction l as [|x l IH]; [done|]. rewrite !filter_cons. destruct (p x) eqn:Hp.
  - rewrite decide_True, decide_False by congruence. cbn. by f_equiv.
  - rewrite decide_False, decide_True by congruence. rewrite <- Permutation_middle. by f_equiv.
Qed.

Lemma sheds_perm gone l k s s' :
  l ≡ₚ k → rs_entries s' `sublist_of` k → sheds gone (with_entries l s) s' → sheds gone (with_entries k s) s'.
Proof. intros Hp Hsub [H1 H2 H3 H4 H5 H6]. split; try done. cbn in *. by rewrite <- Hp. Qed.

Lemma expire_sheds i now s :
  let gone := filter (λ e, stale now s e = true) (rs_entries s) in
  sheds gone s (expire i now s) ∧ rs_entries (expire i now s) = filter (λ e, stale now s e = false) (rs_entries s).
Proof.
  cbv zeta. set (gone := filter _ _). unfold expire. fold gone. set (kept := filter (λ e, stale now s e = false) _).
  split; [|done]. rewrite <- (with_entries_same s) at 1. apply (sheds_perm gone (gone ++ kept)).
  - symmetry. apply (filter_split (stale now s)).
  - cbn. apply sublist_filter.
  - exact (give_up_all i gone kept s).
Qed.

(** ** The books *)

Record books (s : ResultSpool) : Prop := {
  bk_sum : rs_bytes s = sumZ sr_size (rs_entries s);
  bk_limit : 1 ≤ rs_limit s;
  bk_maxSize : 0 ≤ rs_maxSize s;
  bk_sizes : Forall (λ e, 0 ≤ sr_size e ≤ rs_maxSize s) (rs_entries s);
}.
Record in_bounds (s : ResultSpool) : Prop := {
  ib_count : len (rs_entries s) ≤ rs_limit s;
  ib_bytes : rs_bytes s ≤ rs_maxSize s;
}.

Lemma sublist_Forall' {A} (P : A → Prop) (l k : list A) : l `sublist_of` k → Forall P k → Forall P l.
Proof. intros Hs. rewrite !Forall_forall. intros H x Hx. apply H. by eapply elem_of_sublist. Qed.

Lemma sheds_books gone s s' : sheds gone s s' → books s → books s'.
Proof.
  intros [(H1 & H2 & H3) _ He Ho Hb _] [Hs Hl Hm Hz]. split.
  - rewrite Hb, Hs, (sumZ_perm _ _ _ He), sumZ_app. lia.
  - by rewrite H1.
  - by rewrite H2.
  - rewrite H2. by eapply sublist_Forall'.
Qed.

Lemma len_sublist {A} (l k : list A) : l `sublist_of` k → len l ≤ len k.
Proof. intros ?%sublist_length. unfold len. lia. Qed.

Lemma sumZ_nonneg {A} (w : A → Z) (l : list A) : Forall (λ x, 0 ≤ w x) l → 0 ≤ sumZ w l.
Proof. unfold sumZ. induction 1; cbn [foldr]; lia. Qed.

Lemma sheds_bounds gone s s' : sheds gone s s' → books s → in_bounds s → in_bounds s'.
Proof.
  intros [(H1 & H2 & H3) _ He Ho Hb _] [Hs Hl Hm Hz] [Hc Hby]. split.
  - rewrite H1. etrans; [by apply len_sublist|done].
  - rewrite H2, Hb. assert (0 ≤ sumZ sr_size gone); [|lia]. apply sumZ_nonneg, Forall_forall. intros x Hx.
    rewrite Forall_forall in Hz. apply Hz. rewrite He. apply elem_of_app. by left.
Qed.

Lemma evict_sheds i s :
  books s →
  ∃ gone, sheds gone s (evict i s) ∧ rs_entries s = gone ++ rs_entries (evict i s) ∧ in_bounds (evict i s)
    ∧ (gone ≠ [] → rs_limit s < len (rs_entries s) ∨ rs_maxSize s < rs_bytes s).
Proof.
  intros [Hs Hl Hm Hz]. destruct (evict_from_sheds i (rs_entries s) s) as (gone & Hg & He & Hc & Hb & Hn); [done..|lia|done|].
  rewrite with_entries_same in Hg. exists gone. unfold evict in *. split_and!; try done.
  destruct (sh_bounds _ _ _ Hg) as (H1 & H2 & _). split; [by rewrite H1|by rewrite H2].
Qed.

(** ** The files behind the entries *)

Section files.
Context {RW : ResultWire}.

(** The file of an entry reads back as the answer the entry is about. *)
Definition backs (s : ResultSpool) (e : spooledResult) (r : TaskResult) : Prop :=
  ∃ f, rs_disk s !! sr_file e = Some f ∧ spool_decode (rs_maxSize s) (sf_raw f) = Some r
    ∧ res_TaskId r = sr_taskID e ∧ res_IdempotencyKey r = sr_idempotencyKey e
    ∧ len (sf_raw f) = sr_size e ∧ sf_modified f = sr_spooledAt e.

Record held (s : ResultSpool) : Prop := {
  hd_files : NoDup (sr_file <$> rs_entries s);
  hd_names : Forall (λ e, parseResultName (sr_file e) = Some (sr_sequence e, sr_taskID e)
                          ∧ sr_sequence e ≤ rs_sequence s) (rs_entries s);
  hd_backed : Forall (λ e, ∃ r, backs s e r) (rs_entries s);
  hd_sequence : 0 ≤ rs_sequence s < 2 ^ 64;
}.

Lemma NoDup_app_l {A} (l k : list A) x : NoDup (l ++ k) → x ∈ k → x ∉ l.
Proof. intros (_ & H & _)%NoDup_app Hk Hl. by apply (H x). Qed.

Lemma backs_ext s s' e r :
  rs_disk s' !! sr_file e = rs_disk s !! sr_file e → rs_maxSize s' = rs_maxSize s → backs s e r → backs s' e r.
Proof. intros Hd Hm (f & Hf & Hr & H). exists f. by rewrite Hd, Hm. Qed.

Lemma sheds_file gone s s' e :
  sheds gone s s' → NoDup (sr_file <$> rs_entries s) → e ∈ rs_entries s' → rs_disk s' !! sr_file e = rs_disk s !! sr_file e.
Proof.
  intros Hs Hn He. apply (sh_disk _ _ _ Hs). rewrite (sh_entries _ _ _ Hs), fmap_app in Hn.
  eapply NoDup_app_l; [exact Hn|]. by apply list_elem_of_fmap_2.
Qed.

Lemma sheds_held gone s s' : sheds gone s s' → held s → held s'.
Proof.
  intros Hs [Hf Hn Hb Hq]. pose proof (λ e, sheds_file gone s s' e Hs Hf) as Hfile. destruct (sh_bounds _ _ _ Hs) as (_ & Hm & _).
  destruct (sh_counts _ _ _ Hs) as [Hc _]. pose proof (sh_order _ _ _ Hs) as Ho. split.
  - rewrite (sh_entries _ _ _ Hs), fmap_app in Hf. by apply NoDup_app in Hf as (_ & _ & Hf).
  - rewrite Hc. by eapply sublist_Forall'.
  - rewrite Forall_forall in Hb |- *. intros e He. destruct (Hb e) as [r Hr]; [by eapply elem_of_sublist|].
    exists r. eapply backs_ext; [by eapply Hfile|done|done].
  - by rewrite Hc.
Qed.

(** A frame reads back. *)
Lemma decode_frame maxSize r body :
  result_Marshal r = Some body → len body + resultSpoolHeader ≤ maxSize →
  spool_decode maxSize (spool_frame body) = Some r ∧ len (spool_frame body) = len body + resultSpoolHeader.
Proof.
  intros Hm Hl. assert (Hlen : len (spool_frame body) = len body + resultSpoolHeader).
  { unfold spool_frame. rewrite !len_app, len_le_put. change (len resultSpoolMagic) with 4. unfold resultSpoolHeader. lia. }
  split; [|done]. unfold spool_decode. pose proof (len_nonneg body) as Hb. unfold resultSpoolHeader in *.
  rewrite (bool_decide_eq_false_2 (len _ < 8)) by lia. rewrite bool_decide_eq_false_2 by lia. cbn [orb].
  assert (H4 : take 4 (spool_frame body) = resultSpoolMagic) by done.
  assert (H8 : drop 8 (spool_frame body) = body).
  { unfold spool_frame. rewrite app_assoc. apply (drop_app_length' _ body). by rewrite length_app, length_le_put. }
  assert (Hc : take 4 (drop 4 (spool_frame body)) = le_put 4 (crc32c body)).
  { change (drop 4 (spool_frame body)) with (le_put 4 (crc32c body) ++ body).
    apply (take_app_length' _ body). by rewrite length_le_put. }
  rewrite H4, H8, Hc, le_get_put. rewrite bool_decide_eq_true_2 by done. cbn [negb].
  rewrite Z.mod_small by (pose proof (crc32c_range body); cbn; lia). rewrite bool_decide_eq_true_2 by done. cbn [negb].
  by apply Unmarshal_Marshal.
Qed.
End files.

(** ** The steps *)

Section steps.
Context {RW : ResultWire}.

Definition sound (s : ResultSpool) : Prop := books s ∧ in_bounds s.

(** What [Enqueue] makes of the spool: the attempt's old entry is gone, the
    next number is taken; with the file in place the entry is added. *)
Definition numbered (s : ResultSpool) : ResultSpool :=
  mkResultSpool (rs_disk s) (rs_limit s) (rs_maxSize s) (rs_ttl s) (rs_spooled s) (u64 (rs_sequence s + 1)) (rs_entries s) (rs_bytes s).
Definition on_disk (name : string) (f : spool_file) (s : ResultSpool) : ResultSpool :=
  mkResultSpool (<[name := f]> (rs_disk s)) (rs_limit s) (rs_maxSize s) (rs_ttl s) (rs_spooled s) (rs_sequence s) (rs_entries s) (rs_bytes s).
Definition entered (e : spooledResult) (s : ResultSpool) : ResultSpool :=
  mkResultSpool (rs_disk s) (rs_limit s) (rs_maxSize s) (rs_ttl s) (rs_spooled s) (rs_sequence s) (rs_entries s ++ [e]) (rs_bytes s + sr_size e).
Definition signalled (s : ResultSpool) : ResultSpool :=
  mkResultSpool (rs_disk s) (rs_limit s) (rs_maxSize s) (rs_ttl s) true (rs_sequence s) (rs_entries s) (rs_bytes s).

Definition new_name (taskID : string) (s : ResultSpool) : string := resultSpoolName (u64 (rs_sequence s + 1)) taskID.
Definition new_entry (now : time) (r : TaskResult) (body : bytes) (s : ResultSpool) : spooledResult :=
  mkSpooled (new_name (res_TaskId r) s) (u64 (rs_sequence s + 1)) (res_TaskId r) (res_IdempotencyKey r) now (len body + resultSpoolHeader).

Lemma Enqueue_cases i now r s :
  (∃ err, Enqueue i now r s = (Err err, s))
  ∨ ∃ body, result_Marshal r = Some body ∧ spoolableTaskID (res_TaskId r) = true ∧ len body + resultSpoolHeader ≤ rs_maxSize s
     ∧ let s1 := forget i (res_TaskId r) s in let name := new_name (res_TaskId r) s1 in
       let f := mkSpoolFile (spool_frame body) now in
       (Enqueue i now r s = (Err ErrWriting, numbered s1) ∧ sio_write_fails i = true)
       ∨ (Enqueue i now r s = (Err ErrWriting, on_disk name f (numbered s1)) ∧ sio_write_fails i = false ∧ sio_dirsync_fails i = true)
       ∨ (Enqueue i now r s = (Ok tt, signalled (evict i (entered (new_entry now r body s1) (on_disk name f (numbered s1)))))
          ∧ sio_write_fails i = false ∧ sio_dirsync_fails i = false).
Proof.
  unfold Enqueue. destruct (spoolableTaskID (res_TaskId r)) eqn:Ht; cbn [negb]; [|left; by eexists].
  destruct (result_Marshal r) as [body|] eqn:Hm; [|left; by eexists]. case_bool_decide as Hl; [left; by eexists|].
  right. exists body. split_and!; [done|done|lia|]. cbv zeta. unfold write_file.
  destruct (sio_write_fails i); [by left|right]. destruct (sio_dirsync_fails i); [by left|by right].
Qed.

Lemma books_numbered s : books s → books (numbered s).
Proof. by intros []. Qed.
Lemma books_on_disk name f s : books s → books (on_disk name f s).
Proof. by intros []. Qed.
Lemma books_entered e s : 0 ≤ sr_size e ≤ rs_maxSize s → books s → books (entered e s).
Proof.
  intros He [Hs Hl Hm Hz]. split; cbn -[sumZ]; [|done|done|].
  - rewrite sumZ_app, Hs. unfold sumZ. cbn. lia.
  - apply Forall_app. split; [done|]. by apply Forall_singleton.
Qed.
Lemma sound_signalled s : sound s → sound (signalled s).
Proof. by intros [[] []]. Qed.

(** A file under the next number is no entry's. *)
Lemma new_name_free taskID s :
  held s → rs_sequence s + 1 < 2 ^ 64 → spoolableTaskID taskID = true → new_name taskID s ∉ sr_file <$> rs_entries s.
Proof.
  intros [_ Hn _ Hq] Hroom Ht (e & He & Hin)%list_elem_of_fmap. rewrite Forall_forall in Hn. destruct (Hn e Hin) as [Hp Hle].
  unfold new_name in He. rewrite <- He, u64_small in Hp by lia. rewrite parse_name in Hp by (done || lia).
  injection Hp as Hp _. lia.
Qed.

Lemma held_on_disk taskID f s :
  held s → rs_sequence s + 1 < 2 ^ 64 → spoolableTaskID taskID = true → held (on_disk (new_name taskID s) f (numbered s)).
Proof.
  intros H Hroom Ht. pose proof (new_name_free taskID s H Hroom Ht) as Hfree. destruct H as [Hf Hn Hb Hq]. split; cbn; try done.
  - eapply Forall_impl; [exact Hn|]. cbn. intros e [? ?]. split; [done|]. rewrite u64_small; lia.
  - rewrite Forall_forall in Hb |- *. intros e He. destruct (Hb e He) as [r Hr]. exists r.
    eapply (backs_ext s); [|done|exact Hr]. cbn. rewrite lookup_insert_ne; [done|]. intros E. apply Hfree. rewrite E. by apply list_elem_of_fmap_2.
  - rewrite u64_small; lia.
Qed.

Lemma held_numbered s : held s → rs_sequence s + 1 < 2 ^ 64 → held (numbered s).
Proof.
  intros [Hf Hn Hb Hq] Hroom. split; cbn; try done.
  - eapply Forall_impl; [exact Hn|]. cbn. intros e [? ?]. split; [done|]. rewrite u64_small; lia.
  - rewrite u64_small; lia.
Qed.

Lemma held_entered now r body s :
  held s → rs_sequence s + 1 < 2 ^ 64 → spoolableTaskID (res_TaskId r) = true → result_Marshal r = Some body →
  len body + resultSpoolHeader ≤ rs_maxSize s →
  held (entered (new_entry now r body s) (on_disk (new_name (res_TaskId r) s) (mkSpoolFile (spool_frame body) now) (numbered s))).
Proof.
  intros H Hroom Ht Hm Hl. pose proof (new_name_free _ s H Hroom Ht) as Hfree.
  pose proof (held_on_disk _ (mkSpoolFile (spool_frame body) now) s H Hroom Ht) as [Hf Hn Hb Hq].
  destruct (decode_frame (rs_maxSize s) r body Hm Hl) as [Hd Hlen]. split; cbn in *.
  - rewrite fmap_app. apply NoDup_app. split_and!; [done| |apply NoDup_singleton].
    intros x Hx ->%list_elem_of_singleton. by apply Hfree.
  - apply Forall_app. split; [done|]. apply Forall_singleton. split; [|done]. cbn.
    destruct H as [_ _ _ Hq0]. unfold new_name. rewrite u64_small by lia. apply parse_name; [lia|done].
  - apply Forall_app. split; [exact Hb|]. apply Forall_singleton. exists r, (mkSpoolFile (spool_frame body) now). cbn.
    by rewrite lookup_insert_eq.
  - done.
Qed.

Lemma Enqueue_sound i now r s : sound s → sound (Enqueue i now r s).2.
Proof.
  intros [Hb Hi]. destruct (Enqueue_cases i now r s) as [[err ->]|(body & Hm & Ht & Hl & H)]; [done|].
  destruct (forget_sheds i (res_TaskId r) s) as (gone & Hg & _ & _). cbv zeta in H.
  pose proof (sheds_books _ _ _ Hg Hb) as Hb1. pose proof (sheds_bounds _ _ _ Hg Hb Hi) as Hi1.
  destruct (sh_bounds _ _ _ Hg) as (_ & Hmax & _). destruct H as [[-> _]|[[-> _]|[-> _]]]; cbn [snd].
  - split; [by apply books_numbered|by destruct Hi1].
  - split; [by apply books_on_disk, books_numbered|by destruct Hi1].
  - apply sound_signalled. set (s2 := entered _ _).
    assert (Hb2 : books s2).
    { apply books_entered; [|by apply books_on_disk, books_numbered]. cbn. pose proof (len_nonneg body).
      unfold resultSpoolHeader in *. lia. }
    destruct (evict_sheds i s2 Hb2) as (g & Hg2 & _ & Hi2 & _). split; [by eapply sheds_books|done].
Qed.

Lemma Enqueue_held i now r s : books s → held s → rs_sequence s + 1 < 2 ^ 64 → held (Enqueue i now r s).2.
Proof.
  intros Hb Hh Hroom. destruct (Enqueue_cases i now r s) as [[err ->]|(body & Hm & Ht & Hl & H)]; [done|].
  destruct (forget_sheds i (res_TaskId r) s) as (gone & Hg & _ & _). cbv zeta in H.
  pose proof (sheds_books _ _ _ Hg Hb) as Hb1. pose proof (sheds_held _ _ _ Hg Hh) as Hh1.
  destruct (sh_bounds _ _ _ Hg) as (_ & Hmax & _). destruct (sh_counts _ _ _ Hg) as [Hc _].
  destruct H as [[-> _]|[[-> _]|[-> _]]]; cbn [snd].
  - apply held_numbered; [done|by rewrite Hc].
  - apply held_on_disk; [done|by rewrite Hc|done].
  - set (s2 := entered _ _). assert (Hh2 : held s2) by (apply held_entered; rewrite ?Hc, ?Hmax; done).
    assert (Hb2 : books s2).
    { apply books_entered; [|by apply books_on_disk, books_numbered]. cbn. pose proof (len_nonneg body).
      unfold resultSpoolHeader in *. lia. }
    destruct (evict_sheds i s2 Hb2) as (g & Hg2 & _). by destruct (sheds_held _ _ _ Hg2 Hh2).
Qed.
End steps.

Section opening.
Context {RW : ResultWire}.

Lemma spool_decode_size maxSize raw r : spool_decode maxSize raw = Some r → resultSpoolHeader ≤ len raw ≤ maxSize.
Proof.
  unfold spool_decode. destruct (bool_decide (len raw < _)) eqn:H1, (bool_decide (maxSize < _)) eqn:H2; try done.
  apply bool_decide_eq_false in H1, H2. lia.
Qed.

Lemma parse_sequence name sequence taskID : parseResultName name = Some (sequence, taskID) → 0 < sequence < 2 ^ 64.
Proof.
  unfold parseResultName. destruct (negb _); [done|]. destruct (cut_first _ _) as [[number rest]|]; [|done].
  unfold ParseUint. destruct (DecimalString.NilZero.uint_of_string _) as [d|]; [|done]. case_bool_decide as Hd; [|done].
  destruct (bool_decide (N.of_uint d = 0%N)) eqn:H0; cbn [orb]; [done|]. apply bool_decide_eq_false in H0.
  destruct (negb _); [done|]. intros [= <- _]. lia.
Qed.

Lemma look_at_Found i s name f e :
  look_at i s name f = Found e →
  parseResultName name = Some (sr_sequence e, sr_taskID e) ∧ sr_file e = name ∧ sr_size e = len (sf_raw f)
  ∧ sr_spooledAt e = sf_modified f
  ∧ ∃ f' r, rs_disk s !! name = Some f' ∧ spool_decode (rs_maxSize s) (sf_raw f') = Some r
      ∧ res_TaskId r = sr_taskID e ∧ res_IdempotencyKey r = sr_idempotencyKey e.
Proof.
  unfold look_at. destruct (negb (HasSuffix name _)); [done|]. destruct (parseResultName name) as [[sequence taskID]|] eqn:Hp; [|done].
  destruct (sio_undescribed i name); [done|]. unfold read_result. destruct (sio_unreadable i name); [done|].
  destruct (rs_disk s !! name) as [f'|] eqn:Hf; cbn [mbind option_bind]; [|done].
  destruct (spool_decode _ _) as [r|] eqn:Hd; [|done]. case_bool_decide as Ht; cbn [negb]; [|done].
  intros [= <-]. cbn. split_and!; try done. exists f', r. by subst.
Qed.

(** What the reading of the directory keeps: the files still to come are
    there, and are nobody's yet. *)
Record loading (rest : list (string * spool_file)) (s : ResultSpool) : Prop := {
  ld_books : books s;
  ld_held : held s;
  ld_once : NoDup rest.*1;
  ld_free : ∀ name, name ∈ rest.*1 → name ∉ sr_file <$> rs_entries s;
  ld_there : ∀ name f, (name, f) ∈ rest → rs_disk s !! name = Some f;
}.

Lemma removed_sheds i name s : name ∉ sr_file <$> rs_entries s → books s → held s →
  books (remove_file i name s) ∧ held (remove_file i name s).
Proof.
  intros Hfree Hb Hh. destruct (remove_file_rest i name s) as (H1 & H2 & H3 & H4 & H5 & H6 & H7). split.
  - destruct Hb as [Hs Hl Hm Hz]. split; by rewrite ?H7, ?H6, ?H2, ?H1.
  - destruct Hh as [Hf Hn Hbk Hq]. split; rewrite ?H6, ?H4; try done.
    rewrite Forall_forall in Hbk |- *. intros e He. destruct (Hbk e He) as [r Hr]. exists r.
    eapply backs_ext; [|done|exact Hr]. apply remove_file_disk. intros E. apply Hfree. rewrite <- E. by apply list_elem_of_fmap_2.
Qed.

Lemma load_one_step i name f rest s : loading ((name, f) :: rest) s → loading rest (load_one i s (name, f)).
Proof.
  intros [Hb Hh Ho Hfree Hthere]. apply NoDup_cons in Ho as [Hnew Ho].
  assert (Hmine : name ∉ sr_file <$> rs_entries s) by (apply Hfree; by left).
  unfold load_one. cbn [fst snd]. destruct (look_at i s name f) as [| |e] eqn:Hlook.
  - split; try done; intros; [apply Hfree|apply Hthere]; by right.
  - destruct (removed_sheds i name s Hmine Hb Hh) as [Hb' Hh']. destruct (remove_file_rest i name s) as (_ & _ & _ & _ & _ & H6 & _).
    split; try done.
    + intros n Hn. rewrite H6. apply Hfree. by right.
    + intros n g Hn. rewrite remove_file_disk; [apply Hthere; by right|]. intros ->. apply Hnew. by apply (list_elem_of_fmap_2 fst _ (name, g)).
  - destruct (look_at_Found _ _ _ _ _ Hlook) as (Hp & Hfile & Hsize & Hat & f' & r & Hf' & Hd & Ht & Hk).
    rewrite (Hthere name f ltac:(by left)) in Hf'. injection Hf' as <-.
    pose proof (spool_decode_size _ _ _ Hd) as Hsz. pose proof (parse_sequence _ _ _ Hp) as Hseq. unfold resultSpoolHeader in Hsz.
    change (loading rest (mkResultSpool (rs_disk s) (rs_limit s) (rs_maxSize s) (rs_ttl s) (rs_spooled s)
      (Z.max (rs_sequence s) (sr_sequence e)) (rs_entries s ++ [e]) (rs_bytes s + sr_size e))).
    destruct Hb as [Hs Hl Hm Hz], Hh as [Hf Hn Hbk Hq]. split; [split|split|..]; cbn -[sumZ].
    + rewrite sumZ_app, Hs. unfold sumZ. cbn. lia.
    + done.
    + done.
    + apply Forall_app. split; [done|]. apply Forall_singleton. rewrite Hsize. lia.
    + rewrite fmap_app. apply NoDup_app. split_and!; [done| |apply NoDup_singleton].
      intros n Hin ->%list_elem_of_singleton. apply Hmine. by rewrite <- Hfile.
    + apply Forall_app. split; [eapply Forall_impl; [exact Hn|]; cbn; intros ? [? ?]; split; [done|lia]|].
      apply Forall_singleton. rewrite Hfile. split; [done|lia].
    + apply Forall_app. split; [exact Hbk|]. apply Forall_singleton. exists r, f. cbn.
      rewrite Hfile, (Hthere name f ltac:(by left)). by split_and!.
    + lia.
    + done.
    + intros n Hn'. rewrite fmap_app, elem_of_app. intros [H|H]; [by eapply Hfree; [right|]|].
      apply list_elem_of_singleton in H as ->. apply Hnew. by rewrite <- Hfile.
    + intros n g Hg. apply Hthere. by right.
Qed.

Lemma load_all i rest s : loading rest s → books (fold_left (load_one i) rest s) ∧ held (fold_left (load_one i) rest s).
Proof.
  revert s. induction rest as [|[name f] rest IH]; intros s H; [by destruct H|]. cbn. by apply IH, load_one_step.
Qed.

Lemma listing_perm disk : listing disk ≡ₚ map_to_list disk.
Proof. apply sort_stable_perm. Qed.

Lemma loading_start limit maxSize ttl disk :
  1 ≤ limit → 0 ≤ maxSize → loading (listing disk) (mkResultSpool disk limit maxSize ttl false 0 [] 0).
Proof.
  intros Hl Hm. split.
  - split; cbn; try done.
  - split; cbn; [apply NoDup_nil_2|done|done|lia].
  - rewrite (listing_perm disk). apply NoDup_fst_map_to_list.
  - intros n _. cbn. apply not_elem_of_nil.
  - intros n f Hf. rewrite listing_perm in Hf. by apply elem_of_map_to_list in Hf.
Qed.

Lemma reordered l s : l ≡ₚ rs_entries s → books s → held s → books (with_entries l s) ∧ held (with_entries l s).
Proof.
  intros Hp [Hs Hl Hm Hz] [Hf Hn Hb Hq]. split; split; cbn -[sumZ]; try done; try (by rewrite Hp).
  rewrite Hs. symmetry. by apply sumZ_perm.
Qed.

Lemma OpenResultSpool_sound i limit maxSize ttl disk s :
  OpenResultSpool i limit maxSize ttl disk = Some s → sound s ∧ held s.
Proof.
  unfold OpenResultSpool, load. destruct (sio_unlisted i); [done|]. cbn [rs_disk].
  set (s0 := mkResultSpool _ _ _ _ _ _ _ _). set (s1 := fold_left _ _ _). intros [= <-].
  assert (Hd : ∀ v d, 0 < d → 0 < or_default v d) by (intros v d ?; unfold or_default; case_bool_decide; lia).
  destruct (load_all i (listing disk) s0) as [Hb Hh].
  { pose proof (Hd limit ResultSpoolSize eq_refl). pose proof (Hd maxSize ResultSpoolBytes eq_refl).
    apply loading_start; lia. }
  set (l := sort_stable _ _). destruct (reordered l s1 (sort_stable_perm _ _) Hb Hh) as [Hb2 Hh2].
  change (evict i _) with (evict i (with_entries l s1)).
  destruct (evict_sheds i (with_entries l s1) Hb2) as (g & Hg & _ & Hi & _). split; [split|].
  - by eapply sheds_books.
  - done.
  - by eapply sheds_held.
Qed.
End opening.
