(* ===== verification/ResultOffers.v ===== *)
(** * ResultOffers: an answer written down is offered again

    The delivery of ResultSpool.v over the laws of its spool: what a session
    that could not send leaves behind is offered by the next one, and a restart
    of the agent finds what the last one wrote. *)
From S2P Require Import Prelude Bytes Digest Text Capability CapabilityProps Signer Trust Acks ResultSpool ResultSpoolProps.

Open Scope Z_scope.
Open Scope list_scope.

(** ** What the agent's spool of results promises

    Over any sequence of calls, faults and restarts: the spool stays within its
    bounds, an answer leaves it for a reason the code gives, and what was
    written down is offered again. *)

Section laws.
Context {RW : ResultWire} {SS : SignatureScheme} {KT : KeyText}.

(** ** The life of a spool *)

(** The calls as they take the mutex, and the start of the agent over whatever
    the directory holds. *)
Inductive spool_event :=
| EvEnqueue (i : spool_io) (now : time) (r : TaskResult)
| EvHeld (i : spool_io) (now : time)
| EvRead (i : spool_io) (e : spooledResult)
| EvAcknowledge (i : spool_io) (ack : TaskResultAck)
| EvForget (i : spool_io) (taskID : string)
| EvRestart (i : spool_io) (limit maxSize ttl : Z) (disk : gmap string spool_file).

Definition spool_step (ev : spool_event) (s : ResultSpool) : option ResultSpool :=
  match ev with
  | EvEnqueue i now r => Some (Enqueue i now r s).2
  | EvHeld i now => Some (pending_held i now s).2
  | EvRead i e => Some (pending_read i e s).2
  | EvAcknowledge i ack => Some (Acknowledge i ack s).2
  | EvForget i taskID => Some (forget i taskID s)
  | EvRestart i limit maxSize ttl disk => OpenResultSpool i limit maxSize ttl disk
  end.

Inductive spool_run : ResultSpool → list spool_event → ResultSpool → Prop :=
| run_nothing s : spool_run s [] s
| run_event s ev s' evs s'' : spool_step ev s = Some s' → spool_run s' evs s'' → spool_run s (ev :: evs) s''.

(** Every call but [Enqueue] and a restart only gives entries up. *)
Definition only_sheds (ev : spool_event) : bool :=
  match ev with EvEnqueue _ _ _ | EvRestart _ _ _ _ _ => false | _ => true end.

Lemma Acknowledge_cases i ack s :
  (Acknowledge i ack s).2 = s
  ∨ ∃ e kept, first_of (ack_TaskId ack) (rs_entries s) = Some (e, kept) ∧ about i s e ack = Ok tt
      ∧ (Acknowledge i ack s).2 = forget i (sr_taskID e) s.
Proof.
  unfold Acknowledge. case_bool_decide; [by left|]. destruct (first_of _ _) as [[e kept]|] eqn:Hf; [|by left].
  destruct (about i s e ack) as [[]|err] eqn:Ha; [|by left]. right. by exists e, kept.
Qed.

Lemma step_sheds ev s s' : only_sheds ev = true → spool_step ev s = Some s' → ∃ gone, sheds gone s s'.
Proof.
  destruct ev as [| i now | i e | i ack | i taskID |]; cbn; try done; intros _ [= <-].
  - destruct (expire_sheds i now s) as [H _]. by eexists.
  - unfold pending_read. destruct (read_result _ _ _); [exists []; apply sheds_nothing|].
    destruct (forget_sheds i (sr_taskID e) s) as (g & Hg & _). by exists g.
  - destruct (Acknowledge_cases i ack s) as [->|(e & kept & _ & _ & ->)]; [exists []; apply sheds_nothing|].
    destruct (forget_sheds i (sr_taskID e) s) as (g & Hg & _). by exists g.
  - destruct (forget_sheds i taskID s) as (g & Hg & _). by exists g.
Qed.

Lemma step_sound ev s s' : spool_step ev s = Some s' → sound s → sound s'.
Proof.
  intros E [Hb Hi]. destruct (only_sheds ev) eqn:Ho.
  - destruct (step_sheds ev s s' Ho E) as [g Hg]. split; [by eapply sheds_books|by eapply sheds_bounds].
  - destruct ev as [i now r| | | | |i limit maxSize ttl disk]; try done; cbn in E.
    + injection E as <-. by apply Enqueue_sound.
    + by destruct (OpenResultSpool_sound _ _ _ _ _ _ E).
Qed.

(** C24: the spool stays within its bounds: from the first opening of the
    directory - whatever it holds - and through every call, fault and restart
    the bytes on the books are the sizes of the answers held, there are no
    more of them than the limit, and together they are no more than the
    bound. *)
Theorem the_spool_stays_within_its_bounds i limit maxSize ttl disk s evs s' :
  OpenResultSpool i limit maxSize ttl disk = Some s → spool_run s evs s' →
  rs_bytes s' = sumZ sr_size (rs_entries s') ∧ len (rs_entries s') ≤ rs_limit s' ∧ rs_bytes s' ≤ rs_maxSize s'.
Proof.
  intros Ho%OpenResultSpool_sound Hr. destruct Ho as [Hs _].
  assert (sound s') as [[] []] by (induction Hr; eauto using step_sound). done.
Qed.

(** ** Why an answer leaves *)

(** No number was given out that only a file put there by hand could carry. *)
Definition room (ev : spool_event) (s : ResultSpool) : Prop :=
  match ev with EvEnqueue _ _ _ => rs_sequence s + 1 < 2 ^ 64 | _ => True end.

Lemma step_held ev s s' : spool_step ev s = Some s' → room ev s → sound s → held s → held s'.
Proof.
  intros E Hroom [Hb Hi] Hh. destruct (only_sheds ev) eqn:Ho.
  - destruct (step_sheds ev s s' Ho E) as [g Hg]. by eapply sheds_held.
  - destruct ev as [i now r| | | | |i limit maxSize ttl disk]; try done; cbn in E.
    + injection E as <-. by apply Enqueue_held.
    + by destruct (OpenResultSpool_sound _ _ _ _ _ _ E).
Qed.

(** The reasons for which the entry of an answer [r] may leave in one call. *)
Inductive freed (s : ResultSpool) (e : spooledResult) (r : TaskResult) : spool_event → Prop :=
| freed_replaced i now r' : res_TaskId r' = sr_taskID e → freed s e r (EvEnqueue i now r')
| freed_overflow i now r' body : result_Marshal r' = Some body → res_TaskId r' ≠ sr_taskID e →
    rs_limit s < len (rs_entries s) + 1 ∨ rs_maxSize s < rs_bytes s + (len body + resultSpoolHeader) →
    freed s e r (EvEnqueue i now r')
| freed_stale i now : stale now s e = true → freed s e r (EvHeld i now)
| freed_unread i e' : sr_taskID e' = sr_taskID e → read_result i s (sr_file e') = None → freed s e r (EvRead i e')
| freed_acknowledged i ack : ack_TaskId ack = sr_taskID e →
    (sr_idempotencyKey e = "" ∨ sr_idempotencyKey e = ack_IdempotencyKey ack) →
    (ack_ResultDigest ack = [] ∨ ResultDigest (Some r) = ack_ResultDigest ack) → freed s e r (EvAcknowledge i ack)
| freed_forgotten i taskID : taskID = sr_taskID e → freed s e r (EvForget i taskID)
| freed_restart i limit maxSize ttl disk : freed s e r (EvRestart i limit maxSize ttl disk).

Lemma gone_elem gone s s' e : sheds gone s s' → e ∈ rs_entries s → e ∉ rs_entries s' → e ∈ gone.
Proof. intros Hs He Hn. rewrite (sh_entries _ _ _ Hs) in He. by apply elem_of_app in He as [?|?]. Qed.

Lemma forget_gone i taskID s e : e ∈ rs_entries s → e ∉ rs_entries (forget i taskID s) →
  sr_taskID e = taskID ∧ ∃ kept, first_of taskID (rs_entries s) = Some (e, kept).
Proof.
  intros He Hn. destruct (forget_sheds i taskID s) as (g & Hg & Ht & Hc).
  pose proof (gone_elem _ _ _ _ Hg He Hn) as Hin. rewrite Forall_forall in Ht. split; [by apply Ht|].
  destruct Hc as [(_ & -> & _)|(e' & kept & Hf & -> & _)]; [by apply elem_of_nil in Hin|].
  apply list_elem_of_singleton in Hin as ->. by exists kept.
Qed.

(** What an entry's file holds is what the check of an acknowledgement reads. *)
Lemma about_content i s e r ack : backs s e r → about i s e ack = Ok tt →
  (sr_idempotencyKey e = "" ∨ sr_idempotencyKey e = ack_IdempotencyKey ack)
  ∧ (ack_ResultDigest ack = [] ∨ ResultDigest (Some r) = ack_ResultDigest ack).
Proof.
  intros (f & Hf & Hd & _) H. unfold about in H.
  destruct (negb (bool_decide (sr_idempotencyKey e = "")) && _) eqn:Hk; [done|].
  split.
  - apply andb_false_iff in Hk as [Hk|Hk]; apply negb_false_iff, bool_decide_eq_true in Hk; [by left|by right].
  - case_bool_decide as Hl; [|left; apply len_nil_inv; pose proof (len_nonneg (ack_ResultDigest ack)); lia].
    unfold read_result in H. destruct (sio_unreadable i _); [done|]. rewrite Hf in H. cbn [mbind option_bind] in H.
    rewrite Hd in H. case_bool_decide as He; [by right|done].
Qed.

Lemma Enqueue_gone i now r' s e :
  books s → held s → e ∈ rs_entries s → e ∉ rs_entries (Enqueue i now r' s).2 → rs_sequence s + 1 < 2 ^ 64 →
  res_TaskId r' = sr_taskID e
  ∨ ∃ body, result_Marshal r' = Some body
      ∧ (rs_limit s < len (rs_entries s) + 1 ∨ rs_maxSize s < rs_bytes s + (len body + resultSpoolHeader)).
Proof.
  intros Hb Hh He Hn Hroom. destruct (Enqueue_cases i now r' s) as [[err E]|(body & Hm & Ht & Hl & H)]; [by rewrite E in Hn|].
  destruct (decide (res_TaskId r' = sr_taskID e)) as [|Hne]; [by left|]. right. exists body. split; [done|].
  destruct (forget_sheds i (res_TaskId r') s) as (g & Hg & Hgt & _). cbv zeta in H.
  assert (He1 : e ∈ rs_entries (forget i (res_TaskId r') s)).
  { destruct (decide (e ∈ rs_entries (forget i (res_TaskId r') s))) as [|Hout]; [done|].
    destruct (forget_gone _ _ _ _ He Hout) as [? _]. congruence. }
  destruct H as [[E _]|[[E _]|[E _]]]; rewrite E in Hn; cbn [snd] in Hn; [done..|].
  set (s2 := entered _ _) in *. pose proof (sheds_books _ _ _ Hg Hb) as Hb1. destruct (sh_bounds _ _ _ Hg) as (Hlim & Hmax & _).
  assert (Hb2 : books s2).
  { apply books_entered; [|by apply books_on_disk, books_numbered]. cbn. pose proof (len_nonneg body).
    unfold resultSpoolHeader in *. lia. }
  destruct (evict_sheds i s2 Hb2) as (g2 & Hg2 & _ & _ & Hfull).
  assert (He2 : e ∈ rs_entries s2) by (cbn; apply elem_of_app; by left).
  assert (Hin : e ∈ g2) by (by eapply gone_elem).
  destruct (Hfull ltac:(by intros ->; apply elem_of_nil in Hin)) as [Hf|Hf]; cbn in Hf; rewrite ?Hlim, ?Hmax in Hf.
  - left. rewrite len_app in Hf. change (len [_]) with 1 in Hf. pose proof (len_sublist _ _ (sh_order _ _ _ Hg)). lia.
  - right. rewrite (sh_bytes _ _ _ Hg) in Hf. cbn in Hf.
    assert (0 ≤ sumZ sr_size g); [|lia]. apply sumZ_nonneg. destruct Hb as [_ _ _ Hz].
    rewrite (sh_entries _ _ _ Hg), Forall_app in Hz. destruct Hz as [Hz _]. eapply Forall_impl; [exact Hz|]. cbn. lia.
Qed.

Lemma an_answer_leaves s e r ev s' :
  sound s → held s → room ev s → backs s e r → spool_step ev s = Some s' →
  e ∈ rs_entries s → e ∉ rs_entries s' → freed s e r ev.
Proof.
  intros [Hb Hi] Hh Hroom Hr E He Hn. destruct ev as [i now r'|i now|i e'|i ack|i taskID|]; cbn in E; try (injection E as <-).
  - destruct (decide (res_TaskId r' = sr_taskID e)) as [|Hne]; [by apply freed_replaced|].
    destruct (Enqueue_gone i now r' s e Hb Hh He Hn Hroom) as [?|(body & Hm & Hf)]; [done|by eapply freed_overflow].
  - apply freed_stale. destruct (expire_sheds i now s) as [Hs _]. pose proof (gone_elem _ _ _ _ Hs He Hn) as Hin.
    by apply list_elem_of_filter in Hin as [? _].
  - unfold pending_read in Hn. destruct (read_result i s (sr_file e')) eqn:Hread; [done|].
    destruct (forget_gone _ _ _ _ He Hn) as [Ht _]. by apply freed_unread.
  - destruct (Acknowledge_cases i ack s) as [Hsame|(e1 & kept & Hf & Ha & Hsame)]; rewrite Hsame in Hn; [done|].
    destruct (first_of_Some _ _ _ _ Hf) as (Ht1 & _). rewrite Ht1 in Hn. destruct (forget_gone _ _ _ _ He Hn) as (Ht & kept' & Hf').
    rewrite Hf in Hf'. injection Hf' as -> ->. destruct (about_content _ _ _ _ _ Hr Ha). by apply freed_acknowledged.
  - apply freed_forgotten. by destruct (forget_gone _ _ _ _ He Hn).
  - apply freed_restart.
Qed.

(** C40: an answer leaves the spool for one of these reasons and no other: the
    same attempt's answer is written again, the spool overflows, it is too old,
    its file does not read, the delivery forgets its attempt, the agent starts
    anew, or an acknowledgement of its attempt comes that names its key - or it
    has none - and, if it names content, names the answer's. *)
Theorem an_answer_leaves_for_a_reason s e r ev s' :
  sound s → held s → room ev s → backs s e r → spool_step ev s = Some s' →
  e ∈ rs_entries s → e ∉ rs_entries s' → freed s e r ev.
Proof. exact (an_answer_leaves s e r ev s'). Qed.
End laws.

Section offers.
Context {RW : ResultWire} {SS : SignatureScheme} {KT : KeyText}.

(** ** What is written stays *)

(** The last entry is never the one to be given up for room. *)
Lemma evict_from_last i l e s :
  rs_bytes s = sumZ sr_size (l ++ [e]) → Forall (λ e, 0 ≤ sr_size e ≤ rs_maxSize s) (l ++ [e]) →
  1 ≤ rs_limit s → e ∈ rs_entries (evict_from i (l ++ [e]) s).
Proof.
  revert s. induction l as [|x l IH]; intros s Hb Hs Hl.
  - cbn [app]. rewrite evict_from_cons. change (len [e]) with 1.
    rewrite (bool_decide_eq_false_2 (rs_limit s < 1)), (bool_decide_eq_false_2 (1 < 1)), andb_false_r by lia. by left.
  - cbn [app]. rewrite evict_from_cons. destruct (_ || _); [|cbn; right; apply elem_of_app; right; by left].
    pose proof (gave_up_sheds i x (l ++ [e]) s) as Hg. destruct (sh_bounds _ _ _ Hg) as (B1 & B2 & B3). cbn in B1, B2.
    apply Forall_cons in Hs as [_ Hs]. apply IH; [|by rewrite B2|lia].
    pose proof (sh_bytes _ _ _ Hg) as Hbytes. unfold sumZ at 1 in Hbytes. cbn in Hbytes.
    change (sumZ sr_size ((x :: l) ++ [e])) with (sr_size x + sumZ sr_size (l ++ [e])) in Hb. lia.
Qed.

Lemma Enqueue_keeps i now r s body :
  sound s → held s → rs_sequence s + 1 < 2 ^ 64 → result_Marshal r = Some body → spoolableTaskID (res_TaskId r) = true →
  len body + resultSpoolHeader ≤ rs_maxSize s → sio_write_fails i = false → sio_dirsync_fails i = false →
  (Enqueue i now r s).1 = Ok tt
  ∧ ∃ e, e ∈ rs_entries (Enqueue i now r s).2 ∧ backs (Enqueue i now r s).2 e r ∧ sr_spooledAt e = now
      ∧ sr_taskID e = res_TaskId r.
Proof.
  intros [Hb Hi] Hh Hroom Hm Ht Hl Hw Hd.
  destruct (Enqueue_cases i now r s) as [[err E]|(body' & Hm' & _ & _ & H)].
  { exfalso. unfold Enqueue in E. rewrite Ht, Hm in E. cbn [negb] in E. rewrite bool_decide_eq_false_2 in E by lia.
    cbv zeta in E. unfold write_file in E. rewrite Hw, Hd in E. discriminate E. }
  rewrite Hm in Hm'. injection Hm' as <-. cbv zeta in H.
  destruct H as [[_ ?]|[(_ & _ & ?)|(E & _ & _)]]; [congruence..|]. rewrite E. cbn [fst snd].
  destruct (forget_sheds i (res_TaskId r) s) as (gone & Hg & _ & _).
  pose proof (sheds_books _ _ _ Hg Hb) as Hb1. pose proof (sheds_held _ _ _ Hg Hh) as Hh1.
  destruct (sh_bounds _ _ _ Hg) as (_ & Hmax & _). destruct (sh_counts _ _ _ Hg) as [Hc _].
  set (s1 := forget i (res_TaskId r) s) in *. set (e := new_entry now r body s1). set (s2 := entered e _).
  assert (Hb2 : books s2).
  { apply books_entered; [|by apply books_on_disk, books_numbered]. cbn. pose proof (len_nonneg body). unfold resultSpoolHeader in *. lia. }
  assert (Hh2 : held s2) by (apply held_entered; rewrite ?Hc, ?Hmax; done).
  destruct (evict_sheds i s2 Hb2) as (g2 & Hg2 & _). split; [done|]. exists e. destruct Hb2 as [Hsum Hlim _ Hsz].
  assert (Hin : e ∈ rs_entries (evict i s2)) by (apply (evict_from_last i (rs_entries s1) e s2); done).
  split_and!; [exact Hin| |done|done].
  apply (backs_ext s2); [|by destruct (sh_bounds _ _ _ Hg2) as (_ & ? & _)|].
  - apply (sheds_file g2 s2 (evict i s2)); [done|by destruct Hh2|exact Hin].
  - exists (mkSpoolFile (spool_frame body) now). destruct (decode_frame (rs_maxSize s2) r body Hm) as [Hdec Hlen].
    { change (rs_maxSize s2) with (rs_maxSize s1). by rewrite Hmax. }
    cbn. rewrite lookup_insert_eq. by split_and!.
Qed.

Lemma Enqueue_config i now r s :
  books s → rs_limit (Enqueue i now r s).2 = rs_limit s ∧ rs_ttl (Enqueue i now r s).2 = rs_ttl s.
Proof.
  intros Hb. destruct (Enqueue_cases i now r s) as [[err ->]|(body & Hm & Ht & Hl & H)]; [done|].
  destruct (forget_sheds i (res_TaskId r) s) as (gone & Hg & _ & _). cbv zeta in H.
  destruct (sh_bounds _ _ _ Hg) as (H1 & H2 & H3). pose proof (sheds_books _ _ _ Hg Hb) as Hb1.
  destruct H as [[-> _]|[[-> _]|[-> _]]]; cbn [snd]; [by split..|]. set (s2 := entered _ _).
  assert (Hb2 : books s2).
  { apply books_entered; [|by apply books_on_disk, books_numbered]. cbn. pose proof (len_nonneg body). unfold resultSpoolHeader in *. lia. }
  destruct (evict_sheds i s2 Hb2) as (g2 & Hg2 & _). destruct (sh_bounds _ _ _ Hg2) as (E1 & E2 & E3). cbn in E1, E3 |- *.
  by rewrite E1, E3.
Qed.

(** ** What is held is offered *)

Definition readable (i : spool_io) : Prop := ∀ name, sio_unreadable i name = false.

Lemma read_backs i s e r : readable i → backs s e r → read_result i s (sr_file e) = Some r.
Proof. intros Hi (f & Hf & Hd & _). unfold read_result. rewrite Hi, Hf. cbn [mbind option_bind]. exact Hd. Qed.

Lemma pending_reads_all i entries s :
  readable i → Forall (λ e, ∃ r, backs s e r) entries →
  (pending_reads i entries s).2 = s ∧ len (pending_reads i entries s).1 = len entries
  ∧ ∀ e r, e ∈ entries → backs s e r → r ∈ (pending_reads i entries s).1.
Proof.
  intros Hi. induction 1 as [|e entries [r Hr] _ IH]; [by split_and!; [| |intros e r ?%elem_of_nil]|].
  cbn [pending_reads]. unfold pending_read. rewrite (read_backs i s e r Hi Hr). destruct IH as (H1 & H2 & H3).
  destruct (pending_reads i entries s) as [more s'] eqn:E. cbn in *. split_and!; [done|by rewrite !len_cons, H2|].
  intros e' r' [->|He]%elem_of_cons Hr'; [|right; by apply (H3 e')].
  pose proof (read_backs i s e r Hi Hr) as E1. rewrite (read_backs i s e r' Hi Hr') in E1. injection E1 as ->. by left.
Qed.

Lemma offer_each_all i now outcomes owed d :
  Forall (λ o, o = true) outcomes → (List.length owed ≤ List.length outcomes)%nat → (offer_each i now outcomes owed d).1 = owed.
Proof.
  revert outcomes d. induction owed as [|r owed IH]; intros outcomes d Ho Hl; [done|].
  destruct outcomes as [|o outcomes]; [cbn in Hl; lia|]. apply Forall_cons in Ho as [-> Ho]. cbn [offer_each]. cbv zeta.
  assert (Hl' : (List.length owed ≤ List.length outcomes)%nat) by (cbn in Hl; lia).
  set (d1 := if negb (rd_acknowledged _) then _ else _). pose proof (IH outcomes d1 Ho Hl') as IH1.
  destruct (offer_each i now outcomes owed d1) as [went d2]. cbn in *. by rewrite IH1.
Qed.

Lemma length_filter_le {A} (P : A → Prop) `{∀ x, Decision (P x)} (l : list A) : (List.length (filter P l) ≤ List.length l)%nat.
Proof. induction l as [|x l IH]; [done|]. rewrite filter_cons. destruct (decide (P x)); cbn; lia. Qed.

Lemma offered i now outcomes d s e r :
  rd_spool d = Some s → held s → readable i → e ∈ rs_entries s → backs s e r → stale now s e = false →
  due d now (res_TaskId r) = true → Forall (λ o, o = true) outcomes → len (rs_entries s) ≤ len outcomes →
  r ∈ (offer i now outcomes d).1.
Proof.
  intros Hs Hh Hi He Hr Hfresh Hdue Ho Hlen. unfold offer. rewrite Hs. unfold Pending, pending_held.
  destruct (expire_sheds i now s) as [Hg Hkept]. set (s1 := expire i now s) in *. clearbody s1.
  pose proof (sheds_held _ _ _ Hg Hh) as Hh1.
  destruct (pending_reads_all i (rs_entries s1) s1 Hi (hd_backed _ Hh1)) as (E2 & Ecount & Hall).
  assert (He1 : e ∈ rs_entries s1) by (rewrite Hkept; by apply list_elem_of_filter).
  assert (Hr1 : backs s1 e r).
  { apply (backs_ext s); [|by destruct (sh_bounds _ _ _ Hg) as (_ & ? & _)|done].
    eapply sheds_file; [exact Hg|by destruct Hh|exact He1]. }
  specialize (Hall e r He1 Hr1). destruct (pending_reads i (rs_entries s1) s1) as [pending s2]. cbn in E2, Ecount, Hall |- *.
  rewrite offer_each_all; [by apply list_elem_of_filter|done|].
  etrans; [apply length_filter_le|]. pose proof (len_sublist _ _ (sh_order _ _ _ Hg)). unfold len in *. lia.
Qed.

(** C22: an answer that could not be sent is offered again: written down by one
    session whose send fails, it goes out of the next session that works -
    whatever else is held - as long as it is younger than the spool keeps
    answers for. *)
Theorem an_undelivered_answer_is_offered i now r body s acknowledged every sent :
  sound s → held s → rs_sequence s + 1 < 2 ^ 64 → result_Marshal r = Some body → spoolableTaskID (res_TaskId r) = true →
  len body + resultSpoolHeader ≤ rs_maxSize s → sio_write_fails i = false → sio_dirsync_fails i = false →
  let d := deliver i now false r (mkDelivery (Some s) acknowledged every sent) in
  ∀ i' now' outcomes acknowledged' every', readable i' → time_sub now' now < rs_ttl s →
    Forall (λ o, o = true) outcomes → rs_limit s ≤ len outcomes →
    r ∈ (offer i' now' outcomes (mkDelivery (rd_spool d) acknowledged' every' ∅)).1.
Proof.
  intros Hs Hh Hroom Hm Ht Hl Hw Hd d i' now' outcomes acknowledged' every' Hi' Hyoung Ho Hmany.
  destruct (Enqueue_keeps i now r s body) as (_ & e & He & Hr & Hat & Htask); [done..|].
  pose proof (Enqueue_held i now r s ltac:(by destruct Hs) Hh Hroom) as Hh'.
  pose proof (Enqueue_sound i now r s Hs) as [_ Hib].
  assert (Hcfg : rs_limit (Enqueue i now r s).2 = rs_limit s ∧ rs_ttl (Enqueue i now r s).2 = rs_ttl s) by (apply Enqueue_config; by destruct Hs).
  destruct Hcfg as [Hlim Httl].
  apply (offered i' now' outcomes _ (Enqueue i now r s).2 e r); try done.
  - unfold stale. rewrite Hat, Httl. by rewrite bool_decide_eq_true_2.
  - destruct Hib as [Hc _]. rewrite Hlim in Hc. lia.
Qed.
End offers.
