(* ===== verification/ResultRestart.v ===== *)
(** * ResultRestart: the spool across a restart of the agent

    As long as the calls of the operating system go through, the directory
    holds exactly the answers on the books, and opening it again gives the same
    books. *)
From S2P Require Import Prelude Bytes Digest Text Capability CapabilityProps Signer Trust Acks.
From S2P Require Import ResultSpool ResultSpoolProps ResultOffers.

Open Scope Z_scope.
Open Scope list_scope.

Section restart.
Context {RW : ResultWire} {SS : SignatureScheme} {KT : KeyText}.

(** ** The directory is the books *)

Definition by_sequence (a b : spooledResult) : Prop := sr_sequence a < sr_sequence b.

Record exact (s : ResultSpool) : Prop := {
  xt_names : ∀ name f, rs_disk s !! name = Some f → HasSuffix name resultSpoolSuffix = true → name ∈ sr_file <$> rs_entries s;
  xt_order : StronglySorted by_sequence (rs_entries s);
  xt_bounds : 0 < rs_maxSize s ∧ 0 < rs_ttl s;
}.

(** What a call that can remove files leaves: no file of an entry it gave up. *)
Definition tidy (s s' : ResultSpool) : Prop :=
  ∀ name f, rs_disk s' !! name = Some f →
    rs_disk s !! name = Some f ∧ (name ∈ sr_file <$> rs_entries s → name ∈ sr_file <$> rs_entries s').

Definition clean (i : spool_io) : Prop := ∀ name, sio_undeletable i name = false.

Lemma tidy_refl s : tidy s s.
Proof. by intros name f Hf. Qed.
Lemma tidy_trans s1 s2 s3 : tidy s1 s2 → tidy s2 s3 → tidy s1 s3.
Proof. intros H1 H2 name f [H3 H4]%H2. apply H1 in H3 as [? ?]. auto. Qed.

Lemma tidy_gave_up i e l s : clean i → tidy (with_entries (e :: l) s) (with_entries l (let_go i s e)).
Proof.
  intros Hi name f. unfold let_go, remove_file. rewrite Hi. cbn. rewrite lookup_delete_Some.
  intros [Hne Hf]. split; [done|]. rewrite elem_of_cons. by intros [->|?].
Qed.

Lemma tidy_forget i taskID s : clean i → tidy s (forget i taskID s).
Proof.
  intros Hi. unfold forget. destruct (first_of taskID (rs_entries s)) as [[e kept]|] eqn:Hf; [|apply tidy_refl].
  destruct (first_of_Some _ _ _ _ Hf) as (_ & Hp & _). intros name f. unfold remove_file. rewrite Hi. cbn.
  rewrite lookup_delete_Some. intros [Hne Hd]. split; [done|]. rewrite Hp. cbn. rewrite elem_of_cons. by intros [->|?].
Qed.

Lemma tidy_evict_from i l s : clean i → tidy (with_entries l s) (evict_from i l s).
Proof.
  intros Hi. revert s. induction l as [|e l IH]; intros s; [apply tidy_refl|]. rewrite evict_from_cons.
  destruct (_ || _); [|apply tidy_refl]. eapply tidy_trans; [by apply tidy_gave_up|apply IH].
Qed.
Lemma tidy_evict i s : clean i → tidy s (evict i s).
Proof. intros Hi. rewrite <- (with_entries_same s) at 1. by apply tidy_evict_from. Qed.

Lemma tidy_all i gone l s : clean i → tidy (with_entries (gone ++ l) s) (with_entries l (fold_left (let_go i) gone s)).
Proof.
  intros Hi. revert s. induction gone as [|e gone IH]; intros s; [apply tidy_refl|]. cbn [app fold_left].
  eapply tidy_trans; [by apply tidy_gave_up|apply IH].
Qed.
Lemma tidy_expire i now s : clean i → tidy s (expire i now s).
Proof.
  intros Hi name f Hf. unfold expire in Hf |- *. set (gone := filter (λ e, stale now s e = true) (rs_entries s)) in *.
  set (kept := filter (λ e, stale now s e = false) (rs_entries s)) in *.
  destruct (tidy_all i gone kept s Hi name f Hf) as [Hd Hn]. split; [exact Hd|]. intros Hin. apply Hn. cbn.
  pose proof (filter_split (stale now s) (rs_entries s)) as Hp. fold gone kept in Hp. rewrite Hp in Hin. exact Hin.
Qed.

Lemma sorted_sublist l k : l `sublist_of` k → StronglySorted by_sequence k → StronglySorted by_sequence l.
Proof.
  induction 1 as [|x l k Hs IH|x l k Hs IH]; intros H; [done| |]; apply StronglySorted_inv in H as [H Hx].
  - constructor; [auto|]. by eapply sublist_Forall'.
  - auto.
Qed.

Lemma exact_shed gone s s' : sheds gone s s' → tidy s s' → exact s → exact s'.
Proof.
  intros Hs Ht [Hn Ho Hb]. destruct (sh_bounds _ _ _ Hs) as (_ & Hm & Htl). split.
  - intros name f [Hd Hin]%Ht Hsuf. eauto.
  - eapply sorted_sublist; [exact (sh_order _ _ _ Hs)|done].
  - by rewrite Hm, Htl.
Qed.

(** Calls that go through, and a restart over the directory as it is. *)
Definition quiet (s : ResultSpool) (ev : spool_event) : Prop :=
  match ev with
  | EvEnqueue i _ _ => clean i ∧ sio_write_fails i = false ∧ sio_dirsync_fails i = false ∧ rs_sequence s + 1 < 2 ^ 64
  | EvHeld i _ | EvRead i _ | EvAcknowledge i _ | EvForget i _ => clean i
  | EvRestart i limit maxSize ttl disk =>
      i = good_spool_io ∧ limit = rs_limit s ∧ maxSize = rs_maxSize s ∧ ttl = rs_ttl s ∧ disk = rs_disk s
  end.

Inductive quiet_run : ResultSpool → list spool_event → ResultSpool → Prop :=
| quiet_nothing s : quiet_run s [] s
| quiet_event s ev s' evs s'' : quiet s ev → spool_step ev s = Some s' → quiet_run s' evs s'' → quiet_run s (ev :: evs) s''.

Lemma step_tidy ev s s' : only_sheds ev = true → quiet s ev → spool_step ev s = Some s' → tidy s s'.
Proof.
  destruct ev as [| i now | i e | i ack | i taskID |]; cbn; try done; intros _ Hi [= <-].
  - by apply tidy_expire.
  - unfold pending_read. destruct (read_result _ _ _); [apply tidy_refl|by apply tidy_forget].
  - destruct (Acknowledge_cases i ack s) as [->|(e & kept & _ & _ & ->)]; [apply tidy_refl|by apply tidy_forget].
  - by apply tidy_forget.
Qed.

(** The new answer comes last, under a number of its own. *)
Lemma exact_Enqueue i now r s : quiet s (EvEnqueue i now r) → sound s → held s → exact s → exact (Enqueue i now r s).2.
Proof.
  intros (Hi & Hw & Hd & Hroom) [Hb Hib] Hh Hx. destruct (Enqueue_cases i now r s) as [[err ->]|(body & Hm & Ht & Hl & H)]; [done|].
  destruct (forget_sheds i (res_TaskId r) s) as (gone & Hg & _ & _). cbv zeta in H.
  pose proof (exact_shed _ _ _ Hg (tidy_forget i (res_TaskId r) s Hi) Hx) as [Hn Ho Hbd].
  pose proof (sheds_books _ _ _ Hg Hb) as Hb1. pose proof (sheds_held _ _ _ Hg Hh) as Hh1.
  destruct (sh_bounds _ _ _ Hg) as (_ & Hmax & _). destruct (sh_counts _ _ _ Hg) as [Hc _].
  destruct H as [[_ ?]|[(_ & _ & ?)|(-> & _ & _)]]; [congruence..|]. cbn [snd]. set (s2 := entered _ _).
  assert (Hb2 : books s2).
  { apply books_entered; [|by apply books_on_disk, books_numbered]. cbn. pose proof (len_nonneg body). unfold resultSpoolHeader in *. lia. }
  destruct (evict_sheds i s2 Hb2) as (g2 & Hg2 & _). cut (exact (evict i s2)); [by intros []|].
  apply (exact_shed g2 s2); [done|by apply tidy_evict|]. split; cbn; [| |done].
  - intros name f Hf Hsuf. rewrite fmap_app, elem_of_app. apply lookup_insert_Some in Hf as [[<- _]|[_ Hf]].
    + right. by apply list_elem_of_singleton.
    + left. by apply (Hn name f).
  - apply StronglySorted_app. split_and!; [|done|by repeat constructor]. intros x y Hx' ->%list_elem_of_singleton.
    unfold by_sequence. cbn. destruct Hh1 as [_ Hnames _ Hq]. rewrite Forall_forall in Hnames. destruct (Hnames x Hx') as [_ Hle].
    rewrite u64_small; lia.
Qed.

(** ** Opening it again *)

(** The entry of a file, if it is one. *)
Definition listed_entry (s : ResultSpool) (nf : string * spool_file) : option spooledResult :=
  match look_at good_spool_io s nf.1 nf.2 with Found e => Some e | _ => None end.

Lemma look_at_disk s s' name f : rs_disk s' = rs_disk s → rs_maxSize s' = rs_maxSize s →
  look_at good_spool_io s' name f = look_at good_spool_io s name f.
Proof. unfold look_at, read_result. by intros -> ->. Qed.

Lemma look_at_entry s e f r : backs s e r → held s → e ∈ rs_entries s → rs_disk s !! sr_file e = Some f →
  look_at good_spool_io s (sr_file e) f = Found e.
Proof.
  intros (f' & Hf' & Hdec & Ht & Hk & Hlen & Hmod) Hh He Hf. rewrite Hf in Hf'. injection Hf' as <-.
  destruct Hh as [_ Hn _ _]. rewrite Forall_forall in Hn. destruct (Hn e He) as [Hp _]. unfold look_at.
  assert (Hsuf : HasSuffix (sr_file e) resultSpoolSuffix = true).
  { unfold parseResultName in Hp. by destruct (HasSuffix (sr_file e) resultSpoolSuffix). }
  rewrite Hsuf. cbn [negb]. rewrite Hp. cbn [sio_undescribed good_spool_io]. unfold read_result. cbn [sio_unreadable good_spool_io].
  rewrite Hf. cbn [mbind option_bind]. rewrite Hdec, Ht, Hk, Hlen, Hmod. rewrite bool_decide_eq_true_2 by done. by destruct e.
Qed.

Lemma load_one_entry s k name f :
  held s → exact s → rs_disk s !! name = Some f → rs_disk k = rs_disk s → rs_maxSize k = rs_maxSize s →
  let k' := load_one good_spool_io k (name, f) in
  rs_disk k' = rs_disk s ∧ rs_limit k' = rs_limit k ∧ rs_maxSize k' = rs_maxSize k ∧ rs_ttl k' = rs_ttl k
  ∧ ∃ more, rs_entries k' = rs_entries k ++ more ∧ ∀ rest, omap (listed_entry s) ((name, f) :: rest) = more ++ omap (listed_entry s) rest.
Proof.
  intros Hh Hx Hf Hdisk Hmax. cbv zeta. unfold load_one. cbn [fst snd]. rewrite (look_at_disk s k) by done.
  destruct (look_at good_spool_io s name f) as [| |e] eqn:Hlook.
  - split_and!; [done..|]. exists []. rewrite app_nil_r. split; [done|]. intros rest. cbn. unfold listed_entry. cbn. by rewrite Hlook.
  - exfalso. destruct (HasSuffix name resultSpoolSuffix) eqn:Hsuf; [|by unfold look_at in Hlook; rewrite Hsuf in Hlook].
    destruct (list_elem_of_fmap_1 _ _ _ (xt_names s Hx name f Hf Hsuf)) as (e & -> & He).
    pose proof (hd_backed _ Hh) as Hb. rewrite Forall_forall in Hb. destruct (Hb e He) as [r Hr].
    by rewrite (look_at_entry s e f r) in Hlook.
  - split_and!; [done..|]. exists [e]. split; [done|]. intros rest. cbn. unfold listed_entry at 1. cbn. by rewrite Hlook.
Qed.

Lemma load_entries s rest k :
  held s → exact s → (∀ name f, (name, f) ∈ rest → rs_disk s !! name = Some f) →
  rs_disk k = rs_disk s → rs_maxSize k = rs_maxSize s →
  let k' := fold_left (load_one good_spool_io) rest k in
  rs_disk k' = rs_disk s ∧ rs_limit k' = rs_limit k ∧ rs_maxSize k' = rs_maxSize k ∧ rs_ttl k' = rs_ttl k
  ∧ rs_entries k' = rs_entries k ++ omap (listed_entry s) rest.
Proof.
  intros Hh Hx. revert k. induction rest as [|[name f] rest IH]; intros k Hrest Hdisk Hmax; cbv zeta.
  { cbn. by rewrite app_nil_r. }
  destruct (load_one_entry s k name f Hh Hx (Hrest name f ltac:(by left)) Hdisk Hmax) as (D1 & L1 & M1 & T1 & more & E1 & O1).
  rewrite O1. cbn [fold_left]. destruct (IH (load_one good_spool_io k (name, f))) as (D2 & L2 & M2 & T2 & E2).
  - intros n g ?. apply Hrest. by right.
  - done.
  - by rewrite M1.
  - rewrite D2, L2, M2, T2, E2, E1. split_and!; [done..|]. by rewrite app_assoc.
Qed.

Lemma entries_listed s : held s → exact s → omap (listed_entry s) (listing (rs_disk s)) ≡ₚ rs_entries s.
Proof.
  intros Hh Hx. pose proof (hd_backed _ Hh) as Hb. rewrite Forall_forall in Hb.
  assert (Hent : ∀ name f e, rs_disk s !! name = Some f → listed_entry s (name, f) = Some e → sr_file e = name ∧ e ∈ rs_entries s).
  { intros name f e Hf He. unfold listed_entry in He. cbn in He. destruct (look_at good_spool_io s name f) as [| |e'] eqn:Hlook; try done.
    injection He as ->. destruct (look_at_Found _ _ _ _ _ Hlook) as (Hp & Hn & _). split; [done|].
    assert (Hsuf : HasSuffix name resultSpoolSuffix = true).
    { unfold look_at in Hlook. by destruct (HasSuffix name resultSpoolSuffix). }
    destruct (list_elem_of_fmap_1 _ _ _ (xt_names s Hx name f Hf Hsuf)) as (e2 & E2 & Hin). subst name. rewrite E2 in Hf, Hlook.
    destruct (Hb e2 Hin) as [r Hr]. rewrite (look_at_entry s e2 f r Hr Hh Hin Hf) in Hlook. by injection Hlook as <-. }
  assert (Hin : ∀ name f, (name, f) ∈ listing (rs_disk s) → rs_disk s !! name = Some f).
  { intros name f H. rewrite listing_perm in H. by apply elem_of_map_to_list in H. }
  apply NoDup_Permutation.
  - pose proof (NoDup_fst_map_to_list (rs_disk s)) as Hn. rewrite <- (listing_perm (rs_disk s)) in Hn.
    revert Hn Hin. induction (listing (rs_disk s)) as [|[name f] l IH]; intros Hn Hin; [constructor|].
    apply NoDup_cons in Hn as [Hnew Hn]. cbn. destruct (listed_entry s (name, f)) as [e|] eqn:He.
    + constructor; [|apply IH; [done|intros; apply Hin; by right]].
      intros ([n g] & Hg & Heg)%list_elem_of_omap. destruct (Hent n g e (Hin n g ltac:(by right)) Heg) as [H1 _].
      destruct (Hent name f e (Hin name f ltac:(by left)) He) as [H2 _]. apply Hnew. cbn. rewrite <- H2, H1.
      by apply (list_elem_of_fmap_2 fst _ (n, g)).
    + apply IH; [done|]. intros; apply Hin; by right.
  - apply (NoDup_fmap_1 sr_file). by destruct Hh.
  - intros e. rewrite list_elem_of_omap. split.
    + intros ([name f] & Hf%Hin & He). by destruct (Hent _ _ _ Hf He).
    + intros He. destruct (Hb e He) as (r & f & Hf & Hr). exists (sr_file e, f). split.
      * rewrite listing_perm. by apply elem_of_map_to_list.
      * unfold listed_entry. cbn. by rewrite (look_at_entry s e f r) by (done || by exists f).
Qed.

Lemma sequence_unique s x y : exact s → x ∈ rs_entries s → y ∈ rs_entries s → sr_sequence x = sr_sequence y → x = y.
Proof.
  intros [_ Ho _]. induction Ho as [|e l Ho IH He]; [by intros ?%elem_of_nil|]. rewrite Forall_forall in He. unfold by_sequence in He.
  intros [->|Hx]%elem_of_cons [->|Hy]%elem_of_cons Hs; [done| | |by apply IH].
  - specialize (He y Hy). lia.
  - specialize (He x Hx). lia.
Qed.

Lemma StronglySorted_impl' {A} (R Q : A → A → Prop) l : StronglySorted R l → (∀ x y, R x y → Q x y) → StronglySorted Q l.
Proof. induction 1; intros HRQ; constructor; auto. eapply Forall_impl; eauto. Qed.

Lemma reopened s : sound s → held s → exact s →
  ∃ s', OpenResultSpool good_spool_io (rs_limit s) (rs_maxSize s) (rs_ttl s) (rs_disk s) = Some s'
    ∧ rs_entries s' = rs_entries s ∧ rs_bytes s' = rs_bytes s
    ∧ rs_limit s' = rs_limit s ∧ rs_maxSize s' = rs_maxSize s ∧ rs_ttl s' = rs_ttl s ∧ rs_disk s' = rs_disk s.
Proof.
  intros [Hb [Hc Hby]] Hh Hx. destruct (xt_bounds s Hx) as [Hm0 Ht0]. pose proof (bk_limit s Hb) as Hl0.
  unfold OpenResultSpool, or_default. rewrite !bool_decide_eq_false_2 by lia. unfold load. cbn [sio_unlisted good_spool_io rs_disk].
  set (k := mkResultSpool _ _ _ _ _ _ _ _).
  destruct (load_entries s (listing (rs_disk s)) k Hh Hx) as (Hd & Hl & Hm & Ht & He); [|done..|].
  { intros name f H. rewrite listing_perm in H. by apply elem_of_map_to_list in H. }
  destruct (load_all good_spool_io (listing (rs_disk s)) k) as [Hbk Hhk]; [by apply loading_start; lia|].
  set (k1 := fold_left _ _ _) in *. clearbody k1. cbn in Hl, Hm, Ht, He.
  set (l := sort_stable _ (rs_entries k1)).
  assert (Hperm : l ≡ₚ rs_entries s) by (unfold l; rewrite sort_stable_perm, He; by apply entries_listed).
  assert (El : l = rs_entries s).
  { apply (StronglySorted_unique_strong (not_after (λ a b, bool_decide (sr_sequence a < sr_sequence b)))).
    - intros x y Hx1 Hy H1 H2. unfold not_after in *. apply bool_decide_eq_false in H1, H2.
      rewrite Hperm in Hx1. by apply (sequence_unique s); [|done|done|lia].
    - apply sort_stable_sorted; [intros x y; rewrite bool_decide_eq_true, bool_decide_eq_false; lia|
        intros x y z; rewrite !bool_decide_eq_false; lia].
    - eapply StronglySorted_impl'; [exact (xt_order s Hx)|]. unfold by_sequence, not_after. intros x y ?.
      apply bool_decide_eq_false. lia.
    - exact Hperm. }
  destruct (reordered l k1 ltac:(unfold l; apply sort_stable_perm) Hbk Hhk) as [Hb2 Hh2].
  change (evict good_spool_io _) with (evict good_spool_io (with_entries l k1)).
  assert (Hbytes : rs_bytes (with_entries l k1) = rs_bytes s) by (destruct Hb2 as [-> _ _ _]; cbn -[sumZ]; by rewrite El, (bk_sum s Hb)).
  exists (with_entries l k1). split; [|by rewrite Hbytes; cbn; rewrite Hl, Hm, Ht, Hd, El]. f_equal.
  unfold evict. change (rs_entries (with_entries l k1)) with l. destruct l as [|e l'] eqn:Hle; [done|].
  rewrite evict_from_cons. rewrite Hbytes. cbn [rs_limit rs_maxSize with_entries].
  rewrite Hl, Hm, El, (bool_decide_eq_false_2 (rs_limit s < _)), (bool_decide_eq_false_2 (rs_maxSize s < _)) by lia.
  cbn [orb andb]. done.
Qed.

Lemma quiet_step s ev s' :
  quiet s ev → spool_step ev s = Some s' → sound s → held s → exact s → sound s' ∧ held s' ∧ exact s'.
Proof.
  intros Hq E Hs Hh Hx. pose proof (step_sound _ _ _ E Hs) as Hs'.
  assert (Hroom : room ev s) by (destruct ev; try done; by destruct Hq as (_ & _ & _ & ?)).
  pose proof (step_held _ _ _ E Hroom Hs Hh) as Hh'. split_and!; [done..|]. destruct (only_sheds ev) eqn:Ho.
  - destruct (step_sheds _ _ _ Ho E) as [gone Hg]. eapply exact_shed; [exact Hg|by eapply step_tidy|done].
  - destruct ev as [i now r| | | | |i limit maxSize ttl disk]; try done; cbn in E.
    + injection E as <-. by apply exact_Enqueue.
    + destruct Hq as (-> & -> & -> & -> & ->). destruct (reopened s Hs Hh Hx) as (s1 & E1 & He & _ & Hl & Hm & Ht & Hd).
      rewrite E in E1. injection E1 as ->. destruct Hx as [Hn Ho' Hb]. split; by rewrite ?Hd, ?He, ?Hm, ?Ht.
Qed.

Lemma exact_start limit maxSize ttl s :
  OpenResultSpool good_spool_io limit maxSize ttl ∅ = Some s → exact s.
Proof.
  unfold OpenResultSpool, load. cbn [sio_unlisted good_spool_io rs_disk]. unfold listing. rewrite map_to_list_empty. cbn.
  intros [= <-]. split; cbn; [done|constructor|]. unfold or_default. split; case_bool_decide; done || lia.
Qed.

(** C23: nothing is forgotten over a restart: as long as the calls of the
    operating system go through, opening the directory again gives the books
    as they were - the same answers in the same order, with their keys, their
    sizes and the moments they were written. *)
Theorem a_restart_forgets_nothing limit maxSize ttl s0 evs s :
  OpenResultSpool good_spool_io limit maxSize ttl ∅ = Some s0 → quiet_run s0 evs s →
  ∃ s', OpenResultSpool good_spool_io (rs_limit s) (rs_maxSize s) (rs_ttl s) (rs_disk s) = Some s'
    ∧ rs_entries s' = rs_entries s ∧ rs_bytes s' = rs_bytes s.
Proof.
  intros Ho Hr. destruct (OpenResultSpool_sound _ _ _ _ _ _ Ho) as [Hs Hh]. pose proof (exact_start _ _ _ _ Ho) as Hx.
  assert (sound s ∧ held s ∧ exact s) as (Hs' & Hh' & Hx').
  { clear Ho. induction Hr as [|s ev s1 evs s2 Hq E Hr IH]; [done|]. destruct (quiet_step _ _ _ Hq E Hs Hh Hx) as (? & ? & ?). auto. }
  destruct (reopened s Hs' Hh' Hx') as (s' & E & He & Hb & _). by exists s'.
Qed.
End restart.
