(* ===== verification/Replay.v ===== *)
(** * Replay: the helper's record of what it carried out

    The store of src/internal/helpercap/replay.go: a directory of files, one
    that binds a nonce to a task and a life of the helper, and one per request
    that was made under it. What the operating system does to a call - a
    refused open, a write cut short, a failed sync - is an argument of the
    call, [io]; what a power cut leaves is a relation on directories. Each
    method holds the mutex to its end and is one step. *)
From S2P Require Import Prelude Bytes Digest Text Capability.

Open Scope Z_scope.

(** ** The directory *)

(** A file: its content, and whether the content and the directory entry have
    reached the disk. *)
Record file := mkFile { content : bytes; content_safe : bool; name_safe : bool }.

(** What happens to the system calls of one method: which opens for writing
    and which reads fail, how many bytes a write takes before it fails
    ([None]: all of them), whether the sync of the file or of the directory
    fails, whether the directory can be listed, which entries cannot be
    removed. *)
Record io := mkIo {
  open_fails : string → bool;
  read_fails : string → bool;
  written : string → option nat;
  fsync_fails : bool;
  dirsync_fails : bool;
  readdir_fails : bool;
  unlink_fails : string → bool;
}.

Definition good_io : io :=
  mkIo (λ _, false) (λ _, false) (λ _, None) false false false (λ _, false).

Record ReplayStore := mkStore {
  dir_open : bool;       (* dirfd >= 0 *)
  life : string;
  sweptAt : time;
  files : gmap string file;
  (* Entries that were removed, while the removal may still be undone by a
     power cut; not a field of the program. *)
  unlinked : gmap string file;
}.

Definition with_files (s : ReplayStore) (fs : gmap string file) : ReplayStore :=
  mkStore (dir_open s) (life s) (sweptAt s) fs (unlinked s).

(** ** Names and records *)

Definition ownerPrefix : string := "n-".
Definition effectPrefix : string := "e-".
Definition stateReserved : string := "reserved".
Definition stateCompleted : string := "completed".
Definition keptResultLimit : Z := 256 ≪ 10.
Definition sweepInterval : Z := minute.

Definition ownerName (nonce : bytes) : string := ownerPrefix +:+ bstring (hex_encode (sha256 nonce)).
Definition effectName (nonce : bytes) (digest : string) : string :=
  effectPrefix +:+ bstring (hex_encode (sha256 (nonce ++ sbytes digest))).

Definition newline : byte := Byte.x0a.

(** Lines, each with its newline. *)
Definition lines_of (ls : list bytes) : bytes := mjoin ((λ l, l ++ [newline]) <$> ls).

Definition expires_text (expires : Z) : bytes := sbytes (FormatInt expires).

Definition owner_record (expires : Z) (taskID life : string) : bytes :=
  lines_of [expires_text expires; sbytes taskID; sbytes life].
Definition effect_record (expires : Z) (taskID life state : string) (body : bytes) : bytes :=
  lines_of [expires_text expires; sbytes taskID; sbytes life; sbytes state; body].

(** ** Reading *)

(** The read loop: buffers of 32 KiB until the end or the limit. *)
Fixpoint read_loop (fuel : nat) (acc rest : bytes) : bytes :=
  match fuel with
  | O => acc
  | S fuel' =>
      if bool_decide (keptResultLimit * 2 + 1024 < len acc) then acc
      else match rest with
           | [] => acc
           | _ => read_loop fuel' (acc ++ take (Z.to_nat (32 ≪ 10)) rest) (drop (Z.to_nat (32 ≪ 10)) rest)
           end
  end.

(** [readRecordLocked]: the lines of a record; none when it does not open, one
    empty line when the first read fails. The loop makes 17 rounds at most. *)
Definition readRecordLocked (i : io) (s : ReplayStore) (name : string) : list bytes :=
  match files s !! name with
  | None => []
  | Some f => split_on newline (if read_fails i name then [] else read_loop 18 [] (content f))
  end.

(** [expiryOf]: the first line of the first 64 bytes, as a number. *)
Definition expiry_of_content (c : bytes) : option Z :=
  match take 64 c with
  | [] => None
  | buffer =>
      let first := match cut_first newline buffer with Some (before, _) => before | None => buffer end in
      match Atoi (TrimSpace first) with
      | (expires, None) => Some expires
      | _ => None
      end
  end.

Definition expiryOf (i : io) (name : string) (f : file) : option Z :=
  if read_fails i name then None else expiry_of_content (content f).

(** ** Sweeping *)

Definition record_name (name : string) : bool :=
  bool_decide (slen name = 66) && (HasPrefix name ownerPrefix || HasPrefix name effectPrefix).

(** [now.Unix() > expires+int64(ClockSkew.Seconds())], on 64-bit integers. *)
Definition expired (now : time) (expires : Z) : bool :=
  bool_decide (i64 (expires + ClockSkew) < now / second).

Definition swept (i : io) (now : time) (name : string) (f : file) : bool :=
  record_name name && negb (unlink_fails i name)
  && match expiryOf i name f with Some expires => expired now expires | None => false end.

Definition sweepLocked (i : io) (now : time) (s : ReplayStore) : ReplayStore :=
  if bool_decide (time_sub now (sweptAt s) < sweepInterval) then s
  else
    if readdir_fails i then mkStore (dir_open s) (life s) now (files s) (unlinked s)
    else mkStore (dir_open s) (life s) now
           (filter (λ nf, swept i now nf.1 nf.2 = false) (files s))
           (filter (λ nf, swept i now nf.1 nf.2 = true) (files s) ∪ unlinked s).

Definition Sweep (i : io) (now : time) (s : ReplayStore) : ReplayStore :=
  sweepLocked i now (mkStore (dir_open s) (life s) zero_time (files s) (unlinked s)).

(** ** Writing *)

(** [writeAndFsync] into an open file whose content is [f]'s. *)
Definition writeAndFsync (i : io) (name : string) (f : file) (data : bytes) : option error * file :=
  match written i name with
  | Some n => (Some (failure "writing the nonce record"),
               mkFile (content f ++ take n data) false (name_safe f))
  | None =>
      if fsync_fails i
      then (Some (failure "syncing the nonce record"), mkFile (content f ++ data) false (name_safe f))
      else (None, mkFile (content f ++ data) true (name_safe f))
  end.

(** [unix.Fsync(s.dirfd)]: every entry of the directory is on the disk. *)
Definition dirsync (s : ReplayStore) : ReplayStore :=
  mkStore (dir_open s) (life s) (sweptAt s)
    ((λ f, mkFile (content f) (content_safe f) true) <$> files s) ∅.

(** [O_CREAT|O_EXCL], the write, and the sync of the directory: [None] when
    the file exists. *)
Definition create_record (i : io) (name : string) (data : bytes) (s : ReplayStore)
  : option (result error unit) * ReplayStore :=
  if bool_decide (is_Some (files s !! name)) then (None, s)
  else if open_fails i name then (Some (Err (failure "recording")), s)
  else
    let '(err, f) := writeAndFsync i name (mkFile [] false false) data in
    let s := with_files s (<[name := f]> (files s)) in
    match err with
    | Some e => (Some (Err e), s)
    | None =>
        if dirsync_fails i then (Some (Err (failure "syncing the replay directory")), s)
        else (Some (Ok tt), dirsync s)
    end.

(** ** The methods *)

(** [Reservation]; the callback the verifier fills in is modelled there. *)
Record Reservation := mkReservation { Fresh : bool; Kept : bytes }.
Definition fresh : Reservation := mkReservation true [].

Definition claimOwnerLocked (i : io) (nonce : bytes) (expires : Z) (taskID : string)
  : M ReplayStore error unit := λ s,
  let name := ownerName nonce in
  match create_record i name (owner_record expires taskID (life s)) s with
  | (Some r, s') => (r, s')
  | (None, _) =>
      match readRecordLocked i s name with
      | _ :: task :: l :: _ =>
          if bool_decide (task = sbytes taskID) && bool_decide (l = sbytes (life s))
             && negb (bool_decide (taskID = ""))
          then (Ok tt, s) else (Err (refusal ErrorCapabilityReplay), s)
      | _ => (Err (refusal ErrorCapabilityReplay), s)
      end
  end.

Definition claimEffectLocked (i : io) (nonce : bytes) (expires : Z) (taskID digest : string)
  : M ReplayStore error Reservation := λ s,
  let name := effectName nonce digest in
  match create_record i name (effect_record expires taskID (life s) stateReserved []) s with
  | (Some (Ok _), s') => (Ok fresh, s')
  | (Some (Err e), s') => (Err e, s')
  | (None, _) =>
      match readRecordLocked i s name with
      | _ :: _ :: _ :: state :: rest =>
          if bool_decide (state = sbytes stateCompleted)
          then match rest with
               | (_ :: _) as text :: _ =>
                   match hex_decode text with
                   | Some kept => (Ok (mkReservation false kept), s)
                   | None => (Err (refusal ErrorCapabilityPerformed), s)
                   end
               | _ => (Err (refusal ErrorCapabilityPerformed), s)
               end
          else (Err (refusal ErrorCapabilityInFlight), s)
      | _ => (Err (refusal ErrorCapabilityReplay), s)
      end
  end.

Definition open_check : M ReplayStore error unit := λ s,
  if dir_open s then (Ok tt, s) else (Err (failure "the replay store is closed"), s).

Definition Reserve (i : io) (now : time) (nonce : bytes) (expires : Z) (taskID digest : string)
  : M ReplayStore error Reservation :=
  if negb (bool_decide (len nonce = NonceSize)) then fail (refusal ErrorInvalidNonce)
  else if bool_decide (digest = "") then fail (failure "a reservation names the digest of the request")
  else
    open_check;;
    modify (sweepLocked i now);;
    claimOwnerLocked i nonce expires taskID;;
    claimEffectLocked i nonce expires taskID digest.

Definition ReserveRead (i : io) (now : time) (nonce : bytes) (expires : Z) (taskID : string)
  : M ReplayStore error unit :=
  if negb (bool_decide (len nonce = NonceSize)) then fail (refusal ErrorInvalidNonce)
  else
    open_check;;
    modify (sweepLocked i now);;
    claimOwnerLocked i nonce expires taskID.

(** [Complete] opens the record with [O_TRUNC]: from there on the old content
    is gone, whatever becomes of the write. *)
Definition completeLocked (i : io) (nonce : bytes) (expires : Z) (taskID digest : string) (answer : bytes)
  : M ReplayStore error unit := λ s,
  let body := if bool_decide (0 < len answer ≤ keptResultLimit) then hex_encode answer else [] in
  let name := effectName nonce digest in
  match files s !! name with
  | None => (Err (failure "completing the request record"), s)
  | Some f =>
      if open_fails i name then (Err (failure "completing the request record"), s)
      else
        let data := effect_record expires taskID (life s) stateCompleted body in
        let '(err, f') := writeAndFsync i name (mkFile [] false (name_safe f)) data in
        (match err with Some e => Err e | None => Ok tt end, with_files s (<[name := f']> (files s)))
  end.

Definition Complete (i : io) (nonce : bytes) (expires : Z) (taskID digest : string) (answer : bytes)
  : M ReplayStore error unit :=
  if negb (bool_decide (len nonce = NonceSize)) || bool_decide (digest = "") then mret tt
  else open_check;; completeLocked i nonce expires taskID digest answer.

Definition Close (s : ReplayStore) : ReplayStore := mkStore false (life s) (sweptAt s) (files s) (unlinked s).

(** [OpenReplayStore] on what is in the directory, by a new process; the
    checks of the directory and the random source passed. *)
Definition OpenReplayStore (i : io) (now : time) (new_life : string) (fs un : gmap string file) : ReplayStore :=
  Sweep i now (mkStore true new_life zero_time fs un).

(** ** Runs

    What can happen to a store: a call, the end of the process and the start
    of another, a power cut and the start of another. *)
Inductive event :=
| EReserve (i : io) (now : time) (nonce : bytes) (expires : Z) (taskID digest : string)
| EReserveRead (i : io) (now : time) (nonce : bytes) (expires : Z) (taskID : string)
| EComplete (i : io) (nonce : bytes) (expires : Z) (taskID digest : string) (answer : bytes)
| ESweep (i : io) (now : time)
| EClose
| ERestart (i : io) (now : time) (new_life : string)
| EPowerCut (i : io) (now : time) (new_life : string) (remains : gmap string file).

(** What a power cut leaves. A file whose entry was synced is there; an entry
    that was made or removed since may be either way. What is there has its
    content if that was synced, and its content or none otherwise. *)
Definition content_survives (f f' : file) : Prop :=
  content f' = content f ∨ content_safe f = false ∧ content f' = [].

Definition survives (s : ReplayStore) (fs' : gmap string file) : Prop :=
  (∀ name f, files s !! name = Some f → name_safe f = true → is_Some (fs' !! name))
  ∧ (∀ name f', fs' !! name = Some f' →
      (∃ f, files s !! name = Some f ∧ content_survives f f')
      ∨ (∀ f, files s !! name = Some f → name_safe f = false)
        ∧ ∃ f, unlinked s !! name = Some f ∧ content_survives f f')
  ∧ (∀ name f', fs' !! name = Some f' → name_safe f' = true ∧ content_safe f' = true).

Definition run_event (ev : event) (s : ReplayStore) : ReplayStore :=
  match ev with
  | EReserve i now nonce expires taskID digest => (Reserve i now nonce expires taskID digest s).2
  | EReserveRead i now nonce expires taskID => (ReserveRead i now nonce expires taskID s).2
  | EComplete i nonce expires taskID digest answer => (Complete i nonce expires taskID digest answer s).2
  | ESweep i now => Sweep i now s
  | EClose => Close s
  | ERestart i now new_life => OpenReplayStore i now new_life (files s) (unlinked s)
  | EPowerCut i now new_life remains => OpenReplayStore i now new_life remains ∅
  end.

Definition possible (ev : event) (s : ReplayStore) : Prop :=
  match ev with EPowerCut _ _ _ remains => survives s remains | _ => True end.

Inductive run : ReplayStore → list event → ReplayStore → Prop :=
| run_nil s : run s [] s
| run_cons s ev evs s' : possible ev s → run (run_event ev s) evs s' → run s (ev :: evs) s'.
