(* ===== verification/ReplayProps.v ===== *)
(** * ReplayProps: an effect runs at most once

    Whatever happens after the store handed out the right to carry out a
    request under a nonce - calls that fail half way, restarts, power cuts,
    sweeps - it does not hand it out a second time before the nonce is swept
    away, which is thirty seconds after it expired. *)
From S2P Require Import Prelude Bytes Digest Text Capability Replay.

Open Scope Z_scope.

(** ** Records *)

Lemma newline_not_inner s : Forall (λ c, inner c = true) s → newline ∉ s.
Proof. rewrite Forall_forall. intros Hs Hn. by apply Hs in Hn. Qed.

Lemma expires_text_newline z : newline ∉ expires_text z.
Proof. apply newline_not_inner, FormatInt_inner. Qed.

(** The moments a capability names. *)
Definition moment (z : Z) : Prop := 0 ≤ z < 2 ^ 63 - ClockSkew.

Lemma expires_text_length z : moment z → (0 < List.length (expires_text z) ≤ 20)%nat.
Proof.
  unfold moment, ClockSkew. intros Hz. unfold expires_text, FormatInt. rewrite bool_decide_eq_false_2 by lia.
  destruct (FormatUint_digits (Z.to_N z)) as (_ & Hn & _). split.
  - destruct (sbytes (FormatUint (Z.to_N z))); [done|cbn; lia].
  - apply FormatUint_length; lia.
Qed.

Lemma expiry_of_text z : moment z → expiry_of_content (expires_text z) = Some z.
Proof.
  intros Hz. pose proof (expires_text_length z Hz) as Hl. unfold expiry_of_content.
  rewrite take_ge by lia. destruct (expires_text z) as [|c l] eqn:E; [cbn in Hl; lia|]. rewrite <- E.
  cbv zeta. rewrite cut_first_none by apply expires_text_newline. unfold expires_text.
  rewrite TrimSpace_inner by apply FormatInt_inner. rewrite Atoi_FormatInt; [done|].
  unfold moment, ClockSkew in Hz. lia.
Qed.

Lemma expiry_of_line z rest : moment z → expiry_of_content (expires_text z ++ newline :: rest) = Some z.
Proof.
  intros Hz. pose proof (expires_text_length z Hz) as Hl. unfold expiry_of_content.
  rewrite take_app_ge by lia. destruct (64 - List.length (expires_text z))%nat as [|k] eqn:Ek; [lia|].
  cbn [take]. destruct (expires_text z ++ newline :: take k rest) eqn:E; [by destruct (expires_text z)|].
  rewrite <- E. cbv zeta. rewrite cut_first_sep by apply expires_text_newline. unfold expires_text. rewrite TrimSpace_inner by apply FormatInt_inner. rewrite Atoi_FormatInt; [done|].
  unfold moment, ClockSkew in Hz. lia.
Qed.

(** What is never swept early: a record whose expiry reads as the one written,
    or does not read at all. *)
Definition keeps (z : Z) (c : bytes) : Prop := expiry_of_content c = Some z ∨ expiry_of_content c = None.

Lemma keeps_nil z : keeps z [].
Proof. by right. Qed.

Lemma keeps_line z rest : moment z → keeps z (expires_text z ++ newline :: rest).
Proof. left. by apply expiry_of_line. Qed.

(** A record cut short behind its first twenty bytes keeps its expiry. *)
Lemma keeps_prefix z rest k :
  moment z → (k = 0 ∨ 20 ≤ k)%nat → keeps z (take k (expires_text z ++ newline :: rest)).
Proof.
  intros Hz [->|Hk]; [apply keeps_nil|]. pose proof (expires_text_length z Hz) as Hl.
  rewrite take_app_ge by lia. destruct (k - List.length (expires_text z))%nat as [|j] eqn:Ej.
  - cbn. rewrite app_nil_r. left. by apply expiry_of_text.
  - cbn [take]. by apply keeps_line.
Qed.

Lemma owner_record_line z t l : ∃ rest, owner_record z t l = expires_text z ++ newline :: rest.
Proof. unfold owner_record, lines_of. cbn. rewrite <- app_assoc. cbn. by eexists. Qed.

Lemma effect_record_line z t l st b : ∃ rest, effect_record z t l st b = expires_text z ++ newline :: rest.
Proof. unfold effect_record, lines_of. cbn. rewrite <- app_assoc. cbn. by eexists. Qed.

(** The task and the life a record names, as the store reads them. *)
Definition binds (c task l : bytes) : Prop :=
  ∃ a rest, split_on newline (read_loop 18 [] c) = a :: task :: l :: rest.

Lemma binds_fun c t l t' l' : binds c t l → binds c t' l' → t = t' ∧ l = l'.
Proof. intros (? & ? & H) (? & ? & H'). rewrite H in H'. by injection H' as -> -> -> ->. Qed.

Lemma binds_nil t l : ¬ binds [] t l.
Proof. intros (a & rest & H). by vm_compute in H. Qed.

(** A record of at most 17 buffers is read whole. *)
Lemma read_loop_whole fuel acc rest :
  len acc + len rest ≤ 17 * 32768 → (∃ j, len acc = 32768 * j) → len rest < 32768 * Z.of_nat fuel →
  read_loop fuel acc rest = acc ++ rest.
Proof.
  revert acc rest. induction fuel as [|fuel IH]; intros acc rest Ht [j Hj] Hf; cbn [read_loop].
  { pose proof (len_nonneg rest). lia. }
  destruct rest as [|c rest']; [by case_bool_decide; rewrite app_nil_r|]. set (rest := c :: rest') in *.
  assert (Hr : 0 < len rest) by (unfold rest; rewrite len_cons; pose proof (len_nonneg rest'); lia).
  rewrite bool_decide_eq_false_2 by (change (keptResultLimit * 2 + 1024) with 525312; lia).
  assert (HN : Z.of_nat (Z.to_nat (32 ≪ 10)) = 32768) by done. set (N := Z.to_nat (32 ≪ 10)) in *. clearbody N.
  destruct (decide (len rest ≤ 32768)) as [Hle|Hgt].
  - rewrite take_ge, drop_ge by (unfold len in Hle; lia). destruct fuel; cbn; [done|]. by case_bool_decide.
  - assert (Hd : len (drop N rest) = len rest - 32768) by (unfold len in *; rewrite length_drop; lia).
    assert (Hk : len (take N rest) = 32768) by (unfold len in *; rewrite length_take; lia).
    rewrite IH; [by rewrite <- app_assoc, take_drop|..].
    + rewrite len_app, Hd, Hk. lia.
    + exists (j + 1). rewrite len_app, Hk. lia.
    + rewrite Hd. lia.
Qed.

Lemma read_whole c : len c ≤ 17 * 32768 → read_loop 18 [] c = c.
Proof.
  intros Hc. rewrite read_loop_whole; [done|rewrite len_nil; lia|by exists 0|lia].
Qed.

Lemma lines_of_cons l ls : lines_of (l :: ls) = (l ++ [newline]) ++ lines_of ls.
Proof. done. Qed.

Lemma split_lines ls rest :
  Forall (λ l, newline ∉ l) ls → split_on newline (lines_of ls ++ rest) = ls ++ split_on newline rest.
Proof.
  induction 1 as [|l ls Hl _ IH]; [done|].
  rewrite lines_of_cons, <- !app_assoc. cbn [app].
  by rewrite split_on_sep, IH.
Qed.

Lemma names_differ nonce nonce' digest : ownerName nonce ≠ effectName nonce' digest.
Proof. unfold ownerName, effectName. cbn. discriminate. Qed.

(** ** What the parts of a method leave in place *)

(** A write that fails took nothing, or at least the first twenty bytes. *)
Definition clean (i : io) : Prop := ∀ name k, written i name = Some k → (k = 0 ∨ 20 ≤ k)%nat.

Lemma good_io_clean : clean good_io.
Proof. by intros ? ?. Qed.

(** The files of [s] are still there, as they were, and as safe. *)
Definition still (f f' : file) : Prop := content f' = content f ∧ (name_safe f = true → name_safe f' = true).
Record grows (s s' : ReplayStore) : Prop := {
  g_life : life s' = life s;
  g_files : ∀ name f, files s !! name = Some f → ∃ f', files s' !! name = Some f' ∧ still f f';
}.

Lemma grows_refl s : grows s s.
Proof. split; [done|]. intros name f Hf. by exists f. Qed.

Lemma sweepLocked_life i now s : life (sweepLocked i now s) = life s ∧ dir_open (sweepLocked i now s) = dir_open s.
Proof. unfold sweepLocked. case_bool_decide; [done|]. by destruct (readdir_fails i). Qed.

Lemma sweepLocked_files i now s name f :
  files (sweepLocked i now s) !! name = Some f ∨ unlinked (sweepLocked i now s) !! name = Some f →
  files s !! name = Some f ∨ unlinked s !! name = Some f.
Proof.
  unfold sweepLocked. case_bool_decide; [done|]. destruct (readdir_fails i); [done|]. cbn [files unlinked].
  intros [Hf|Hf].
  - left. by apply map_lookup_filter_Some in Hf as [? _].
  - apply lookup_union_Some_raw in Hf as [Hf|[_ Hf]]; [|by right].
    left. by apply map_lookup_filter_Some in Hf as [? _].
Qed.

Lemma not_swept i now name f z :
  moment z → now / second ≤ z + ClockSkew → keeps z (content f) → swept i now name f = false.
Proof.
  intros Hz Hn Hk. unfold swept. apply andb_false_intro2. unfold expiryOf.
  destruct (read_fails i name); [done|]. destruct Hk as [->| ->]; [|done].
  unfold expired. apply bool_decide_eq_false_2. unfold moment, ClockSkew, i64 in *.
  rewrite Z.mod_small by lia. lia.
Qed.

Lemma sweepLocked_keeps i now s name f z :
  moment z → now / second ≤ z + ClockSkew → keeps z (content f) →
  files s !! name = Some f → files (sweepLocked i now s) !! name = Some f.
Proof.
  intros Hz Hn Hk Hf. unfold sweepLocked. case_bool_decide; [done|]. destruct (readdir_fails i); [done|].
  cbn [files]. apply map_lookup_filter_Some. split; [done|]. by eapply not_swept.
Qed.

(** [create_record]: the file is there already, or it is made; a success means
    that everything in the directory is on the disk. *)
Inductive created (i : io) (name : string) (data : bytes) (s : ReplayStore)
  : option (result error unit) * ReplayStore → Prop :=
| created_exists : is_Some (files s !! name) → created i name data s (None, s)
| created_not e : files s !! name = None → created i name data s (Some (Err e), s)
| created_cut e f s' :
    files s !! name = None → grows s s' → files s' = <[name := f]> (files s) → unlinked s' = unlinked s →
    (content f = data ∨ ∃ k, written i name = Some k ∧ content f = take k data) →
    created i name data s (Some (Err e), s')
| created_whole s' :
    files s !! name = None → grows s s' →
    files s' = (λ f, mkFile (content f) (content_safe f) true) <$> <[name := mkFile data true false]> (files s) →
    unlinked s' = ∅ → created i name data s (Some (Ok tt), s').

Lemma grows_insert s s' name f :
  files s !! name = None → life s' = life s → files s' = <[name := f]> (files s) → grows s s'.
Proof.
  intros Hn Hl Hf. split; [done|]. intros m g Hg. exists g. rewrite Hf.
  rewrite lookup_insert_ne by congruence. done.
Qed.

Lemma create_record_created i name data s : created i name data s (create_record i name data s).
Proof.
  unfold create_record. case_bool_decide as Hs; [by constructor|].
  apply eq_None_not_Some in Hs. destruct (open_fails i name); [by constructor|].
  unfold writeAndFsync. cbn [content name_safe app]. destruct (written i name) as [k|] eqn:Hk.
  - eapply created_cut; [done| |done|done|right; eauto]. by eapply grows_insert.
  - destruct (fsync_fails i); [eapply created_cut; [done| |done|done|by left]; by eapply grows_insert|].
    destruct (dirsync_fails i); [eapply created_cut; [done| |done|done|by left]; by eapply grows_insert|].
    eapply created_whole; [done| |done|done]. split; [done|]. intros m g Hg. unfold dirsync, with_files. cbn [files].
    rewrite lookup_fmap. rewrite lookup_insert_ne by congruence. rewrite Hg. cbn. by eexists.
Qed.

(** What holds of any content. *)
Definition there (_ : bytes) : Prop := True.

(** The task and life a content names, and the only ones it can name. *)
Definition names (task l c : bytes) : Prop := binds c task l.
Definition names_only (task l c : bytes) : Prop := ∀ t l', binds c t l' → t = task ∧ l' = l.

Lemma names_names_only task l c : names task l c → names_only task l c.
Proof. intros Hb t l' Hb'. exact (binds_fun _ _ _ _ _ Hb' Hb). Qed.

(** A line of its own, of reasonable length. *)
Definition plain (s : string) : Prop := (newline ∉ sbytes s) ∧ slen s ≤ 8192.

Lemma record_lines ls :
  Forall (λ l, newline ∉ l) ls → len (lines_of ls) ≤ 17 * 32768 →
  split_on newline (read_loop 18 [] (lines_of ls)) = ls ++ [[]].
Proof. intros Hn Hl. rewrite read_whole by done. rewrite <- (app_nil_r (lines_of ls)). by rewrite split_lines. Qed.

Lemma owner_names z taskID l :
  plain taskID → plain l → moment z → names (sbytes taskID) (sbytes l) (owner_record z taskID l).
Proof.
  intros [Ht Htl] [Hl Hll] Hz. pose proof (expires_text_length z Hz) as Hzl.
  exists (expires_text z), [[]]. unfold owner_record. rewrite record_lines; [done|..].
  - repeat (constructor; [first [apply expires_text_newline|done]|]); constructor.
  - rewrite !lines_of_cons, !len_app, !len_cons, !len_nil. change (len (lines_of [])) with 0. unfold slen in *.
    change (len (expires_text z)) with (Z.of_nat (List.length (expires_text z))). lia.
Qed.

Lemma hex_digit_newline n : 0 ≤ n < 16 → hex_digit n ≠ newline.
Proof.
  intros Hn He%(f_equal b2z). unfold hex_digit in He. case_bool_decide; rewrite b2z_z2b, Z.mod_small in He by lia;
    change (b2z newline) with 10 in He; lia.
Qed.

Lemma hex_newline data : newline ∉ hex_encode data.
Proof.
  induction data as [|b data IH]; [apply not_elem_of_nil|].
  change (hex_encode (b :: data)) with (hex_digit (b2z b / 16) :: hex_digit (b2z b mod 16) :: hex_encode data).
  pose proof (b2z_range b). rewrite !not_elem_of_cons. split_and!; [..|done]; apply not_eq_sym, hex_digit_newline.
  - split; [apply Z.div_pos; lia|apply Z.div_lt_upper_bound; lia].
  - apply Z.mod_pos_bound. lia.
Qed.

Lemma len_hex_encode data : len (hex_encode data) = 2 * len data.
Proof.
  induction data as [|b data IH]; [done|].
  change (hex_encode (b :: data)) with (hex_digit (b2z b / 16) :: hex_digit (b2z b mod 16) :: hex_encode data).
  rewrite !len_cons, IH. lia.
Qed.

(** ** The directory keeps its expiries

    [X] is the moment at which what a record belongs to expires: every request
    that writes a record of a name carries that moment. *)
Section at_most_once.
Context (X : string → Z) (HX : ∀ name, moment (X name)).

Definition wf (s : ReplayStore) : Prop :=
  ∀ name f, files s !! name = Some f ∨ unlinked s !! name = Some f → keeps (X name) (content f).

(** The events the section is about: failed writes are clean, and a request
    carries the expiry of its nonce. *)
Definition tame (ev : event) : Prop :=
  match ev with
  | EReserve i _ nonce expires _ digest =>
      clean i ∧ expires = X (ownerName nonce) ∧ expires = X (effectName nonce digest)
  | EReserveRead i _ nonce expires _ => clean i ∧ expires = X (ownerName nonce)
  | EComplete i nonce expires _ digest _ => clean i ∧ expires = X (effectName nonce digest)
  | _ => True
  end.

Lemma wf_sweepLocked i now s : wf s → wf (sweepLocked i now s).
Proof using Type. intros Hw name f Hf%sweepLocked_files. by apply Hw. Qed.

Lemma wf_created i name data rest s r s' :
  wf s → clean i → data = expires_text (X name) ++ newline :: rest →
  created i name data s (r, s') → wf s'.
Proof using HX.
  intros Hw Hi -> Hc. inversion Hc as [|e|e f s1 Hn Hg Hf Hu Hd|s1 Hn Hg Hf Hu]; subst; [done|done|..]; intros m g Hm.
  - rewrite Hf, Hu in Hm. destruct (decide (m = name)) as [->|Hne].
    + destruct Hm as [Hm|Hm]; [|by apply Hw; right]. rewrite lookup_insert_eq in Hm. injection Hm as <-.
      destruct Hd as [->|(k & Hk & ->)]; [by apply keeps_line|by apply keeps_prefix; eauto].
    + apply Hw. by rewrite lookup_insert_ne in Hm by done.
  - rewrite Hf, Hu in Hm. destruct Hm as [Hm|Hm]; [|by rewrite lookup_empty in Hm].
    rewrite lookup_fmap in Hm. apply fmap_Some in Hm as (g' & Hm & ->). cbn.
    destruct (decide (m = name)) as [->|Hne].
    + rewrite lookup_insert_eq in Hm. injection Hm as <-. by apply keeps_line.
    + rewrite lookup_insert_ne in Hm by done. apply Hw. by left.
Qed.

(** The two claims leave the directory as [create_record] does. *)
Lemma claimOwner_created i nonce expires taskID s :
  ∃ o, created i (ownerName nonce) (owner_record expires taskID (life s)) s
         (o, (claimOwnerLocked i nonce expires taskID s).2)
    ∧ ((claimOwnerLocked i nonce expires taskID s).1 = Ok tt →
       o = Some (Ok tt)
       ∨ ∃ f, files s !! ownerName nonce = Some f ∧ binds (content f) (sbytes taskID) (sbytes (life s))).
Proof using Type.
  pose proof (create_record_created i (ownerName nonce) (owner_record expires taskID (life s)) s) as Hc.
  unfold claimOwnerLocked.
  destruct (create_record i (ownerName nonce) (owner_record expires taskID (life s)) s) as [[r|] s'] eqn:E.
  - exists (Some r). split; [done|]. cbn. intros ->. by left.
  - inversion Hc as [[f Hf]| | |]; subst. exists None.
    assert (Hs : ∀ (x : result error unit), created i (ownerName nonce) (owner_record expires taskID (life s')) s'
        (None, (x, s').2)) by (intros x; constructor; by eexists).
    unfold readRecordLocked. rewrite Hf.
    destruct (read_fails i (ownerName nonce)); [split; [apply Hs|done]|].
    destruct (split_on newline (read_loop 18 [] (content f))) as [|a [|t [|l rest]]] eqn:El;
      try (split; [apply Hs|done]).
    case_match eqn:Eb; [|split; [apply Hs|done]]. split; [apply Hs|]. intros _. right. exists f. split; [done|].
    apply andb_true_iff in Eb as [[Ht Hl]%andb_true_iff _]. apply bool_decide_eq_true in Ht as ->, Hl as ->.
    by exists a, rest.
Qed.

Lemma claimEffect_created i nonce expires taskID digest s :
  ∃ o, created i (effectName nonce digest) (effect_record expires taskID (life s) stateReserved []) s
         (o, (claimEffectLocked i nonce expires taskID digest s).2)
    ∧ (∀ res, (claimEffectLocked i nonce expires taskID digest s).1 = Ok res → Fresh res = true →
       o = Some (Ok tt)).
Proof using Type.
  set (name := effectName nonce digest).
  pose proof (create_record_created i name (effect_record expires taskID (life s) stateReserved []) s) as Hc.
  unfold claimEffectLocked. fold name.
  destruct (create_record i name _ s) as [[[u|e]|] s'] eqn:E.
  - destruct u. by exists (Some (Ok tt)).
  - exists (Some (Err e)). split; [done|]. done.
  - exists None. inversion Hc as [Hs| | |]; subst.
    assert (Hn : ∀ (x : result error Reservation), (∀ res, x = Ok res → Fresh res = false) →
        created i name (effect_record expires taskID (life s') stateReserved []) s' (None, (x, s').2)
        ∧ (∀ res, (x, s').1 = Ok res → Fresh res = true → @None (result error unit) = Some (Ok tt))).
    { intros x Hx. split; [by constructor|]. cbn. intros res Hr Hf. rewrite (Hx res Hr) in Hf. done. }
    repeat case_match; apply Hn; intros res Hr; try discriminate Hr; injection Hr as <-; done.
Qed.

(** A call of [Reserve] that gets past its checks sweeps, then claims twice. *)
Lemma Reserve_steps i now nonce expires taskID digest s r s' :
  Reserve i now nonce expires taskID digest s = (r, s') →
  (s' = s ∧ ∃ e, r = Err e)
  ∨ ∃ ro s2, claimOwnerLocked i nonce expires taskID (sweepLocked i now s) = (ro, s2)
      ∧ ((∃ e, ro = Err e ∧ r = Err e ∧ s' = s2)
         ∨ (ro = Ok tt ∧ claimEffectLocked i nonce expires taskID digest s2 = (r, s'))).
Proof using Type.
  unfold Reserve. case_match; [intros [= <- <-]; left; eauto|]. case_match; [intros [= <- <-]; left; eauto|].
  unfold mbind, M_bind, open_check, modify. destruct (dir_open s); [|intros [= <- <-]; left; eauto].
  right. destruct (claimOwnerLocked i nonce expires taskID (sweepLocked i now s)) as [[[]|e] s2] eqn:E.
  - exists (Ok tt), s2. split; [done|]. by right.
  - exists (Err e), s2. split; [done|]. left. exists e. by simplify_eq.
Qed.

Lemma ReserveRead_steps i now nonce expires taskID s :
  (ReserveRead i now nonce expires taskID s).2 = s
  ∨ (ReserveRead i now nonce expires taskID s).2 = (claimOwnerLocked i nonce expires taskID (sweepLocked i now s)).2.
Proof using Type.
  unfold ReserveRead. case_match; [by left|]. unfold mbind, M_bind, open_check, modify.
  destruct (dir_open s); [by right|by left].
Qed.

(** [Complete] rewrites the effect record it finds, or does nothing. *)
Lemma Complete_steps i nonce expires taskID digest answer s :
  let s' := (Complete i nonce expires taskID digest answer s).2 in
  s' = s ∨ ∃ f g rest, files s !! effectName nonce digest = Some f
    ∧ s' = with_files s (<[effectName nonce digest := g]> (files s)) ∧ name_safe g = name_safe f
    ∧ (content g = expires_text expires ++ newline :: rest
       ∨ ∃ k, written i (effectName nonce digest) = Some k
           ∧ content g = take k (expires_text expires ++ newline :: rest)).
Proof using Type.
  cbv zeta. unfold Complete. case_match; [by left|]. unfold mbind, M_bind, open_check.
  destruct (dir_open s); [|by left]. unfold completeLocked. cbv zeta.
  destruct (files s !! effectName nonce digest) as [f|] eqn:Hf; [|by left].
  destruct (open_fails i (effectName nonce digest)); [by left|]. right.
  set (body := if bool_decide _ then _ else _).
  destruct (effect_record_line expires taskID (life s) stateCompleted body) as [rest Hl]. rewrite Hl.
  unfold writeAndFsync. cbn [content name_safe app].
  destruct (written i (effectName nonce digest)) as [k|] eqn:Hk.
  - eexists f, _, rest. split_and!; [done|done|done|]. right. by exists k.
  - destruct (fsync_fails i); eexists f, _, rest; (split_and!; [done|done|done|by left]).
Qed.

Lemma wf_claimOwner i nonce expires taskID s :
  wf s → clean i → expires = X (ownerName nonce) → wf (claimOwnerLocked i nonce expires taskID s).2.
Proof using HX.
  intros Hw Hi ->. destruct (claimOwner_created i nonce (X (ownerName nonce)) taskID s) as (o & Hc & _).
  destruct (owner_record_line (X (ownerName nonce)) taskID (life s)) as [rest Hr]. by eapply wf_created.
Qed.

Lemma wf_claimEffect i nonce expires taskID digest s :
  wf s → clean i → expires = X (effectName nonce digest) → wf (claimEffectLocked i nonce expires taskID digest s).2.
Proof using HX.
  intros Hw Hi ->. destruct (claimEffect_created i nonce (X (effectName nonce digest)) taskID digest s) as (o & Hc & _).
  destruct (effect_record_line (X (effectName nonce digest)) taskID (life s) stateReserved []) as [rest Hr].
  by eapply wf_created.
Qed.

Lemma wf_run_event ev s : wf s → tame ev → possible ev s → wf (run_event ev s).
Proof using HX.
  destruct ev as [i now nonce expires taskID digest|i now nonce expires taskID|i nonce expires taskID digest answer
    |i now| |i now new_life|i now new_life remains]; cbn [tame possible run_event]; intros Hw Ht Hp.
  - destruct Ht as (Hi & Ho & He).
    destruct (Reserve i now nonce expires taskID digest s) as [r s'] eqn:E. cbn.
    apply Reserve_steps in E as [[-> _]|(ro & s2 & E2 & E)]; [done|].
    assert (Hw2 : wf s2).
    { replace s2 with (claimOwnerLocked i nonce expires taskID (sweepLocked i now s)).2 by by rewrite E2.
      apply wf_claimOwner; [by apply wf_sweepLocked|done..]. }
    destruct E as [(e & _ & _ & ->)|[_ E]]; [done|].
    replace s' with (claimEffectLocked i nonce expires taskID digest s2).2 by by rewrite E. by apply wf_claimEffect.
  - destruct Ht as (Hi & Ho).
    destruct (ReserveRead_steps i now nonce expires taskID s) as [->| ->]; [done|].
    apply wf_claimOwner; [by apply wf_sweepLocked|done..].
  - destruct Ht as (Hi & He).
    destruct (Complete_steps i nonce expires taskID digest answer s) as [->|(f & g & rest & Hf & -> & _ & Hg)]; [done|].
    intros m h [Hm|Hm]; [|by apply Hw; right]. cbn [files with_files] in Hm.
    destruct (decide (m = effectName nonce digest)) as [->|Hne].
    + rewrite lookup_insert_eq in Hm. injection Hm as <-. rewrite He in Hg.
      destruct Hg as [->|(k & Hk & ->)]; [by apply keeps_line|by apply keeps_prefix; eauto].
    + rewrite lookup_insert_ne in Hm by done. apply Hw. by left.
  - by apply wf_sweepLocked.
  - done.
  - by apply wf_sweepLocked.
  - destruct Hp as (_ & Hfrom & _). apply wf_sweepLocked. intros m f' Hm. cbn in Hm.
    destruct Hm as [Hm|Hm]; [|by rewrite lookup_empty in Hm]. apply Hfrom in Hm as [(f & Hf & Hc)|(_ & f & Hf & Hc)];
      (destruct Hc as [->|[_ ->]]; [apply Hw; eauto|apply keeps_nil]).
Qed.

(** ** Once handed out

    [stands name P s]: the record of [name] is on the disk, and whatever a
    power cut leaves of it satisfies [P]. *)
Definition stands (name : string) (P : bytes → Prop) (s : ReplayStore) : Prop :=
  ∃ f, files s !! name = Some f ∧ name_safe f = true ∧ P (content f).

(** Readings of the clock up to [T]. *)
Definition until (T : time) (ev : event) : Prop :=
  match ev with
  | EReserve _ now _ _ _ _ | EReserveRead _ now _ _ _ | ESweep _ now
  | ERestart _ now _ | EPowerCut _ now _ _ => now ≤ T
  | EComplete _ _ _ _ _ _ | EClose => True
  end.

Lemma stands_grows name P s s' : stands name P s → grows s s' → stands name P s'.
Proof using Type.
  intros (f & Hf & Hs & HP) [_ Hg]. destruct (Hg _ _ Hf) as (f' & Hf' & Hc & Hs').
  exists f'. rewrite Hc. auto.
Qed.

Lemma created_grows i name data s o s' : created i name data s (o, s') → grows s s'.
Proof using Type. intros Hc. inversion Hc; subst; (done || apply grows_refl). Qed.

Lemma stands_sweepLocked i now s name P T :
  stands name P s → wf s → now ≤ T → T / second ≤ X name + ClockSkew → stands name P (sweepLocked i now s).
Proof using HX.
  intros (f & Hf & Hs & HP) Hw HT Hn. pose proof (Z.div_le_mono now T second ltac:(done) HT) as Hd.
  exists f. split; [|done]. eapply sweepLocked_keeps; [apply HX| |apply Hw; by left|done]. lia.
Qed.

Lemma stands_Reserve i now nonce expires taskID digest s name P T :
  stands name P s → wf s → now ≤ T → T / second ≤ X name + ClockSkew →
  stands name P (Reserve i now nonce expires taskID digest s).2.
Proof using HX.
  intros Hh Hw HT Hn. destruct (Reserve i now nonce expires taskID digest s) as [r s'] eqn:E. cbn.
  apply Reserve_steps in E as [[-> _]|(ro & s2 & E2 & E)]; [done|].
  destruct (claimOwner_created i nonce expires taskID (sweepLocked i now s)) as (o & Hc & _).
  rewrite E2 in Hc. apply created_grows in Hc. cbn in Hc.
  assert (Hh2 : stands name P s2) by (eapply stands_grows; [by eapply (stands_sweepLocked i now s name P T)|done]).
  destruct E as [(x & _ & _ & ->)|[_ E]]; [done|].
  destruct (claimEffect_created i nonce expires taskID digest s2) as (o2 & Hc2 & _).
  rewrite E in Hc2. apply created_grows in Hc2. by eapply stands_grows.
Qed.

Lemma stands_ReserveRead i now nonce expires taskID s name P T :
  stands name P s → wf s → now ≤ T → T / second ≤ X name + ClockSkew →
  stands name P (ReserveRead i now nonce expires taskID s).2.
Proof using HX.
  intros Hh Hw HT Hn. destruct (ReserveRead_steps i now nonce expires taskID s) as [->| ->]; [done|].
  destruct (claimOwner_created i nonce expires taskID (sweepLocked i now s)) as (o & Hc & _).
  apply created_grows in Hc. eapply stands_grows; [by eapply (stands_sweepLocked i now s name P T)|done].
Qed.

(** [Complete] rewrites effect records alone. *)
Lemma stands_Complete i nonce expires taskID digest answer s name P :
  stands name P s → (∀ c, P c) ∨ effectName nonce digest ≠ name →
  stands name P (Complete i nonce expires taskID digest answer s).2.
Proof using Type.
  intros (f & Hf & Hs & HP) HPn.
  destruct (Complete_steps i nonce expires taskID digest answer s) as [->|(f0 & g & rest & Hf0 & -> & Hg & _)];
    [by exists f|].
  destruct (decide (effectName nonce digest = name)) as [He|He].
  - exists g. cbn. subst. rewrite lookup_insert_eq, Hg. simplify_eq. split_and!; [done|done|]. by destruct HPn.
  - exists f. cbn. by rewrite lookup_insert_ne.
Qed.

(** A record that stands stands through everything that comes before it is
    swept. *)
Lemma stands_run_event ev s name P T :
  P [] → (∀ c, P c) ∨ (∀ nonce digest, effectName nonce digest ≠ name) →
  T / second ≤ X name + ClockSkew →
  stands name P s → wf s → tame ev → until T ev → possible ev s → stands name P (run_event ev s).
Proof using HX.
  intros HP0 HPn Hn Hh Hw Ht Hl Hp.
  destruct ev as [i now nonce expires taskID digest|i now nonce expires taskID|i nonce expires taskID digest answer
    |i now| |i now new_life|i now new_life remains]; cbn [tame until possible run_event] in *.
  - by eapply stands_Reserve.
  - by eapply stands_ReserveRead.
  - apply stands_Complete; [done|]. destruct HPn; auto.
  - eapply stands_sweepLocked; [exact Hh|exact Hw|done..].
  - exact Hh.
  - eapply stands_sweepLocked; [exact Hh|exact Hw|done..].
  - destruct Hp as (Hthere & Hfrom & Hsafe). eapply stands_sweepLocked; [| |done..].
    + destruct Hh as (f & Hf & Hs & HP). destruct (Hthere _ _ Hf Hs) as [f' Hf']. exists f'. cbn.
      split; [done|]. split; [by eapply Hsafe|].
      apply Hfrom in Hf' as [(f0 & Hf0 & Hc)|(Hno & _)]; [|by rewrite (Hno _ Hf) in Hs].
      simplify_eq. by destruct Hc as [->|[_ ->]].
    + intros m f' Hm. cbn in Hm. destruct Hm as [Hm|Hm]; [|by rewrite lookup_empty in Hm].
      apply Hfrom in Hm as [(f & Hf & Hc)|(_ & f & Hf & Hc)];
        (destruct Hc as [->|[_ ->]]; [apply Hw; eauto|apply keeps_nil]).
Qed.

Lemma run_keeps s evs s' name P T :
  P [] → (∀ c, P c) ∨ (∀ nonce digest, effectName nonce digest ≠ name) →
  T / second ≤ X name + ClockSkew → run s evs s' → Forall tame evs → Forall (until T) evs →
  wf s → wf s' ∧ (stands name P s → stands name P s').
Proof using HX.
  intros HP0 HPn Hn Hr. induction Hr as [s|s ev evs s' Hp Hr IH]; intros Ht Hu Hw; [done|].
  apply Forall_cons in Ht as [Ht1 Ht]. apply Forall_cons in Hu as [Hu1 Hu].
  destruct IH as [Hw' Hs]; [done|done|by apply wf_run_event|]. split; [done|].
  intros Hh. apply Hs. by eapply stands_run_event.
Qed.

Lemma run_wf s evs s' : run s evs s' → Forall tame evs → wf s → wf s'.
Proof using HX.
  intros Hr. induction Hr as [s|s ev evs s' Hp Hr IH]; intros Ht Hw; [done|].
  apply Forall_cons in Ht as [Ht1 Ht]. apply IH; [done|]. by apply wf_run_event.
Qed.

(** Handing an effect out puts both records on the disk. *)
Lemma Fresh_stands i now nonce expires taskID digest s r s' :
  Reserve i now nonce expires taskID digest s = (Ok r, s') → Fresh r = true →
  stands (effectName nonce digest) there s'
  ∧ life s' = life s
  ∧ (moment expires → plain taskID → plain (life s) →
     stands (ownerName nonce) (names (sbytes taskID) (sbytes (life s))) s').
Proof using Type.
  intros E Hr. apply Reserve_steps in E as [[_ [e He]]|(ro & s2 & E2 & E)]; [done|].
  destruct E as [(e & _ & He & _)|[-> E]]; [done|].
  destruct (sweepLocked_life i now s) as [Hl1 _].
  destruct (claimOwner_created i nonce expires taskID (sweepLocked i now s)) as (o & Hc & Ho).
  rewrite E2 in Hc, Ho. cbn in Hc, Ho. specialize (Ho eq_refl). rewrite Hl1 in Ho, Hc.
  pose proof (g_life _ _ (created_grows _ _ _ _ _ _ Hc)) as Hl2. rewrite Hl1 in Hl2.
  destruct (claimEffect_created i nonce expires taskID digest s2) as (o2 & Hc2 & Ho2).
  rewrite E in Hc2, Ho2. cbn in Hc2, Ho2. specialize (Ho2 _ eq_refl Hr). subst o2.
  inversion Hc2 as [| | |s3 Hn Hg Hf Hu]; subst. split; [|split].
  - eexists. rewrite Hf, lookup_fmap, lookup_insert_eq. by cbn.
  - by rewrite (g_life _ _ Hg).
  - intros Hm Hpt Hpl.
    assert (Hin : ∃ f, files s2 !! ownerName nonce = Some f
                  ∧ names (sbytes taskID) (sbytes (life s)) (content f)).
    { destruct Ho as [->|(f & Hfo & Hb)].
      - inversion Hc as [| | |s3 Hn3 Hg3 Hf3 Hu3]; subst. eexists. rewrite Hf3, lookup_fmap, lookup_insert_eq. cbn.
        split; [done|]. by apply owner_names.
      - destruct (g_files _ _ (created_grows _ _ _ _ _ _ Hc) _ _ Hfo) as (f' & Hf' & Hc' & _).
        exists f'. split; [done|]. by rewrite Hc'. }
    destruct Hin as (f & Hfo & HP). eexists. rewrite Hf, lookup_fmap, lookup_insert_ne, Hfo; [cbn; split_and!; [done|done|exact HP]|].
    apply not_eq_sym, names_differ.
Qed.
End at_most_once.

(** A record that stands keeps a second reservation of its request from being
    handed out. *)
Lemma stands_not_fresh X i now nonce expires taskID digest s r s' T :
  (∀ name, moment (X name)) → wf X s → stands (effectName nonce digest) there s →
  now ≤ T → T / second ≤ X (effectName nonce digest) + ClockSkew →
  Reserve i now nonce expires taskID digest s = (Ok r, s') → Fresh r = false.
Proof.
  intros HX Hw Hs Hnow HT E. destruct (Fresh r) eqn:Hr; [exfalso|done].
  pose proof (Z.div_le_mono now T second ltac:(done) Hnow) as Hd.
  apply Reserve_steps in E as [[_ [e He]]|(ro & s2 & E2 & E)]; [done|].
  destruct E as [(e & _ & He & _)|[-> E]]; [done|].
  destruct (claimOwner_created i nonce expires taskID (sweepLocked i now s)) as (o & Hc & _).
  rewrite E2 in Hc. apply created_grows in Hc. cbn in Hc.
  destruct (stands_grows _ _ _ _ (stands_sweepLocked X HX i now s _ _ T Hs Hw Hnow HT) Hc) as (f & Hf & _).
  destruct (claimEffect_created i nonce expires taskID digest s2) as (o2 & Hc2 & Ho2).
  rewrite E in Hc2, Ho2. cbn in Hc2, Ho2. specialize (Ho2 _ eq_refl Hr). subst o2.
  inversion Hc2; congruence.
Qed.

(** An owner record that stands lets its own task in its own life through. *)
Lemma stands_claims X i now nonce expires taskID s task l T :
  (∀ name, moment (X name)) → wf X s → stands (ownerName nonce) (names_only task l) s →
  now ≤ T → T / second ≤ X (ownerName nonce) + ClockSkew →
  (claimOwnerLocked i nonce expires taskID (sweepLocked i now s)).1 = Ok tt →
  sbytes taskID = task ∧ sbytes (life s) = l.
Proof.
  intros HX Hw Hs Hnow HT Hr.
  destruct (stands_sweepLocked X HX i now s _ _ T Hs Hw Hnow HT) as (f & Hf & _ & HP).
  destruct (claimOwner_created i nonce expires taskID (sweepLocked i now s)) as (o & Hc & Ho).
  destruct (Ho Hr) as [->|(g & Hg & Hb)]; [inversion Hc; congruence|]. simplify_eq.
  rewrite (proj1 (sweepLocked_life i now s)) in Hb. by apply HP.
Qed.

(** Runs from an empty directory. *)
Definition empty_store : ReplayStore := mkStore false "" zero_time ∅ ∅.

Lemma wf_empty X : wf X empty_store.
Proof. intros name f Hf. cbn in Hf. destruct Hf as [Hf|Hf]; by rewrite lookup_empty in Hf. Qed.

(** C31: The same request under the same nonce is handed out at most once. In
    any run of the store from an empty directory - calls whose system calls
    fail as they like, restarts, power cuts, sweeps - after [Reserve] said
    that an effect may be carried out, no later [Reserve] of that request says
    so again until the nonce is thirty seconds past its expiry. Asked of the
    environment: the requests that write one record carry one expiry, a write
    that fails took nothing or at least twenty bytes, and the clock does not
    run back. *)
Theorem effect_at_most_once X evs0 s0 i now nonce expires taskID digest r s1 evs s2 i' now' taskID' r' s3 :
  (∀ name, moment (X name)) →
  run empty_store evs0 s0 → Forall (tame X) evs0 →
  tame X (EReserve i now nonce expires taskID digest) →
  Reserve i now nonce expires taskID digest s0 = (Ok r, s1) → Fresh r = true →
  run s1 evs s2 → Forall (tame X) evs → Forall (until now') evs → now' / second ≤ expires + ClockSkew →
  Reserve i' now' nonce expires taskID' digest s2 = (Ok r', s3) →
  Fresh r' = false.
Proof.
  intros HX Hr0 Ht0 Ht E Hf Hr Htame Huntil HT E'. destruct Ht as (Hi & Ho & He).
  assert (Hw1 : wf X s1).
  { replace s1 with (run_event (EReserve i now nonce expires taskID digest) s0) by (cbn; by rewrite E).
    apply wf_run_event; [done| |done|done]. by eapply run_wf; [|done|done|apply wf_empty]. }
  rewrite He in HT.
  destruct (run_keeps X HX s1 evs s2 (effectName nonce digest) there now') as [Hw2 Hs2]; try done; [by left|].
  eapply (stands_not_fresh X i' now'); [done|done| |reflexivity|done|done].
  apply Hs2. by eapply Fresh_stands.
Qed.

(** A nonce belongs to one task and one life of the helper. After an effect
    was handed out under it, a read or another effect under the same nonce is
    let through only for the same task and before the helper is restarted. *)
Theorem nonce_is_bound X evs0 s0 i now nonce expires taskID digest r s1 evs s2 i' now' taskID' :
  (∀ name, moment (X name)) → plain taskID → plain (life s0) →
  run empty_store evs0 s0 → Forall (tame X) evs0 →
  tame X (EReserve i now nonce expires taskID digest) →
  Reserve i now nonce expires taskID digest s0 = (Ok r, s1) → Fresh r = true →
  run s1 evs s2 → Forall (tame X) evs → Forall (until now') evs → now' / second ≤ expires + ClockSkew →
  is_ok (ReserveRead i' now' nonce expires taskID' s2).1 = true ∨
  (∃ digest', is_ok (Reserve i' now' nonce expires taskID' digest' s2).1 = true) →
  taskID' = taskID ∧ life s2 = life s0.
Proof.
  intros HX Hpt Hpl Hr0 Ht0 Ht E Hf Hr Htame Huntil HT E'. destruct Ht as (Hi & Ho & He).
  assert (Hw1 : wf X s1).
  { replace s1 with (run_event (EReserve i now nonce expires taskID digest) s0) by (cbn; by rewrite E).
    apply wf_run_event; [done| |done|done]. by eapply run_wf; [|done|done|apply wf_empty]. }
  destruct (Fresh_stands i now nonce expires taskID digest s0 r s1 E Hf) as (_ & _ & Hown).
  assert (Hm : moment expires) by (rewrite Ho; apply HX). specialize (Hown Hm Hpt Hpl). rewrite Ho in HT.
  assert (Hown' : stands (ownerName nonce) (names_only (sbytes taskID) (sbytes (life s0))) s1)
    by (destruct Hown as (f & ? & ? & ?%names_names_only); by exists f).
  destruct (run_keeps X HX s1 evs s2 (ownerName nonce) (names_only (sbytes taskID) (sbytes (life s0))) now')
    as [Hw2 Hs2]; try done.
  { intros t l Hb. by apply binds_nil in Hb. }
  { right. intros n' d' Hn. by apply (names_differ nonce n' d'). }
  assert (Hcl : (claimOwnerLocked i' nonce expires taskID' (sweepLocked i' now' s2)).1 = Ok tt).
  { destruct E' as [E'|[digest' E']].
    - unfold ReserveRead in E'. revert E'. case_match; [done|].
      unfold mbind, M_bind, open_check, modify. destruct (dir_open s2); [|done].
      destruct (claimOwnerLocked i' nonce expires taskID' (sweepLocked i' now' s2)) as [[[]|] ?]; done.
    - destruct (Reserve i' now' nonce expires taskID' digest' s2) as [[r'|] s3] eqn:E3; [|done].
      apply Reserve_steps in E3 as [[_ [e Hx]]|(ro & s4 & E4 & E3)]; [done|].
      destruct E3 as [(e & _ & Hx & _)|[-> _]]; [done|]. by rewrite E4. }
  destruct (stands_claims X i' now' nonce expires taskID' s2 _ _ now' HX Hw2 (Hs2 Hown') ltac:(reflexivity) HT Hcl)
    as [Htask Hlife].
  split; apply (f_equal bstring) in Htask, Hlife; by rewrite !bstring_sbytes in *.
Qed.
