(* ===== verification/ReplayAnswers.v ===== *)
(** * ReplayAnswers: a repeat is answered, and runs of the replay store

    What the store says to a request that already ran, concrete runs, and the
    run in which a write that is cut short inside the first line frees an
    effect that ran. *)
From S2P Require Import Prelude Bytes Digest Text Capability Replay ReplayProps.

Open Scope Z_scope.

(** Calls and sweeps of a running helper, of other requests or of the same. *)
Definition quiet (ev : event) : Prop :=
  match ev with EReserve _ _ _ _ _ _ | EReserveRead _ _ _ _ _ | ESweep _ _ => True | _ => False end.


Lemma create_record_open i name data s : dir_open (create_record i name data s).2 = dir_open s.
Proof.
  unfold create_record. case_bool_decide; [done|]. destruct (open_fails i name); [done|].
  unfold writeAndFsync. destruct (written i name); [done|]. destruct (fsync_fails i); [done|].
  by destruct (dirsync_fails i).
Qed.

Lemma claimOwner_open i nonce expires taskID s :
  dir_open (claimOwnerLocked i nonce expires taskID s).2 = dir_open s.
Proof.
  unfold claimOwnerLocked. pose proof (create_record_open i (ownerName nonce) (owner_record expires taskID (life s)) s) as H.
  destruct (create_record i _ _ s) as [[r|] s']; [done|]. repeat case_match; done.
Qed.

Lemma claimEffect_open i nonce expires taskID digest s :
  dir_open (claimEffectLocked i nonce expires taskID digest s).2 = dir_open s.
Proof.
  unfold claimEffectLocked.
  pose proof (create_record_open i (effectName nonce digest) (effect_record expires taskID (life s) stateReserved []) s) as H.
  destruct (create_record i _ _ s) as [[[u|e]|] s']; [done|done|]. repeat case_match; done.
Qed.

Lemma quiet_event X ev s T :
  (∀ name, moment (X name)) → quiet ev → wf X s → tame X ev → until T ev →
  (life (run_event ev s) = life s ∧ dir_open (run_event ev s) = dir_open s)
  ∧ ∀ name P, T / second ≤ X name + ClockSkew → stands name P s → stands name P (run_event ev s).
Proof.
  intros HX Hq Hw Ht Hu.
  destruct ev as [i now nonce expires taskID digest|i now nonce expires taskID| |i now| | |]; cbn in *; try done.
  - split; [|intros; by eapply (stands_Reserve X HX i now _ _ _ _ s _ _ T)].
    destruct (Reserve i now nonce expires taskID digest s) as [r s'] eqn:E. cbn.
    apply Reserve_steps in E as [[-> _]|(ro & s2 & E2 & E)]; [done|].
    destruct (sweepLocked_life i now s) as [Hl Ho].
    destruct (claimOwner_created i nonce expires taskID (sweepLocked i now s)) as (o & Hc & _).
    pose proof (claimOwner_open i nonce expires taskID (sweepLocked i now s)) as Hc'.
    rewrite E2 in Hc, Hc'. cbn in Hc, Hc'. apply created_grows, g_life in Hc.
    destruct E as [(x & _ & _ & ->)|[_ E]]; [by rewrite Hc, Hc'|].
    destruct (claimEffect_created i nonce expires taskID digest s2) as (o2 & Hc2 & _).
    pose proof (claimEffect_open i nonce expires taskID digest s2) as Hc2'.
    rewrite E in Hc2, Hc2'. cbn in Hc2, Hc2'. apply created_grows, g_life in Hc2.
    by rewrite Hc2, Hc2', Hc, Hc'.
  - split; [|intros; by eapply (stands_ReserveRead X HX i now _ _ _ s _ _ T)].
    destruct (ReserveRead_steps i now nonce expires taskID s) as [->| ->]; [done|].
    destruct (sweepLocked_life i now s) as [Hl Ho].
    destruct (claimOwner_created i nonce expires taskID (sweepLocked i now s)) as (o & Hc & _).
    apply created_grows, g_life in Hc. by rewrite Hc, claimOwner_open.
  - split; [apply (sweepLocked_life i now (mkStore _ _ _ _ _))|].
    intros name P Hn Hs. eapply (stands_sweepLocked X HX i now _ _ _ T); [exact Hs|exact Hw|done..].
Qed.

Lemma quiet_run X s evs s' T :
  (∀ name, moment (X name)) → run s evs s' → Forall quiet evs → wf X s → Forall (tame X) evs → Forall (until T) evs →
  wf X s' ∧ (life s' = life s ∧ dir_open s' = dir_open s)
  ∧ ∀ name P, T / second ≤ X name + ClockSkew → stands name P s → stands name P s'.
Proof.
  intros HX Hr. induction Hr as [s|s ev evs s' Hp Hr IH]; intros Hq Hw Ht Hu; [done|].
  apply Forall_cons in Hq as [Hq1 Hq]. apply Forall_cons in Ht as [Ht1 Ht]. apply Forall_cons in Hu as [Hu1 Hu].
  destruct (quiet_event X ev s T HX Hq1 Hw Ht1 Hu1) as ((Hl & Ho) & Hs).
  destruct IH as (Hw' & (Hl' & Ho') & Hs'); [done|by apply wf_run_event|done..|].
  split_and!; [done|congruence|congruence|]. auto.
Qed.

Lemma Reserve_open i now nonce expires taskID digest s r s' :
  Reserve i now nonce expires taskID digest s = (r, s') → dir_open s' = dir_open s.
Proof.
  intros E. apply Reserve_steps in E as [[-> _]|(ro & s2 & E2 & E)]; [done|].
  destruct (sweepLocked_life i now s) as [_ Ho].
  pose proof (claimOwner_open i nonce expires taskID (sweepLocked i now s)) as Hc. rewrite E2 in Hc. cbn in Hc.
  destruct E as [(x & _ & _ & ->)|[_ E]]; [congruence|].
  pose proof (claimEffect_open i nonce expires taskID digest s2) as Hc2. rewrite E in Hc2. cbn in Hc2. congruence.
Qed.

(** What a completed record holds. *)
Definition kept_body (answer : bytes) : bytes :=
  if bool_decide (0 < len answer ≤ keptResultLimit) then hex_encode answer else [].

Lemma Complete_stands i nonce expires taskID digest answer s s' :
  Complete i nonce expires taskID digest answer s = (Ok tt, s') →
  len nonce = NonceSize → digest ≠ "" → stands (effectName nonce digest) there s →
  stands (effectName nonce digest)
    (eq (effect_record expires taskID (life s) stateCompleted (kept_body answer))) s'
  ∧ (life s' = life s ∧ dir_open s' = dir_open s)
  ∧ (∀ P, stands (ownerName nonce) P s → stands (ownerName nonce) P s').
Proof.
  intros E Hn Hd (f & Hf & Hs & _). revert E. unfold Complete.
  rewrite (bool_decide_eq_true_2 _ Hn), (bool_decide_eq_false_2 _ Hd). cbn [negb orb].
  unfold mbind, M_bind, open_check. destruct (dir_open s) eqn:Ho; [|done]. unfold completeLocked. cbv zeta.
  rewrite Hf. destruct (open_fails i (effectName nonce digest)); [done|].
  unfold writeAndFsync. cbn [content name_safe app].
  destruct (written i (effectName nonce digest)); [done|]. destruct (fsync_fails i); [done|].
  intros [= <-]. split; [|split; [done|]].
  - eexists. cbn. by rewrite lookup_insert_eq.
  - intros P (g & Hg & Hgs & HP). exists g. cbn. rewrite lookup_insert_ne; [done|]. apply not_eq_sym, names_differ.
Qed.

(** The lines of a completed record, read back. *)
Lemma completed_lines z taskID l answer :
  moment z → plain taskID → plain l →
  split_on newline (read_loop 18 [] (effect_record z taskID l stateCompleted (kept_body answer)))
  = [expires_text z; sbytes taskID; sbytes l; sbytes stateCompleted; kept_body answer; []].
Proof.
  intros Hz [Ht Htl] [Hl Hll]. pose proof (expires_text_length z Hz) as Hzl.
  assert (Hb : (newline ∉ kept_body answer) ∧ len (kept_body answer) ≤ 2 * 262144).
  { unfold kept_body. change keptResultLimit with 262144. case_bool_decide.
    - rewrite len_hex_encode. split; [apply hex_newline|lia].
    - split; [apply not_elem_of_nil|rewrite len_nil; lia]. }
  destruct Hb as [Hb Hbl]. unfold effect_record. rewrite record_lines; [done|..].
  - repeat (constructor; [first [apply expires_text_newline|done|by apply (bool_decide_unpack _)]|]); constructor.
  - rewrite !lines_of_cons, !len_app, !len_cons, !len_nil. change (len (lines_of [])) with 0.
    change (len (sbytes stateCompleted)) with 9. unfold slen in *.
    change (len (expires_text z)) with (Z.of_nat (List.length (expires_text z))). lia.
Qed.

(** The effect record decides what a call is told once the nonce is its own. *)
Lemma Reserve_of_records X i now nonce z taskID digest s T c :
  (∀ name, moment (X name)) → wf X s → dir_open s = true → now ≤ T →
  T / second ≤ X (ownerName nonce) + ClockSkew → T / second ≤ X (effectName nonce digest) + ClockSkew →
  len nonce = NonceSize → digest ≠ "" → taskID ≠ "" →
  (∀ name, read_fails i name = false) →
  stands (ownerName nonce) (names (sbytes taskID) (sbytes (life s))) s →
  stands (effectName nonce digest) (eq c) s →
  ∃ s', (Reserve i now nonce z taskID digest s).1 = (claimEffectLocked i nonce z taskID digest s').1
    ∧ (∃ f, files s' !! effectName nonce digest = Some f ∧ content f = c) ∧ life s' = life s.
Proof.
  intros HX Hw Ho Hnow Hn He Hlen Hd Ht Hread Hown Heff. unfold Reserve.
  rewrite (bool_decide_eq_true_2 _ Hlen), (bool_decide_eq_false_2 _ Hd). cbn [negb].
  unfold mbind, M_bind, open_check, modify. rewrite Ho.
  destruct (stands_sweepLocked X HX i now s _ _ T Hown Hw Hnow Hn) as (fo & Hfo & _ & (a & rest & Hb)).
  destruct (stands_sweepLocked X HX i now s _ _ T Heff Hw Hnow He) as (fe & Hfe & _ & Hc).
  destruct (sweepLocked_life i now s) as [Hl _].
  assert (Hclaim : claimOwnerLocked i nonce z taskID (sweepLocked i now s) = (Ok tt, sweepLocked i now s)).
  { unfold claimOwnerLocked, create_record. rewrite bool_decide_eq_true_2 by (by eexists).
    unfold readRecordLocked. rewrite Hfo, Hread, Hb, Hl.
    rewrite !(bool_decide_eq_true_2 (_ = _)) by done. by rewrite (bool_decide_eq_false_2 _ Ht). }
  rewrite Hclaim. exists (sweepLocked i now s). split_and!; [|by exists fe|done].
  by destruct (claimEffectLocked i nonce z taskID digest (sweepLocked i now s)) as [[|] ?].
Qed.

(** A request that ran is answered, not performed: while the helper lives,
    after an effect was handed out and its answer recorded, asking again under
    the same nonce and task gives the very answer back - or, where there was
    none or it was larger than 256 KiB, the refusal that it ran already -
    whatever other calls and sweeps came in between. *)
Theorem repeat_is_answered X evs0 s0 i now nonce z taskID digest s1 evs1 s2 ic answer s3 evs2 s4 i' now' :
  (∀ name, moment (X name)) → plain taskID → plain (life s0) → taskID ≠ "" → dir_open s0 = true →
  run empty_store evs0 s0 → Forall (tame X) evs0 → tame X (EReserve i now nonce z taskID digest) →
  Reserve i now nonce z taskID digest s0 = (Ok fresh, s1) →
  run s1 evs1 s2 → Forall quiet evs1 → Forall (tame X) evs1 → Forall (until now') evs1 →
  clean ic → Complete ic nonce z taskID digest answer s2 = (Ok tt, s3) →
  run s3 evs2 s4 → Forall quiet evs2 → Forall (tame X) evs2 → Forall (until now') evs2 →
  (∀ name, read_fails i' name = false) → now' / second ≤ z + ClockSkew →
  (Reserve i' now' nonce z taskID digest s4).1 =
    if bool_decide (0 < len answer ≤ keptResultLimit) then Ok (mkReservation false answer)
    else Err (refusal ErrorCapabilityPerformed).
Proof.
  intros HX Hpt Hpl Htask Hopen Hr0 Ht0 Ht E Hr1 Hq1 Ht1 Hu1 Hic Ec Hr2 Hq2 Ht2 Hu2 Hread HT.
  assert (Hw1 : wf X s1).
  { replace s1 with (run_event (EReserve i now nonce z taskID digest) s0) by (cbn; by rewrite E).
    apply wf_run_event; [done| |done|done]. by eapply run_wf; [|done|done|apply wf_empty]. }
  destruct Ht as (Hi & Hzo & Hze).
  destruct (Fresh_stands i now nonce z taskID digest s0 fresh s1 E eq_refl) as (Heff & Hl1 & Hown).
  assert (Hm : moment z) by (rewrite Hzo; apply HX). specialize (Hown Hm Hpt Hpl).
  pose proof E as E0. unfold Reserve in E0.
  destruct (bool_decide (len nonce = NonceSize)) eqn:Hlen; [apply bool_decide_eq_true in Hlen|done].
  destruct (bool_decide (digest = "")) eqn:Hd; [done|apply bool_decide_eq_false in Hd]. clear E0.
  assert (Hno : now' / second ≤ X (ownerName nonce) + ClockSkew) by (by rewrite <- Hzo).
  assert (Hne : now' / second ≤ X (effectName nonce digest) + ClockSkew) by (by rewrite <- Hze).
  destruct (quiet_run X s1 evs1 s2 now' HX Hr1 Hq1 Hw1 Ht1 Hu1) as (Hw2 & (Hl2 & Ho2) & Hs2).
  destruct (Complete_stands ic nonce z taskID digest answer s2 s3 Ec Hlen Hd (Hs2 _ _ Hne Heff))
    as (Heff3 & (Hl3 & Ho3) & Hown3).
  assert (Hw3 : wf X s3).
  { replace s3 with (run_event (EComplete ic nonce z taskID digest answer) s2) by (cbn; by rewrite Ec).
    by apply wf_run_event. }
  destruct (quiet_run X s3 evs2 s4 now' HX Hr2 Hq2 Hw3 Ht2 Hu2) as (Hw4 & (Hl4 & Ho4) & Hs4).
  assert (Hlife : life s4 = life s0) by congruence.
  destruct (Reserve_of_records X i' now' nonce z taskID digest s4 now'
              (effect_record z taskID (life s2) stateCompleted (kept_body answer)) HX Hw4)
    as (s5 & -> & (f & Hf & Hc) & Hl5);
    try done.
  - rewrite Ho4, Ho3, Ho2. by rewrite (Reserve_open i now nonce z taskID digest s0 _ s1 E).
  - rewrite Hlife. by apply Hs4, Hown3, Hs2.
  - by apply Hs4.
  - unfold claimEffectLocked, create_record. rewrite bool_decide_eq_true_2 by (by eexists).
    unfold readRecordLocked. rewrite Hf, Hread, Hc, Hl2, Hl1, completed_lines by done.
    rewrite (bool_decide_eq_true_2 (_ = _)) by done. unfold kept_body. case_bool_decide as Ha; [|done].
    destruct (hex_encode answer) as [|c l] eqn:Eh.
    + pose proof (len_hex_encode answer) as Hh. rewrite Eh, len_nil in Hh. lia.
    + rewrite <- Eh, hex_decode_encode. done.
Qed.

(** ** Concrete runs of the replay store

    The witnesses of ReplayProps.v and ReplayAnswers.v, and the run in which a
    completion whose write is cut short inside the first line frees an effect
    that ran. *)

(** A capability that expires at second 1000; the helper starts at 900. *)
Definition demo_nonce : bytes := replicate 32 Byte.x07.
Definition demo_digest : string := "5f70bf18a086007016e948b04aed3b82103a36bea41755b6cddfaf10ace3c6ef".
Definition demo_expires : Z := 1000.
Definition demo_start : event := ERestart good_io (900 * second) "a1b2c3d4e5f60718".
Definition demo_store : ReplayStore := run_event demo_start empty_store.
Definition demo_reserve (now : Z) : M ReplayStore error Reservation :=
  Reserve good_io (now * second) demo_nonce demo_expires "task-1" demo_digest.
Definition demo_answer : bytes := sbytes "restarted".

(** The system calls of a method whose write takes [k] bytes of every record. *)
Definition cut_io (k : nat) : io := mkIo (λ _, false) (λ _, false) (λ _, Some k) false false false (λ _, false).

Definition demo_expiry : string → Z := λ _, demo_expires.

Lemma demo_moment name : moment (demo_expiry name).
Proof. split; [done|]. vm_compute. reflexivity. Qed.

Lemma demo_run0 : run empty_store [demo_start] demo_store.
Proof. by repeat constructor. Qed.

Definition demo_s1 : ReplayStore := (demo_reserve 950 demo_store).2.
Definition demo_complete : event := EComplete good_io demo_nonce demo_expires "task-1" demo_digest demo_answer.
Definition demo_s2 : ReplayStore := run_event demo_complete demo_s1.

Lemma demo_run1 : run demo_s1 [demo_complete] demo_s2.
Proof. by repeat constructor. Qed.

Lemma demo_tame0 : tame demo_expiry (EReserve good_io (950 * second) demo_nonce demo_expires "task-1" demo_digest).
Proof. split; [exact good_io_clean|]. split; reflexivity. Qed.

Lemma demo_tame1 : Forall (tame demo_expiry) [demo_complete].
Proof. constructor; [split; [exact good_io_clean|reflexivity]|constructor]. Qed.

Lemma demo_plain : plain "task-1" ∧ plain (life demo_store).
Proof. split; (split; [by apply (bool_decide_unpack _)|vm_compute; discriminate]). Qed.

Lemma demo_fresh : demo_reserve 950 demo_store = (Ok fresh, demo_s1).
Proof. vm_compute. reflexivity. Qed.

Definition demo_kept : Reservation := mkReservation false demo_answer.
Definition demo_s3 : ReplayStore := (demo_reserve 980 demo_s2).2.

Lemma demo_again : demo_reserve 980 demo_s2 = (Ok demo_kept, demo_s3).
Proof. vm_compute. reflexivity. Qed.

(** The second call after the answer was recorded. *)
Lemma effect_at_most_once_witness :
  ∃ r, (demo_reserve 980 demo_s2).1 = Ok r ∧ Fresh r = false.
Proof.
  exists demo_kept. split; [by rewrite demo_again|].
  refine (effect_at_most_once demo_expiry [demo_start] demo_store good_io (950 * second) demo_nonce demo_expires
            "task-1" demo_digest fresh demo_s1 [demo_complete] demo_s2 good_io (980 * second) "task-1"
            demo_kept demo_s3
            demo_moment demo_run0 _ _ demo_fresh eq_refl demo_run1 _ _ _ demo_again).
  - repeat constructor.
  - exact demo_tame0.
  - exact demo_tame1.
  - repeat constructor.
  - vm_compute. discriminate.
Defined.

Lemma demo_read : is_ok (ReserveRead good_io (980 * second) demo_nonce demo_expires "task-1" demo_s2).1 = true.
Proof. vm_compute. reflexivity. Qed.

(** Another task, or the same task after a restart, is refused. *)
Lemma nonce_is_bound_witness :
  is_ok (ReserveRead good_io (980 * second) demo_nonce demo_expires "task-1" demo_s2).1 = true
  ∧ is_ok (ReserveRead good_io (980 * second) demo_nonce demo_expires "task-2" demo_s2).1 = false
  ∧ life demo_s2 = life demo_store.
Proof.
  split; [exact demo_read|]. split; [vm_compute; reflexivity|].
  refine (proj2 (nonce_is_bound demo_expiry [demo_start] demo_store good_io (950 * second) demo_nonce demo_expires
            "task-1" demo_digest fresh demo_s1 [demo_complete] demo_s2 good_io (980 * second) "task-1"
            demo_moment _ _ demo_run0 _ _ demo_fresh eq_refl demo_run1 _ _ _ (or_introl demo_read))).
  - exact (proj1 demo_plain).
  - exact (proj2 demo_plain).
  - repeat constructor.
  - exact demo_tame0.
  - exact demo_tame1.
  - repeat constructor.
  - vm_compute. discriminate.
Defined.

Lemma repeat_is_answered_witness :
  (demo_reserve 980 demo_s2).1 = Ok (mkReservation false demo_answer).
Proof.
  refine (eq_trans (repeat_is_answered demo_expiry [demo_start] demo_store good_io (950 * second) demo_nonce
    demo_expires "task-1" demo_digest demo_s1 [] demo_s1 good_io demo_answer demo_s2 [] demo_s2 good_io (980 * second)
    demo_moment _ _ _ _ demo_run0 _ _ demo_fresh (run_nil _) _ _ _ good_io_clean _ (run_nil _) _ _ _ _ _) _).
  - exact (proj1 demo_plain).
  - exact (proj2 demo_plain).
  - discriminate.
  - vm_compute. reflexivity.
  - repeat constructor.
  - exact demo_tame0.
  - constructor.
  - constructor.
  - constructor.
  - vm_compute. reflexivity.
  - constructor.
  - constructor.
  - constructor.
  - done.
  - vm_compute. discriminate.
  - vm_compute. reflexivity.
Defined.

(** The same request handed out twice within one life and before the nonce
    expires: the write of the completion fails after its first byte, the record
    then reads as one that expired in second 1, and the next sweep takes it. *)
Lemma short_write_frees_the_effect :
  let cut := EComplete (cut_io 1) demo_nonce demo_expires "task-1" demo_digest demo_answer in
  let s2 := run_event cut demo_s1 in
  (demo_reserve 950 demo_store).1 = Ok fresh
  ∧ (demo_reserve 955 s2).1 = Err (refusal ErrorCapabilityReplay)
  ∧ (demo_reserve 990 s2).1 = Ok fresh.
Proof. vm_compute. split_and!; reflexivity. Qed.
