(* ===== verification/Verifier.v ===== *)
(** * Verifier: what the helper checks before it carries an order out

    src/internal/helpercap/verifier.go with the receipts of receipt.go and
    secret_bytes.go: Verify of a request against the host, the keyring, the
    canonical payload and the replay store, and the policy over it. Every read
    of the clock within one call is the same moment. *)
From S2P Require Import Prelude Bytes Digest Text Actions Capability Registry Expect Messages Payloads Binding Canonical.
From S2P Require Import Signer Trust Replay.

Open Scope Z_scope.

(** The bytes of a request, proto.MarshalOptions{Deterministic: true}. *)
Class RequestWire := { proto_Marshal : HelperRequest → option bytes }.

(** [v.replay]: nil without a store. The verifier's trust is read at each call. *)
Record Helper := mkHelper { h_trust : TrustStore; h_replay : option ReplayStore }.

(** What the operating system does during one call. *)
Record helper_io := mkHelperIo { io_trust : trust_io; io_replay : io }.

Definition ReceiptTTL : Z := 30 * minute.

Section verifier.
Context {SS : SignatureScheme} {KT : KeyText} {MO : MapOrder} {PJ : PayloadJson} {RW : RequestWire}.

(** ** The receipts *)

(** [VerifyReceipt]. *)
Definition VerifyReceipt (i : trust_io) (t : TrustStore) (now : time) (receipt : SecretReceipt) : result error unit :=
  ring ← KeyringOf i t;
  match Lookup ring (receipt_SignedByKeyId receipt) with
  | None => Err (refusal ErrorUnknownKey)
  | Some public =>
      if negb (VerifyReceiptSignature public receipt (receipt_Signature receipt)) then Err (refusal ErrorBadSignature)
      else
        let issued := receipt_IssuedUnix receipt * second in
        if bool_decide (issued > now + ClockSkew * second) then Err (refusal ErrorCapabilityExpired)
        else if bool_decide (now > issued + ReceiptTTL) then Err (refusal ErrorCapabilityExpired)
        else Ok tt
  end.

(** [receiptsByName]: a name given twice is refused. *)
Fixpoint index_receipts (found : gmap string SecretReceipt) (receipts : list SecretReceipt)
  : result error (gmap string SecretReceipt) :=
  match receipts with
  | [] => Ok found
  | receipt :: rest =>
      let name := receipt_SecretName receipt in
      if bool_decide (name = "") then Err (refusal ErrorPayloadBinding)
      else if bool_decide (is_Some (found !! name)) then Err (refusal ErrorPayloadBinding)
      else index_receipts (<[name := receipt]> found) rest
  end.
Definition receiptsByName (request : HelperRequest) : result error (gmap string SecretReceipt) :=
  index_receipts ∅ (HelperRequest_GetSecretReceipts request).

(** The checks of one spent secret, after the signature and the clock. *)
Definition receipt_vouches (receipt : SecretReceipt) (capability : HelperCapability) (place : secretSpend) : bool :=
  let reference := spend_reference place in
  bool_decide (receipt_HostId receipt = cap_HostId capability)
  && bool_decide (receipt_TaskId receipt = cap_TaskId capability)
  && negb (negb (bool_decide (SecretRef_Version reference = 0))
           && negb (bool_decide (receipt_SecretVersion receipt = SecretRef_Version reference)))
  && bool_decide (contentDigest (spend_bytes place) = receipt_Sha256 receipt).

Definition check_spend (i : trust_io) (t : TrustStore) (now : time) (receipts : gmap string SecretReceipt)
  (capability : HelperCapability) (place : secretSpend) : result error unit :=
  match receipts !! SecretRef_Name (spend_reference place) with
  | None => Err (refusal ErrorPayloadBinding)
  | Some receipt =>
      VerifyReceipt i t now receipt;;
      if receipt_vouches receipt capability place then Ok tt else Err (refusal ErrorPayloadBinding)
  end.

Fixpoint check_spends (i : trust_io) (t : TrustStore) (now : time) (receipts : gmap string SecretReceipt)
  (capability : HelperCapability) (spent : list secretSpend) : result error unit :=
  match spent with
  | [] => Ok tt
  | place :: rest =>
      check_spend i t now receipts capability place;; check_spends i t now receipts capability rest
  end.

(** [checkSpentSecrets]. *)
Definition checkSpentSecrets (i : trust_io) (t : TrustStore) (now : time) (request : HelperRequest)
  (capability : HelperCapability) (bound : BoundPayload) : result error unit :=
  let spent := spentSecrets (HelperRequest_GetAction request) (bound_Payload bound) in
  if bool_decide (List.length spent = 0%nat) then Ok tt
  else receipts ← receiptsByName request; check_spends i t now receipts capability spent.

(** ** Verify *)

Definition refused {A} (code : string) : result error A := Err (refusal code).

(** The checks up to the payload: layout, host, action, task, window, digest. *)
Definition check_window (now : time) (capability : HelperCapability) : result error unit :=
  let unix := now / second in
  let notBefore := cap_NotBeforeUnix capability in
  let expires := cap_ExpiresUnix capability in
  if bool_decide (unix < i64 (notBefore - ClockSkew)) || bool_decide (expires < unix)
  then refused ErrorCapabilityExpired
  else if bool_decide (MaxTTL (ClassOf (cap_ActionType capability)) + ClockSkew < i64 (expires - notBefore))
  then refused ErrorTTLTooLong
  else Ok tt.

Definition check_addressed (i : trust_io) (t : TrustStore) (request : HelperRequest) (expectation : Expectation)
  (capability : HelperCapability) : result error unit :=
  if negb (bool_decide (cap_SchemaVersion capability = SchemaVersion)) then refused ErrorCapabilityVersion
  else
    localHost ← HostID i t;
    if bool_decide (localHost = "") then refused ErrorWrongHost
    else if negb (bool_decide (cap_HostId capability = localHost)) then refused ErrorWrongHost
    else if negb (Allows expectation (cap_ActionType capability)) then refused ErrorWrongAction
    else if negb (bool_decide (HelperRequest_GetTaskId request = cap_TaskId capability)) then refused ErrorWrongAction
    else Ok tt.

(** The payload of the request, read once its digest is the signed one. *)
Definition check_payload (request : HelperRequest) (capability : HelperCapability) : result error BoundPayload :=
  if negb (bool_decide (sha256 (HelperRequest_GetCanonicalPayload request) = cap_PayloadSha256 capability))
  then refused ErrorPayloadMismatch
  else match DecodeCanonicalPayload (HelperRequest_GetCanonicalPayload request) with
       | None => refused ErrorPayloadMismatch
       | Some bound =>
           if negb (bool_decide (bound_Action bound = cap_ActionType capability)) then refused ErrorPayloadBinding
           else Ok bound
       end.

Definition check_signature (i : trust_io) (t : TrustStore) (request : HelperRequest) (capability : HelperCapability)
  : result error unit :=
  ring ← KeyringOf i t;
  match Lookup ring (cap_KeyId capability) with
  | None => refused ErrorUnknownKey
  | Some public =>
      if VerifySignature public capability (HelperRequest_GetCapabilitySignature request) then Ok tt
      else refused ErrorBadSignature
  end.

(** Everything [Verify] checks before it asks the replay store. *)
Definition authentic (i : trust_io) (t : TrustStore) (now : time) (prior : PriorSysctl) (request : HelperRequest)
  (expectation : Expectation) : result error HelperCapability :=
  match HelperRequest_GetCapability request with
  | None => refused ErrorCapabilityRequired
  | Some capability =>
      check_addressed i t request expectation capability;;
      check_window now capability;;
      bound ← check_payload request capability;
      checkSpentSecrets i t now request capability bound;;
      CheckBinding request bound prior;;
      check_signature i t request capability;;
      Ok capability
  end.

(** [RequestDigest]: the request without its capability. *)
Definition bare (request : HelperRequest) : HelperRequest :=
  mkHelperRequest (HelperRequest_GetProtocolVersion request) (HelperRequest_GetTaskId request)
    (HelperRequest_GetExpiresAt request) (HelperRequest_GetTimeoutSeconds request)
    (HelperRequest_GetMaxOutputBytes request) (HelperRequest_GetAction request) (HelperRequest_GetWantProgress request)
    None [] (HelperRequest_GetCanonicalPayload request) (HelperRequest_GetSecretReceipts request).

Definition RequestDigest (request : HelperRequest) : option string :=
  encoded ← proto_Marshal (bare request); Some (bstring (hex_encode (sha256 encoded))).

(** What [complete] closes over. *)
Record completion := mkCompletion {
  done_nonce : bytes; done_expires : Z; done_task : string; done_digest : string }.

(** A call of the replay store. *)
Definition with_replay {A} (m : M ReplayStore error A) : M Helper error A := λ h,
  match h_replay h with
  | None => (Err (failure "the helper has no replay store"), h)
  | Some s => let '(r, s') := m s in (r, mkHelper (h_trust h) (Some s'))
  end.

Definition read_trust {A} (f : TrustStore → result error A) : M Helper error A := λ h, (f (h_trust h), h).

(** [Verify]: the reservation, and what completes it. *)
Definition Verify (i : helper_io) (now : time) (prior : PriorSysctl) (request : HelperRequest)
  (expectation : Expectation) : M Helper error (Reservation * option completion) :=
  capability ← read_trust (λ t, authentic (io_trust i) t now prior request expectation);
  if negb (e_Mutating expectation) then
    with_replay (ReserveRead (io_replay i) now (cap_Nonce capability) (cap_ExpiresUnix capability)
                   (cap_TaskId capability));;
    mret (fresh, None)
  else
    with_replay (mret tt);;
    match RequestDigest request with
    | None => fail (failure "the request did not marshal")
    | Some digest =>
        reservation ← with_replay (Reserve (io_replay i) now (cap_Nonce capability) (cap_ExpiresUnix capability)
                                     (cap_TaskId capability) digest);
        mret (reservation, Some (mkCompletion (cap_Nonce capability) (cap_ExpiresUnix capability)
                                   (cap_TaskId capability) digest))
    end.

(** ** The policy *)

Inductive Outcome := OutcomeRead | OutcomeVerified | OutcomeLegacy | OutcomeObserved | OutcomeRefused.

Record Decision := mkDecision {
  Allowed : bool;
  Code : string;
  d_Outcome : Outcome;
  Legacy : bool;
  d_Kept : bytes;
  d_Complete : option completion;
}.

(** [Decide]; the counters and the texts of the messages are left out, the
    path a request took is [d_Outcome]. The policy of the helper has a
    verifier. *)
Definition Decide (mode : Mode) (i : helper_io) (now : time) (prior : PriorSysctl) (request : HelperRequest) (h : Helper)
  : Decision * Helper :=
  let expectation := Expect (kind_of (HelperRequest_GetAction request)) in
  if negb (e_Mutating expectation) && negb (e_Authorized expectation)
  then (mkDecision true "" OutcomeRead false [] None, h)
  else match HelperRequest_GetCapability request with
  | None =>
      if bool_decide (mode = ModeEnforce)
      then (mkDecision false ErrorCapabilityRequired OutcomeRefused false [] None, h)
      else (mkDecision true "" OutcomeLegacy true [] None, h)
  | Some _ =>
      let '(r, h') := Verify i now prior request expectation h in
      match r with
      | Ok (reservation, complete) =>
          (mkDecision true "" OutcomeVerified false (Kept reservation) complete, h')
      | Err err =>
          let code := if bool_decide (CodeOf err = "") then ErrorBadSignature else CodeOf err in
          if bool_decide (mode = ModeObserve) then (mkDecision true code OutcomeObserved false [] None, h')
          else (mkDecision false code OutcomeRefused false [] None, h')
      end
  end.
End verifier.

(** ** One request of the agent, from the socket to the answer

    [handle] of src/internal/helper/server.go with [authorize] and
    [applyTrustUpdate]: the version and the deadline of the request, the update
    of the keyring, the capability policy, the answer kept from before, and
    the operation itself. The operation is an argument - what the executors of
    the helper answered, or that the answer did not marshal - and so is which
    kept answers read. A helper lives through restarts and power cuts. *)

Definition ProtocolVersion : Z := 1.
Definition ErrorUnsupportedVersion : string := "unsupported_version".
Definition ErrorExpired : string := "expired".
Definition ErrorExecFailed : string := "exec_failed".

(** What became of a request: refused with a code, the keyring updated, the
    answer of before, or carried out. *)
Inductive handled :=
| Rejected (code : string)
| TrustTaken (update : TrustUpdate)
| Repeated (answer : bytes)
| Carried (answer : option bytes).

(** [AsTime], in nanoseconds. *)
Definition AsTime (t : Timestamp) : time := ts_Seconds t * second + ts_Nanos t.

Section serve.
Context {SS : SignatureScheme} {KT : KeyText} {MO : MapOrder} {PJ : PayloadJson} {RW : RequestWire}.
(** [proto.Unmarshal] of a kept answer. *)
Context (readable : bytes → bool) (mode : Mode).

Definition applyTrustUpdate (i : trust_io) (bundle : option HelperTrustBundle) (h : Helper) : handled * Helper :=
  let '(r, t) := Apply i bundle (h_trust h) in
  let h' := mkHelper t (h_replay h) in
  match r with
  | Ok update => (TrustTaken update, h')
  | Err err => (Rejected (if bool_decide (CodeOf err = "") then ErrorExecFailed else CodeOf err), h')
  end.

(** The answer of an operation is recorded; a failure of that is only logged. *)
Definition record_answer (i : io) (complete : option completion) (answer : option bytes) (h : Helper) : Helper :=
  match complete, answer with
  | Some c, Some encoded =>
      (with_replay (Complete i (done_nonce c) (done_expires c) (done_task c) (done_digest c) encoded) h).2
  | _, _ => h
  end.

(** [handle]. *)
Definition handle (i : helper_io) (now : time) (prior : PriorSysctl) (answer : option bytes) (request : HelperRequest)
  (h : Helper) : handled * Helper :=
  if negb (bool_decide (HelperRequest_GetProtocolVersion request = ProtocolVersion))
  then (Rejected ErrorUnsupportedVersion, h)
  else if match HelperRequest_GetExpiresAt request with Some e => bool_decide (AsTime e < now) | None => false end
  then (Rejected ErrorExpired, h)
  else match HelperRequest_GetAction request with
  | Action_TrustUpdate update => applyTrustUpdate (io_trust i) (HelperTrustUpdateRequest_GetBundle update) h
  | _ =>
      let '(decision, h') := Decide mode i now prior request h in
      if negb (Allowed decision) then (Rejected (Code decision), h')
      else if bool_decide (0 < len (d_Kept decision)) then
        if readable (d_Kept decision) then (Repeated (d_Kept decision), h')
        else (Rejected ErrorCapabilityPerformed, h')
      else (Carried answer, record_answer (io_replay i) (d_Complete decision) answer h')
  end.

(** ** The life of a helper *)

Inductive moment_of_life :=
| Handle (i : helper_io) (now : time) (prior : PriorSysctl) (answer : option bytes) (request : HelperRequest)
| Restart (i : io) (now : time) (new_life : string)
| PowerCut (i : io) (now : time) (new_life : string) (remains : gmap string file).

Definition reopen (f : ReplayStore → ReplayStore) (h : Helper) : Helper := mkHelper (h_trust h) (f <$> h_replay h).

Definition live (m : moment_of_life) (h : Helper) : Helper :=
  match m with
  | Handle i now prior answer request => (handle i now prior answer request h).2
  | Restart i now new_life => reopen (run_event (ERestart i now new_life)) h
  | PowerCut i now new_life remains => reopen (run_event (EPowerCut i now new_life remains)) h
  end.
End serve.
