(* ===== verification/VerifierProps.v ===== *)
(** * VerifierProps: what stands behind a request the helper carries out

    The laws of Verifier.v: what [Verify] has established when it
    lets a request through, and what each step does to the replay store. *)
From S2P Require Import Prelude Bytes Digest Text Actions ActionTables Registry Capability CapabilityProps.
From S2P Require Import Signer Trust TrustProps Expect Messages Payloads Binding Canonical.
From S2P Require Import BindingProps Replay ReplayProps Verifier.

Open Scope Z_scope.

Section props.
Context {SS : SignatureScheme} {KT : KeyText} {MO : MapOrder} {PJ : PayloadJson} {RW : RequestWire}.

(** ** What the checks establish *)

(** The window at a moment: open, with the skew before its start, and no
    longer than its class allows. *)
Definition within_window (now : time) (c : HelperCapability) : Prop :=
  i64 (cap_NotBeforeUnix c - ClockSkew) ≤ now / second ≤ cap_ExpiresUnix c
  ∧ i64 (cap_ExpiresUnix c - cap_NotBeforeUnix c) ≤ MaxTTL (ClassOf (cap_ActionType c)) + ClockSkew.

(** A receipt the panel signed for these very bytes, this host and this task. *)
Definition vouched (t : TrustStore) (now : time) (request : HelperRequest) (c : HelperCapability) (place : secretSpend)
  : Prop :=
  ∃ receipt public, receipt ∈ HelperRequest_GetSecretReceipts request
    ∧ receipt_SecretName receipt = SecretRef_Name (spend_reference place)
    ∧ loadKeyring t !! receipt_SignedByKeyId receipt = Some public
    ∧ VerifyReceiptSignature public receipt (receipt_Signature receipt) = true
    ∧ receipt_HostId receipt = cap_HostId c ∧ receipt_TaskId receipt = cap_TaskId c
    ∧ (SecretRef_Version (spend_reference place) ≠ 0 → receipt_SecretVersion receipt = SecretRef_Version (spend_reference place))
    ∧ contentDigest (spend_bytes place) = receipt_Sha256 receipt
    ∧ receipt_IssuedUnix receipt * second - ClockSkew * second ≤ now ≤ receipt_IssuedUnix receipt * second + ReceiptTTL.

Record authorized (t : TrustStore) (now : time) (prior : PriorSysctl) (request : HelperRequest) (c : HelperCapability)
  (bound : BoundPayload) (public : bytes) : Prop := {
  auth_capability : HelperRequest_GetCapability request = Some c;
  auth_layout : cap_SchemaVersion c = SchemaVersion;
  auth_host : host_id t = cap_HostId c ∧ cap_HostId c ≠ "";
  auth_action : expected (cap_ActionType c) (HelperRequest_GetAction request);
  auth_task : HelperRequest_GetTaskId request = cap_TaskId c;
  auth_window : within_window now c;
  auth_digest : sha256 (HelperRequest_GetCanonicalPayload request) = cap_PayloadSha256 c;
  auth_payload : DecodeCanonicalPayload (HelperRequest_GetCanonicalPayload request) = Some bound;
  auth_bound : bound_Action bound = cap_ActionType c;
  auth_secrets : ∀ place, place ∈ spentSecrets (HelperRequest_GetAction request) (bound_Payload bound) →
                   vouched t now request c place;
  auth_binding : CheckBinding request bound prior = ok;
  auth_key : loadKeyring t !! cap_KeyId c = Some public;
  auth_signature : VerifySignature public c (HelperRequest_GetCapabilitySignature request) = true;
}.

Lemma KeyringOf_Ok i t ring : KeyringOf i t = Ok ring → ring = loadKeyring t.
Proof. unfold KeyringOf. destruct (keyring_fails i); [done|]. by intros [= <-]. Qed.

Lemma VerifyReceipt_Ok i t now r :
  VerifyReceipt i t now r = Ok tt →
  ∃ public, loadKeyring t !! receipt_SignedByKeyId r = Some public
    ∧ VerifyReceiptSignature public r (receipt_Signature r) = true
    ∧ receipt_IssuedUnix r * second - ClockSkew * second ≤ now ≤ receipt_IssuedUnix r * second + ReceiptTTL.
Proof.
  unfold VerifyReceipt. intros (ring & ->%KeyringOf_Ok & H)%result_bind_Ok. unfold Lookup in H.
  destruct (loadKeyring t !! _) as [public|]; [|done]. exists public.
  destruct (VerifyReceiptSignature _ _ _); [|done]. cbn [negb] in H.
  case_bool_decide; [done|]. case_bool_decide; [done|]. split_and!; [done|done|lia|lia].
Qed.

Lemma index_receipts_Ok found l all :
  index_receipts found l = Ok all → ∀ name r, all !! name = Some r →
  found !! name = Some r ∨ r ∈ l ∧ receipt_SecretName r = name.
Proof.
  revert found. induction l as [|r0 l IH]; cbn; intros found H name r Hr; [injection H as <-; by left|].
  case_bool_decide; [done|]. case_bool_decide; [done|]. destruct (IH _ H name r Hr) as [Hf|[Hin Hn]].
  - destruct (decide (receipt_SecretName r0 = name)) as [He|Hne].
    + rewrite He, lookup_insert_eq in Hf. injection Hf as <-. right. split; [left|done].
    + rewrite lookup_insert_ne in Hf by done. by left.
  - right. split; [by right|done].
Qed.

Lemma check_spends_Ok i t now receipts c spent :
  check_spends i t now receipts c spent = Ok tt ↔ ∀ place, place ∈ spent → check_spend i t now receipts c place = Ok tt.
Proof.
  induction spent as [|place spent IH]; cbn.
  - split; [|done]. by intros _ ? ?%elem_of_nil.
  - split.
    + intros ([] & Hp & Hr)%result_bind_Ok place' [->|Hin]%elem_of_cons; [done|]. by apply IH.
    + intros H. rewrite (H place) by left. apply IH. intros place' Hin. apply H. by right.
Qed.

Lemma checkSpentSecrets_Ok i t now request c bound :
  checkSpentSecrets i t now request c bound = Ok tt →
  ∀ place, place ∈ spentSecrets (HelperRequest_GetAction request) (bound_Payload bound) → vouched t now request c place.
Proof.
  unfold checkSpentSecrets. intros H place Hin. case_bool_decide as Hl.
  { destruct (spentSecrets _ _); [by apply elem_of_nil in Hin|done]. }
  apply result_bind_Ok in H as (receipts & Hr & H). rewrite check_spends_Ok in H. specialize (H place Hin).
  unfold check_spend in H. destruct (receipts !! _) as [receipt|] eqn:He; [|done].
  apply result_bind_Ok in H as ([] & (public & Hk & Hs & Hc)%VerifyReceipt_Ok & H).
  destruct (receipt_vouches receipt c place) eqn:Hf; [|done]. unfold receipt_vouches in Hf.
  rewrite !andb_true_iff, !bool_decide_eq_true, negb_true_iff, andb_false_iff, !negb_false_iff, !bool_decide_eq_true in Hf.
  destruct Hf as [[[Hh Ht] Hv] Hd].
  destruct (index_receipts_Ok _ _ _ Hr _ _ He) as [Hr'|[Hr' Hn]]; [by rewrite lookup_empty in Hr'|].
  exists receipt, public. split_and!; try done; [|by apply Hc..]. intros Hne. by destruct Hv.
Qed.

Lemma authentic_Ok i t now prior request c :
  authentic i t now prior request (Expect (kind_of (HelperRequest_GetAction request))) = Ok c →
  ∃ bound public, authorized t now prior request c bound public.
Proof.
  unfold authentic. destruct (HelperRequest_GetCapability request) as [c'|] eqn:Hc; [|done].
  intros ([] & Ha & H)%result_bind_Ok. apply result_bind_Ok in H as ([] & Hw & H).
  apply result_bind_Ok in H as (bound & Hp & H). apply result_bind_Ok in H as ([] & Hs & H).
  apply result_bind_Ok in H as ([] & Hb & H). apply result_bind_Ok in H as ([] & Hg & H). injection H as ->.
  unfold check_addressed, refused in Ha. destruct (bool_decide (cap_SchemaVersion c = _)) eqn:Hv; [|done]. cbn [negb] in Ha.
  apply result_bind_Ok in Ha as (host & Hh & Ha). unfold HostID in Hh. destruct (host_fails i); [done|]. injection Hh as <-.
  case_bool_decide as Hne; [done|].
  destruct (bool_decide (cap_HostId c = _)) eqn:He; [|done].
  destruct (Allows _ _) eqn:Hal; [|done]. destruct (bool_decide (HelperRequest_GetTaskId _ = _)) eqn:Ht; [|done].
  unfold check_window, refused in Hw. destruct (bool_decide _ || bool_decide _) eqn:H1; [done|].
  destruct (bool_decide (_ < i64 (cap_ExpiresUnix c - _))) eqn:H2; [done|]. apply bool_decide_eq_false in H2. clear Hw.
  unfold check_payload, refused in Hp. destruct (bool_decide (sha256 _ = _)) eqn:Hd; [|done]. cbn [negb] in Hp.
  destruct (DecodeCanonicalPayload _) as [b|] eqn:Hdec; [|done].
  destruct (bool_decide (bound_Action b = _)) eqn:Hact; [|done]. injection Hp as ->.
  unfold check_signature, refused in Hg. apply result_bind_Ok in Hg as (ring & ->%KeyringOf_Ok & Hg). unfold Lookup in Hg.
  destruct (loadKeyring t !! _) as [public|] eqn:Hk; [|done]. destruct (VerifySignature _ _ _) eqn:Hsig; [|done].
  apply bool_decide_eq_true in Hv, He, Ht, Hd, Hact. apply orb_false_iff in H1 as [H3 H4].
  apply bool_decide_eq_false in H3, H4. exists bound, public. split; try done.
  - by rewrite He.
  - unfold within_window. lia.
  - by apply checkSpentSecrets_Ok with (i := i).
Qed.

(** ** What a reservation says *)

Lemma kept_is_not_empty i now nonce expires taskID digest s r s' :
  Reserve i now nonce expires taskID digest s = (Ok r, s') → Fresh r = true ∨ 0 < len (Kept r).
Proof.
  intros E. apply Reserve_steps in E as [[_ [e He]]|(ro & s2 & _ & [(e & _ & He & _)|[-> E]])]; [done..|].
  unfold claimEffectLocked in E. destruct (create_record _ _ _ _) as [[[[]|e]|] s3]; [|done|].
  - injection E as <- _. by left.
  - destruct (readRecordLocked i s2 _) as [|l0 [|l1 [|l2 [|l3 rest]]]]; [done..|].
    destruct (bool_decide _); [|done]. destruct rest as [|[|c text] rest]; [done..|].
    destruct (hex_decode (c :: text)) as [kept|] eqn:Hx; [|done]. injection E as <- _. right. cbn.
    destruct kept as [|k kept]; [|unfold len; cbn; lia]. cbn in Hx. destruct text; [done|]. by repeat case_match.
Qed.

(** ** The steps of the replay store *)

Section steps.
Context (X : string → Z) (T : time).

(** One capability one expiry: the panel never signs a nonce twice. *)
Definition fair (h : Helper) (m : moment_of_life) : Prop :=
  match m with
  | Handle i now prior _ request =>
      clean (io_replay i) ∧ now ≤ T
      ∧ ∀ c, authentic (io_trust i) (h_trust h) now prior request (Expect (kind_of (HelperRequest_GetAction request))) = Ok c →
          cap_ExpiresUnix c = X (ownerName (cap_Nonce c))
          ∧ ∀ digest, RequestDigest request = Some digest → cap_ExpiresUnix c = X (effectName (cap_Nonce c) digest)
  | Restart _ now _ => now ≤ T
  | PowerCut _ now _ remains => now ≤ T ∧ ∀ s, h_replay h = Some s → survives s remains
  end.

(** The store after a step is the store after a run of its own. *)
Definition stepped (h h' : Helper) : Prop := ∀ s, h_replay h = Some s →
  ∃ evs s', h_replay h' = Some s' ∧ run s evs s' ∧ Forall (tame X) evs ∧ Forall (until T) evs.

Lemma runs_app s evs s' evs' s'' : run s evs s' → run s' evs' s'' → run s (evs ++ evs')%list s''.
Proof. induction 1; [done|]. intros. econstructor; [done|]. by apply IHrun. Qed.

#[global] Instance stepped_refl : Reflexive stepped.
Proof. intros h s Hs. exists [], s. by repeat constructor. Qed.
#[global] Instance stepped_trans : Transitive stepped.
Proof.
  intros a b c Hab Hbc s Hs. destruct (Hab s Hs) as (evs & s' & Hs' & Hr & Ht & Hu).
  destruct (Hbc s' Hs') as (evs' & s'' & Hs'' & Hr' & Ht' & Hu'). exists (evs ++ evs')%list, s''.
  split_and!; [done|by eapply runs_app|by apply Forall_app..].
Qed.

Lemma stepped_one ev h h' : tame X ev → until T ev → (∀ s, h_replay h = Some s → possible ev s) →
  (∀ s, h_replay h = Some s → h_replay h' = Some (run_event ev s)) → stepped h h'.
Proof.
  intros Ht Hu Hp Hh s Hs. exists [ev], (run_event ev s). split_and!; [by apply Hh| |by constructor..].
  econstructor; [by apply Hp|constructor].
Qed.

Lemma with_replay_run {A} (m : M ReplayStore error A) h r h' s :
  with_replay m h = (r, h') → h_replay h = Some s →
  ∃ s', m s = (r, s') ∧ h' = mkHelper (h_trust h) (Some s').
Proof. unfold with_replay. intros E Hs. rewrite Hs in E. destruct (m s) as [r' s']. injection E as <- <-. by exists s'. Qed.

(** What [Verify] did, and on whose word. *)
Lemma Verify_steps i now prior answer request h r h' :
  let expectation := Expect (kind_of (HelperRequest_GetAction request)) in
  Verify i now prior request expectation h = (r, h') → fair h (Handle i now prior answer request) →
  stepped h h' ∧ h_trust h' = h_trust h
  ∧ ∀ reservation complete, r = Ok (reservation, complete) →
      ∃ c, authentic (io_trust i) (h_trust h) now prior request expectation = Ok c
        ∧ (e_Mutating expectation = true → ∃ digest s s',
             complete = Some (mkCompletion (cap_Nonce c) (cap_ExpiresUnix c) (cap_TaskId c) digest)
             ∧ RequestDigest request = Some digest ∧ h_replay h = Some s ∧ h_replay h' = Some s'
             ∧ Reserve (io_replay i) now (cap_Nonce c) (cap_ExpiresUnix c) (cap_TaskId c) digest s = (Ok reservation, s'))
        ∧ (e_Mutating expectation = false → complete = None).
Proof.
  intros expectation E (Hclean & Hnow & Hx). fold expectation in Hx. unfold Verify in E.
  destruct (authentic (io_trust i) (h_trust h) now prior request expectation) as [c|e] eqn:Ha.
  2: { erewrite bind_Err in E by (unfold read_trust; by rewrite Ha). by injection E as <- <-. }
  erewrite bind_Ok in E by (unfold read_trust; by rewrite Ha).
  destruct (Hx c eq_refl) as [Ho He]. destruct (e_Mutating expectation) eqn:Hm; cbn [negb] in E.
  - destruct (h_replay h) as [s|] eqn:Hs.
    2: { erewrite bind_Err in E by (unfold with_replay; by rewrite Hs). by injection E as <- <-. }
    assert (Hh : with_replay (mret tt) h = (Ok tt, h)) by (unfold with_replay; rewrite Hs; cbn; destruct h; cbn in *; by subst).
    erewrite bind_Ok in E by exact Hh.
    destruct (RequestDigest request) as [digest|] eqn:Hd; [|by injection E as <- <-].
    destruct (with_replay (Reserve (io_replay i) now (cap_Nonce c) (cap_ExpiresUnix c) (cap_TaskId c) digest) h)
      as [r1 h1] eqn:E1.
    destruct (with_replay_run _ _ _ _ _ E1 Hs) as (s1 & Hr & ->).
    assert (Hst : stepped h (mkHelper (h_trust h) (Some s1))).
    { apply (stepped_one (EReserve (io_replay i) now (cap_Nonce c) (cap_ExpiresUnix c) (cap_TaskId c) digest));
        [split_and!; auto|done|done|]. intros s0 Hs0. rewrite Hs in Hs0. injection Hs0 as <-. cbn. by rewrite Hr. }
    destruct r1 as [reservation|e].
    + erewrite bind_Ok in E by exact E1. injection E as <- <-. split_and!; [done..|].
      intros r0 complete [= <- <-]. exists c. split_and!; [done| |done]. intros _. by exists digest, s, s1.
    + erewrite bind_Err in E by exact E1. by injection E as <- <-.
  - destruct (with_replay (ReserveRead (io_replay i) now (cap_Nonce c) (cap_ExpiresUnix c) (cap_TaskId c)) h) as [r1 h1] eqn:E1.
    assert (Hst : stepped h h1).
    { apply (stepped_one (EReserveRead (io_replay i) now (cap_Nonce c) (cap_ExpiresUnix c) (cap_TaskId c))); [by split|done|done|].
      intros s0 Hs0. destruct (with_replay_run _ _ _ _ _ E1 Hs0) as (s1 & Hr & ->). cbn. by rewrite Hr. }
    assert (Ht : h_trust h1 = h_trust h).
    { unfold with_replay in E1. destruct (h_replay h); [|by injection E1 as <- <-].
      destruct (ReserveRead _ _ _ _ _ _). by injection E1 as <- <-. }
    destruct r1 as [reservation|e].
    + erewrite bind_Ok in E by exact E1. injection E as <- <-. split_and!; [done..|].
      intros r0 complete [= <- <-]. by exists c.
    + erewrite bind_Err in E by exact E1. by injection E as <- <-.
Qed.
End steps.
End props.
