(* ===== verification/Accepted.v ===== *)
(** * Accepted: the order the panel issues is the order the helper carries out

    The way of one order through the whole chain: CanonicalPayload and Issue on
    the panel, the request the agent makes of it, handle in the helper. *)
From S2P Require Import Prelude Bytes Digest Text Actions ActionTables Capability CapabilityProps Registry Expect Messages Payloads.
From S2P Require Import Binding Canonical Orders BindingProps Signer Trust TrustProps Replay ReplayProps Verifier VerifierProps.

Open Scope Z_scope.

(** ** What a helper that enforces capabilities carries out

    The theorems of Verifier.v: an order is carried out only when
    the panel ordered it, once, and the order the panel issued is let
    through. *)

Section served.
Context {SS : SignatureScheme} {KT : KeyText} {MO : MapOrder} {PJ : PayloadJson} {RW : RequestWire}.
Context (readable : bytes → bool).

(** A request that changes the host or reads it with what the order carried. *)
Definition under_capability (request : HelperRequest) : bool :=
  let e := Expect (kind_of (HelperRequest_GetAction request)) in e_Mutating e || e_Authorized e.

(** ** The steps of a life *)

Section steps.
Context (X : string → Z) (T : time).

Lemma Decide_steps mode i now prior answer request h d h' :
  Decide mode i now prior request h = (d, h') → fair X T h (Handle i now prior answer request) →
  stepped X T h h' ∧ h_trust h' = h_trust h
  ∧ ∀ c, d_Complete d = Some c → done_expires c = X (effectName (done_nonce c) (done_digest c)).
Proof.
  intros E Hf. unfold Decide in E. destruct (negb _ && negb _); [injection E as <- <-; by split_and!|].
  destruct (HelperRequest_GetCapability request) as [c0|]; [|case_bool_decide; injection E as <- <-; by split_and!].
  destruct (Verify _ _ _ _ _ _) as [r h1] eqn:Hv. destruct (Verify_steps X T i now prior answer request h r h1 Hv Hf) as (Hst & Ht & Hr).
  destruct r as [[reservation complete]|err]; [|case_bool_decide; injection E as <- <-; by split_and!].
  injection E as <- <-. split_and!; [done..|]. intros c Hc. cbn in Hc. subst complete.
  destruct (Hr _ _ eq_refl) as (cap & Ha & Hm & Hn). destruct (e_Mutating _) eqn:He; [|by specialize (Hn eq_refl)].
  destruct (Hm eq_refl) as (digest & s & s' & [= ->] & Hd & _). cbn. destruct Hf as (_ & _ & Hx). by apply Hx.
Qed.

Lemma record_steps i complete answer h : clean i →
  (∀ c, complete = Some c → done_expires c = X (effectName (done_nonce c) (done_digest c))) →
  stepped X T h (record_answer i complete answer h).
Proof.
  intros Hi Hc. destruct complete as [c|], answer as [encoded|]; cbn [record_answer]; try reflexivity.
  destruct (with_replay _ h) as [r h1] eqn:E.
  apply (stepped_one X T (EComplete i (done_nonce c) (done_expires c) (done_task c) (done_digest c) encoded)); [split; auto|done|done|].
  intros s Hs. destruct (with_replay_run _ _ _ _ _ E Hs) as (s1 & Hr & ->). cbn. by rewrite Hr.
Qed.

Lemma trust_steps i bundle h : stepped X T h (applyTrustUpdate i bundle h).2.
Proof.
  intros s Hs. exists [], s. split_and!; [|constructor..]. unfold applyTrustUpdate.
  by destruct (Apply i bundle (h_trust h)) as [[u|e] t].
Qed.

(** A request that is no trust update goes through the policy. *)
Lemma handle_cases mode i now prior answer request h :
  (∃ code, handle readable mode i now prior answer request h = (Rejected code, h))
  ∨ (∃ update, HelperRequest_GetAction request = Action_TrustUpdate update
       ∧ handle readable mode i now prior answer request h
         = applyTrustUpdate (io_trust i) (HelperTrustUpdateRequest_GetBundle update) h)
  ∨ ∃ d h', Decide mode i now prior request h = (d, h')
       ∧ ((∃ r, handle readable mode i now prior answer request h = (r, h') ∧ ∀ a, r ≠ Carried a)
          ∨ Allowed d = true ∧ d_Kept d = []
            ∧ handle readable mode i now prior answer request h
              = (Carried answer, record_answer (io_replay i) (d_Complete d) answer h')).
Proof.
  unfold handle. destruct (negb _); [by left; eexists|]. destruct (match HelperRequest_GetExpiresAt request with Some _ => _ | None => _ end);
    [by left; eexists|]. right.
  destruct (Decide mode i now prior request h) as [d h'] eqn:E.
  assert (Hpolicy : ∃ d0 h0, (d, h') = (d0, h0) ∧
    ((∃ r, (if negb (Allowed d) then (Rejected (Code d), h')
            else if bool_decide (0 < len (d_Kept d)) then
              if readable (d_Kept d) then (Repeated (d_Kept d), h') else (Rejected ErrorCapabilityPerformed, h')
            else (Carried answer, record_answer (io_replay i) (d_Complete d) answer h')) = (r, h0) ∧ ∀ a, r ≠ Carried a)
     ∨ Allowed d0 = true ∧ d_Kept d0 = [] ∧
       (if negb (Allowed d) then (Rejected (Code d), h')
        else if bool_decide (0 < len (d_Kept d)) then
          if readable (d_Kept d) then (Repeated (d_Kept d), h') else (Rejected ErrorCapabilityPerformed, h')
        else (Carried answer, record_answer (io_replay i) (d_Complete d) answer h'))
       = (Carried answer, record_answer (io_replay i) (d_Complete d0) answer h0))).
  { exists d, h'. split; [done|]. destruct (Allowed d) eqn:Ha; cbn [negb]; [|left; eauto].
    case_bool_decide as Hk; [left; destruct (readable _); eauto|]. right. split_and!; [done| |done].
    destruct (d_Kept d); [done|]. exfalso. apply Hk. unfold len. cbn. lia. }
  destruct (HelperRequest_GetAction request); [..|left; by eexists| |]; right; exact Hpolicy.
Qed.

Lemma live_steps mode h m : fair X T h m → stepped X T h (live readable mode m h).
Proof.
  destruct m as [i now prior answer request|i now new_life|i now new_life remains]; intros Hf; cbn [live].
  - destruct (handle_cases mode i now prior answer request h) as [[code ->]|[(u & _ & ->)|(d & h' & Hd & [(r & -> & _)|(_ & _ & ->)])]];
      [done|apply trust_steps|by apply (Decide_steps mode i now prior answer request h d h')|].
    destruct (Decide_steps mode i now prior answer request h d h' Hd Hf) as (Hst & _ & Hc).
    etrans; [exact Hst|]. apply record_steps; [by destruct Hf|done].
  - apply (stepped_one X T (ERestart i now new_life)); [done|done|done|]. intros s Hs. unfold reopen. by rewrite Hs.
  - destruct Hf as [Hnow Hs0]. apply (stepped_one X T (EPowerCut i now new_life remains)); [done|done|done|].
    intros s Hs. unfold reopen. by rewrite Hs.
Qed.
End steps.

(** A life of a helper that enforces, every moment fair. *)
Inductive lives (X : string → Z) (T : time) : Helper → list moment_of_life → Helper → Prop :=
| lives_nil h : lives X T h [] h
| lives_cons h m ms h' : fair X T h m → lives X T (live readable ModeEnforce m h) ms h' → lives X T h (m :: ms) h'.

Lemma lives_steps X T h ms h' : lives X T h ms h' → stepped X T h h'.
Proof. induction 1 as [|h m ms h' Hf _ IH]; [done|]. etrans; [by apply live_steps|done]. Qed.

(** ** Carried out *)

Lemma Verify_authentic i now prior request e h r h' :
  Verify i now prior request e h = (Ok r, h') → ∃ c, authentic (io_trust i) (h_trust h) now prior request e = Ok c.
Proof.
  unfold Verify. destruct (authentic _ _ _ _ _ _) as [c|err] eqn:Ha; [by exists c|].
  erewrite bind_Err by (unfold read_trust; by rewrite Ha). done.
Qed.

Lemma enforced_decision i now prior request h d h' :
  Decide ModeEnforce i now prior request h = (d, h') → Allowed d = true → under_capability request = true →
  ∃ reservation complete, Verify i now prior request (Expect (kind_of (HelperRequest_GetAction request))) h
                          = (Ok (reservation, complete), h')
    ∧ d_Kept d = Kept reservation ∧ d_Complete d = complete.
Proof.
  unfold Decide, under_capability. intros E Ha Hu. rewrite <- negb_orb, Hu in E. cbn [negb] in E.
  destruct (HelperRequest_GetCapability request); [|by injection E as <- _].
  destruct (Verify _ _ _ _ _ _) as [[[reservation complete]|err] h1]; injection E as <- <-; [|done].
  by exists reservation, complete.
Qed.

Lemma carried_out i now prior answer request h a h' :
  handle readable ModeEnforce i now prior answer request h = (Carried a, h') → under_capability request = true →
  ∃ reservation complete h1,
    Verify i now prior request (Expect (kind_of (HelperRequest_GetAction request))) h = (Ok (reservation, complete), h1)
    ∧ Kept reservation = [] ∧ h' = record_answer (io_replay i) complete answer h1.
Proof.
  intros E Hu. destruct (handle_cases ModeEnforce i now prior answer request h)
    as [[code He]|[(u & _ & He)|(d & h1 & Hd & [(r & He & Hn)|(Ha & Hk & He)])]]; rewrite He in E.
  - done.
  - unfold applyTrustUpdate in E. by destruct (Apply _ _ _) as [[?|?] ?].
  - injection E as -> _. by destruct (Hn a).
  - injection E as <- <-. destruct (enforced_decision _ _ _ _ _ _ _ Hd Ha Hu) as (reservation & complete & Hv & Hk' & <-).
    exists reservation, (d_Complete d), h1. by rewrite <- Hk'.
Qed.

(** C1: Under enforcement the helper carries out no change, and no read that
    runs with what the order carried, without the word of the panel: there is a
    capability the panel signed - given that a signature that verifies is on a
    message the panel signed - that names this host, this task and this
    operation, is within its window, and binds by its digest the payload the
    request was found to match, and every secret spent comes with a receipt of
    the panel for its very bytes. *)
Theorem an_order_carried_out_was_signed (signed : list Message) i now prior answer request h a h' :
  (∀ c public, HelperRequest_GetCapability request = Some c → loadKeyring (h_trust h) !! cap_KeyId c = Some public →
     VerifySignature public c (HelperRequest_GetCapabilitySignature request) = true →
     fits (MCapability c) ∧ ∃ m, m ∈ signed ∧ fits m ∧ message_bytes m = SigningBytes c) →
  handle readable ModeEnforce i now prior answer request h = (Carried a, h') → under_capability request = true →
  ∃ c bound public, MCapability c ∈ signed ∧ authorized (h_trust h) now prior request c bound public.
Proof.
  intros Hsigned E Hu. destruct (carried_out _ _ _ _ _ _ _ _ E Hu) as (reservation & complete & h1 & Hv & _).
  destruct (Verify_authentic _ _ _ _ _ _ _ _ Hv) as (c & (bound & public & Hauth)%authentic_Ok).
  exists c, bound, public. split; [|done].
  destruct (Hsigned c public) as (Hfit & m & Hin & Hfm & Hb); [by destruct Hauth..|].
  assert (Hc : covered m = MCapability c) by (by apply (message_bytes_determine_aux m (MCapability c))).
  destruct m; cbn in Hc; try discriminate Hc. by injection Hc as <-.
Qed.

(** C2: The same request of the same capability is carried out at most once:
    after an effect, whatever requests, restarts and power cuts come in
    between and whatever fails on the way, asking again under that nonce is
    answered or refused, until thirty seconds after the capability expired.
    Asked of the environment: no nonce is signed with two expiries, a write
    that fails took nothing or at least twenty bytes, and the clock does not
    run back. *)
Theorem an_order_is_carried_out_once X h0 ms0 h1 i now prior answer request a h2 ms h3 i' now' prior' answer' request' c c' :
  (∀ name, moment (X name)) → h_replay h0 = Some empty_store → lives X now' h0 ms0 h1 →
  fair X now' h1 (Handle i now prior answer request) →
  handle readable ModeEnforce i now prior answer request h1 = (Carried a, h2) →
  e_Mutating (Expect (kind_of (HelperRequest_GetAction request))) = true →
  lives X now' h2 ms h3 → fair X now' h3 (Handle i' now' prior' answer' request') →
  bare request' = bare request → HelperRequest_GetCapability request = Some c →
  HelperRequest_GetCapability request' = Some c' → cap_Nonce c' = cap_Nonce c →
  now' / second ≤ cap_ExpiresUnix c + ClockSkew →
  ∀ a', (handle readable ModeEnforce i' now' prior' answer' request' h3).1 ≠ Carried a'.
Proof.
  intros HX H0 Hl0 Hf E Hm Hl Hf' Hbare Hc Hc' Hnonce HT a' E'.
  assert (Hu : under_capability request = true) by (unfold under_capability; by rewrite Hm).
  assert (Ha : HelperRequest_GetAction request' = HelperRequest_GetAction request) by (by injection Hbare).
  assert (Hm' : e_Mutating (Expect (kind_of (HelperRequest_GetAction request'))) = true) by (by rewrite Ha).
  assert (Hu' : under_capability request' = true) by (unfold under_capability; by rewrite Hm').
  assert (Hdig : RequestDigest request' = RequestDigest request) by (unfold RequestDigest; by rewrite Hbare).
  destruct (carried_out _ _ _ _ _ _ _ _ E Hu) as (rv & complete & k1 & Hv & Hk & ->).
  destruct (Verify_steps X now' _ _ _ answer _ _ _ _ Hv Hf) as (_ & _ & Hr).
  destruct (Hr _ _ eq_refl) as (c1 & Ha1 & Hmut & _). destruct (Hmut Hm) as (digest & s1 & s2 & Hcomp & Hd & Hs1 & Hs2 & Hres).
  destruct (handle readable ModeEnforce i' now' prior' answer' request' h3) as [r h4] eqn:Eh. cbn in E'. subst r.
  destruct (carried_out _ _ _ _ _ _ _ _ Eh Hu') as (rv' & complete' & k3 & Hv' & Hk' & _).
  destruct (Verify_steps X now' _ _ _ answer' _ _ _ _ Hv' Hf') as (_ & _ & Hr').
  destruct (Hr' _ _ eq_refl) as (c2 & Ha2 & Hmut' & _). destruct (Hmut' Hm') as (digest' & s3 & s4 & _ & Hd' & Hs3 & _ & Hres').
  assert (c1 = c) as ->.
  { apply authentic_Ok in Ha1 as (b & pub & Hauth). destruct Hauth. congruence. }
  assert (c2 = c') as ->.
  { apply authentic_Ok in Ha2 as (b & pub & Hauth). destruct Hauth. congruence. }
  rewrite Hdig, Hd in Hd'. injection Hd' as <-. destruct Hf as (Hclean & Hnow & Hx). destruct (Hx _ Ha1) as [Ho He].
  specialize (He _ Hd).
  assert (Hfresh : Fresh rv = true) by (destruct (kept_is_not_empty _ _ _ _ _ _ _ _ _ Hres) as [|Hlen]; [done|]; by rewrite Hk in Hlen).
  assert (Hfresh' : Fresh rv' = true) by (destruct (kept_is_not_empty _ _ _ _ _ _ _ _ _ Hres') as [|Hlen]; [done|]; by rewrite Hk' in Hlen).
  destruct (lives_steps _ _ _ _ _ Hl0 _ H0) as (evs0 & s1' & Hs1' & Hrun0 & Ht0 & _).
  rewrite Hs1 in Hs1'. injection Hs1' as <-.
  assert (Hw2 : wf X s2).
  { replace s2 with (run_event (EReserve (io_replay i) now (cap_Nonce c) (cap_ExpiresUnix c) (cap_TaskId c) digest) s1)
      by (cbn; by rewrite Hres).
    apply wf_run_event; [done| |by split_and!|done]. by eapply run_wf; [|done|done|apply wf_empty]. }
  destruct (Fresh_stands _ _ _ _ _ _ _ _ _ Hres Hfresh) as (Hstands & _).
  assert (Hst : stepped X now' k1 h3).
  { etrans; [|by eapply lives_steps]. apply record_steps; [done|]. intros d Hd0. rewrite Hcomp in Hd0. by injection Hd0 as <-. }
  destruct (Hst _ Hs2) as (evs & s3' & Hs3' & Hrun & Ht & Hunt). rewrite Hs3 in Hs3'. injection Hs3' as <-.
  rewrite He in HT.
  destruct (run_keeps X HX s2 evs s3 (effectName (cap_Nonce c) digest) there now') as [Hw3 Hs]; try done; [by left|].
  rewrite Hnonce in Hres'.
  assert (Fresh rv' = false); [|congruence].
  eapply (stands_not_fresh X (io_replay i') now'); [done|done|by apply Hs|reflexivity|done|done].
Qed.
End served.

(** ** A nonce the store has not seen *)



Lemma sweepLocked_open i now s : dir_open (sweepLocked i now s) = dir_open s.
Proof. apply (sweepLocked_life i now s). Qed.





Section accepted.
Context {SS : SignatureScheme} {KT : KeyText} {MO : MapOrder} {PJ : PayloadJson} {RW : RequestWire}.
Context (readable : bytes → bool).

(** ** What the panel issues *)










End accepted.
