(* ===== verification/ServedDemo.v ===== *)
(** * ServedDemo: one order, from the panel to the host

    The witnesses of Accepted.v: a package removal that the panel
    signs at second 930, the agent asks for, the helper carries out, and refuses
    to carry out a second time. *)
From S2P Require Import Prelude Bytes Digest Text Actions ActionTables Registry Capability CapabilityProps.
From S2P Require Import Signer Trust TrustProps TrustLaws Expect Messages Payloads Binding Canonical Orders.
From S2P Require Import BindingProps Consent Replay ReplayProps ReplayAnswers Verifier VerifierProps Accepted.

Open Scope Z_scope.

(** Hashes are for the machine, not for unification. *)
#[local] Opaque sha256.

Section demo.
#[local] Existing Instance toy_signatures.
#[local] Existing Instance toy_keys.
#[local] Existing Instance identity_order.

(** A JSON that knows one payload, and a wire form of the task alone. *)
Definition demo_json : PayloadJson :=
  {| jcs_Canonical := λ _, Some (sbytes "{}"); json_Unmarshal := λ _, Some demo_removal |}.
Definition demo_wire : RequestWire := {| proto_Marshal := λ r, Some (sbytes (HelperRequest_GetTaskId r)) |}.
#[local] Existing Instance demo_json.
#[local] Existing Instance demo_wire.

Definition demo_action : Action := default Action_nil (perform demo_agent demo_envelope ActionPackageRemove demo_removal).
Definition demo_canonical : bytes := default [] (CanonicalPayload ActionPackageRemove 1 demo_removal).
Definition demo_signer : Signer := NewSignerFromKey first_key.
Definition demo_mint : Mint :=
  mkMint "web1" "task-1" ActionPackageRemove (PayloadDigest demo_canonical) ["packages.remove"] 7 (930 * second).
Definition no_capability : HelperCapability := Build_HelperCapability 0 "" "" "" "" "" [] 0 0 [] 0 [].
Definition demo_issued : HelperCapability * bytes :=
  match Issue demo_signer demo_mint demo_nonce "cap-1" with Ok issued => issued | Err _ => (no_capability, []) end.
Definition demo_order : HelperRequest :=
  mkHelperRequest 1 "task-1" None 60 65536 demo_action false (Some demo_issued.1) demo_issued.2 demo_canonical [].
Definition demo_helper : Helper := mkHelper enrolled (Some demo_store).
Definition good : helper_io := mkHelperIo good_trust_io good_io.








Definition demo_after : Helper :=
  (handle (λ _, true) ModeEnforce good (940 * second) None (Some demo_answer) demo_order demo_helper).2.

Lemma demo_handled :
  handle (λ _, true) ModeEnforce good (940 * second) None (Some demo_answer) demo_order demo_helper
  = (Carried (Some demo_answer), demo_after).
Proof. vm_compute. reflexivity. Qed.

Lemma demo_under : under_capability demo_order = true.
Proof. vm_compute. reflexivity. Qed.

Lemma demo_fits : fits (MCapability demo_issued.1).
Proof. vm_compute. repeat split; try discriminate; repeat constructor; discriminate. Qed.

Lemma an_order_carried_out_was_signed_witness :
  ∃ c bound public, MCapability c ∈ [MCapability demo_issued.1]
    ∧ authorized (h_trust demo_helper) (940 * second) None demo_order c bound public.
Proof.
  refine (an_order_carried_out_was_signed (λ _, true) [MCapability demo_issued.1] good (940 * second) None (Some demo_answer)
            demo_order demo_helper (Some demo_answer) demo_after _ demo_handled demo_under).
  intros c public Hc _ _. assert (Hx : demo_issued.1 = c) by exact (inj Some _ _ Hc). rewrite <- Hx. split; [exact demo_fits|]. exists (MCapability demo_issued.1).
  split_and!; [by left|exact demo_fits|reflexivity].
Defined.

(** ** Asked again *)

Definition demo_moments : string → Z := λ _, 1530.

Lemma demo_expiry_of_cap c : HelperRequest_GetCapability demo_order = Some c → cap_ExpiresUnix c = 1530.
Proof. intros Hc. assert (Hx : demo_issued.1 = c) by exact (inj Some _ _ Hc). rewrite <- Hx. vm_compute. reflexivity. Qed.

Lemma demo_fair now h : now ≤ 950 * second →
  fair demo_moments (950 * second) h (Handle good now None (Some demo_answer) demo_order).
Proof.
  intros Hnow. split_and!; [exact good_io_clean|exact Hnow|]. intros c Hc. apply authentic_Ok in Hc as (b & pub & Hauth).
  rewrite (demo_expiry_of_cap c) by apply Hauth. by split.
Qed.

Definition demo_birth : moment_of_life := Restart good_io (900 * second) "a1b2c3d4e5f60718".

Lemma demo_lives : lives (λ _, true) demo_moments (950 * second) (mkHelper enrolled (Some empty_store)) [demo_birth] demo_helper.
Proof. econstructor; [|constructor]. vm_compute. discriminate. Qed.

Lemma an_order_is_carried_out_once_witness :
  (handle (λ _, true) ModeEnforce good (950 * second) None (Some demo_answer) demo_order demo_after).1
  ≠ Carried (Some demo_answer).
Proof.
  refine (an_order_is_carried_out_once (λ _, true) demo_moments (mkHelper enrolled (Some empty_store)) [demo_birth] demo_helper
    good (940 * second) None (Some demo_answer) demo_order (Some demo_answer) demo_after [] demo_after
    good (950 * second) None (Some demo_answer) demo_order demo_issued.1 demo_issued.1 _ _ demo_lives _ demo_handled _ _ _ _ _ _ _ _ _).
  - intros name. split; [discriminate|reflexivity].
  - reflexivity.
  - apply demo_fair. discriminate.
  - vm_compute. reflexivity.
  - constructor.
  - apply demo_fair. discriminate.
  - reflexivity.
  - reflexivity.
  - reflexivity.
  - reflexivity.
  - vm_compute. discriminate.
Defined.
End demo.
