(* ===== verification/JobState.v ===== *)
(** * JobState: the states of a job

    Models src/internal/jobs/state.go and the pure judgements of
    src/internal/jobs/store.go that the transactions of [Jobs] take their
    decisions by. *)
From S2P Require Import Prelude Bytes Text.

Open Scope Z_scope.

Inductive State :=
| StatePlanned | StateAwaitingApproval | StateQueued | StateLeased | StateDispatched
| StateRunning | StateCancelRequested | StateSucceeded | StateFailed | StateTimedOut
| StateCanceled | StateExpired.

#[export] Instance State_eq_dec : EqDecision State.
Proof. solve_decision. Defined.

Definition transitions (s : State) : list State :=
  match s with
  | StatePlanned => [StateAwaitingApproval; StateQueued; StateCanceled; StateExpired]
  | StateAwaitingApproval => [StateQueued; StateCanceled; StateExpired]
  | StateQueued => [StateLeased; StateCanceled; StateExpired]
  | StateLeased => [StateDispatched; StateQueued; StateCanceled; StateExpired; StateFailed]
  | StateDispatched => [StateRunning; StateSucceeded; StateFailed; StateTimedOut; StateCanceled;
                        StateExpired; StateQueued; StateCancelRequested]
  | StateRunning => [StateSucceeded; StateFailed; StateTimedOut; StateCanceled; StateQueued;
                     StateCancelRequested]
  | StateCancelRequested => [StateCanceled; StateRunning; StateSucceeded; StateFailed; StateTimedOut]
  | _ => []
  end.

Definition Terminal (s : State) : bool :=
  match s with
  | StateSucceeded | StateFailed | StateTimedOut | StateCanceled | StateExpired => true
  | _ => false
  end.

Definition CanTransition (s to : State) : bool := bool_decide (to ∈ transitions s).

(** [Validate]: true for a nil error. *)
Definition Validate (s to : State) : bool :=
  if bool_decide (s = to) then true else CanTransition s to.

Definition leaseHoldingStates : list State :=
  [StateLeased; StateDispatched; StateRunning; StateCancelRequested].
Definition HoldsLease (s : State) : bool := bool_decide (s ∈ leaseHoldingStates).

Inductive resultFate := fateSettles | fateAfterSettlement | fateUnapplicable.

Definition fateOfResult (current asked : State) (afterLeaseExpiry : bool) : resultFate :=
  if Terminal current then fateAfterSettlement
  else if afterLeaseExpiry then fateSettles
  else if negb (Validate current asked) then fateUnapplicable
  else fateSettles.

Definition closesTheAttempt (f : resultFate) : bool :=
  match f with fateAfterSettlement => true | _ => false end.

(** ** Attempts *)

Definition AttemptStatusLeaseExpired : string := "lease_expired".
Definition AttemptStatusSuperseded : string := "superseded_by_result".
Definition AttemptStatusReleased : string := "released".

(** [lateResultDisposition]: (record, supersedes). *)
Definition lateResultDisposition (previousStatus : string) : bool * bool :=
  if bool_decide (previousStatus = AttemptStatusSuperseded) then (false, false)
  else if bool_decide (previousStatus = AttemptStatusLeaseExpired) then (true, true)
  else (true, false).

(** [AttemptCarriesResult], on the status and the error code of an attempt. *)
Definition AttemptCarriesResult (status errorCode : string) : bool :=
  if bool_decide (status ∈ [AttemptStatusSuperseded; AttemptStatusLeaseExpired; AttemptStatusReleased])
  then false else bool_decide (errorCode ≠ AttemptStatusSuperseded).

(** Go's [s[:n]] within the length. *)
Definition clampOutput (stdout stderr : bytes) (truncated : bool) (limit : Z) : bytes * bytes * bool :=
  if bool_decide (limit ≤ 0) || bool_decide (len stdout + len stderr ≤ limit)
  then (stdout, stderr, truncated)
  else
    let stdout := if bool_decide (limit < len stdout) then take (Z.to_nat limit) stdout else stdout in
    let room := limit - len stdout in
    let stderr := if bool_decide (room < len stderr) then take (Z.to_nat room) stderr else stderr in
    (stdout, stderr, true).

Definition WaitReasonLockPrefix : string := "awaiting_lock:".
Definition LockWaitReason (blocker : string) : string := WaitReasonLockPrefix +:+ blocker.
Definition LockBlocker (reason : string) : option string :=
  if negb (HasPrefix reason WaitReasonLockPrefix) then None
  else Some (TrimPrefix reason WaitReasonLockPrefix).

(** ** Cancel outcomes *)

Definition CancelOutcomeNotStarted : string := "not_started".
Definition CancelOutcomeInterrupted : string := "interrupted".
Definition CancelOutcomeNotInterruptible : string := "not_interruptible".
Definition CancelOutcomeAlreadyDone : string := "already_done".
Definition KnownCancelOutcome (outcome : string) : bool :=
  bool_decide (outcome ∈ [CancelOutcomeNotStarted; CancelOutcomeInterrupted;
                          CancelOutcomeNotInterruptible; CancelOutcomeAlreadyDone]).

(** ** Properties *)

(** C39: the table of transitions and the predicates beside it fit together: a
    state is terminal exactly when nothing leads out of it, every state but
    the first is led to from one that is not terminal, and every move into a
    state that holds a lease comes from the queue or from another such state. *)
Theorem transitions_consistent s :
  (Terminal s = true ↔ transitions s = [])
  ∧ (s ≠ StatePlanned → ∃ s', CanTransition s' s = true)
  ∧ (∀ s', CanTransition s' s = true → HoldsLease s = true → s' = StateQueued ∨ HoldsLease s' = true).
Proof.
  split; [|split].
  - by destruct s.
  - intros Hs. destruct s; try done; first
      [by exists StatePlanned|by exists StateQueued|by exists StateLeased|by exists StateDispatched].
  - intros s'. destruct s, s'; vm_compute; naive_solver.
Qed.

Lemma clampOutput_spec stdout stderr truncated limit :
  0 < limit →
  let '(o, e, t) := clampOutput stdout stderr truncated limit in
  len o + len e ≤ limit
  ∧ o `prefix_of` stdout ∧ e `prefix_of` stderr
  ∧ (len stdout + len stderr ≤ limit → (o, e, t) = (stdout, stderr, truncated))
  ∧ (limit < len stdout + len stderr → t = true ∧ len o + len e = limit).
Proof.
  intros Hl. unfold clampOutput. rewrite bool_decide_eq_false_2 by lia. cbn [orb].
  pose proof (len_nonneg stdout). pose proof (len_nonneg stderr).
  case_bool_decide as Hfit; [split_and!; try done; lia|].
  assert (Hcut : ∀ (s : bytes) n, 0 ≤ n →
    let s' := if bool_decide (n < len s) then take (Z.to_nat n) s else s in
    s' `prefix_of` s ∧ len s' = Z.min n (len s)).
  { intros s n Hn. cbn. case_bool_decide.
    - split; [apply prefix_take|rewrite len_take; lia].
    - split; [done|lia]. }
  destruct (Hcut stdout limit ltac:(lia)) as [P1 L1].
  set (o := if bool_decide (limit < len stdout) then _ else _) in *.
  destruct (Hcut stderr (limit - len o) ltac:(lia)) as [P2 L2].
  set (e := if bool_decide (limit - len o < len stderr) then _ else _) in *.
  split_and!; try done; try lia.
Qed.

(** The bound on the output of a task holds whatever the agent sent: the
    two streams together never exceed it, nothing is made up, what fits is
    kept whole, and a cut is always marked. *)
Theorem clampOutput_bounds stdout stderr truncated limit :
  0 < limit →
  let '(o, e, t) := clampOutput stdout stderr truncated limit in
  len o + len e ≤ limit
  ∧ o `prefix_of` stdout ∧ e `prefix_of` stderr
  ∧ (len stdout + len stderr ≤ limit → (o, e, t) = (stdout, stderr, truncated))
  ∧ (limit < len stdout + len stderr → t = true ∧ len o + len e = limit).
Proof. apply clampOutput_spec. Qed.

Lemma clampOutput_bounds_witness :
  let '(o, e, t) := clampOutput [Byte.x61; Byte.x62] [Byte.x63; Byte.x64] false 3 in
  len o + len e ≤ 3 ∧ o `prefix_of` [Byte.x61; Byte.x62] ∧ e `prefix_of` [Byte.x63; Byte.x64]
  ∧ (len [Byte.x61; Byte.x62] + len [Byte.x63; Byte.x64] ≤ 3 →
     (o, e, t) = ([Byte.x61; Byte.x62], [Byte.x63; Byte.x64], false))
  ∧ (3 < len [Byte.x61; Byte.x62] + len [Byte.x63; Byte.x64] → t = true ∧ len o + len e = 3).
Proof. apply (clampOutput_bounds [Byte.x61; Byte.x62] [Byte.x63; Byte.x64] false 3). lia. Defined.
