(* ===== verification/Jobs.v ===== *)
(** * Jobs: the transactions of the task store

    Models src/internal/jobs/store.go, cancel.go, campaign_cancel.go and
    ownership.go: the tables as maps, and every transaction that writes them as
    one operation on them. A statement is modelled by what it selects and sets;
    a transaction that fails changes nothing, except where the code commits
    beside the error. A row another transaction holds is skipped where the
    query says [skip locked]: the rows held are an argument. [now()] is the
    clock of the database, the same within a transaction. *)
From coqutil Require Import Datatypes.RecordSetters.
From S2P Require Import Prelude Bytes Text JobState.

Import OCamlLikeNotations.
Open Scope Z_scope.

(** ** Tables *)

(** A row of the table jobs; a nullable column is an option. *)
Record job := mkJob {
  j_host : string;
  j_campaign : option string;
  j_fanout : option string;
  j_action : string;
  j_hash : bytes;
  j_key : string;
  j_state : State;
  j_requires_approval : bool;
  j_required : Z;
  j_timeout : Z;
  j_max_output : Z;
  j_expires_at : time;
  j_created_by : string;
  j_created_at : time;
  j_updated_at : time;
  j_approved_by : option string;
  j_approved_at : option time;
  j_canceled_by : option string;
  j_canceled_at : option time;
  j_cancel_reason : option string;
  j_cancel_requested_at : option time;
  j_cancel_revision : Z;
  j_cancel_ack_at : option time;
  j_cancel_outcome : option string;
  j_cancel_phase : option string;
  j_wait_reason : string;
  j_result_status : option string;
  j_result_error_code : option string;
  j_result_message : option string;
  j_finished_at : option time;
}.

(** A row of the table job_attempts. *)
Record attempt := mkAttempt {
  a_job : string;
  a_number : Z;
  a_lease_owner : string;
  a_lease_expires_at : option time;
  a_session : option string;
  a_status : option string;
  a_exit_code : option Z;
  a_error_code : option string;
  a_message : option string;
  a_stdout : bytes;
  a_stderr : bytes;
  a_output_truncated : bool;
  a_replayed : bool;
  a_detail : option bytes;
  a_verification : option bytes;
  a_dispatched_at : option time;
  a_accepted_at : option time;
  a_started_at : option time;
  a_finished_at : option time;
}.

(** A row of the table host_session_owners. *)
Record owner := mkOwner {
  o_session : option string;
  o_instance : option string;
  o_token : Z;
  o_lease_until : option time;
}.

(** The tables a transaction reads and writes. [sessions] maps an agent
    session to its host and its end; [tokens] holds the jobs that own budget
    leases; [outbox] the events recorded for the trail, newest last. *)
Record DB := mkDB {
  now : time;
  jobs : gmap string job;
  attempts : gmap string attempt;
  approvals : gset (string * string);
  owners : gmap string owner;
  sessions : gmap string (string * option time);
  tokens : gset string;
  outbox : list (string * string);
}.

#[global] Arguments constant {E} newValue / _.

Inductive err :=
| ErrNotFound | ErrConflict | ErrSessionStale | ErrDispatchLost | ErrKeyReused
| ErrStaleFence | ErrCancelAckStale | ErrOrder | ErrTrail | ErrClaim.

Record Fence := mkFence { f_session : string; f_token : Z }.

Definition DispatchLease : Z := 60 * second.
Definition OwnerLeaseTTL : Z := 45 * second.
Definition RebootReturnGrace : Z := 10 * minute.
Definition ResultStatusUnknown : string := "unknown_needs_reconciliation".
Definition CancelAckTimeoutCode : string := "cancel_ack_timeout".
Definition EventCancelRequested : string := "job.cancel_requested".
Definition ActionSystemReboot : string := "system.reboot".
Definition ErrorRebootNotObserved : string := "reboot_not_observed".

(** [nullable], and the columns of type uuid written from a possibly empty string. *)
Definition nullable (value : string) : option string :=
  if bool_decide (value = ""%string) then None else Some value.

(** SQL's least and greatest, which ignore a null. *)
Definition sql_least (a b : option time) : option time :=
  match a, b with Some x, Some y => Some (Z.min x y) | None, y => y | x, None => x end.
Definition sql_greatest (a b : option time) : option time :=
  match a, b with Some x, Some y => Some (Z.max x y) | None, y => y | x, None => x end.
Definition coalesce {A} (a b : option A) : option A := match a with Some _ => a | None => b end.

Definition is_null {A} (a : option A) : bool := match a with None => true | Some _ => false end.

(** A job that waits on nothing and is over. *)
Definition finish (at_ : time) (j : job) : job :=
  { j with j_wait_reason := ""%string; j_finished_at := Some at_; j_updated_at := at_ }.

(** An attempt closed with a status. *)
Definition close_attempt (status : string) (at_ : time) (a : attempt) : attempt :=
  { a with a_finished_at := Some at_; a_status := Some status; a_lease_expires_at := None }.

Abbreviation T := (M DB err).

(** A transaction rolls back on an error. *)
Definition in_tx {A} (m : T A) : T A := λ d,
  match m d with (Ok a, d') => (Ok a, d') | (Err e, _) => (Err e, d) end.

(** One that commits whatever it did and then returns an error value. *)
Definition committed (m : T (option err)) : T unit := λ d,
  match m d with
  | (Ok None, d') => (Ok tt, d')
  | (Ok (Some e), d') => (Err e, d')
  | (Err e, _) => (Err e, d)
  end.

Definition update_job (id : string) (f : job → job) : T unit :=
  modify (λ d, { d with jobs ::= alter f id }).
Definition update_attempt (id : string) (f : attempt → attempt) : T unit :=
  modify (λ d, { d with attempts ::= alter f id }).
Definition update_attempts (P : string → attempt → bool) (f : attempt → attempt) (d : DB) : DB :=
  { d with attempts ::= map_imap (λ id a, Some (if P id a then f a else a)) }.
Definition update_jobs (P : string → job → bool) (f : job → job) (d : DB) : DB :=
  { d with jobs ::= map_imap (λ id j, Some (if P id j then f j else j)) }.

(** The open attempt of a lease: the attempt joined with its job. *)
Definition attempt_job (d : DB) (attemptID : string) : option (attempt * job) :=
  a ← attempts d !! attemptID; j ← jobs d !! a_job a; Some (a, j).

Definition open_attempt (a : attempt) : bool := is_null (a_finished_at a).

Section jobs.
Context `{MapOrder}.

(** The identifiers a query returns. *)
Definition select_jobs (P : string → job → bool) (d : DB) : list string :=
  (filter (λ ij, P ij.1 ij.2 = true) (range_order (map_to_list (jobs d)))).*1.

Definition created (d : DB) (id : string) : time :=
  match jobs d !! id with Some j => j_created_at j | None => 0 end.
Definition order_by_created (d : DB) (ids : list string) : list string :=
  sort_stable (λ a b, bool_decide (created d a < created d b)) ids.

(** [update jobs set ... where ... returning id] *)
Definition update_where (P : string → job → bool) (f : job → job) : T (list string) := λ d,
  (Ok (select_jobs P d), update_jobs P f d).

Definition releaseBudgets (ids : list string) : T unit :=
  modify (λ d, { d with tokens ::= λ t, t ∖ list_to_set ids }).

Definition attempts_of (d : DB) (jobID : string) : list (string * attempt) :=
  filter (λ ia, a_job ia.2 = jobID) (map_to_list (attempts d)).

(** [coalesce(max(attempt_number), 0)] *)
Definition max_number (d : DB) (jobID : string) : Z :=
  foldr Z.max 0 (a_number <$> (attempts_of d jobID).*2).

(** [order by attempt_number desc limit 1] *)
Definition last_attempt (d : DB) (jobID : string) : option (string * attempt) :=
  head (filter (λ ia, Forall (λ n, n ≤ a_number ia.2) (a_number <$> (attempts_of d jobID).*2))
               (attempts_of d jobID)).

(** ** Ownership of a host *)

Definition fenceHolds (d : DB) (jobID : string) (fence : Fence) : bool :=
  if bool_decide (f_session fence = ""%string) then false
  else match j ← jobs d !! jobID; owners d !! j_host j with
       | Some o => bool_decide (o_session o = Some (f_session fence))
                   && bool_decide (o_token o = i64 (f_token fence))
                   && match o_lease_until o with Some t => bool_decide (now d < t) | None => false end
       | None => false
       end.

Definition guard_fence (jobID : string) (fence : Fence) : T unit :=
  ok ← gets (λ d, fenceHolds d jobID fence);
  if (ok : bool) then mret tt else fail ErrStaleFence.

Definition ClaimSession (hostID sessionID instanceID : string) (ttl : Z) : T Z :=
  if bool_decide (hostID = ""%string) || bool_decide (sessionID = ""%string)
     || bool_decide (instanceID = ""%string) then fail ErrClaim
  else
    at_ ← gets now;
    known ← gets (λ d, owners d !! hostID);
    let token := match known with Some o => o_token o + 1 | None => 1 end in
    modify (λ d, { d with owners ::=
      <[hostID := mkOwner (Some sessionID) (Some instanceID) token (Some (at_ + ttl))]> }) ;;
    mret (u64 token).

(** The row of a host, when the session, the instance and the token are its own. *)
Definition owned_by (o : owner) (sessionID : string) (instanceID : option string) (token : Z) : bool :=
  bool_decide (o_session o = Some sessionID)
  && match instanceID with Some i => bool_decide (o_instance o = Some i) | None => true end
  && bool_decide (o_token o = i64 token).

Definition owner_update (hostID sessionID : string) (instanceID : option string) (token : Z)
    (f : owner → owner) : T unit :=
  known ← gets (λ d, owners d !! hostID);
  match known with
  | Some o => if owned_by o sessionID instanceID token
              then modify (λ d, { d with owners ::= alter f hostID })
              else fail ErrStaleFence
  | None => fail ErrStaleFence
  end.

Definition RenewOwnership (hostID sessionID instanceID : string) (token ttl : Z) : T unit :=
  at_ ← gets now;
  owner_update hostID sessionID (Some instanceID) token
    (λ o, { o with o_lease_until := Some (at_ + ttl) }).

Definition disown (o : owner) : owner :=
  { o with o_session := None; o_instance := None; o_lease_until := None }.

Definition ReleaseOwnership (hostID sessionID : string) (token : Z) : T unit :=
  owner_update hostID sessionID None token disown.

Definition SweepExpiredOwners : T unit :=
  at_ ← gets now;
  modify (λ d, { d with owners ::= fmap (λ o,
    if negb (is_null (o_session o))
       && match o_lease_until o with Some t => bool_decide (t < at_) | None => false end
    then disown o else o) }).

(** [Owner.Live], on the row. *)
Definition Live (o : owner) (at_ : time) : bool :=
  negb (is_null (o_session o))
  && match o_lease_until o with Some t => bool_decide (at_ < t) | None => false end.

(** ** Ordering and approving *)

Record Spec := mkSpec {
  s_host : string; s_action : string; s_hash : bytes; s_key : string;
  s_requires_approval : bool; s_required : Z; s_timeout : Z; s_max_output : Z; s_ttl : Z;
  s_created_by : string; s_campaign : string; s_fanout : string;
}.

(** What opspec says of an order: whether its payload is valid and bound to a
    plan, the default timeout of its action and whether it is destructive. *)
Context (order_valid : Spec → bool) (default_timeout : string → Z) (destructive : string → bool).

Definition requiredApprovals (spec : Spec) : Z :=
  if bool_decide (0 < s_required spec) then s_required spec
  else if destructive (s_action spec) then 2 else 1.

Definition find_key (d : DB) (hostID key : string) : option (string * job) :=
  head (filter (λ ij, j_host ij.2 = hostID ∧ j_key ij.2 = key) (map_to_list (jobs d))).

(** [Create]; [newID] and [newKey] are the identifiers drawn. *)
Definition Create (newID newKey : string) (spec : Spec) : T string :=
  if negb (order_valid spec) then fail ErrOrder
  else
    at_ ← gets now;
    let state := if s_requires_approval spec then StateAwaitingApproval else StateQueued in
    let timeout := if bool_decide (s_timeout spec ≤ 0) then default_timeout (s_action spec) else s_timeout spec in
    let maxOutput := if bool_decide (s_max_output spec ≤ 0) then 65536 else s_max_output spec in
    let ttl := if bool_decide (s_ttl spec ≤ 0) then 15 * minute else s_ttl spec in
    let key := if bool_decide (s_key spec = ""%string) then newKey else s_key spec in
    existing ← gets (λ d, find_key d (s_host spec) key);
    match existing with
    | Some (id, j) =>
        if bool_decide (j_action j ≠ s_action spec) || bool_decide (j_hash j ≠ s_hash spec)
        then fail ErrKeyReused else mret id
    | None =>
        modify (λ d, { d with jobs ::= <[newID :=
          {| j_host := s_host spec; j_campaign := nullable (s_campaign spec);
             j_fanout := nullable (s_fanout spec); j_action := s_action spec;
             j_hash := s_hash spec; j_key := key; j_state := state;
             j_requires_approval := s_requires_approval spec;
             j_required := requiredApprovals spec; j_timeout := timeout;
             j_max_output := maxOutput; j_expires_at := at_ + ttl;
             j_created_by := s_created_by spec; j_created_at := at_; j_updated_at := at_;
             j_approved_by := None; j_approved_at := None; j_canceled_by := None;
             j_canceled_at := None; j_cancel_reason := None; j_cancel_requested_at := None;
             j_cancel_revision := 0; j_cancel_ack_at := None; j_cancel_outcome := None;
             j_cancel_phase := None; j_wait_reason := ""; j_result_status := None;
             j_result_error_code := None; j_result_message := None; j_finished_at := None |}]> }) ;;
        mret newID
    end.

(** Who approved a job. *)
Definition approvers (d : DB) (jobID : string) : gset string :=
  set_map snd (filter (λ ja : string * string, ja.1 = jobID) (approvals d)).

Definition Approve (jobID actor reason : string) : T job :=
  modify (λ d, { d with approvals ::= λ a, {[(jobID, actor)]} ∪ a }) ;;
  at_ ← gets now;
  enough ← gets (λ d, match jobs d !! jobID with
    | Some j => bool_decide (j_state j = StateAwaitingApproval)
                && bool_decide (j_required j ≤ Z.of_nat (base.size (approvers d jobID)))
    | None => false
    end);
  (if (enough : bool) then
     update_job jobID (λ j, { j with j_state := StateQueued; j_approved_by := Some actor;
                              j_approved_at := Some at_; j_updated_at := at_ })
   else mret tt) ;;
  known ← gets (λ d, jobs d !! jobID);
  match known with
  | None => fail ErrNotFound
  | Some j => if negb enough && bool_decide (j_state j ≠ StateAwaitingApproval)
              then fail ErrConflict else mret j
  end.

(** ** Canceling *)

(** The answer to the previous request goes when a new one is made. *)
Definition requestCancel (jobID actor reason : string) : T unit :=
  at_ ← gets now;
  last ← gets (λ d, j ← jobs d !! jobID; last_attempt d jobID);
  match last with
  | None => fail ErrConflict
  | Some _ =>
      update_job jobID (λ j,
        { j with j_state := StateCancelRequested; j_canceled_by := Some actor;
          j_cancel_reason := nullable reason; j_cancel_requested_at := Some at_;
          j_updated_at := at_; j_cancel_revision ::= Z.succ; j_cancel_ack_at := None;
          j_cancel_outcome := None; j_cancel_phase := None }) ;;
      modify (λ d, { d with outbox ::= λ l, l ++ [(EventCancelRequested, jobID)] })
  end.

(** The job as an operator's cancel leaves it when no host holds it. *)
Definition cancel_job (actor reason : string) (at_ : time) (j : job) : job :=
  finish at_ { j with j_state := StateCanceled; j_canceled_by := Some actor;
               j_canceled_at := Some at_; j_cancel_reason := nullable reason }.

Definition Cancel (jobID actor reason : string) : T job :=
  known ← gets (λ d, jobs d !! jobID);
  match known with
  | None => fail ErrNotFound
  | Some j =>
      (match j_state j with
       | StatePlanned | StateAwaitingApproval | StateQueued | StateLeased =>
           at_ ← gets now;
           update_job jobID (cancel_job actor reason at_) ;; releaseBudgets [jobID]
       | StateDispatched | StateRunning => requestCancel jobID actor reason
       | _ => fail ErrConflict
       end) ;;
      after ← gets (λ d, jobs d !! jobID);
      match after with Some j => mret j | None => fail ErrNotFound end
  end.

Definition CancelUndelivered (hostID actor reason : string) : T Z :=
  at_ ← gets now;
  canceled ← update_where
    (λ _ j, bool_decide (j_host j = hostID)
            && bool_decide (j_state j ∈ [StatePlanned; StateAwaitingApproval; StateQueued; StateLeased]))
    (cancel_job actor reason at_);
  releaseBudgets canceled ;;
  mret (len canceled).

Definition CancelQueuedOf (campaignID actor reason : string) (keep : list string) : T (list string) :=
  at_ ← gets now;
  canceled ← update_where
    (λ id j, bool_decide (j_campaign j = Some campaignID)
             && bool_decide (j_state j ∈ [StatePlanned; StateAwaitingApproval; StateQueued])
             && bool_decide (id ∉ keep))
    (cancel_job actor reason at_);
  releaseBudgets canceled ;;
  mret canceled.

Definition RequestCancelOf (campaignID actor reason : string) (keep : list string) : T (list string) :=
  held ← gets (λ d, order_by_created d (select_jobs
    (λ id j, bool_decide (j_campaign j = Some campaignID)
             && bool_decide (j_state j ∈ [StateDispatched; StateRunning])
             && bool_decide (id ∉ keep)) d));
  mfor held (λ id, requestCancel id actor reason) ;;
  mret held.

Record CancelSettlement := mkCancelSettlement { cs_previous : State; cs_state : State }.

Definition RecordCancelAck (jobID : string) (revision : Z) (outcome phase : string) (fence : Fence)
    : T CancelSettlement :=
  if negb (KnownCancelOutcome outcome) then fail ErrConflict
  else in_tx (
    guard_fence jobID fence ;;
    at_ ← gets now;
    known ← gets (λ d, jobs d !! jobID);
    match known with
    | None => fail ErrNotFound
    | Some j =>
        if bool_decide (j_cancel_revision j ≠ i64 revision) then fail ErrCancelAckStale
        else
          update_job jobID (λ j,
            { j with j_cancel_ack_at ::= λ t, coalesce t (Some at_);
              j_cancel_outcome ::= λ o, coalesce o (Some outcome);
              j_cancel_phase ::= λ p, coalesce p (nullable phase);
              j_updated_at := at_ }) ;;
          if bool_decide (j_state j ≠ StateCancelRequested)
          then mret (mkCancelSettlement (j_state j) (j_state j))
          else if bool_decide (outcome ∈ [CancelOutcomeNotStarted; CancelOutcomeInterrupted]) then
            (if negb (Validate StateCancelRequested StateCanceled) then fail ErrConflict else mret tt) ;;
            update_job jobID (λ j, finish at_
              { j with j_state := StateCanceled; j_result_status := Some "canceled"%string;
                j_result_message := Some ("the host acknowledged the cancel: " +:+ outcome +:+
                  (if bool_decide (phase = ""%string) then "" else " while " +:+ phase))%string;
                j_canceled_at ::= λ t, coalesce t (Some at_) }) ;;
            releaseBudgets [jobID] ;;
            mret (mkCancelSettlement (j_state j) StateCanceled)
          else if bool_decide (outcome = CancelOutcomeNotInterruptible) then
            (if negb (Validate StateCancelRequested StateRunning) then fail ErrConflict else mret tt) ;;
            update_job jobID (λ j, { j with j_state := StateRunning; j_updated_at := at_ }) ;;
            mret (mkCancelSettlement (j_state j) StateRunning)
          else mret (mkCancelSettlement (j_state j) (j_state j))
    end).

Definition OutstandingCancelRevision (d : DB) (jobID : string) : Z :=
  match jobs d !! jobID with
  | Some j => if bool_decide (j_cancel_revision j < 0) then 0 else u64 (j_cancel_revision j)
  | None => 0
  end.

Definition SettleCancelTimeouts (locked : gset string) : T (list string) :=
  in_tx (
    at_ ← gets now;
    let message := "the host did not acknowledge the cancel within the operation's timeout; the outcome on the host is unknown - read the host before ordering again"%string in
    let overdue id j := bool_decide (j_state j = StateCancelRequested)
      && match j_cancel_requested_at j with
         | Some t => bool_decide (t + j_timeout j * second < at_)
         | None => false
         end && bool_decide (id ∉ locked) in
    modify (λ d, update_attempts
      (λ _ a, open_attempt a && match jobs d !! a_job a with Some j => overdue (a_job a) j | None => false end)
      (λ a, { close_attempt "failed" at_ a with a_error_code := Some CancelAckTimeoutCode;
              a_message := Some message }) d) ;;
    settled ← update_where overdue (λ j, finish at_
      { j with j_state := StateFailed; j_result_status := Some ResultStatusUnknown;
        j_result_error_code := Some CancelAckTimeoutCode; j_result_message := Some message });
    releaseBudgets settled ;;
    mret settled).

(** ** Leasing and dispatching *)

(** One task taken: leased, with a new attempt. *)
Definition lease_one (gatewayID : string) (leaseDuration : Z) (newID : string → string) (jobID : string)
    : T (string * string * Z) :=
  at_ ← gets now;
  update_job jobID (λ j, { j with j_state := StateLeased; j_wait_reason := ""%string; j_updated_at := at_ }) ;;
  number ← gets (λ d, max_number d jobID + 1);
  let attemptID := newID jobID in
  modify (λ d, { d with attempts ::= <[attemptID :=
    {| a_job := jobID; a_number := number; a_lease_owner := gatewayID;
       a_lease_expires_at := Some (at_ + leaseDuration); a_session := None; a_status := None;
       a_exit_code := None; a_error_code := None; a_message := None; a_stdout := []; a_stderr := [];
       a_output_truncated := false; a_replayed := false; a_detail := None; a_verification := None;
       a_dispatched_at := None; a_accepted_at := None; a_started_at := None; a_finished_at := None |}]> }) ;;
  mret (jobID, attemptID, number).

Fixpoint lease_all (gatewayID : string) (leaseDuration : Z) (newID : string → string) (ids : list string)
    : T (list (string * string * Z)) :=
  match ids with
  | [] => mret []
  | id :: rest =>
      one ← lease_one gatewayID leaseDuration newID id;
      more ← lease_all gatewayID leaseDuration newID rest;
      mret (one :: more)
  end.

(** The tasks [LeaseJobs] takes. *)
Definition leasable (d : DB) (jobIDs : list string) (locked : gset string) : list string :=
  order_by_created d (select_jobs (λ id j, bool_decide (j_state j = StateQueued)
    && bool_decide (id ∈ jobIDs) && bool_decide (now d < j_expires_at j)
    && bool_decide (id ∉ locked)) d).

Definition LeaseJobs (gatewayID : string) (jobIDs : list string) (leaseDuration : Z)
    (newID : string → string) (locked : gset string) : T (list (string * string * Z)) :=
  in_tx (
    taken ← gets (λ d, leasable d jobIDs locked);
    lease_all gatewayID leaseDuration newID taken).

Definition SetWaitReason (jobID reason : string) : T unit :=
  at_ ← gets now;
  update_job jobID (λ j,
    if bool_decide (j_state j = StateQueued) && bool_decide (j_wait_reason j ≠ reason)
    then { j with j_wait_reason := reason; j_updated_at := at_ } else j).

Definition InFlight (d : DB) : list string :=
  select_jobs (λ _ j, HoldsLease (j_state j) && is_null (j_campaign j) && is_null (j_fanout j)) d.

(** [dispatchAfterSettlement]: the error value the dispatch returns with. *)
Definition dispatchAfterSettlement (jobID : string) : T (option err) :=
  at_ ← gets now;
  known ← gets (λ d, jobs d !! jobID);
  match known with
  | None => fail ErrNotFound
  | Some j =>
      if bool_decide (j_state j ∈ [StateDispatched; StateRunning; StateCancelRequested]) then mret None
      else
        update_job jobID (λ j,
          if bool_decide (j_result_status j = Some ResultStatusUnknown) then j
          else { j with j_result_status := Some ResultStatusUnknown;
                 j_result_message := Some "the task had already left the panel when this job was settled; the host may have carried it out - read the host before ordering again"%string;
                 j_updated_at := at_ }) ;;
        mret (Some ErrDispatchLost)
  end.

(** The session of the delivery is the host's, and still open. *)
Definition session_open (d : DB) (jobID sessionID : string) : bool :=
  if bool_decide (sessionID = ""%string) then false
  else match sessions d !! sessionID, jobs d !! jobID with
       | Some (host, None), Some j => bool_decide (host = j_host j)
       | _, _ => false
       end.

Definition MarkDispatchedWithLease (jobID attemptID : string) (fence : Fence) (lease : Z) : T unit :=
  committed (
    open ← gets (λ d, session_open d jobID (f_session fence));
    if negb open then fail ErrSessionStale
    else
      guard_fence jobID fence ;;
      at_ ← gets now;
      known ← gets (λ d, jobs d !! jobID);
      lost ← match known with
             | Some j =>
                 if bool_decide (j_state j = StateLeased)
                 then update_job jobID (λ j, { j with j_state := StateDispatched; j_updated_at := at_ }) ;;
                      mret None
                 else dispatchAfterSettlement jobID
             | None => dispatchAfterSettlement jobID
             end;
      match (lost : option err) with
      | Some e => mret (Some e)
      | None =>
          update_attempt attemptID (λ a,
            { a with a_dispatched_at := Some at_; a_session := nullable (f_session fence);
              a_lease_expires_at ::= λ l,
                if is_null (a_accepted_at a) then sql_least l (Some (at_ + lease)) else l }) ;;
          mret None
      end).

Definition MarkDispatched (jobID attemptID : string) (fence : Fence) : T unit :=
  MarkDispatchedWithLease jobID attemptID fence DispatchLease.

Definition RecordHandover (jobID attemptID sessionID : string) : T unit :=
  at_ ← gets now;
  update_attempt attemptID (λ a,
    if open_attempt a
    then { a with a_dispatched_at ::= λ t, coalesce t (Some at_);
           a_session ::= λ s, coalesce s (nullable sessionID) } else a) ;;
  update_job jobID (λ j,
    if bool_decide (j_state j = StateLeased)
    then { j with j_state := StateDispatched; j_updated_at := at_ } else j).

(** The attempt a message of the host is about, when it is open and its job is
    in one of the states. *)
Definition live_attempt (d : DB) (attemptID hostID : string) (states : list State) : option (attempt * job) :=
  '(a, j) ← attempt_job d attemptID;
  if bool_decide (j_host j = hostID) && open_attempt a && bool_decide (j_state j ∈ states)
  then Some (a, j) else None.

Definition AcceptAttempt (attemptID hostID : string) (executionLease : Z) : T bool :=
  at_ ← gets now;
  found ← gets (λ d, live_attempt d attemptID hostID [StateLeased; StateDispatched; StateRunning]);
  match found with
  | Some (a, _) =>
      if is_null (a_lease_expires_at a) then mret false
      else
        update_attempt attemptID (λ a,
          { a with a_accepted_at ::= λ t, coalesce t (Some at_);
            a_lease_expires_at ::= λ l, sql_greatest l (Some (at_ + executionLease)) }) ;;
        mret true
  | None => mret false
  end.

Definition SetLockWait (attemptID hostID blocker : string) : T unit :=
  at_ ← gets now;
  found ← gets (λ d, live_attempt d attemptID hostID [StateLeased; StateDispatched]);
  match found with
  | Some (a, _) => update_job (a_job a) (λ j,
      if bool_decide (j_wait_reason j ≠ LockWaitReason blocker)
      then { j with j_wait_reason := LockWaitReason blocker; j_updated_at := at_ } else j)
  | None => mret tt
  end.

Definition MarkRunning (attemptID hostID : string) : T bool :=
  in_tx (
    at_ ← gets now;
    found ← gets (λ d, live_attempt d attemptID hostID [StateLeased; StateDispatched]);
    match found with
    | None => mret false
    | Some (a, _) =>
        if negb (Validate StateDispatched StateRunning) then fail ErrConflict
        else
          update_job (a_job a) (λ j,
            { j with j_state := StateRunning; j_wait_reason := ""%string; j_updated_at := at_ }) ;;
          update_attempt attemptID (λ a, { a with a_started_at ::= λ t, coalesce t (Some at_) }) ;;
          mret true
    end).

(** The job taken back, and its attempt closed, only when it is still the
    panel's to take. *)
Definition FailUndelivered (jobID attemptID code message : string) : T unit :=
  in_tx (
    at_ ← gets now;
    known ← gets (λ d, jobs d !! jobID);
    match known with
    | Some j =>
        if bool_decide (j_state j ∈ [StateLeased; StateDispatched]) then
          update_job jobID (λ j, finish at_
            { j with j_state := StateFailed; j_result_status := Some "failed"%string;
              j_result_error_code := Some code; j_result_message := Some message }) ;;
          update_attempt attemptID (λ a,
            { close_attempt "failed" at_ a with a_error_code := Some code; a_message := Some message }) ;;
          releaseBudgets [jobID]
        else mret tt
    | None => mret tt
    end).

Definition ReleaseLease (jobID attemptID reason : string) : T unit :=
  in_tx (
    at_ ← gets now;
    known ← gets (λ d, jobs d !! jobID);
    match known with
    | Some j =>
        if bool_decide (j_state j ∈ [StateLeased; StateDispatched]) then
          update_job jobID (λ j, { j with j_state := StateQueued; j_updated_at := at_ }) ;;
          update_attempt attemptID (λ a,
            { close_attempt AttemptStatusReleased at_ a with a_message := Some reason }) ;;
          releaseBudgets [jobID]
        else mret tt
    | None => mret tt
    end).

Definition RenewAttemptLease (attemptID hostID : string) (extension : Z) : T bool :=
  at_ ← gets now;
  found ← gets (λ d, live_attempt d attemptID hostID leaseHoldingStates);
  match found with
  | Some (a, _) =>
      if is_null (a_lease_expires_at a) then mret false
      else update_attempt attemptID (λ a,
             { a with a_lease_expires_at ::= λ l, sql_greatest l (Some (at_ + extension)) }) ;;
           mret true
  | None => mret false
  end.

(** ** Results *)

Record Result := mkResult {
  r_status : string; r_exit_code : Z; r_stdout : bytes; r_stderr : bytes; r_truncated : bool;
  r_error_code : string; r_message : string; r_replayed : bool;
  r_detail : option bytes; r_verification : option bytes;
}.

(** The late result of a settled job, on an attempt that has none. *)
Definition late_result (r : Result) (at_ : time) (a : attempt) : attempt :=
  if open_attempt a
  then { close_attempt (r_status r) at_ a with a_exit_code := Some (r_exit_code r);
         a_error_code := nullable (r_error_code r); a_replayed := r_replayed r;
         a_message := Some "the result arrived after the job was settled"%string }
  else a.

Definition write_result (r : Result) (limit : Z) (at_ : time) (a : attempt) : attempt :=
  let '(stdout, stderr, truncated) := clampOutput (r_stdout r) (r_stderr r) (r_truncated r) limit in
  { close_attempt (r_status r) at_ a with a_exit_code := Some (r_exit_code r);
    a_error_code := nullable (r_error_code r); a_message := nullable (r_message r);
    a_stdout := stdout; a_stderr := stderr; a_output_truncated := truncated;
    a_replayed := r_replayed r; a_detail := r_detail r; a_verification := r_verification r }.

(** [RecordResult]; [trail] is what writing the audit entry returns. *)
Definition RecordResult (jobID attemptID : string) (result : Result) (jobState : State) (fence : Fence)
    (trail : option err) : T bool :=
  in_tx (
    at_ ← gets now;
    known ← gets (λ d, jobs d !! jobID);
    match known with
    | None => fail ErrNotFound
    | Some j =>
        found ← gets (λ d, attempts d !! attemptID);
        match found with
        | None => fail ErrNotFound
        | Some a =>
            let previousStatus := default ""%string (a_status a) in
            let '(record, supersedes) := lateResultDisposition previousStatus in
            if negb record then mret false
            else
              match fateOfResult (j_state j) jobState supersedes with
              | fateSettles =>
                  guard_fence jobID fence ;;
                  update_attempt attemptID (write_result result (j_max_output j) at_) ;;
                  (if (supersedes : bool) then
                     modify (update_attempts
                       (λ id a, bool_decide (a_job a = jobID) && bool_decide (id ≠ attemptID) && open_attempt a)
                       (λ a, { close_attempt AttemptStatusSuperseded at_ a with a_message :=
                          Some "the result arrived on the earlier attempt after its lease had expired"%string }))
                   else mret tt) ;;
                  update_job jobID (λ j, finish at_
                    { j with j_state := jobState; j_result_status := Some (r_status result);
                      j_result_error_code := nullable (r_error_code result);
                      j_result_message := nullable (r_message result) }) ;;
                  (if Terminal jobState then releaseBudgets [jobID] else mret tt) ;;
                  match trail with Some e => fail e | None => mret true end
              | fate =>
                  (if bool_decide (previousStatus = ""%string) && closesTheAttempt fate
                   then update_attempt attemptID (late_result result at_) else mret tt) ;;
                  mret false
              end
        end
    end).

(** ** Sweeps *)

(** The attempts whose lease ran out: a restart of the host is waited for
    longer than its lease. *)
Definition lease_expired (d : DB) (locked : gset string) (id : string) (a : attempt) : bool :=
  open_attempt a
  && match a_lease_expires_at a, jobs d !! a_job a with
     | Some l, Some j =>
         bool_decide (l < if bool_decide (j_action j = ActionSystemReboot)
                          then now d - RebootReturnGrace else now d)
         && HoldsLease (j_state j)
     | _, _ => false
     end
  && bool_decide (id ∉ locked).

(** The jobs in a lease-holding state that no open attempt carries. *)
Definition stranded (d : DB) (locked : gset string) (id : string) (j : job) : bool :=
  HoldsLease (j_state j)
  && forallb (λ ia, negb (bool_decide (a_job ia.2 = id) && open_attempt ia.2)) (map_to_list (attempts d))
  && bool_decide (id ∉ locked).

Definition reclaimed (d : DB) (locked : gset string) (id : string) (j : job) : bool :=
  existsb (λ ia, bool_decide (a_job ia.2 = id) && lease_expired d locked ia.1 ia.2)
          (map_to_list (attempts d))
  || stranded d locked id j.

Definition reclaim_job (at_ : time) (j : job) : job :=
  if bool_decide (j_action j = ActionSystemReboot) then
    finish at_ { j with j_state := StateFailed; j_result_status := Some "failed"%string;
                 j_result_error_code := Some ErrorRebootNotObserved;
                 j_result_message := Some "the host did not come back with a new boot identifier within the wait"%string }
  else if bool_decide (j_state j = StateCancelRequested) then
    finish at_ { j with j_state := StateFailed; j_result_status := Some ResultStatusUnknown;
                 j_result_error_code := Some AttemptStatusLeaseExpired;
                 j_result_message := Some "the host went silent after it was asked to stop; whether the change was made on it is unknown - read the host before ordering again"%string }
  else { j with j_state := StateQueued; j_wait_reason := ""%string; j_updated_at := at_ }.

(** [ReclaimExpiredLeases]: one statement, so every part of it reads the
    tables as they were. *)
Definition ReclaimExpiredLeases (locked : gset string) : T Z :=
  in_tx (
    d ← gets id;
    modify (update_attempts (lease_expired d locked) (close_attempt AttemptStatusLeaseExpired (now d))) ;;
    ids ← update_where (reclaimed d locked) (reclaim_job (now d));
    releaseBudgets ids ;;
    mret (len ids)).

Definition ExpireOverdue : T Z :=
  in_tx (
    at_ ← gets now;
    expired ← update_where
      (λ _ j, bool_decide (j_state j ∈ [StatePlanned; StateAwaitingApproval; StateQueued])
              && bool_decide (j_expires_at j ≤ at_))
      (λ j, finish at_ { j with j_state := StateExpired; j_result_status := Some "expired"%string });
    releaseBudgets expired ;;
    mret (len expired)).
End jobs.
