(* ===== verification/JobSteps.v ===== *)
(** * JobSteps: what a transaction of the task store may do

    Every transaction is one step of the task store. [frame P d d'] bounds what
    it does to rows that were there: the states of the jobs move along [P], an
    attempt that is closed stays closed, and fencing tokens never go back. *)
From coqutil Require Import Datatypes.RecordSetters.
From S2P Require Import Prelude Bytes Text JobState Jobs.

Import OCamlLikeNotations.
Open Scope Z_scope.

Record frame (P : State → State → Prop) (d d' : DB) : Prop := {
  fr_now : now d' = now d;
  fr_jobs : ∀ id j, jobs d !! id = Some j →
    ∃ j', jobs d' !! id = Some j' ∧ P (j_state j) (j_state j') ∧ j_host j' = j_host j;
  fr_attempts : ∀ id a, attempts d !! id = Some a →
    ∃ a', attempts d' !! id = Some a' ∧ a_job a' = a_job a
          ∧ (open_attempt a' = true → open_attempt a = true);
  fr_new : ∀ id, attempts d !! id = None → attempts d' !! id = None;
  fr_owners : ∀ h o, owners d !! h = Some o → ∃ o', owners d' !! h = Some o' ∧ o_token o ≤ o_token o';
}.

Lemma frame_refl (P : State → State → Prop) d : (∀ s, P s s) → frame P d d.
Proof. intros HP. split; eauto 6 with lia. Qed.

Lemma frame_trans (P Q R : State → State → Prop) d1 d2 d3 :
  (∀ x y z, P x y → Q y z → R x z) → frame P d1 d2 → frame Q d2 d3 → frame R d1 d3.
Proof.
  intros HR [N1 J1 A1 G1 O1] [N2 J2 A2 G2 O2]. split; [congruence| | |auto|].
  - intros id j Hj. destruct (J1 id j Hj) as (j1 & Hj1 & ? & ?).
    destruct (J2 id j1 Hj1) as (j2 & ? & ? & ?). exists j2. split_and!; eauto; congruence.
  - intros id a Ha. destruct (A1 id a Ha) as (a1 & Ha1 & ? & ?).
    destruct (A2 id a1 Ha1) as (a2 & ? & ? & ?). exists a2. split_and!; auto; congruence.
  - intros h o Ho. destruct (O1 h o Ho) as (o1 & Ho1 & ?).
    destruct (O2 h o1 Ho1) as (o2 & ? & ?). exists o2. split; [done|lia].
Qed.

Lemma frame_mono (P Q : State → State → Prop) d d' : (∀ s s', P s s' → Q s s') → frame P d d' → frame Q d d'.
Proof. intros H [? J ? ? ?]. split; try done. intros id j Hj. destruct (J id j Hj) as (j' & ? & ? & ?). eauto 6. Qed.

(** [m] stays within [P] from [d], whatever it returns. *)
Definition within {A} (P : State → State → Prop) (d : DB) (m : M DB err A) : Prop :=
  wp m d (λ _ d', frame P d d') (λ _ d', frame P d d').

(** One statement more: rows written in place. *)
Section statements.
Context (P : State → State → Prop).

Lemma frame_tokens d0 d f : frame P d0 d → frame P d0 { d with tokens ::= f }.
Proof. by intros []; split. Qed.
Lemma frame_outbox d0 d f : frame P d0 d → frame P d0 { d with outbox ::= f }.
Proof. by intros []; split. Qed.
Lemma frame_approvals d0 d f : frame P d0 d → frame P d0 { d with approvals ::= f }.
Proof. by intros []; split. Qed.

Lemma frame_attempt d0 d id f :
  (∀ a, a_job (f a) = a_job a) → (∀ a, open_attempt (f a) = true → open_attempt a = true) →
  frame P d0 d → frame P d0 { d with attempts ::= alter f id }.
Proof.
  intros Hj Ho [Nn J A G O]. destruct d; cbn in *. split; cbn; try done.
  - intros i a Ha. destruct (A i a Ha) as (a' & Ha' & ? & ?). destruct (decide (id = i)) as [<-|Hne].
    + exists (f a'). rewrite lookup_alter_eq, Ha', Hj. split_and!; auto.
    + exists a'. rewrite lookup_alter_ne by done. auto.
  - intros i Hi. apply G in Hi. destruct (decide (id = i)) as [<-|Hne].
    + by rewrite lookup_alter_eq, Hi.
    + by rewrite lookup_alter_ne.
Qed.

Lemma frame_attempts d0 d p f :
  (∀ a, a_job (f a) = a_job a) → (∀ a, open_attempt (f a) = true → open_attempt a = true) →
  frame P d0 d → frame P d0 (update_attempts p f d).
Proof.
  intros Hj Ho [Nn J A G O]. destruct d; cbn in *. split; cbn; try done.
  - intros i a Ha. destruct (A i a Ha) as (a' & Ha' & ? & ?).
    exists (if p i a' then f a' else a'). rewrite map_lookup_imap, Ha'. cbn.
    destruct (p i a'); [rewrite Hj|]; auto.
  - intros i Hi. by rewrite map_lookup_imap, (G i Hi).
Qed.

Lemma frame_job d0 d id f :
  (∀ s, P s s) → (∀ j, j_host (f j) = j_host j) →
  (∀ j, jobs d !! id = Some j → P (j_state j) (j_state (f j))) →
  frame eq d0 d → frame P d0 { d with jobs ::= alter f id }.
Proof.
  intros Hr Hh Hf [Nn J A G O]. destruct d; cbn in *. split; cbn; try done. intros i j Hj. destruct (J i j Hj) as (j' & Hj' & -> & ?).
  destruct (decide (id = i)) as [<-|Hne].
  - exists (f j'). rewrite lookup_alter_eq, Hj', Hh. split_and!; auto.
  - exists j'. rewrite lookup_alter_ne by done. auto.
Qed.

Lemma frame_quiet d0 d id f :
  (∀ j, j_host (f j) = j_host j) → (∀ j, j_state (f j) = j_state j) →
  frame P d0 d → frame P d0 { d with jobs ::= alter f id }.
Proof.
  intros Hh Hf [Nn J A G O]. destruct d; cbn in *. split; cbn; try done. intros i j Hj. destruct (J i j Hj) as (j' & Hj' & ? & ?).
  destruct (decide (id = i)) as [<-|Hne].
  - exists (f j'). rewrite lookup_alter_eq, Hj', Hh, Hf. split_and!; auto.
  - exists j'. rewrite lookup_alter_ne by done. auto.
Qed.

Lemma frame_jobs_where d0 d p f :
  (∀ s, P s s) → (∀ j, j_host (f j) = j_host j) →
  (∀ id j, jobs d !! id = Some j → p id j = true → P (j_state j) (j_state (f j))) →
  frame eq d0 d → frame P d0 (update_jobs p f d).
Proof.
  intros Hr Hh Hf [Nn J A G O]. destruct d; cbn in *. split; cbn; try done. intros i j Hj. destruct (J i j Hj) as (j' & Hj' & -> & ?).
  exists (if p i j' then f j' else j'). rewrite map_lookup_imap, Hj'. cbn.
  destruct (p i j') eqn:E; [rewrite Hh|]; split_and!; auto. by eapply Hf.
Qed.
End statements.

Lemma frame_owner P d0 d h f :
  (∀ o, o_token o ≤ o_token (f o)) → frame P d0 d → frame P d0 { d with owners ::= alter f h }.
Proof.
  intros Hf [Nn J A G O]. destruct d; cbn in *. split; cbn; try done. intros i o Ho. destruct (O i o Ho) as (o' & Ho' & ?).
  destruct (decide (h = i)) as [<-|Hne].
  - exists (f o'). rewrite lookup_alter_eq, Ho'. split; [done|]. specialize (Hf o'). lia.
  - exists o'. by rewrite lookup_alter_ne.
Qed.

Lemma within_tx {A} (P : State → State → Prop) d (m : M DB err A) :
  (∀ s, P s s) → within P d m → within P d (in_tx m).
Proof.
  intros Hr Hm. unfold within, wp, in_tx in *. destruct (m d) as [[a|e] d']; [done|].
  by apply frame_refl.
Qed.

(** ** The moves of a job *)

(** A job moves along the table of transitions; and a quick host starts a
    leased job before its dispatch is written down. *)
Definition moves (s s' : State) : Prop :=
  s = s' ∨ CanTransition s s' = true ∨ (s = StateLeased ∧ s' = StateRunning).

(** The jobs no host has been given. *)
Definition waiting (s : State) : bool :=
  bool_decide (s ∈ [StatePlanned; StateAwaitingApproval; StateQueued]).

(** A move that does not put a job back to wait. *)
Definition forward (s s' : State) : Prop := moves s s' ∧ (waiting s' = true → waiting s = true).

Lemma moves_refl s : moves s s.
Proof. by left. Qed.
Lemma forward_refl s : forward s s.
Proof. split; [apply moves_refl|done]. Qed.
Hint Resolve moves_refl forward_refl : core.

Lemma moves_by s s' : CanTransition s s' = true → moves s s'.
Proof. by right; left. Qed.

Ltac moves_tac :=
  try (split; [|done]); first [by left | right; left; reflexivity | by right; right].

Lemma wp_update_where `{MapOrder} p f d (Q : list string → DB → Prop) (R : err → DB → Prop) :
  Q (select_jobs p d) (update_jobs p f d) → wp (update_where p f) d Q R.
Proof. done. Qed.

Ltac tx_step :=
  lazymatch goal with
  | |- wp (update_where _ _) _ _ _ => apply wp_update_where
  | |- wp (update_job _ _) _ _ _ => unfold update_job
  | |- wp (update_attempt _ _) _ _ _ => unfold update_attempt
  | |- wp (releaseBudgets _) _ _ _ => unfold releaseBudgets
  | |- wp (guard_fence _ _) _ _ _ => unfold guard_fence
  | |- wp (let '(_, _) := ?x in _) _ _ _ => destruct x eqn:?
  | |- wp (if bool_decide _ then _ else _) _ _ _ => case_bool_decide
  | |- wp (if ?b then _ else _) _ _ _ => destruct b eqn:?
  | |- wp (match ?x with _ => _ end) _ _ _ => destruct x eqn:?
  | _ => wp_step
  end; cbv beta.
Ltac tx_steps := repeat tx_step.

(** The last statements of a transaction first. *)
Ltac frame_tac :=
  repeat first
    [ apply frame_refl; solve [auto]
    | apply frame_attempts; [done|done|]
    | apply frame_attempt; [done|done|]
    | apply frame_quiet; [done|done|]
    | apply frame_tokens | apply frame_outbox | apply frame_approvals ].

(** The state a row is in, from the condition it was selected by. *)
Ltac state_cases :=
  repeat match goal with
    | Hs : _ && _ = true |- _ => apply andb_true_iff in Hs as [? ?]
    | Hs : bool_decide _ = true |- _ => apply bool_decide_eq_true in Hs
    | Hs : HoldsLease _ = true |- _ => apply bool_decide_eq_true in Hs
    | Hs : @elem_of State _ _ _ _ |- _ => unfold leaseHoldingStates in Hs; rewrite !elem_of_cons, elem_of_nil in Hs; destruct_or! Hs
    end; simplify_eq/=.
Ltac move_tac :=
  intros; state_cases;
  repeat match goal with
    | Hs : j_state ?j = _ |- context [j_state ?j] => rewrite Hs
    | Hs : _ = j_state ?j |- context [j_state ?j] => rewrite <- Hs
    end; try done; moves_tac.
Ltac job_tac := apply frame_job; [solve [auto]|done|move_tac|frame_tac].
Ltac jobs_tac := apply frame_jobs_where; [solve [auto]|done|move_tac|frame_tac].
Ltac op_tac := tx_steps; frame_tac; try first [job_tac | jobs_tac].

Section ops.
Context `{MapOrder}.

Lemma within_ReleaseLease d j a r : within moves d (ReleaseLease j a r).
Proof. apply within_tx; [auto|]. unfold within. op_tac. Qed.

Lemma within_FailUndelivered d j a c m : within forward d (FailUndelivered j a c m).
Proof. apply within_tx; [auto|]. unfold within. op_tac. Qed.

Lemma within_CancelUndelivered d h a r : within forward d (CancelUndelivered h a r).
Proof. unfold within, CancelUndelivered. op_tac. Qed.

Lemma within_CancelQueuedOf d c a r k : within forward d (CancelQueuedOf c a r k).
Proof. unfold within, CancelQueuedOf. op_tac. Qed.

Lemma within_ExpireOverdue d : within forward d ExpireOverdue.
Proof. apply within_tx; [auto|]. unfold within. op_tac. Qed.

Lemma within_SetWaitReason d j r : within forward d (SetWaitReason j r).
Proof.
  unfold within, SetWaitReason. tx_steps. apply frame_quiet; [|intros x; by destruct (_ && _)|frame_tac].
  intros x; by destruct (_ && _).
Qed.

Lemma within_SettleCancelTimeouts d l : within forward d (SettleCancelTimeouts l).
Proof. apply within_tx; [auto|]. unfold within. op_tac. Qed.

Lemma within_ReclaimExpiredLeases d l : within moves d (ReclaimExpiredLeases l).
Proof.
  apply within_tx; [auto|]. unfold within. tx_steps. frame_tac.
  apply frame_jobs_where; [auto| | |frame_tac].
  - intros j. unfold reclaim_job. by repeat case_bool_decide.
  - intros id j Hj Hp. assert (Hh : HoldsLease (j_state j) = true).
    { unfold reclaimed in Hp. apply orb_true_iff in Hp as [Hp|Hp].
      - apply existsb_exists in Hp as ([i a] & _ & Hp). cbn in Hp.
        apply andb_true_iff in Hp as [Hid%bool_decide_eq_true Hp]. subst id. unfold lease_expired in Hp.
        destruct d; cbn in *. rewrite Hj in Hp. destruct (a_lease_expires_at a); [|by rewrite andb_false_r in Hp].
        rewrite !andb_true_iff in Hp; tauto.
      - unfold stranded in Hp. rewrite !andb_true_iff in Hp; tauto. }
    unfold reclaim_job, HoldsLease, leaseHoldingStates in *. apply bool_decide_eq_true in Hh.
    rewrite !elem_of_cons, elem_of_nil in Hh.
    repeat case_bool_decide; destruct_or! Hh; cbn; rewrite Hh; try done; moves_tac.
Qed.

Lemma within_requestCancel d j a r :
  (∀ x, jobs d !! j = Some x → forward (j_state x) StateCancelRequested) →
  within forward d (requestCancel j a r).
Proof.
  intros Hm. unfold within, requestCancel. op_tac.
  apply frame_job; [auto|done|by apply Hm|frame_tac].
Qed.

Lemma within_Cancel d j a r : within forward d (Cancel j a r).
Proof.
  unfold within, Cancel. tx_step. tx_step. tx_step; [|by frame_tac].
  apply wp_bind.
  assert (Hk : within forward d match j_state j0 with
       | StatePlanned | StateAwaitingApproval | StateQueued | StateLeased =>
           at_ ← gets now; update_job j (cancel_job a r at_) ;; releaseBudgets [j]
       | StateDispatched | StateRunning => requestCancel j a r
       | _ => fail ErrConflict
       end).
  { destruct (j_state j0) eqn:Es; try (apply within_requestCancel; move_tac); unfold within; op_tac. }
  eapply wp_mono; [exact Hk| |done]; cbv beta. intros ? d' Hd'. by tx_steps.
Qed.

Lemma within_RecordCancelAck d j r o p f : within forward d (RecordCancelAck j r o p f).
Proof.
  unfold RecordCancelAck. destruct (negb (KnownCancelOutcome o)); [by frame_tac|].
  apply within_tx; [auto|]. unfold within. tx_steps; frame_tac.
  all: apply frame_job; [auto|done| |frame_tac].
  all: destruct d; cbn in *; intros x; rewrite lookup_alter_eq; intros (y & Hy & ->)%fmap_Some.
  all: simplify_eq; match goal with Hs : j_state ?y = _ |- _ => destruct y; cbn in *; subst; moves_tac end.
Qed.

Lemma within_SetLockWait d a h b : within forward d (SetLockWait a h b).
Proof.
  unfold within, SetLockWait. tx_steps; [|frame_tac].
  apply frame_quiet; [| |frame_tac]; intros x; by case_bool_decide.
Qed.

Lemma within_AcceptAttempt d a h e : within forward d (AcceptAttempt a h e).
Proof. unfold within, AcceptAttempt. op_tac. Qed.

Lemma within_RenewAttemptLease d a h e : within forward d (RenewAttemptLease a h e).
Proof. unfold within, RenewAttemptLease. op_tac. Qed.

Lemma live_attempt_Some d a h states x j :
  live_attempt d a h states = Some (x, j) →
  attempts d !! a = Some x ∧ jobs d !! a_job x = Some j ∧ j_host j = h
  ∧ open_attempt x = true ∧ j_state j ∈ states.
Proof.
  unfold live_attempt, attempt_job. destruct (attempts d !! a) as [y|]; [|done]. cbn.
  destruct (jobs d !! a_job y) as [j'|] eqn:E; [|done]. cbn.
  destruct (_ && _) eqn:Eb; [|done]. intros [= <- <-]. state_cases. done.
Qed.

Lemma within_MarkRunning d a h : within forward d (MarkRunning a h).
Proof.
  apply within_tx; [auto|]. unfold within. tx_steps; frame_tac.
  match goal with Hl : live_attempt _ _ _ _ = _ |- _ => apply live_attempt_Some in Hl as (? & ? & ? & ? & ?) end.
  job_tac.
Qed.

Lemma within_dispatchAfterSettlement d j : within forward d (dispatchAfterSettlement j).
Proof.
  unfold within, dispatchAfterSettlement. tx_steps; frame_tac.
  apply frame_quiet; [| |frame_tac]; intros x; by case_bool_decide.
Qed.

Lemma within_committed d m : within forward d m → within forward d (committed m).
Proof.
  unfold within, wp, committed. destruct (m d) as [[[e|]|e] d']; try done.
  intros _. apply frame_refl; auto.
Qed.

Lemma within_MarkDispatchedWithLease d j a f l : within forward d (MarkDispatchedWithLease j a f l).
Proof.
  apply within_committed. unfold within. tx_steps; frame_tac; try job_tac.
  all: eapply wp_mono; [apply within_dispatchAfterSettlement| |done]; cbv beta.
  all: intros ? d' Hd'; tx_steps; [done|by apply frame_attempt].
Qed.

Lemma within_RecordHandover d j a s : within forward d (RecordHandover j a s).
Proof.
  unfold within, RecordHandover. tx_steps.
  apply frame_job; [auto| | |].
  - intros x. by case_bool_decide.
  - intros x _. case_bool_decide as Hx; [cbn; rewrite Hx; moves_tac|auto].
  - apply frame_attempt; [| |by apply frame_refl]; intros x; by destruct (open_attempt x) eqn:E; rewrite ?E.
Qed.

Lemma within_mfor {A} (P : State → State → Prop) (l : list A) body d :
  (∀ s, P s s) → (∀ x y z, P x y → P y z → P x z) →
  (∀ x d', x ∈ l → frame P d d' → within P d' (body x)) → within P d (mfor l body).
Proof.
  intros Hr Ht Hb.
  assert (Hgen : ∀ l' d', l' ⊆ l → frame P d d' → within P d' (mfor l' body)).
  { intros l'. induction l' as [|x l' IH]; intros d' Hl Hd; [by apply frame_refl|].
    cbn. apply wp_bind. eapply wp_mono; [apply Hb; [set_solver|done]| |done]; cbv beta.
    intros [] d'' Hd''. eapply wp_mono; [apply IH; [set_solver|by eapply frame_trans]| |];
      cbv beta; intros ? d3 ?; by eapply frame_trans. }
  apply Hgen; [done|by apply frame_refl].
Qed.

(** Jobs a host holds, asked to stop. *)
Definition stopping (s s' : State) : Prop :=
  s' = s ∨ (s ∈ [StateDispatched; StateRunning] ∧ s' = StateCancelRequested).

Lemma stopping_forward s s' : stopping s s' → forward s s'.
Proof. intros [->|[Hs ->]]; [auto|]. state_cases; moves_tac. Qed.

Lemma stopping_trans x y z : stopping x y → stopping y z → stopping x z.
Proof.
  intros [->|[Hx ->]] [->|[Hy ->]]; unfold stopping; auto.
Qed.

Lemma select_jobs_elem p d id :
  id ∈ select_jobs p d ↔ ∃ j, jobs d !! id = Some j ∧ p id j = true.
Proof.
  unfold select_jobs. rewrite list_elem_of_fmap. split.
  - intros ([i j] & -> & [Hp Hin]%list_elem_of_filter). rewrite range_order_perm in Hin.
    apply elem_of_map_to_list in Hin. eauto.
  - intros (j & Hj & Hp). exists (id, j). split; [done|]. apply list_elem_of_filter.
    split; [done|]. rewrite range_order_perm. by apply elem_of_map_to_list.
Qed.

Lemma order_by_created_elem d ids id : id ∈ order_by_created d ids ↔ id ∈ ids.
Proof. unfold order_by_created. by rewrite sort_stable_perm. Qed.

Lemma within_RequestCancelOf d c a r k : within forward d (RequestCancelOf c a r k).
Proof.
  eapply (wp_mono _ _ (λ _ d', frame stopping d d') _ (λ _ d', frame stopping d d'));
    [|intros ? ?; apply frame_mono, stopping_forward..].
  unfold RequestCancelOf. tx_step. tx_step. tx_step.
  set (held := order_by_created _ _).
  cut (within stopping d (mfor held (λ id, requestCancel id a r))).
  { intros Hw. eapply wp_mono; [exact Hw| |auto]; cbv beta. intros ? d' Hd'. by tx_steps. }
  apply within_mfor; [by left|exact stopping_trans|].
  intros id d' Hid Hd. unfold held in Hid. rewrite order_by_created_elem in Hid.
  apply select_jobs_elem in Hid as (j & Hj & Hp). apply andb_true_iff in Hp as [Hp _].
  apply andb_true_iff in Hp as [_ Hp]. apply bool_decide_eq_true in Hp.
  destruct (fr_jobs _ _ _ Hd _ _ Hj) as (j' & Hj' & Hs & _).
  unfold within, requestCancel; tx_steps; [apply frame_outbox|apply frame_refl; by left].
  apply frame_job; [by left|done| |by apply frame_refl].
  intros x Hx. rewrite Hj' in Hx. injection Hx as <-. cbn.
  destruct Hs as [->|[_ ->]]; [by right|by left].
Qed.

(** ** Results *)

(** What a result does to the state of its job. *)
Definition settles (late : bool) (asked s s' : State) : Prop :=
  s' = s ∨ (s' = asked ∧ Terminal s = false ∧ (late = true ∨ Validate s asked = true)).

Definition late_attempt (d : DB) (attemptID : string) : bool :=
  match attempts d !! attemptID with
  | Some a => bool_decide (a_status a = Some AttemptStatusLeaseExpired)
  | None => false
  end.

Lemma fate_settles current asked late :
  fateOfResult current asked late = fateSettles →
  Terminal current = false ∧ (late = true ∨ Validate current asked = true).
Proof.
  unfold fateOfResult. destruct (Terminal current); [done|]. destruct late; [auto|].
  destruct (Validate current asked); auto. done.
Qed.

Lemma late_disposition status r :
  lateResultDisposition (default ""%string status) = (r, true) → status = Some AttemptStatusLeaseExpired.
Proof.
  unfold lateResultDisposition. repeat case_bool_decide; try done. intros _.
  destruct status; cbn in *; [congruence|unfold AttemptStatusLeaseExpired in *; congruence].
Qed.

Lemma open_write_result r limit t a : open_attempt (write_result r limit t a) = true → open_attempt a = true.
Proof. unfold write_result. by destruct (clampOutput _ _ _ _) as [[? ?] ?]. Qed.
Lemma job_write_result r limit t a : a_job (write_result r limit t a) = a_job a.
Proof. unfold write_result. by destruct (clampOutput _ _ _ _) as [[? ?] ?]. Qed.
Lemma open_late_result r t a : open_attempt (late_result r t a) = true → open_attempt a = true.
Proof. unfold late_result. destruct (open_attempt a) eqn:E; [done|]. by rewrite E. Qed.
Lemma job_late_result r t a : a_job (late_result r t a) = a_job a.
Proof. unfold late_result. by destruct (open_attempt a). Qed.

Lemma within_RecordResult d j aid r asked f t :
  within (settles (late_attempt d aid) asked) d (RecordResult j aid r asked f t).
Proof.
  assert (Hr : ∀ s, settles (late_attempt d aid) asked s s) by (intros; by left).
  apply within_tx; [done|]. unfold within. tx_steps; try (by apply frame_refl).
  all: repeat first [apply frame_tokens
    | apply frame_attempt; [intros; first [apply job_write_result|apply job_late_result]
                           |intros ?; first [apply open_write_result|apply open_late_result]|by apply frame_refl] ].
  all: apply frame_job; [done|done| |].
  all: try (repeat first [apply frame_attempts; [done|done|]
    | apply frame_attempt; [intros; apply job_write_result|intros ?; apply open_write_result|by apply frame_refl] ]).
  all: intros x Hx; assert (x = j0) as -> by (revert Hx; destruct d; cbn in *; congruence).
  all: match goal with Hf : fateOfResult _ _ _ = fateSettles, Hd : lateResultDisposition _ = (_, ?b) |- _ =>
         apply fate_settles in Hf as [Ht Hv]; assert (Hl : b = true → late_attempt d aid = true)
           by (intros Hb; try discriminate Hb; apply late_disposition in Hd; unfold late_attempt;
               match goal with Ha : attempts _ !! _ = Some _ |- _ => rewrite Ha end;
               by apply bool_decide_eq_true)
       end.
  all: right; split; [done|]; split; [done|]; destruct Hv; auto.
Qed.

(** ** Ordering, approving, leasing *)

Lemma frame_new_job P d0 d id j :
  jobs d !! id = None → frame P d0 d → frame P d0 { d with jobs ::= <[id := j]> }.
Proof.
  intros Hn [Nn J A G O]. destruct d; cbn in *. split; cbn; try done.
  intros i x Hx. destruct (J i x Hx) as (x' & Hx' & ?). exists x'.
  rewrite lookup_insert_ne; [done|]. congruence.
Qed.

(** An identifier drawn is one no row has. *)
Lemma within_Create d ov dt ds newID newKey spec :
  jobs d !! newID = None → within eq d (Create ov dt ds newID newKey spec).
Proof.
  intros Hn. unfold within, Create. tx_steps; try (by apply frame_refl).
  apply frame_new_job; [done|by apply frame_refl].
Qed.

Definition approving (s s' : State) : Prop := s' = s ∨ (s = StateAwaitingApproval ∧ s' = StateQueued).

Lemma approving_forward s s' : approving s s' → forward s s'.
Proof. intros [->|[-> ->]]; [auto|moves_tac]. Qed.

Lemma within_Approve d j a r : within approving d (Approve j a r).
Proof.
  assert (Hr : ∀ s, approving s s) by (intros; by left).
  unfold within, Approve. tx_steps.
  all: try (apply frame_approvals; by apply frame_refl).
  all: match goal with He : _ = true |- _ => destruct (jobs _ !! j) as [x|] eqn:E in He; [|done] end.
  all: match goal with He : _ && _ = true |- _ => apply andb_true_iff in He as [He _]; apply bool_decide_eq_true in He end.
  all: apply frame_job; [done|done| |apply frame_approvals; by apply frame_refl].
  all: intros y Hy; right; split; [|done]; congruence.
Qed.

Lemma within_owner_update P d h s i t f :
  (∀ x, P x x) → (∀ o, o_token (f o) = o_token o) → within P d (owner_update h s i t f).
Proof.
  intros Hr Hf. unfold within, owner_update. tx_steps; try (by apply frame_refl).
  apply frame_owner; [|by apply frame_refl]. intros x. rewrite Hf. lia.
Qed.

Lemma within_RenewOwnership d h s i t ttl : within eq d (RenewOwnership h s i t ttl).
Proof. unfold within, RenewOwnership. tx_step. tx_step. by apply within_owner_update. Qed.

Lemma within_ReleaseOwnership d h s t : within eq d (ReleaseOwnership h s t).
Proof. by apply within_owner_update. Qed.

Lemma within_SweepExpiredOwners d : within eq d SweepExpiredOwners.
Proof.
  unfold within, SweepExpiredOwners. tx_steps. destruct d; split; cbn; eauto.
  intros h o Ho. rewrite lookup_fmap, Ho. eexists. split; [done|]. by destruct (_ && _).
Qed.

Lemma within_ClaimSession d h s i ttl : within eq d (ClaimSession h s i ttl).
Proof.
  unfold within, ClaimSession. tx_steps; [by apply frame_refl|..].
  all: destruct d; split; cbn; eauto; cbn in *.
  all: intros x y Hy; destruct (decide (h = x)) as [<-|Hne].
  all: rewrite ?lookup_insert_eq, ?lookup_insert_ne by done; eauto with lia.
  all: eexists; split; [done|]; cbn; rewrite Hy; lia.
Qed.
End ops.

(** ** Leasing *)

(** A row of attempts nobody has is added: the bound without [fr_new]. *)
Record effect (P : State → State → Prop) (d d' : DB) : Prop := {
  ef_jobs : ∀ id j, jobs d !! id = Some j →
    ∃ j', jobs d' !! id = Some j' ∧ P (j_state j) (j_state j') ∧ j_host j' = j_host j;
  ef_attempts : ∀ id a, attempts d !! id = Some a →
    ∃ a', attempts d' !! id = Some a' ∧ a_job a' = a_job a
          ∧ (open_attempt a' = true → open_attempt a = true);
  ef_owners : ∀ h o, owners d !! h = Some o → ∃ o', owners d' !! h = Some o' ∧ o_token o ≤ o_token o';
}.

Lemma frame_effect P d d' : frame P d d' → effect P d d'.
Proof. intros [? ? ? ? ?]. by split. Qed.

Lemma effect_mono (P Q : State → State → Prop) d d' :
  (∀ s s', P s s' → Q s s') → effect P d d' → effect Q d d'.
Proof. intros H [J ? ?]. split; try done. intros id j Hj. destruct (J id j Hj) as (j' & ? & ? & ?). eauto 6. Qed.

(** At most one open attempt carries a job, and no open attempt carries one
    that waits in the panel. *)
Record carried (d : DB) : Prop := {
  c_one : ∀ i1 i2 a1 a2, attempts d !! i1 = Some a1 → attempts d !! i2 = Some a2 →
    open_attempt a1 = true → open_attempt a2 = true → a_job a1 = a_job a2 → i1 = i2;
  c_job : ∀ i a, attempts d !! i = Some a → open_attempt a = true →
    ∃ j, jobs d !! a_job a = Some j ∧ waiting (j_state j) = false;
}.

Definition no_open (d : DB) (id : string) : Prop :=
  ∀ i a, attempts d !! i = Some a → a_job a = id → open_attempt a = false.

Lemma carried_waiting d id j :
  carried d → jobs d !! id = Some j → waiting (j_state j) = true → no_open d id.
Proof.
  intros [_ Cj] Hj Hw i a Ha <-. destruct (open_attempt a) eqn:E; [|done].
  destruct (Cj i a Ha E) as (j' & Hj' & Hw'). congruence.
Qed.

Lemma carried_requeue (P : State → State → Prop) d d' :
  carried d → frame P d d' →
  (∀ id j j', jobs d !! id = Some j → jobs d' !! id = Some j' →
     waiting (j_state j') = true → waiting (j_state j) = true ∨ no_open d' id) →
  carried d'.
Proof.
  intros [C1 C2] [_ J A G _] Hq.
  assert (Back : ∀ i a', attempts d' !! i = Some a' → open_attempt a' = true →
    ∃ a, attempts d !! i = Some a ∧ a_job a = a_job a' ∧ open_attempt a = true).
  { intros i a' Ha' Ho. destruct (attempts d !! i) as [a|] eqn:E.
    - destruct (A i a E) as (a'' & Ha'' & Hj & Hop). assert (a'' = a') as -> by congruence. eauto.
    - rewrite (G i E) in Ha'. done. }
  split.
  - intros i1 i2 a1 a2 H1 H2 O1 O2 Hj. destruct (Back _ _ H1 O1) as (b1 & B1 & J1 & P1).
    destruct (Back _ _ H2 O2) as (b2 & B2 & J2 & P2). eapply C1; eauto. congruence.
  - intros i a' Ha' Ho. destruct (Back _ _ Ha' Ho) as (a & Ha & Hj & Hop).
    destruct (C2 i a Ha Hop) as (j & Hjob & Hw). destruct (J _ _ Hjob) as (j' & Hjob' & _ & _).
    rewrite Hj in Hjob, Hjob'. exists j'. split; [done|].
    destruct (waiting (j_state j')) eqn:E; [|done].
    destruct (Hq _ _ _ Hjob Hjob' E) as [|Hno]; [congruence|].
    rewrite (Hno i a' Ha' eq_refl) in Ho. done.
Qed.

Lemma carried_forward d d' : carried d → frame forward d d' → carried d'.
Proof.
  intros C F. eapply carried_requeue; [exact C|exact F|]. intros id j j' Hj Hj' Hw.
  destruct (fr_jobs _ _ _ F _ _ Hj) as (j'' & Hj'' & [_ Hf] & _). left. apply Hf. congruence.
Qed.

(** A job of the queue, taken. *)
Definition leasing (s s' : State) : Prop := s' = s ∨ (s = StateQueued ∧ s' = StateLeased).

Lemma leasing_trans x y z : leasing x y → leasing y z → leasing x z.
Proof. intros [->|[-> ->]] [->|[? ->]]; unfold leasing; auto. Qed.

Section leasing.
Context (g : string) (l : Z) (newID : string → string).

(** One task taken from the queue, with an attempt of its own. *)
Record took (id : string) (d d1 : DB) : Prop := {
  tk_job : ∃ j j1, jobs d !! id = Some j ∧ j_state j = StateQueued
    ∧ jobs d1 !! id = Some j1 ∧ j_state j1 = StateLeased ∧ j_host j1 = j_host j;
  tk_jobs : ∀ i, i ≠ id → jobs d1 !! i = jobs d !! i;
  tk_fresh : attempts d !! newID id = None;
  tk_attempt : ∃ a, attempts d1 !! newID id = Some a ∧ a_job a = id;
  tk_attempts : ∀ i, i ≠ newID id → attempts d1 !! i = attempts d !! i;
  tk_owners : owners d1 = owners d;
}.

Lemma lease_one_took id d j :
  jobs d !! id = Some j → j_state j = StateQueued → attempts d !! newID id = None →
  wp (lease_one g l newID id) d (λ _ d1, took id d d1) (λ _ _, False).
Proof.
  intros Hj Hs Hf. unfold lease_one, update_job. tx_steps. destruct d; cbn in *. split; cbn; try done.
  - exists j. eexists. split; [done|]. split; [done|]. rewrite lookup_alter_eq, Hj. by split.
  - intros i Hi. by rewrite lookup_alter_ne.
  - rewrite lookup_insert_eq. by eexists.
  - intros i Hi. by rewrite lookup_insert_ne.
Qed.

(** What each task taken keeps, the batch keeps. *)
Lemma lease_all_inv (I : DB → Prop) ids d :
  (∀ d d1 id, I d → took id d d1 → I d1) → I d → NoDup ids →
  (∀ id, id ∈ ids → ∃ j, jobs d !! id = Some j ∧ j_state j = StateQueued) →
  (∀ id, id ∈ ids → attempts d !! newID id = None) →
  (∀ i1 i2, i1 ∈ ids → i2 ∈ ids → newID i1 = newID i2 → i1 = i2) →
  wp (lease_all g l newID ids) d (λ _ d', I d') (λ _ _, False).
Proof.
  intros HI. revert d. induction ids as [|id ids IH]; intros d Hd Hnd Hq Hf Hinj; [by apply wp_ret|].
  apply NoDup_cons in Hnd as [Hid Hnd]. cbn [lease_all]. apply wp_bind.
  destruct (Hq id) as (j & Hj & Hs); [set_solver|].
  eapply wp_mono; [apply (lease_one_took id d j); [done|done|apply Hf; set_solver]| |done]; cbv beta.
  intros one d1 Tk. apply wp_bind. eapply wp_mono; [apply (IH d1)| |done]; cbv beta.
  - by eapply HI.
  - done.
  - intros i Hi. rewrite (tk_jobs _ _ _ Tk) by set_solver. apply Hq. set_solver.
  - intros i Hi. rewrite (tk_attempts _ _ _ Tk); [apply Hf; set_solver|]. intros Hx.
    apply Hinj in Hx; [|set_solver..]. set_solver.
  - intros i1 i2 ? ?. apply Hinj; set_solver.
  - intros more d2 H2. by apply wp_ret.
Qed.

Lemma took_effect id d0 d d1 : effect leasing d0 d → took id d d1 → effect leasing d0 d1.
Proof.
  intros [J A O] [(j & j1 & Hj & Hs & Hj1 & Hs1 & Hh) Tj Tf _ Ta To]. split.
  - intros i x Hx. destruct (J i x Hx) as (y & Hy & Hp & Hhost). destruct (decide (i = id)) as [->|N].
    + assert (y = j) as -> by congruence. exists j1. split_and!; [done| |congruence].
      eapply leasing_trans; [exact Hp|]. right. split; congruence.
    + exists y. by rewrite Tj.
  - intros i x Hx. destruct (A i x Hx) as (y & Hy & ? & ?). exists y. rewrite Ta by congruence. auto.
  - rewrite To. exact O.
Qed.

Lemma took_carried id d d1 : carried d → took id d d1 → carried d1.
Proof.
  intros C [(j & j1 & Hj & Hs & Hj1 & Hs1 & Hh) Tj Tf (a1 & A1 & Ajob) Ta To].
  assert (Hno : no_open d id) by (eapply carried_waiting; [exact C|exact Hj|by rewrite Hs]).
  split.
  - intros i1 i2 x1 x2 H1 H2 P1 P2 Hx.
    destruct (decide (i1 = newID id)) as [->|N1], (decide (i2 = newID id)) as [->|N2]; [done|..].
    + rewrite Ta in H2 by done. assert (x1 = a1) as -> by congruence.
      rewrite (Hno i2 x2 H2) in P2; [done|congruence].
    + rewrite Ta in H1 by done. assert (x2 = a1) as -> by congruence.
      rewrite (Hno i1 x1 H1) in P1; [done|congruence].
    + rewrite Ta in H1, H2 by done. by eapply (c_one _ C).
  - intros i x Hx Px. destruct (decide (i = newID id)) as [->|N].
    + assert (x = a1) as -> by congruence. rewrite Ajob. exists j1. by rewrite Hs1.
    + rewrite Ta in Hx by done. destruct (c_job _ C i x Hx Px) as (y & Hy & Hw).
      exists y. rewrite Tj; [done|]. intros Heq. rewrite Heq in Hy.
      assert (y = j) as -> by congruence. by rewrite Hs in Hw.
Qed.
End leasing.

Lemma select_jobs_NoDup `{MapOrder} p d : NoDup (select_jobs p d).
Proof.
  unfold select_jobs. eapply sublist_NoDup; [|apply fmap_sublist, sublist_filter].
  rewrite range_order_perm. apply NoDup_fst_map_to_list.
Qed.

Lemma leasable_elem `{MapOrder} d ids k id :
  id ∈ leasable d ids k → ∃ j, jobs d !! id = Some j ∧ j_state j = StateQueued ∧ now d < j_expires_at j
                              ∧ id ∈ ids ∧ id ∉ k.
Proof.
  unfold leasable. rewrite order_by_created_elem, select_jobs_elem. intros (j & Hj & Hp).
  exists j. rewrite !andb_true_iff, !bool_decide_eq_true in Hp. naive_solver.
Qed.

Lemma leasable_NoDup `{MapOrder} d ids k : NoDup (leasable d ids k).
Proof. unfold leasable, order_by_created. rewrite sort_stable_perm. apply select_jobs_NoDup. Qed.
