(* ===== verification/JobProps.v ===== *)
(** * JobProps: the promises of the task store

    The store as a state machine - a step is one transaction, or the world
    around it moving on - and what holds in every state it can reach. *)
From coqutil Require Import Datatypes.RecordSetters.
From S2P Require Import Prelude Bytes Text JobState Jobs JobSteps.

Import OCamlLikeNotations.
Open Scope Z_scope.

Inductive call :=
| DoCreate (newID newKey : string) (spec : Spec)
| DoApprove (jobID actor reason : string)
| DoCancel (jobID actor reason : string)
| DoCancelUndelivered (hostID actor reason : string)
| DoCancelQueuedOf (campaignID actor reason : string) (keep : list string)
| DoRequestCancelOf (campaignID actor reason : string) (keep : list string)
| DoRecordCancelAck (jobID : string) (revision : Z) (outcome phase : string) (fence : Fence)
| DoSettleCancelTimeouts (locked : gset string)
| DoLeaseJobs (gatewayID : string) (jobIDs : list string) (lease : Z) (newID : string → string) (locked : gset string)
| DoSetWaitReason (jobID reason : string)
| DoMarkDispatched (jobID attemptID : string) (fence : Fence) (lease : Z)
| DoRecordHandover (jobID attemptID sessionID : string)
| DoAcceptAttempt (attemptID hostID : string) (lease : Z)
| DoSetLockWait (attemptID hostID blocker : string)
| DoMarkRunning (attemptID hostID : string)
| DoFailUndelivered (jobID attemptID code message : string)
| DoReleaseLease (jobID attemptID reason : string)
| DoRenewAttemptLease (attemptID hostID : string) (extension : Z)
| DoRecordResult (jobID attemptID : string) (result : Result) (jobState : State) (fence : Fence) (trail : option err)
| DoReclaim (locked : gset string)
| DoExpire
| DoClaimSession (hostID sessionID instanceID : string) (ttl : Z)
| DoRenewOwnership (hostID sessionID instanceID : string) (token ttl : Z)
| DoReleaseOwnership (hostID sessionID : string) (token : Z)
| DoSweepOwners
| World (at_ : time) (open : gmap string (string * option time)) (held : gset string).

Section props.
Context `{MapOrder} (order_valid : Spec → bool) (default_timeout : string → Z) (destructive : string → bool).

(** The methods that take the caller's transaction are rolled back by it. *)
Definition invoke (c : call) (d : DB) : DB :=
  match c with
  | DoCreate newID newKey spec => (in_tx (Create order_valid default_timeout destructive newID newKey spec) d).2
  | DoApprove j a r => (in_tx (Approve j a r) d).2
  | DoCancel j a r => (in_tx (Cancel j a r) d).2
  | DoCancelUndelivered h a r => (in_tx (CancelUndelivered h a r) d).2
  | DoCancelQueuedOf c a r k => (in_tx (CancelQueuedOf c a r k) d).2
  | DoRequestCancelOf c a r k => (in_tx (RequestCancelOf c a r k) d).2
  | DoRecordCancelAck j r o p f => (RecordCancelAck j r o p f d).2
  | DoSettleCancelTimeouts l => (SettleCancelTimeouts l d).2
  | DoLeaseJobs g ids l n k => (LeaseJobs g ids l n k d).2
  | DoSetWaitReason j r => (SetWaitReason j r d).2
  | DoMarkDispatched j a f l => (MarkDispatchedWithLease j a f l d).2
  | DoRecordHandover j a s => (in_tx (RecordHandover j a s) d).2
  | DoAcceptAttempt a h l => (AcceptAttempt a h l d).2
  | DoSetLockWait a h b => (SetLockWait a h b d).2
  | DoMarkRunning a h => (MarkRunning a h d).2
  | DoFailUndelivered j a c m => (FailUndelivered j a c m d).2
  | DoReleaseLease j a r => (ReleaseLease j a r d).2
  | DoRenewAttemptLease a h e => (RenewAttemptLease a h e d).2
  | DoRecordResult j a r s f t => (RecordResult j a r s f t d).2
  | DoReclaim l => (ReclaimExpiredLeases l d).2
  | DoExpire => (ExpireOverdue d).2
  | DoClaimSession h s i ttl => (ClaimSession h s i ttl d).2
  | DoRenewOwnership h s i t ttl => (RenewOwnership h s i t ttl d).2
  | DoReleaseOwnership h s t => (ReleaseOwnership h s t d).2
  | DoSweepOwners => (SweepExpiredOwners d).2
  | World at_ open held => mkDB at_ (jobs d) (attempts d) (approvals d) (owners d) open held (outbox d)
  end.

(** The identifiers a call draws are new, each its own. *)
Definition draws (c : call) (d : DB) : Prop :=
  match c with
  | DoCreate newID _ _ => jobs d !! newID = None
  | DoLeaseJobs _ ids _ newID k =>
      (∀ id, id ∈ leasable d ids k → attempts d !! newID id = None)
      ∧ (∀ i1 i2, i1 ∈ leasable d ids k → i2 ∈ leasable d ids k → newID i1 = newID i2 → i1 = i2)
  | _ => True
  end.

(** How the states may move under a call. *)
Definition rel (c : call) (d : DB) : State → State → Prop :=
  match c with
  | DoRecordResult _ aid _ asked _ _ => settles (late_attempt d aid) asked
  | DoReleaseLease _ _ _ | DoReclaim _ => moves
  | _ => forward
  end.

Definition is_lease (c : call) : bool := match c with DoLeaseJobs _ _ _ _ _ => true | _ => false end.

Definition is_world (c : call) : bool := match c with World _ _ _ => true | _ => false end.

Lemma within_snd {A} P d (m : M DB err A) : within P d m → frame P d (m d).2.
Proof. unfold within, wp. by destruct (m d) as [[] ?]. Qed.

Lemma eq_forward s s' : s = s' → forward s s'.
Proof. intros ->. auto. Qed.

Ltac by_eq L := apply (frame_mono eq); [apply eq_forward|]; apply within_snd, L.
Ltac by_tx L := apply within_snd, within_tx; [auto|apply L].

Lemma call_frame c d :
  draws c d → is_lease c = false → (∀ t o h, c ≠ World t o h) → frame (rel c d) d (invoke c d).
Proof.
  intros Hd Hl Hw. destruct c; try done; cbn [invoke rel].
  - apply (frame_mono eq); [apply eq_forward|]. apply within_snd, within_tx; [done|]. by apply within_Create.
  - apply (frame_mono approving); [apply approving_forward|]. apply within_snd, within_tx; [by left|].
    apply within_Approve.
  - by_tx within_Cancel.
  - by_tx within_CancelUndelivered.
  - by_tx within_CancelQueuedOf.
  - by_tx within_RequestCancelOf.
  - apply within_snd, within_RecordCancelAck.
  - apply within_snd, within_SettleCancelTimeouts.
  - apply within_snd, within_SetWaitReason.
  - apply within_snd, within_MarkDispatchedWithLease.
  - by_tx within_RecordHandover.
  - apply within_snd, within_AcceptAttempt.
  - apply within_snd, within_SetLockWait.
  - apply within_snd, within_MarkRunning.
  - apply within_snd, within_FailUndelivered.
  - apply within_snd, within_ReleaseLease.
  - apply within_snd, within_RenewAttemptLease.
  - apply within_snd, within_RecordResult.
  - apply within_snd, within_ReclaimExpiredLeases.
  - apply within_snd, within_ExpireOverdue.
  - by_eq within_ClaimSession.
  - by_eq within_RenewOwnership.
  - by_eq within_ReleaseOwnership.
  - by_eq within_SweepExpiredOwners.
  - by destruct (Hw at_ open held).
Qed.

Lemma lease_inv (I : DB → Prop) g ids l newID k d :
  (∀ d d1 id, I d → took newID id d d1 → I d1) → I d → draws (DoLeaseJobs g ids l newID k) d →
  I (invoke (DoLeaseJobs g ids l newID k) d).
Proof.
  intros HI Hd [Hf Hinj]. cbn [invoke]. unfold LeaseJobs, in_tx.
  pose proof (lease_all_inv g l newID I (leasable d ids k) d HI Hd (leasable_NoDup _ _ _)) as Hw.
  unfold wp, gets, mbind, M_bind in *.
  destruct (lease_all g l newID (leasable d ids k) d) as [[a|e] d']; [apply Hw; try done|done].
  intros id Hid. apply leasable_elem in Hid as (j & ? & ? & _). eauto.
Qed.

Lemma call_effect c d :
  draws c d → effect (if is_lease c then leasing else rel c d) d (invoke c d).
Proof.
  intros Hd. destruct (is_lease c) eqn:E.
  - destruct c; try done. apply lease_inv; [|split; unfold leasing; eauto 7 with lia|done].
    intros d1 d2 id. apply took_effect.
  - destruct (decide (is_world c = true)) as [Hw|Hw].
    + destruct c; try done. cbn. split; cbn; eauto 7 with lia.
    + apply frame_effect, call_frame; try done. intros t o h ->. done.
Qed.

Lemma leasing_forward s s' : leasing s s' → forward s s'.
Proof. intros [->|[-> ->]]; [auto|moves_tac]. Qed.

(** The step relation: one call, its identifiers drawn. *)
Definition step (d d' : DB) : Prop := ∃ c, draws c d ∧ d' = invoke c d.

(** C9: every transaction moves a job along the table of transitions or
    leaves its state alone, with two exceptions the code makes on purpose: a
    leased job is started by a host quicker than the record of its dispatch,
    and the result of an attempt the panel had given up on settles its job
    from any state that is not final. No row of a job disappears. *)
Theorem every_move_is_a_transition c d id j :
  draws c d → jobs d !! id = Some j →
  ∃ j', jobs (invoke c d) !! id = Some j' ∧ j_host j' = j_host j
    ∧ (j_state j' = j_state j
       ∨ CanTransition (j_state j) (j_state j') = true
       ∨ (j_state j = StateLeased ∧ j_state j' = StateRunning)
       ∨ (∃ jobID attemptID r asked f t, c = DoRecordResult jobID attemptID r asked f t
            ∧ late_attempt d attemptID = true ∧ Terminal (j_state j) = false ∧ j_state j' = asked)).
Proof.
  intros Hd Hj. destruct (ef_jobs _ _ _ (call_effect c d Hd) id j Hj) as (j' & Hj' & Hp & Hh).
  exists j'. split; [done|]. split; [done|].
  assert (Hm : moves (j_state j) (j_state j') → j_state j' = j_state j
    ∨ CanTransition (j_state j) (j_state j') = true ∨ (j_state j = StateLeased ∧ j_state j' = StateRunning)).
  { intros [?|[?|?]]; [left; by symmetry|by right; left|by right; right]. }
  destruct (is_lease c) eqn:E.
  - apply leasing_forward in Hp as [Hp _]. apply Hm in Hp as [?|[?|?]]; auto.
  - destruct c; cbn [rel] in Hp; try (destruct Hp as [Hp _]); try (apply Hm in Hp as [?|[?|?]]; by auto).
    destruct Hp as [?|(-> & Ht & [Hl|Hv])]; [by left|do 3 right; by repeat eexists|].
    unfold Validate in Hv. case_bool_decide; [left; congruence|]. auto.
Qed.

Lemma final_move s s' : Terminal s = true → moves s s' → s' = s.
Proof. intros Ht [?|[Hc|[-> _]]]; [done| |done]. by destruct s. Qed.

Lemma call_final c d id j :
  draws c d → jobs d !! id = Some j → Terminal (j_state j) = true →
  ∃ j', jobs (invoke c d) !! id = Some j' ∧ j_state j' = j_state j.
Proof.
  intros Hd Hj Ht. destruct (ef_jobs _ _ _ (call_effect c d Hd) id j Hj) as (j' & Hj' & Hp & Hh).
  exists j'. split; [done|]. destruct (is_lease c) eqn:E.
  - apply leasing_forward in Hp as [Hp _]. by apply final_move.
  - destruct c; cbn [rel] in Hp; try (destruct Hp as [Hp _]); try (by apply final_move).
    destruct Hp as [?|(_ & Hf & _)]; [done|congruence].
Qed.

(** a final state is final: whatever transactions follow - a late result,
    a cancel, a sweep, a second delivery - the job stays in it. *)
Theorem final_state_is_final d d' id j :
  rtc step d d' → jobs d !! id = Some j → Terminal (j_state j) = true →
  ∃ j', jobs d' !! id = Some j' ∧ j_state j' = j_state j.
Proof.
  intros Hs. revert j. induction Hs as [d|d1 d2 d3 (c & Hc & ->) _ IH]; intros j Hj Ht; [eauto|].
  destruct (call_final c d1 id j Hc Hj Ht) as (j2 & Hj2 & Hs2).
  destruct (IH j2 Hj2) as (j3 & Hj3 & Hs3); [by rewrite Hs2|]. exists j3. split; [done|congruence].
Qed.

(** What of a job and of the ownership of its host only grows. *)
Lemma steps_grow d d' :
  rtc step d d' →
  (∀ id j, jobs d !! id = Some j → ∃ j', jobs d' !! id = Some j' ∧ j_host j' = j_host j)
  ∧ (∀ h o, owners d !! h = Some o → ∃ o', owners d' !! h = Some o' ∧ o_token o ≤ o_token o').
Proof.
  induction 1 as [d|d1 d2 d3 (c & Hc & ->) _ [IJ IO]]; [split; eauto with lia|].
  pose proof (call_effect c d1 Hc) as [J _ O]. split.
  - intros id j Hj. destruct (J id j Hj) as (j2 & Hj2 & _ & Hh). destruct (IJ id j2 Hj2) as (j3 & ? & ?).
    exists j3. split; [done|congruence].
  - intros h o Ho. destruct (O h o Ho) as (o2 & Ho2 & ?). destruct (IO h o2 Ho2) as (o3 & ? & ?).
    exists o3. split; [done|lia].
Qed.

(** Runs that do not return a value. *)
Lemma wp_not {A} (m : M DB err A) d a :
  wp m d (λ b _, b ≠ a) (λ _ _, True) → (m d).1 ≠ Ok a.
Proof. unfold wp. destruct (m d) as [[b|e] d']; cbn; congruence. Qed.

Lemma wp_in_tx {A} (m : M DB err A) d (Q : A → DB → Prop) (R : err → DB → Prop) :
  wp m d Q (λ e _, R e d) → wp (in_tx m) d Q R.
Proof. unfold wp, in_tx. by destruct (m d) as [[b|e] d']. Qed.

Lemma wp_committed m d (Q : unit → DB → Prop) (R : err → DB → Prop) :
  wp m d (λ o d', match o with None => Q tt d' | Some e => R e d' end) (λ e _, R e d) →
  wp (committed m) d Q R.
Proof. unfold wp, committed. by destruct (m d) as [[[?|]|e] d']. Qed.

(** C11: fencing. Once a host was claimed with a newer token, a fence of an
    older token never holds again, for any job of the host and whatever happens
    to the ownership row afterwards: a session that lost its host can settle no
    job with a result, settle no cancel and record no dispatch. *)
Theorem old_fence_never_holds d d' id j o fence :
  rtc step d d' → jobs d !! id = Some j → owners d !! j_host j = Some o →
  i64 (f_token fence) < o_token o →
  fenceHolds d' id fence = false
  ∧ (∀ aid r asked t, (RecordResult id aid r asked fence t d').1 ≠ Ok true)
  ∧ (∀ aid l, (MarkDispatchedWithLease id aid fence l d').1 ≠ Ok tt)
  ∧ (∀ rev out ph cs, (RecordCancelAck id rev out ph fence d').1 ≠ Ok cs).
Proof.
  intros Hs Hj Ho Ht. destruct (steps_grow d d' Hs) as [SJ SO].
  destruct (SJ id j Hj) as (j' & Hj' & Hh). destruct (SO _ o Ho) as (o' & Ho' & Hle).
  assert (Hf : fenceHolds d' id fence = false).
  { unfold fenceHolds. case_bool_decide; [done|]. rewrite Hj'. cbn. rewrite Hh, Ho'.
    rewrite (bool_decide_eq_false_2 (o_token o' = _)) by lia. by rewrite andb_false_r. }
  split; [done|]. split_and!.
  - intros aid r asked t. apply wp_not, wp_in_tx. do 2 (tx_steps; cbv zeta); done || congruence.
  - intros aid l. apply wp_not, wp_committed. tx_step. tx_step. tx_step; [done|]. tx_steps; done || congruence.
  - intros rev out ph cs. apply wp_not. unfold RecordCancelAck.
    destruct (negb _); [done|]. apply wp_in_tx. do 4 tx_step. rewrite Hf. by tx_step.
Qed.

(** ** One carrier per job *)

(** What a caller owes: a task is given back, or failed, by the attempt that
    carries it, and a result names an outcome. *)
Definition disciplined (c : call) (d : DB) : Prop :=
  match c with
  | DoReleaseLease jobID aid _ => ∃ a, attempts d !! aid = Some a ∧ a_job a = jobID ∧ open_attempt a = true
  | DoRecordResult _ _ _ asked _ _ => Terminal asked = true
  | _ => True
  end.

Lemma carried_ReleaseLease d jobID aid r a :
  carried d → attempts d !! aid = Some a → a_job a = jobID → open_attempt a = true →
  carried (ReleaseLease jobID aid r d).2.
Proof.
  intros C Ha Hjob Ho. eapply carried_requeue; [exact C|apply within_snd, within_ReleaseLease|].
  intros id j j' Hj Hj' Hw. destruct (waiting (j_state j)) eqn:E; [by left|right].
  revert Hj'. unfold no_open.
  assert (Hw' : wp (ReleaseLease jobID aid r) d (λ _ d', jobs d' !! id = Some j' →
     ∀ i x, attempts d' !! i = Some x → a_job x = id → open_attempt x = false) (λ _ _, False)).
  { apply wp_in_tx. tx_steps; destruct d; cbn in *.
    - intros Hj' i x. destruct (decide (jobID = id)) as [->|N].
      + destruct (decide (aid = i)) as [<-|Ni].
        * rewrite lookup_alter_eq. intros (y & Hy & ->)%fmap_Some _. done.
        * rewrite lookup_alter_ne by done. intros Hx Hxj. destruct (open_attempt x) eqn:Ex; [|done].
          destruct Ni. eapply (c_one _ C aid i a x); cbn; eauto; congruence.
      + rewrite lookup_alter_ne in Hj' by done. assert (j' = j) as -> by congruence. congruence.
    - intros Hj'. assert (j' = j) as -> by congruence. congruence.
    - intros Hj'. assert (j' = j) as -> by congruence. congruence. }
  unfold wp in Hw'. by destruct (ReleaseLease jobID aid r d) as [[?|e] d'].
Qed.

Lemma reclaim_rows d l :
  let d' := (ReclaimExpiredLeases l d).2 in
  (∀ id, jobs d' !! id = (λ j, if reclaimed d l id j then reclaim_job (now d) j else j) <$> jobs d !! id)
  ∧ (∀ i, attempts d' !! i = (λ a, if lease_expired d l i a
                                   then close_attempt AttemptStatusLeaseExpired (now d) a else a) <$> attempts d !! i).
Proof.
  set (p := reclaimed d l). set (q := lease_expired d l).
  assert (Hrun : (ReclaimExpiredLeases l d).2 =
    { update_jobs p (reclaim_job (now d)) (update_attempts q (close_attempt AttemptStatusLeaseExpired (now d)) d)
      with tokens ::= λ t, t ∖ list_to_set (select_jobs p
        (update_attempts q (close_attempt AttemptStatusLeaseExpired (now d)) d)) }) by done.
  cbv zeta. rewrite Hrun. clear Hrun. clearbody p q. destruct d; cbn.
  split; intros i; rewrite map_lookup_imap; by destruct (_ !! i).
Qed.

(** A job taken back by the sweep is carried by nothing any more. *)
Lemma reclaimed_no_open d l id j :
  carried d → jobs d !! id = Some j → reclaimed d l id j = true → no_open (ReclaimExpiredLeases l d).2 id.
Proof.
  intros C Hj Hr i x Hx Hid. destruct (reclaim_rows d l) as [_ HA]. rewrite HA in Hx.
  destruct (attempts d !! i) as [y|] eqn:Ey; [|done]. cbn in Hx. injection Hx as <-.
  destruct (lease_expired d l i y) eqn:El; [done|]. destruct (open_attempt y) eqn:Eo; [exfalso|done].
  unfold reclaimed in Hr. apply orb_true_iff in Hr as [Hr|Hr].
  - apply existsb_exists in Hr as ([k z] & Hin & Hz). apply list_elem_of_In, elem_of_map_to_list in Hin.
    cbn in Hz. apply andb_true_iff in Hz as [Hz1%bool_decide_eq_true Hz2].
    assert (Hk : k = i).
    { eapply (c_one _ C); [exact Hin|exact Ey| |done|congruence]. unfold lease_expired in Hz2.
      by rewrite !andb_true_iff in Hz2; destruct Hz2 as [[? _] _]. }
    subst k. congruence.
  - unfold stranded in Hr. rewrite !andb_true_iff, forallb_forall in Hr. destruct Hr as [[_ Hr] _].
    specialize (Hr (i, y)). cbn in Hr. rewrite bool_decide_eq_true_2, Eo in Hr by done.
    assert (false = true); [|done]. apply Hr. by apply list_elem_of_In, elem_of_map_to_list.
Qed.

Lemma carried_Reclaim d l : carried d → carried (ReclaimExpiredLeases l d).2.
Proof.
  intros C. eapply carried_requeue; [exact C|apply within_snd, within_ReclaimExpiredLeases|].
  intros id j j' Hj Hj' Hw. destruct (reclaimed d l id j) eqn:Er.
  - right. by eapply reclaimed_no_open.
  - left. destruct (reclaim_rows d l) as [HJ _]. rewrite HJ, Hj in Hj'. cbn in Hj'.
    rewrite Er in Hj'. congruence.
Qed.

Lemma settles_forward l asked s s' : Terminal asked = true → settles l asked s s' → forward s s' ∨ waiting s' = false.
Proof. intros Ht [->|(-> & _)]; [by left|right]. by destruct asked. Qed.

Lemma call_carried c d : draws c d → disciplined c d → carried d → carried (invoke c d).
Proof.
  intros Hd Hdis C. destruct (is_lease c) eqn:El.
  { destruct c; try done. apply lease_inv; [|done|done]. intros d1 d2 id. apply took_carried. }
  destruct (is_world c) eqn:Ew.
  { destruct c; try done. destruct C as [C1 C2]. split; cbn; eauto. }
  assert (F : frame (rel c d) d (invoke c d)) by (apply call_frame; try done; by intros ? ? ? ->).
  destruct c; try done; cbn [rel] in F; try (by eapply carried_forward).
  - destruct Hdis as (a & Ha & Hj & Ho). by eapply carried_ReleaseLease.
  - eapply carried_requeue; [exact C|exact F|]. intros id j j' Hj Hj' Hw. left.
    destruct (fr_jobs _ _ _ F _ _ Hj) as (j2 & Hj2 & Hs & _). assert (j2 = j') as -> by congruence.
    destruct (settles_forward _ _ _ _ Hdis Hs) as [[_ Hf]|Hf]; [by apply Hf|congruence].
  - by apply carried_Reclaim.
Qed.

(** C10: no task is carried twice. As long as a task is given back by the
    attempt that carries it, in every reachable state a job has at most one
    open attempt and a job that waits in the panel has none; so a task is only
    ever handed out again after the attempt before was closed. *)
Theorem one_open_attempt d d' :
  carried d → rtc (λ d d', ∃ c, draws c d ∧ disciplined c d ∧ d' = invoke c d) d d' →
  carried d'.
Proof.
  intros C Hs. induction Hs as [d|d1 d2 d3 (c & Hc & Hdis & ->) _ IH]; [done|].
  by apply IH, call_carried.
Qed.

(** C12: the sweep of the expired leases leaves nothing behind: afterwards every
    job in a lease-holding state has an open attempt whose lease still runs
    (a restart of the host gets its grace on top) or that never had one. *)
Theorem reclaim_leaves_no_stranded_job d id j :
  carried d →
  jobs (ReclaimExpiredLeases ∅ d).2 !! id = Some j → HoldsLease (j_state j) = true →
  ∃ i a, attempts (ReclaimExpiredLeases ∅ d).2 !! i = Some a ∧ a_job a = id ∧ open_attempt a = true
    ∧ match a_lease_expires_at a with
      | Some t => now d - (if bool_decide (j_action j = ActionSystemReboot) then RebootReturnGrace else 0) ≤ t
      | None => True
      end.
Proof.
  intros C Hj Hh. destruct (reclaim_rows d ∅) as [HJ HA]. rewrite HJ in Hj.
  destruct (jobs d !! id) as [j0|] eqn:E; [|done]. cbn in Hj. injection Hj as Hj.
  destruct (reclaimed d ∅ id j0) eqn:Er.
  { exfalso. subst j. unfold reclaim_job in Hh. by repeat case_bool_decide. }
  subst j0. unfold reclaimed in Er. apply orb_false_iff in Er as [Ex Es].
  unfold stranded in Es. rewrite Hh, bool_decide_eq_true_2, andb_true_r in Es by set_solver. cbn in Es.
  assert (Hop : ∃ i a, attempts d !! i = Some a ∧ a_job a = id ∧ open_attempt a = true).
  { apply not_true_iff_false in Es. rewrite forallb_forall in Es.
    destruct (decide (Exists (λ ia : string * attempt, a_job ia.2 = id ∧ open_attempt ia.2 = true) (map_to_list (attempts d)))) as [He|He].
    - apply Exists_exists in He as ([i a] & Hin & Hi & Ho). exists i, a.
      by apply elem_of_map_to_list in Hin.
    - exfalso. apply Es. intros [i a] Hin. apply negb_true_iff, andb_false_iff.
      destruct (decide (a_job a = id)) as [Hi|Hi]; [right|left; by apply bool_decide_eq_false].
      cbn. destruct (open_attempt a) eqn:Eo; [|done]. exfalso. apply He, Exists_exists.
      exists (i, a). split; [by apply list_elem_of_In|done]. }
  destruct Hop as (i & a & Ha & Hi & Ho).
  assert (El : lease_expired d ∅ i a = false).
  { apply not_true_iff_false. intros El. apply not_true_iff_false in Ex. apply Ex, existsb_exists.
    exists (i, a). split; [by apply list_elem_of_In, elem_of_map_to_list|]. cbn. by rewrite bool_decide_eq_true_2. }
  exists i, a. rewrite HA, Ha. cbn. rewrite El. split_and!; try done.
  unfold lease_expired in El. rewrite Ho, Hi, E, Hh in El. destruct (a_lease_expires_at a) as [t|]; [|done].
  rewrite (bool_decide_eq_true_2 (i ∉ ∅)), !andb_true_r in El by set_solver. cbn in El.
  apply bool_decide_eq_false in El. case_bool_decide; lia.
Qed.

(** ** Orders, approvals, results *)

(** The table's unique constraint on (host_id, idempotency_key). *)
Definition unique_keys (d : DB) : Prop :=
  ∀ i1 i2 j1 j2, jobs d !! i1 = Some j1 → jobs d !! i2 = Some j2 →
    j_host j1 = j_host j2 → j_key j1 = j_key j2 → i1 = i2.

Lemma find_key_Some d h k id j :
  find_key d h k = Some (id, j) → jobs d !! id = Some j ∧ j_host j = h ∧ j_key j = k.
Proof.
  unfold find_key. intros Hf%head_Some_elem_of. apply list_elem_of_filter in Hf as [[? ?] Hin].
  by apply elem_of_map_to_list in Hin.
Qed.

Lemma find_key_None d h k id j :
  find_key d h k = None → jobs d !! id = Some j → j_host j = h → j_key j = k → False.
Proof.
  unfold find_key. intros Hf Hj Hh Hk. apply head_None in Hf.
  assert (Hin : (id, j) ∈ filter (λ ij : string * job, j_host ij.2 = h ∧ j_key ij.2 = k) (map_to_list (jobs d))).
  { apply list_elem_of_filter. split; [done|]. by apply elem_of_map_to_list. }
  rewrite Hf in Hin. by apply elem_of_nil in Hin.
Qed.

Lemma find_key_unique d h k id j :
  unique_keys d → jobs d !! id = Some j → j_host j = h → j_key j = k → find_key d h k = Some (id, j).
Proof.
  intros Hu Hj Hh Hk. destruct (find_key d h k) as [[i x]|] eqn:E.
  - apply find_key_Some in E as (Hx & ? & ?). assert (i = id) as -> by (eapply Hu; eauto; congruence).
    congruence.
  - exfalso. by eapply find_key_None.
Qed.

(** an idempotency key names one order. Ordering again with the same key
    on the same host gives the task that is there when the order is the same,
    is refused when it is another, and changes nothing either way. *)
Theorem Create_idempotent newID newKey spec id d d1 newID2 newKey2 spec2 :
  unique_keys d → jobs d !! newID = None → s_key spec ≠ ""%string →
  Create order_valid default_timeout destructive newID newKey spec d = (Ok id, d1) →
  s_host spec2 = s_host spec → s_key spec2 = s_key spec → order_valid spec2 = true →
  unique_keys d1
  ∧ (∃ j, jobs d1 !! id = Some j ∧ j_key j = s_key spec ∧ j_host j = s_host spec)
  ∧ Create order_valid default_timeout destructive newID2 newKey2 spec2 d1 =
      ((if bool_decide (s_action spec2 = s_action spec ∧ s_hash spec2 = s_hash spec)
        then Ok id else Err ErrKeyReused), d1).
Proof.
  intros Hu Hn Hk HC Hh2 Hk2 Hv2.
  assert (Hpost : unique_keys d1 ∧ ∃ j, jobs d1 !! id = Some j ∧ j_key j = s_key spec ∧ j_host j = s_host spec
                   ∧ j_action j = s_action spec ∧ j_hash j = s_hash spec).
  { unfold Create, gets, mbind, M_bind, mret, M_ret in HC. destruct (order_valid spec); [|done].
    cbn [negb] in HC. rewrite bool_decide_eq_false_2 in HC by done.
    destruct (find_key d (s_host spec) (s_key spec)) as [[i j]|] eqn:E.
    - apply find_key_Some in E as (Hj & ? & ?). case_bool_decide; [done|]. case_bool_decide; [done|].
      cbn in HC. injection HC as <- <-. split; [done|]. exists j. split_and!; try done; by apply dec_stable.
    - cbn in HC. injection HC as <- <-. destruct d; cbn in *. split.
      + intros i1 i2 j1 j2 H1 H2 Hhh Hkk. cbn in *.
        apply lookup_insert_Some in H1 as [[<- <-]|[? H1]], H2 as [[<- <-]|[? H2]]; cbn in *; try done.
        * exfalso. by eapply (find_key_None _ _ _ i2 j2 E).
        * exfalso. by eapply (find_key_None _ _ _ i1 j1 E).
        * by eapply Hu.
      + eexists. rewrite lookup_insert_eq. by split_and!. }
  destruct Hpost as (Hu1 & j & Hj & Hjk & Hjh & Hja & Hjs). split; [done|]. split; [by exists j|].
  unfold Create, gets, mbind, M_bind, mret, M_ret. rewrite Hv2. cbn [negb].
  rewrite bool_decide_eq_false_2 by congruence.
  rewrite (find_key_unique d1 _ _ id j) by (done || congruence). rewrite Hja, Hjs.
  repeat case_bool_decide; cbn; try done; exfalso; destruct_and?; first [congruence | match goal with Hn : ¬ (_ ∧ _) |- _ => apply Hn; split; congruence end].
Qed.

(** A task that needs approvals leaves the wait only when as many different
    people have approved it as it requires; one person's second approval counts
    for nothing. *)
Theorem Approve_counts_people jobID actor reason d job' d' j :
  jobs d !! jobID = Some j → j_state j = StateAwaitingApproval →
  Approve jobID actor reason d = (Ok job', d') →
  approvers d' jobID = {[actor]} ∪ approvers d jobID
  ∧ (j_state job' = StateQueued ↔ j_required j ≤ Z.of_nat (base.size (approvers d' jobID)))
  ∧ (j_state job' = StateQueued ∨ job' = j).
Proof.
  intros Hj Hs HA.
  set (d1 := { d with approvals ::= λ a, {[(jobID, actor)]} ∪ a }).
  assert (Hap : approvers d1 jobID = {[actor]} ∪ approvers d jobID).
  { unfold approvers, d1. destruct d; cbn.
    apply set_eq. intros x. rewrite elem_of_union, elem_of_singleton, !elem_of_map.
    setoid_rewrite elem_of_filter. setoid_rewrite elem_of_union. setoid_rewrite elem_of_singleton.
    split.
    - intros ([j1 x1] & -> & Hj1 & [[= -> ->]|Hin]); [by left|right]. by exists (j1, x1).
    - intros [->|([j1 x1] & -> & Hj1 & Hin)]; [exists (jobID, actor)|exists (j1, x1)]; auto. }
  assert (Hj1 : jobs d1 !! jobID = Some j) by (unfold d1; by destruct d).
  unfold Approve, update_job in HA. do 2 (erewrite bind_Ok in HA by reflexivity). fold d1 in HA.
  erewrite bind_Ok in HA by reflexivity. rewrite Hj1, Hs, (bool_decide_eq_true_2 (_ = _)) in HA by done.
  cbn [andb] in HA. case_bool_decide as Hen.
  - erewrite bind_Ok in HA by reflexivity. erewrite bind_Ok in HA by reflexivity.
    match type of HA with context [jobs ?x !! jobID] => set (d2 := x) in HA end.
    assert (Hap2 : approvers d2 jobID = approvers d1 jobID) by done.
    assert (Hj2 : ∃ j2, jobs d2 !! jobID = Some j2 ∧ j_state j2 = StateQueued).
    { unfold d2. clear -Hj1. destruct d1; cbn in *. rewrite lookup_alter_eq, Hj1. by eexists. }
    destruct Hj2 as (j2 & Hj2 & Hs2). rewrite Hj2 in HA. cbn in HA. injection HA as <- <-.
    split; [exact (eq_trans Hap2 Hap)|]. split; [|by left]. split; [intros _; exact Hen|done].
  - erewrite bind_Ok in HA by reflexivity. erewrite bind_Ok in HA by reflexivity. rewrite Hj1 in HA. cbn in HA.
    rewrite bool_decide_eq_false_2 in HA by (intros ?; congruence). injection HA as <- <-.
    split; [done|]. split; [|by right]. rewrite Hs. split; [done|]. intros Hle. by destruct Hen.
Qed.

(** What a settlement writes. *)
Record settled (jobID aid : string) (r : Result) (asked : State) (d d' : DB) : Prop := {
  st_was : ∃ j, jobs d !! jobID = Some j ∧ Terminal (j_state j) = false
    ∧ (late_attempt d aid = true ∨ Validate (j_state j) asked = true);
  st_job : ∃ j, jobs d' !! jobID = Some j ∧ j_state j = asked ∧ j_result_status j = Some (r_status r)
    ∧ j_result_error_code j = nullable (r_error_code r) ∧ j_wait_reason j = ""%string
    ∧ j_finished_at j = Some (now d);
  st_attempt : ∃ j a, jobs d !! jobID = Some j ∧ attempts d' !! aid = Some a
    ∧ open_attempt a = false ∧ a_status a = Some (r_status r) ∧ a_lease_expires_at a = None
    ∧ (0 < j_max_output j → len (a_stdout a) + len (a_stderr a) ≤ j_max_output j);
  st_tokens : Terminal asked = true → jobID ∉ tokens d';
  st_others : late_attempt d aid = true → ∀ i a, attempts d' !! i = Some a → a_job a = jobID → i ≠ aid →
    open_attempt a = false;
}.

Lemma write_result_spec r limit t a :
  let a' := write_result r limit t a in
  open_attempt a' = false ∧ a_status a' = Some (r_status r) ∧ a_lease_expires_at a' = None
  ∧ (0 < limit → len (a_stdout a') + len (a_stderr a') ≤ limit).
Proof.
  cbv zeta. unfold write_result.
  pose proof (clampOutput_spec (r_stdout r) (r_stderr r) (r_truncated r) limit) as Hc.
  destruct (clampOutput _ _ _ _) as [[o e] b]. split_and!; try done. intros Hl. by apply Hc.
Qed.

Lemma disposition_late d aid a rec late :
  lateResultDisposition (default ""%string (a_status a)) = (rec, late) → attempts d !! aid = Some a →
  late = true ↔ late_attempt d aid = true.
Proof.
  intros Hd Ha. unfold late_attempt. rewrite Ha, bool_decide_eq_true.
  split; [intros ->; by eapply late_disposition|]. intros Hs. rewrite Hs in Hd. cbn in Hd. by injection Hd.
Qed.

(** A settlement, from what the transaction went through. *)
Lemma settled_run jobID aid r asked d j a late :
  jobs d !! jobID = Some j → attempts d !! aid = Some a →
  (late = true ↔ late_attempt d aid = true) → Terminal (j_state j) = false →
  (late = true ∨ Validate (j_state j) asked = true) →
  let d1 := { d with attempts ::= alter (write_result r (j_max_output j) (now d)) aid } in
  let d2 := if late then update_attempts
      (λ id a, bool_decide (a_job a = jobID) && bool_decide (id ≠ aid) && open_attempt a)
      (λ a, { close_attempt AttemptStatusSuperseded (now d) a with a_message :=
         Some "the result arrived on the earlier attempt after its lease had expired"%string }) d1 else d1 in
  let d3 := { d2 with jobs ::= alter (λ j, finish (now d)
      { j with j_state := asked; j_result_status := Some (r_status r);
        j_result_error_code := nullable (r_error_code r);
        j_result_message := nullable (r_message r) }) jobID } in
  settled jobID aid r asked d
    (if Terminal asked then { d3 with tokens ::= λ t, t ∖ list_to_set [jobID] } else d3).
Proof.
  intros Hj Ha Hl Ht Hv d1 d2 d3.
  destruct (write_result_spec r (j_max_output j) (now d) a) as (W1 & W2 & W3 & W4).
  set (d4 := if Terminal asked then _ else _).
  assert (J : jobs d4 = jobs d3) by (unfold d4; by destruct (Terminal asked)).
  assert (A : attempts d4 = attempts d2) by (unfold d4, d3; by destruct (Terminal asked)).
  assert (A2 : ∀ i, attempts d2 !! i = (λ x, if late && (bool_decide (a_job x = jobID) && bool_decide (i ≠ aid) && open_attempt x)
     then { close_attempt AttemptStatusSuperseded (now d) x with a_message :=
         Some "the result arrived on the earlier attempt after its lease had expired"%string } else x) <$> attempts d1 !! i).
  { intros i. unfold d2. destruct late; cbn [andb].
    - clear. destruct d1; cbn. rewrite map_lookup_imap. by destruct (_ !! i).
    - by destruct (attempts d1 !! i). }
  assert (A1 : attempts d1 !! aid = Some (write_result r (j_max_output j) (now d) a)).
  { unfold d1. clear -Ha. destruct d; cbn in *. by rewrite lookup_alter_eq, Ha. }
  assert (J3 : jobs d3 !! jobID = Some (finish (now d)
      { j with j_state := asked; j_result_status := Some (r_status r);
        j_result_error_code := nullable (r_error_code r); j_result_message := nullable (r_message r) })).
  { unfold d3, d2, d1. clear -Hj. destruct late, d; cbn in *; by rewrite lookup_alter_eq, Hj. }
  split.
  - exists j. split_and!; [done|done|]. destruct Hv; [left; tauto|by right].
  - rewrite J, J3. eexists. by split_and!.
  - rewrite A, A2, A1. cbn. rewrite (bool_decide_eq_false_2 (aid ≠ aid)), andb_false_r by (intros []; done).
    rewrite andb_false_r. cbn. exists j. eexists. split; [exact Hj|]. split; [done|]. by split_and!.
  - unfold d4. intros ->. unfold d3, d2, d1. clear. destruct late, d; cbn; set_solver.
  - intros Hlate i x Hx Hxj Hi. rewrite A, A2 in Hx. destruct (attempts d1 !! i) as [y|]; [|done].
    cbn in Hx. rewrite (proj2 Hl Hlate) in Hx. cbn in Hx. injection Hx as Hx.
    destruct (open_attempt y) eqn:Ey.
    + destruct (decide (a_job y = jobID)) as [Hy|Hy].
      * rewrite !bool_decide_eq_true_2 in Hx by done. by subst x.
      * rewrite bool_decide_eq_false_2 in Hx by done. cbn in Hx. congruence.
    + rewrite andb_false_r in Hx. congruence.
Qed.

(** what a result does. It is accepted only over a fence that holds and on
    a job that is open, and then all of it is written in one transaction: the
    job in the state asked for and waiting on nothing, the attempt closed with
    its status and with an output within the bound of the task, the capacity
    free if the state is final, and every other attempt closed if the result
    came after its lease. A result that is not accepted leaves the jobs, the
    owners and the capacity as they were, and one that fails - the audit entry
    included - leaves everything as it was. *)
Theorem RecordResult_outcome jobID aid r asked f t d :
  match RecordResult jobID aid r asked f t d with
  | (Ok true, d') => fenceHolds d jobID f = true ∧ t = None ∧ settled jobID aid r asked d d'
  | (Ok false, d') => jobs d' = jobs d ∧ owners d' = owners d ∧ tokens d' = tokens d
  | (Err e, d') => d' = d
  end.
Proof.
  cut (wp (RecordResult jobID aid r asked f t) d
    (λ b d', if (b : bool) then fenceHolds d jobID f = true ∧ t = None ∧ settled jobID aid r asked d d'
             else jobs d' = jobs d ∧ owners d' = owners d ∧ tokens d' = tokens d) (λ _ d', d' = d)).
  { unfold wp. by destruct (RecordResult _ _ _ _ _ _ _) as [[[]|e] d']. }
  apply wp_in_tx. do 2 (tx_steps; cbv zeta); try done.
  all: split; [done|]; split; [done|].
  all: match goal with Hf : fateOfResult _ _ _ = _ |- _ => apply fate_settles in Hf as [Ht Hv] end.
  all: match goal with
    | Hd : lateResultDisposition _ = _, Ha : attempts _ !! _ = Some _ |- _ =>
        apply (disposition_late _ _ _ _ _ Hd) in Ha as Hl
    end.
  all: match goal with
    | Hj : jobs _ !! _ = Some _, Ha : attempts _ !! _ = Some _, Hl : _ ↔ _ |- _ =>
        pose proof (λ r, settled_run _ _ r _ _ _ _ _ Hj Ha Hl Ht Hv) as Hs
    end.
  all: match goal with HT : Terminal _ = _ |- _ => cbv zeta in Hs; rewrite HT in Hs; apply Hs end.
Qed.
End props.

(** ** The task store on concrete tables

    The theorems of [JobProps] at one order going through the store, and the
    late release that hands a task out twice. *)

#[local] Existing Instance identity_order.

(** One host, one order of one action, nothing checked beyond the store. *)
Definition demo_spec : Spec :=
  mkSpec "host" "packages.apply" [Byte.x01] "key" false 0 600 0 0 "ann" "" "".
Definition demo_approval_spec : Spec :=
  mkSpec "host" "packages.apply" [Byte.x01] "key" true 2 600 0 0 "ann" "" "".
Definition demo_db : DB :=
  mkDB 0 ∅ ∅ ∅ {["host" := mkOwner (Some "session") (Some "gateway") 2 (Some (45 * second))]}
       {["session" := ("host", None)]} ∅ [].
Definition demo_create (spec : Spec) : T string :=
  Create (λ _, true) (λ _, 600) (λ _, false) "J" "drawn" spec.
Definition demo_invoke (c : call) (d : DB) : DB := invoke (λ _, true) (λ _, 600) (λ _, false) c d.
Definition demo_queued : DB := (demo_create demo_spec demo_db).2.
Definition demo_waiting : DB := (demo_create demo_approval_spec demo_db).2.
Definition demo_lease (aid : string) : call := DoLeaseJobs "gateway" ["J"] (60 * second) (λ _, aid) ∅.
Definition demo_leased : DB := demo_invoke (demo_lease "A1") demo_queued.
Definition demo_canceled : DB := demo_invoke (DoCancel "J" "ann" "no") demo_queued.

Abbreviation demo_step := (step (λ _, true) (λ _, 600) (λ _, false)).

(** The sweep takes the job back from A1, A2 takes it, and then the delivery of
    A1 that hung all along gives the task back. *)
Definition late_release : list call :=
  [demo_lease "A1"; World (61 * second) ∅ ∅; DoReclaim ∅; demo_lease "A2";
   DoReleaseLease "J" "A1" "not delivered"; demo_lease "A3"].

Definition demo_run (cs : list call) (d : DB) : DB := foldl (λ d c, demo_invoke c d) d cs.

Lemma carried_no_attempts d : attempts d = ∅ → carried d.
Proof. intros H. split; rewrite H; set_solver. Qed.

Lemma draws_lease aid d :
  leasable d ["J"] ∅ = ["J"] → attempts d !! aid = None → draws (demo_lease aid) d.
Proof.
  intros Hl Ha. unfold draws, demo_lease. rewrite Hl. split; [done|].
  intros i1 i2 H1%list_elem_of_singleton H2%list_elem_of_singleton _. congruence.
Qed.

(** A run whose calls draw new identifiers is a sequence of steps. *)
Fixpoint all_draw (cs : list call) (d : DB) : Prop :=
  match cs with [] => True | c :: cs => draws c d ∧ all_draw cs (demo_invoke c d) end.

Lemma run_steps cs d : all_draw cs d → rtc demo_step d (demo_run cs d).
Proof.
  revert d. induction cs as [|c cs IH]; intros d; [intros _; apply rtc_refl|].
  intros [Hc Hcs]. eapply rtc_l; [by exists c|]. by apply IH.
Qed.

(** a release of an attempt that no longer carries its task hands the task
    out a second time. [ReleaseLease] looks at the state of the job and never at
    whether the attempt it was given is the one that carries it. When the lease
    of an attempt ran out, the task was leased again and the delivery of the
    first attempt gives it back late, the job goes to the queue while the second
    attempt is open, and a third attempt is opened beside it. *)
Theorem late_release_hands_out_twice :
  ∃ d d', carried d ∧ rtc demo_step d d'
    ∧ ∃ a2 a3, attempts d' !! "A2"%string = Some a2 ∧ attempts d' !! "A3"%string = Some a3
      ∧ open_attempt a2 = true ∧ open_attempt a3 = true
      ∧ a_job a2 = "J"%string ∧ a_job a3 = "J"%string.
Proof.
  exists demo_queued, (demo_run late_release demo_queued). split; [by apply carried_no_attempts|].
  split.
  - apply run_steps. cbn [all_draw late_release].
    split; [by apply draws_lease|]. do 2 (split; [done|]). split; [by apply draws_lease; vm_compute|].
    split; [done|]. by split; [apply draws_lease; vm_compute|].
  - do 2 eexists. split; [vm_compute; reflexivity|]. split; [vm_compute; reflexivity|]. by vm_compute.
Qed.

(** ** Witnesses *)

Lemma every_move_is_a_transition_witness :
  ∃ j j', jobs demo_queued !! "J"%string = Some j ∧ jobs demo_leased !! "J"%string = Some j'
    ∧ j_host j' = j_host j.
Proof.
  destruct (every_move_is_a_transition (λ _, true) (λ _, 600) (λ _, false) (demo_lease "A1") demo_queued "J"
    (default (mkJob "" None None "" [] "" StateQueued false 0 0 0 0 "" 0 0 None None None None None None 0 None None None "" None None None None)
      (jobs demo_queued !! "J"%string)))
    as (j' & Hj' & Hh & _).
  - by apply draws_lease.
  - by vm_compute.
  - eexists. exists j'. split; [|split; [exact Hj'|exact Hh]]. by vm_compute.
Defined.

Lemma final_state_is_final_witness :
  ∃ j, jobs (demo_invoke DoExpire demo_canceled) !! "J"%string = Some j ∧ j_state j = StateCanceled.
Proof.
  edestruct (final_state_is_final (λ _, true) (λ _, 600) (λ _, false) demo_canceled
           (demo_invoke DoExpire demo_canceled) "J") as (j & Hj & Hs).
  - by apply (run_steps [DoExpire]).
  - vm_compute. reflexivity.
  - done.
  - by exists j.
Defined.

Lemma old_fence_never_holds_witness :
  fenceHolds demo_leased "J" (mkFence "session" 1) = false.
Proof.
  eapply (old_fence_never_holds (λ _, true) (λ _, 600) (λ _, false) demo_queued demo_leased "J").
  - apply (run_steps [demo_lease "A1"]). by split; [apply draws_lease|].
  - vm_compute. reflexivity.
  - vm_compute. reflexivity.
  - done.
Defined.

Lemma one_open_attempt_witness : carried demo_leased.
Proof.
  apply (one_open_attempt (λ _, true) (λ _, 600) (λ _, false) demo_queued).
  - by apply carried_no_attempts.
  - eapply rtc_l; [exists (demo_lease "A1"); split_and!; [by apply draws_lease|done|reflexivity]|apply rtc_refl].
Defined.

Lemma reclaim_leaves_no_stranded_job_witness :
  ∃ i a, attempts (ReclaimExpiredLeases ∅ demo_leased).2 !! i = Some a ∧ a_job a = "J"%string.
Proof.
  edestruct (reclaim_leaves_no_stranded_job demo_leased "J") as (i & a & Ha & Hj & _).
  - apply (call_carried (λ _, true) (λ _, 600) (λ _, false) (demo_lease "A1") demo_queued);
      [by apply draws_lease|done|by apply carried_no_attempts].
  - vm_compute. reflexivity.
  - done.
  - by exists i, a.
Defined.

Lemma Create_idempotent_witness :
  demo_create demo_spec demo_queued = (Ok "J"%string, demo_queued).
Proof.
  eapply (Create_idempotent (λ _, true) (λ _, 600) (λ _, false) "J" "drawn" demo_spec "J" demo_db demo_queued
    "J" "drawn" demo_spec); try done.
Defined.

Lemma Approve_counts_people_witness :
  ∃ j d', Approve "J" "bob" "" demo_waiting = (Ok j, d') ∧ j_state j = StateAwaitingApproval.
Proof.
  do 2 eexists. split; [vm_compute; reflexivity|].
  edestruct (Approve_counts_people "J" "bob" "" demo_waiting) as (_ & [Hq _] & _);
    [vm_compute; reflexivity|done|vm_compute; reflexivity|]. done.
Defined.
