(* ===== verification/GatewayResults.v ===== *)
(** * GatewayResults: what the panel makes of an answer

    recordTaskResult and ackResult of src/internal/gateway/agent_service.go, with
    verificationExpected of reboot_settle.go and AttemptOwner of
    src/internal/jobs/store.go, over the task store of Jobs.v. The inventory's
    last revision, the entry in the trail and a query that fails are arguments;
    what follows the settlement - files, certificates, inventory - is not part
    of it. *)
From S2P Require Import Prelude Bytes Digest Text Actions ActionTables Registry JobState Jobs JobSteps JobProps.
From S2P Require Import Capability Signer Acks.

Open Scope Z_scope.
Open Scope list_scope.

(** [AttemptOwner]: the job, the action and the status of the host's attempt. *)
Definition AttemptOwner (d : DB) (attemptID hostID : string) : option (string * string * string) :=
  a ← attempts d !! attemptID;
  j ← jobs d !! a_job a;
  if bool_decide (j_host j = hostID) then Some (a_job a, j_action j, default "" (a_status a)) else None.

Definition jobStateFor (status : Z) : State * string :=
  if bool_decide (status = STATUS_SUCCEEDED) then (StateSucceeded, "succeeded")
  else if bool_decide (status = STATUS_TIMED_OUT) then (StateTimedOut, "timed_out")
  else if bool_decide (status = STATUS_EXPIRED) then (StateExpired, "expired")
  else if bool_decide (status = STATUS_CANCELED) then (StateCanceled, "canceled")
  else if bool_decide (status = STATUS_REJECTED) then (StateFailed, "rejected")
  else (StateFailed, "failed").

Definition verificationExpected (action : ActionType) : bool :=
  negb (bool_decide (Verifier action = VerifierNone)) && negb (PanelSettled (Verifier action)).

Definition errorAttemptUnknown : string := "job_attempt_unknown".
Definition errorJobSettled : string := "job_already_settled".
Definition ErrorAppliedUnverified : string := "applied_unverified".
Definition errorRevisionMissing : string := "inventory_revision_missing".

(** [checkRefresh]: the code and the words of a refresh that did not land.
    [latest] is the revision the panel holds, if the query answers. *)
Definition checkRefresh (latest : option (option string)) (r : TaskResult) : string * string :=
  if bool_decide (res_Revision r = "")
  then (errorRevisionMissing, "the agent did not give the revision of the refreshed inventory")
  else match latest with
  | None => ("", "")
  | Some revision =>
      if bool_decide (revision = Some (res_Revision r)) then ("", "")
      else (errorRevisionMissing,
            "the agent reported the revision " +:+ res_Revision r +:+ ", the panel has " +:+ default "none" revision)
  end.

Record GatewaySession := mkGatewaySession { gs_ID : string; gs_HostID : string; gs_FenceToken : Z }.
Definition session_fence (s : GatewaySession) : Fence := mkFence (gs_ID s) (gs_FenceToken s).

(** What the panel's own world does during one call. *)
Record panel_io := mkPanelIo {
  pio_owner_fails : bool;                       (* the query for the attempt *)
  pio_latest : option (option string);          (* the inventory's last revision *)
  pio_trail : option err;                       (* what commits with the settlement *)
}.

Section gateway.
Context {RW : ResultWire} {SS : SignatureScheme}.
(** The JSON an answer is stored as: [resultDetailJSON] and [verificationJSON]. *)
Context (detailJSON : TaskResult → option bytes) (verificationJSON : Verification → option bytes).
Context (helperSigner : option Signer).

(** [ackResult]: the acknowledgement that is sent. *)
Definition ackResult (hostID : string) (r : TaskResult) (status : Z) (reason : string) : option TaskResultAck :=
  if bool_decide (res_TaskId r = "") then None
  else
    let ack := {| ack_TaskId := res_TaskId r; ack_IdempotencyKey := res_IdempotencyKey r; ack_Status := status;
                  ack_ReasonCode := reason; ack_Signature := []; ack_KeyId := "";
                  ack_ResultDigest := ResultDigest (Some r); ack_DigestSignature := [] |} in
    Some (match helperSigner with Some s => SignResultAck s hostID ack | None => ack end).

(** The state and the words an answer asks for: a refresh is settled by the
    revision the panel holds, and a change nobody read back did not succeed. *)
Definition asked (latest : option (option string)) (action : ActionType) (r : TaskResult) : State * (string * string * string) :=
  let '(state, statusName) := jobStateFor (res_Status r) in
  let words := (statusName, res_ErrorCode r, res_Message r) in
  let '(state, words) :=
    if bool_decide (state = StateSucceeded) && bool_decide (action = ActionInventoryRefresh) then
      let '(code, message) := checkRefresh latest r in
      if bool_decide (code = "") then (state, words) else (StateFailed, ("failed", code, message))
    else (state, words) in
  if bool_decide (state = StateSucceeded) && bool_decide (res_Verification r = None) && verificationExpected action
  then (StateFailed, ("failed", ErrorAppliedUnverified,
          "the change was made and the result carries no read of the host afterwards"))
  else (state, words).

Definition stored (words : string * string * string) (r : TaskResult) : Result :=
  let '(statusName, code, message) := words in
  mkResult statusName (res_ExitCode r) (res_Stdout r) (res_Stderr r) (res_OutputTruncated r) code message
    (res_Replayed r) (detailJSON r) (res_Verification r ≫= verificationJSON).

(** What became of an answer: an acknowledgement or none, whether the session
    is over, whether the call failed. *)
Record recorded := mkRecorded { rec_ack : option TaskResultAck; rec_ended : bool; rec_failed : bool }.

(** [recordTaskResult]. *)
Definition recordTaskResult (i : panel_io) (session : GatewaySession) (r : TaskResult) (d : DB) : recorded * DB :=
  let hostID := gs_HostID session in
  let attemptID := res_TaskId r in
  if pio_owner_fails i then (mkRecorded None false true, d)
  else match AttemptOwner d attemptID hostID with
  | None => (mkRecorded (ackResult hostID r ACK_REJECTED_STALE errorAttemptUnknown) false true, d)
  | Some (jobID, action, attemptStatus) =>
      if bool_decide (attemptStatus = AttemptStatusSuperseded)
      then (mkRecorded (ackResult hostID r ACK_DUPLICATE "") false false, d)
      else
        let '(state, words) := asked (pio_latest i) action r in
        match RecordResult jobID attemptID (stored words r) state (session_fence session)
                (pio_trail i) d with
        | (Err ErrStaleFence, d) => (mkRecorded None true false, d)
        | (Err _, d) => (mkRecorded None false true, d)
        | (Ok false, d) => (mkRecorded (ackResult hostID r ACK_REJECTED_STALE errorJobSettled) false false, d)
        | (Ok true, d) => (mkRecorded (ackResult hostID r ACK_SETTLED "") false false, d)
        end
  end.
End gateway.

Section laws.
Context {RW : ResultWire} {SS : SignatureScheme}.
Context (detailJSON : TaskResult → option bytes) (verificationJSON : Verification → option bytes).
Context (helperSigner : option Signer).

(** What stands behind an acknowledgement of the status [status]: the answer
    settled its job in the state it asked for; or the panel has the answer of
    another attempt; or it will not take this one - it knows no such attempt of
    the host, the job is final, or the job is open and may not make the move. *)
Inductive disposed (i : panel_io) (session : GatewaySession) (r : TaskResult) (d d' : DB) : Z → string → Prop :=
| disposed_settled jobID action status : AttemptOwner d (res_TaskId r) (gs_HostID session) = Some (jobID, action, status) →
    settled jobID (res_TaskId r) (stored detailJSON verificationJSON (asked (pio_latest i) action r).2 r)
      (asked (pio_latest i) action r).1 d d' →
    disposed i session r d d' ACK_SETTLED ""
| disposed_superseded jobID action : AttemptOwner d (res_TaskId r) (gs_HostID session) = Some (jobID, action, AttemptStatusSuperseded) →
    d' = d → disposed i session r d d' ACK_DUPLICATE ""
| disposed_unknown : AttemptOwner d (res_TaskId r) (gs_HostID session) = None → d' = d →
    disposed i session r d d' ACK_REJECTED_STALE errorAttemptUnknown
| disposed_final jobID action status j : AttemptOwner d (res_TaskId r) (gs_HostID session) = Some (jobID, action, status) →
    jobs d !! jobID = Some j → Terminal (j_state j) = true → jobs d' = jobs d →
    disposed i session r d d' ACK_REJECTED_STALE errorJobSettled
| disposed_open jobID action status j : AttemptOwner d (res_TaskId r) (gs_HostID session) = Some (jobID, action, status) →
    jobs d !! jobID = Some j → Terminal (j_state j) = false → status ≠ AttemptStatusLeaseExpired →
    Validate (j_state j) (asked (pio_latest i) action r).1 = false → jobs d' = jobs d →
    disposed i session r d d' ACK_REJECTED_STALE errorJobSettled.

Lemma AttemptOwner_Some d aid host jobID action status :
  AttemptOwner d aid host = Some (jobID, action, status) →
  ∃ a j, attempts d !! aid = Some a ∧ a_job a = jobID ∧ status = default "" (a_status a)
    ∧ jobs d !! jobID = Some j ∧ j_host j = host ∧ j_action j = action.
Proof.
  unfold AttemptOwner. destruct (attempts d !! aid) as [a|] eqn:Ha; [|done]. cbn [mbind option_bind].
  destruct (jobs d !! a_job a) as [j|] eqn:Hj; [|done]. cbn [mbind option_bind]. case_bool_decide; [|done].
  intros [= <- <- <-]. by exists a, j.
Qed.

Lemma fate_refuses current to late f :
  fateOfResult current to late = f → f ≠ fateSettles →
  Terminal current = true ∨ Terminal current = false ∧ late = false ∧ Validate current to = false.
Proof.
  unfold fateOfResult. intros <-. destruct (Terminal current); [by left|]. destruct late; [done|].
  destruct (Validate current to); [done|]. by right.
Qed.

Lemma disposition_cases status record late :
  lateResultDisposition status = (record, late) →
  (record = false → status = AttemptStatusSuperseded) ∧ (late = false → record = true → status ≠ AttemptStatusLeaseExpired).
Proof. unfold lateResultDisposition. repeat case_bool_decide; intros [= <- <-]; by subst. Qed.

(** A result that is not taken, on an attempt that is not superseded, found its
    job final or unable to make the move. *)
Lemma RecordResult_false jobID aid res to f t d d' a j :
  RecordResult jobID aid res to f t d = (Ok false, d') → attempts d !! aid = Some a → jobs d !! jobID = Some j →
  default "" (a_status a) ≠ AttemptStatusSuperseded →
  Terminal (j_state j) = true
  ∨ Terminal (j_state j) = false ∧ default "" (a_status a) ≠ AttemptStatusLeaseExpired ∧ Validate (j_state j) to = false.
Proof.
  intros E Ha Hj Hs.
  cut (wp (RecordResult jobID aid res to f t) d (λ b _, b = false →
    Terminal (j_state j) = true
    ∨ Terminal (j_state j) = false ∧ default "" (a_status a) ≠ AttemptStatusLeaseExpired ∧ Validate (j_state j) to = false) (λ _ _, True)).
  { unfold wp. rewrite E. auto. }
  apply wp_in_tx. do 2 (tx_steps; cbv zeta); try done; injection Ha as ->; injection Hj as ->; intros _.
  all: match goal with Hb : negb ?b = _ |- _ => destruct b; try discriminate Hb end.
  all: match goal with Hd : lateResultDisposition _ = _ |- _ => apply disposition_cases in Hd as [Hrec Hlate] end.
  1: by destruct Hs; apply Hrec.
  all: match goal with Hf : fateOfResult _ _ _ = _ |- _ => apply fate_refuses in Hf as [?|(? & ? & ?)]; [by left| |done] end.
  all: right; split_and!; auto.
Qed.
(** The acknowledgement of an answer is about that answer. *)
Lemma ackResult_words host r status reason : res_TaskId r ≠ "" →
  ∃ ack, ackResult helperSigner host r status reason = Some ack ∧ ack_TaskId ack = res_TaskId r
    ∧ ack_IdempotencyKey ack = res_IdempotencyKey r ∧ ack_ResultDigest ack = ResultDigest (Some r)
    ∧ ack_Status ack = status ∧ ack_ReasonCode ack = reason.
Proof.
  intros Ht. unfold ackResult. rewrite (bool_decide_eq_false_2 _ Ht). eexists. split; [done|].
  destruct helperSigner as [s|]; [|done]. by destruct (SignResultAck_words s host
    {| ack_TaskId := res_TaskId r; ack_IdempotencyKey := res_IdempotencyKey r; ack_Status := status; ack_ReasonCode := reason;
       ack_Signature := []; ack_KeyId := ""; ack_ResultDigest := ResultDigest (Some r); ack_DigestSignature := [] |}) as (? & ? & ? & ? & ? & _).
Qed.

Lemma acknowledged_record i session r d out d' :
  recordTaskResult detailJSON verificationJSON helperSigner i session r d = (out, d') → res_TaskId r ≠ "" →
  match rec_ack out with
  | Some ack =>
      ack_TaskId ack = res_TaskId r ∧ ack_IdempotencyKey ack = res_IdempotencyKey r
      ∧ ack_ResultDigest ack = ResultDigest (Some r)
      ∧ disposed i session r d d' (ack_Status ack) (ack_ReasonCode ack)
  | None => d' = d
  end.
Proof.
  intros E Ht.
  pose proof (λ host status reason, ackResult_words host r status reason Ht) as Hack.
  unfold recordTaskResult in E. destruct (pio_owner_fails i); [by injection E as <- <-|].
  destruct (AttemptOwner d (res_TaskId r) (gs_HostID session)) as [[[jobID action] status]|] eqn:Ho.
  2:{ injection E as <- <-. destruct (Hack (gs_HostID session) ACK_REJECTED_STALE errorAttemptUnknown) as (ack & Ea & H1 & H2 & H3 & H4 & H5).
      cbn [rec_ack]. rewrite Ea, H4, H5. split_and!; [done..|]. by apply disposed_unknown. }
  case_bool_decide as Hs.
  { injection E as <- <-. destruct (Hack (gs_HostID session) ACK_DUPLICATE "") as (ack & Ea & H1 & H2 & H3 & H4 & H5).
    cbn [rec_ack]. rewrite Ea, H4, H5. split_and!; [done..|]. subst. by eapply disposed_superseded. }
  destruct (asked (pio_latest i) action r) as [state words] eqn:Hasked.
  pose proof (RecordResult_outcome (λ _, 0) (λ _, true) jobID (res_TaskId r) (stored detailJSON verificationJSON words r) state (session_fence session)
    (pio_trail i) d) as Hout.
  destruct (RecordResult _ _ _ _ _ _ d) as [[[|]|e] d1] eqn:Hrec.
  - injection E as <- <-. destruct Hout as (_ & _ & Hset).
    destruct (Hack (gs_HostID session) ACK_SETTLED "") as (ack & Ea & H1 & H2 & H3 & H4 & H5).
    cbn [rec_ack]. rewrite Ea, H4, H5. split_and!; [done..|]. eapply disposed_settled; [done|]. by rewrite Hasked.
  - injection E as <- <-. destruct Hout as (Hjobs & _).
    destruct (Hack (gs_HostID session) ACK_REJECTED_STALE errorJobSettled) as (ack & Ea & H1 & H2 & H3 & H4 & H5).
    cbn [rec_ack]. rewrite Ea, H4, H5. split_and!; [done..|].
    destruct (AttemptOwner_Some _ _ _ _ _ _ Ho) as (a & j & Ha & _ & Hst & Hj & _ & _).
    destruct (RecordResult_false _ _ _ _ _ _ _ _ a j Hrec Ha Hj) as [Hfin|(Hopen & Hle & Hv)]; [by rewrite <- Hst| |].
    + by eapply disposed_final.
    + eapply disposed_open; rewrite ?Hasked; try done. by rewrite Hst.
  - subst d1. destruct e; by injection E as <- <-.
Qed.

(** C21: what an acknowledgement of the panel stands for, on every branch: an
    answer it acknowledges is disposed of as the acknowledgement says; an
    answer it does not acknowledge changed nothing. The acknowledgement names
    the attempt, the key and the content of the very answer. *)
Theorem an_acknowledgement_stands_for_the_record i session r d out d' :
  recordTaskResult detailJSON verificationJSON helperSigner i session r d = (out, d') → res_TaskId r ≠ "" →
  match rec_ack out with
  | Some ack =>
      ack_TaskId ack = res_TaskId r ∧ ack_IdempotencyKey ack = res_IdempotencyKey r
      ∧ ack_ResultDigest ack = ResultDigest (Some r)
      ∧ disposed i session r d d' (ack_Status ack) (ack_ReasonCode ack)
  | None => d' = d
  end.
Proof. exact (acknowledged_record i session r d out d'). Qed.
End laws.
