(* ===== verification/ResultPath.v ===== *)
(** * ResultPath: an answer from the host to the panel and back

    The spool of ResultSpool.v, the panel of GatewayResults.v and the signature
    between them (Acks.v): who can make a host forget an answer. *)
From S2P Require Import Prelude Bytes Digest Text Actions ActionTables Registry JobState Jobs JobProps.
From S2P Require Import Capability CapabilityProps Signer Trust TrustProps Acks.
From S2P Require Import ResultSpool ResultSpoolProps ResultOffers GatewayResults.

Open Scope Z_scope.
Open Scope list_scope.

Section path.
Context {RW : ResultWire} {SS : SignatureScheme} {KT : KeyText}.
Context (detailJSON : TaskResult → option bytes) (verificationJSON : Verification → option bytes).

(** ** The panel's word *)

(** One answer the panel took up: over which session, what it held before and
    after, and what it said. *)
Record taken := mkTaken { tk_io : panel_io; tk_session : GatewaySession; tk_result : TaskResult; tk_before : DB; tk_after : DB }.

Definition said (signer : Signer) (t : taken) : option TaskResultAck :=
  rec_ack (recordTaskResult detailJSON verificationJSON (Some signer) (tk_io t) (tk_session t) (tk_result t) (tk_before t)).1.

Definition happened (signer : Signer) (t : taken) : Prop :=
  (recordTaskResult detailJSON verificationJSON (Some signer) (tk_io t) (tk_session t) (tk_result t) (tk_before t)).2 = tk_after t
  ∧ res_TaskId (tk_result t) ≠ "".

(** What the keys of the panel were used for: other messages, and what it said
    about the answers it took up. A signature that verifies is on one of
    them. *)
Definition panel_signed (signer : Signer) (history : list taken) (public : bytes) (host : string) (ack : TaskResultAck) : Prop :=
  ack_fits host ack
  ∧ (ed25519_Verify public (ResultAckSigningBytes host ack) (ack_Signature ack) = true →
     ∃ m, fits m ∧ message_bytes m = ResultAckSigningBytes host ack
       ∧ ∀ host' a, m = MResultAck host' a → ∃ t, t ∈ history ∧ happened signer t ∧ host' = gs_HostID (tk_session t) ∧ said signer t = Some a).

(** ** The host's side *)

Lemma acknowledge_frees i verified ack d s s' e :
  rd_spool d = Some s → rd_spool (acknowledge i verified ack d) = Some s' → e ∈ rs_entries s → e ∉ rs_entries s' →
  verified = Ok tt ∧ known_status (ack_Status ack) = true ∧ s' = (Acknowledge i ack s).2.
Proof.
  intros Hs E He Hn. unfold acknowledge in E. rewrite Hs in E. case_bool_decide; [rewrite Hs in E; by injection E as <-|].
  destruct verified as [[]|]; [|rewrite Hs in E; by injection E as <-].
  destruct (known_status (ack_Status ack)); cbn [negb] in E; [|rewrite Hs in E; by injection E as <-].
  destruct (Acknowledge i ack s) as [[[]|err] s1]; cbn in E; by injection E as <-.
Qed.

(** C20: a host that trusts a key of the panel forgets an answer on an
    acknowledgement only when the panel took up an answer to that attempt, over
    a session of that host and under the same key, and disposed of it: it
    settled the job, or it holds another attempt's answer, or it will not take
    this one. Given that a signature that verifies is on a message the panel
    signed. *)
Theorem an_answer_is_freed_by_the_panel_alone signer history i ti t host ack d s s' e r :
  rd_spool d = Some s → sound s → held s → backs s e r → e ∈ rs_entries s →
  rd_spool (acknowledge i (resultAckVerifier ti t host ack) ack d) = Some s' → e ∉ rs_entries s' →
  len (IDs (loadKeyring t)) ≠ 0 →
  (∀ public, loadKeyring t !! ack_KeyId ack = Some public → panel_signed signer history public host ack) →
  ∃ k, k ∈ history ∧ happened signer k ∧ gs_HostID (tk_session k) = host
    ∧ res_TaskId (tk_result k) = sr_taskID e
    ∧ (sr_idempotencyKey e = "" ∨ res_IdempotencyKey (tk_result k) = sr_idempotencyKey e)
    ∧ disposed detailJSON verificationJSON (tk_io k) (tk_session k) (tk_result k) (tk_before k) (tk_after k)
        (ack_Status ack) (ack_ReasonCode ack).
Proof.
  intros Hd Hs Hh Hr He E Hn Hkeys Hsigned.
  destruct (acknowledge_frees _ _ _ _ _ _ _ Hd E He Hn) as (Hv & Hk & ->).
  assert (Hfreed : freed s e r (EvAcknowledge i ack)) by (by eapply (an_answer_leaves s e r (EvAcknowledge i ack))).
  inversion Hfreed as [| | | |? ? Htask Hkey Hdig| |]; subst.
  unfold resultAckVerifier, KeyringOf in Hv. destruct (keyring_fails ti); [done|]. rewrite (bool_decide_eq_false_2 _ Hkeys) in Hv.
  destruct (VerifyResultAck_Ok _ _ _ Hv) as (public & Hpub & Hsig & _).
  destruct (Hsigned public Hpub) as (Hfit & Hon). destruct (Hon Hsig) as (m & Hfm & Hbytes & Hsaid).
  assert (Hc : covered m = covered (MResultAck host ack)) by (by apply message_bytes_determine_aux).
  destruct m as [| | |host' a| | | |]; try discriminate Hc. cbn in Hc. injection Hc as -> H1 H2 H3 H4.
  destruct (Hsaid host a eq_refl) as (k & Hin & Hhap & Hhost & Hack). exists k.
  assert (Hlaw : ack_TaskId a = res_TaskId (tk_result k) ∧ ack_IdempotencyKey a = res_IdempotencyKey (tk_result k)
    ∧ disposed detailJSON verificationJSON (tk_io k) (tk_session k) (tk_result k) (tk_before k) (tk_after k)
        (ack_Status a) (ack_ReasonCode a)).
  { destruct Hhap as [Hrec Hne]. unfold said in Hack. destruct (recordTaskResult _ _ _ _ _ _ _) as [out d'] eqn:Erec.
    cbn [fst snd] in Hrec, Hack. subst d'. pose proof (acknowledged_record _ _ _ _ _ _ _ _ _ Erec Hne) as Hlaw.
    rewrite Hack in Hlaw. by destruct Hlaw as (? & ? & _ & ?). }
  destruct Hlaw as (L1 & L2 & L3). split_and!; try done.
  - congruence.
  - destruct Hkey as [?|Hkey]; [by left|right; congruence].
  - by rewrite <- H3, <- H4.
Qed.

(** ** The content *)

Lemma first_of_unique l e : NoDup (sr_taskID <$> l) → e ∈ l → ∃ kept, first_of (sr_taskID e) l = Some (e, kept) ∧ e ∉ kept.
Proof.
  induction l as [|x l IH]; [by intros _ ?%elem_of_nil|]. cbn [fmap list_fmap first_of]. intros [Hx Hn]%NoDup_cons [->|He]%elem_of_cons.
  - rewrite bool_decide_eq_true_2 by done. exists l. split; [done|]. intros Hin. apply Hx. by apply list_elem_of_fmap_2.
  - destruct (IH Hn He) as (kept & Hf & Hk). rewrite bool_decide_eq_false_2.
    2:{ intros Heq. apply Hx. rewrite Heq. by apply list_elem_of_fmap_2. }
    rewrite Hf. cbn [mbind option_bind]. exists (x :: kept). split; [done|].
    intros [->|?]%elem_of_cons; [|done]. apply Hx. by apply list_elem_of_fmap_2.
Qed.

(** An acknowledgement without the digest and its signature. *)
Definition stripped (ack : TaskResultAck) : TaskResultAck :=
  {| ack_TaskId := ack_TaskId ack; ack_IdempotencyKey := ack_IdempotencyKey ack; ack_Status := ack_Status ack;
     ack_ReasonCode := ack_ReasonCode ack; ack_Signature := ack_Signature ack; ack_KeyId := ack_KeyId ack;
     ack_ResultDigest := []; ack_DigestSignature := [] |}.

(** the digest does not hold an answer the relay changed on its way: the
    panel settles the changed answer and signs its digest; the relay takes the
    digest and its signature off; what is left still verifies, and the host
    forgets the answer it holds, which the panel never saw. *)
Theorem a_stripped_digest_frees_the_answer signer host status reason changed i ti t d s s' e :
  loadKeyring t !! signer_KeyID signer = Some (PublicKey signer) → keyring_fails ti = false →
  known_status status = true → rd_spool d = Some s → NoDup (sr_taskID <$> rs_entries s) → e ∈ rs_entries s →
  res_TaskId changed = sr_taskID e → res_TaskId changed ≠ "" → res_IdempotencyKey changed = sr_idempotencyKey e →
  ∀ ack, ackResult (Some signer) host changed status reason = Some ack →
  rd_spool (acknowledge i (resultAckVerifier ti t host (stripped ack)) (stripped ack) d) = Some s' → e ∉ rs_entries s'.
Proof.
  intros Hring Hti Hstatus Hd Hnd He Htask Hne Hkey ack Hack E. unfold ackResult in Hack.
  rewrite (bool_decide_eq_false_2 _ Hne) in Hack. injection Hack as <-.
  set (unsigned := {| ack_TaskId := res_TaskId changed; ack_IdempotencyKey := _; ack_Status := _; ack_ReasonCode := _;
    ack_Signature := _; ack_KeyId := _; ack_ResultDigest := _; ack_DigestSignature := _ |}) in *.
  destruct (SignResultAck_words signer host unsigned) as (W1 & W2 & W3 & W4 & W5 & W6 & W7 & W8). cbv zeta in *.
  set (ack := SignResultAck signer host unsigned) in *. clearbody ack.
  assert (Hv : resultAckVerifier ti t host (stripped ack) = Ok tt).
  { unfold resultAckVerifier, KeyringOf. rewrite Hti. case (bool_decide (len (IDs (loadKeyring t)) = 0)); [done|].
    apply (VerifyResultAck_signed (loadKeyring t) signer host unsigned); try done. by left. }
  rewrite Hv in E. unfold acknowledge in E. rewrite Hd in E. cbn [ack_TaskId ack_Status stripped] in E.
  rewrite W1, W3 in E. cbn [ack_TaskId ack_Status unsigned] in E. rewrite (bool_decide_eq_false_2 _ Hne), Hstatus in E. cbn [negb] in E.
  destruct (first_of_unique _ _ Hnd He) as (kept & Hf & Hk).
  assert (Ha : Acknowledge i (stripped ack) s = (Ok tt, forget i (sr_taskID e) s)).
  { unfold Acknowledge. cbn [ack_TaskId stripped]. rewrite W1. cbn [ack_TaskId unsigned]. rewrite (bool_decide_eq_false_2 _ Hne), Htask, Hf.
    unfold about. cbn [ack_IdempotencyKey ack_ResultDigest stripped]. rewrite W2. cbn [ack_IdempotencyKey unsigned].
    rewrite Hkey, (bool_decide_eq_true_2 (_ = sr_idempotencyKey e)), andb_false_r by done. by rewrite (bool_decide_eq_false_2 (0 < _)) by exact (Z.lt_irrefl 0). }
  rewrite Ha in E. cbn in E. injection E as <-. unfold forget. by rewrite Hf.
Qed.

(** ** What the spool itself loses *)

(** A second copy of an answer whose write fails takes the first with it. *)
Lemma a_second_copy_that_fails_loses_the_first i now r s e body :
  NoDup (sr_taskID <$> rs_entries s) → e ∈ rs_entries s → sr_taskID e = res_TaskId r → spoolableTaskID (res_TaskId r) = true →
  result_Marshal r = Some body → len body + resultSpoolHeader ≤ rs_maxSize s →
  sio_write_fails i = true → sio_undeletable i (sr_file e) = false →
  (Enqueue i now r s).1 = Err ErrWriting ∧ (e ∉ rs_entries (Enqueue i now r s).2)
  ∧ (rs_disk (Enqueue i now r s).2) !! sr_file e = None.
Proof.
  intros Hnd He Ht Hs Hm Hl Hw Hu. unfold Enqueue. rewrite Hs, Hm. cbn [negb]. rewrite bool_decide_eq_false_2 by lia.
  destruct (first_of_unique _ _ Hnd He) as (kept & Hf & Hk). unfold forget. rewrite <- Ht, Hf. unfold remove_file. rewrite Hu.
  cbv zeta. unfold write_file. rewrite Hw. cbn. split_and!; [done..|]. apply lookup_delete_eq.
Qed.

(** [Pending] reads the files of a list it took earlier: the file of an answer
    that was replaced meanwhile is gone, and the newer answer is forgotten. *)
Lemma a_stale_read_forgets_the_newer_answer i s old e :
  NoDup (sr_taskID <$> rs_entries s) → e ∈ rs_entries s → sr_taskID e = sr_taskID old → rs_disk s !! sr_file old = None →
  (pending_read i old s).1 = None ∧ e ∉ rs_entries (pending_read i old s).2.
Proof.
  intros Hnd He Ht Hold. unfold pending_read, read_result. rewrite Hold.
  assert (Hn : (if sio_unreadable i (sr_file old) then @None TaskResult else None) = None) by (by destruct (sio_unreadable _ _)).
  cbn [mbind option_bind]. rewrite Hn. split; [done|]. cbn [snd].
  destruct (first_of_unique _ _ Hnd He) as (kept & Hf & Hk). unfold forget. by rewrite <- Ht, Hf.
Qed.
End path.
