(* ===== verification/ResultDemo.v ===== *)
(** * ResultDemo: one answer, from the host to the panel and back

    The witnesses of the files on answers: a host that carried out the task of
    JobProps.v writes its answer down, cannot send it, offers it again, and the
    panel's acknowledgement frees it; with the cases the code decides oddly. *)
From S2P Require Import Prelude Bytes Digest Text Actions ActionTables Registry JobState Jobs JobSteps JobProps.
From S2P Require Import Capability CapabilityProps Signer Trust TrustProps TrustLaws Acks.
From S2P Require Import ResultSpool ResultSpoolProps ResultOffers ResultRestart GatewayResults ResultPath.

Open Scope Z_scope.
Open Scope list_scope.

#[local] Opaque sha256.

Section demo.
#[local] Existing Instance toy_signatures.
#[local] Existing Instance toy_keys.
#[local] Existing Instance identity_order.

Definition demo_result : TaskResult :=
  mkTaskResult "A1" "key" STATUS_SUCCEEDED 0 (sbytes "done") [] false "" "" false
    (Some (mkVerification "packages" true "" "" "")) "" [].
(** The same answer after somebody on the way changed it. *)
Definition demo_changed : TaskResult :=
  mkTaskResult "A1" "key" STATUS_FAILED 1 [] [] false "" "" false None "" [].

(** A wire form that knows these two. *)
Definition demo_Marshal (r : TaskResult) : option bytes :=
  if decide (r = demo_result) then Some (sbytes "one") else if decide (r = demo_changed) then Some (sbytes "two") else None.
Definition demo_Unmarshal (body : bytes) : option TaskResult :=
  if decide (body = sbytes "one") then Some demo_result else if decide (body = sbytes "two") then Some demo_changed else None.
Program Definition demo_results : ResultWire :=
  {| result_Marshal := demo_Marshal; result_Unmarshal := demo_Unmarshal; result_Deterministic := demo_Marshal |}.
Next Obligation.
  intros r body. unfold demo_Marshal. do 2 (case_decide; [intros [= <-]; subst; reflexivity|]). done.
Qed.
#[local] Existing Instance demo_results.

(** ** The host *)

Definition good_spool : spool_io := good_spool_io.
Definition demo_spool : ResultSpool :=
  default (mkResultSpool ∅ 0 0 0 false 0 [] 0) (OpenResultSpool good_spool 8 4096 (3600 * second) ∅).
Definition demo_write : spool_event := EvEnqueue good_spool (10 * second) demo_result.
Definition demo_held : ResultSpool := (Enqueue good_spool (10 * second) demo_result demo_spool).2.

Lemma demo_opened : OpenResultSpool good_spool 8 4096 (3600 * second) ∅ = Some demo_spool.
Proof. vm_compute. reflexivity. Qed.
Lemma demo_runs : spool_run demo_spool [demo_write] demo_held.
Proof. eapply run_event; [reflexivity|apply run_nothing]. Qed.
Lemma demo_spool_sound : sound demo_spool ∧ held demo_spool.
Proof. exact (OpenResultSpool_sound _ _ _ _ _ _ demo_opened). Qed.
Lemma demo_held_sound : sound demo_held ∧ held demo_held.
Proof.
  destruct demo_spool_sound as [Hs Hh]. split; [by apply Enqueue_sound|].
  apply Enqueue_held; [by destruct Hs|done|by vm_compute].
Qed.

Lemma the_spool_stays_within_its_bounds_witness :
  rs_bytes demo_held = sumZ sr_size (rs_entries demo_held) ∧ len (rs_entries demo_held) ≤ rs_limit demo_held
  ∧ rs_bytes demo_held ≤ rs_maxSize demo_held.
Proof. exact (the_spool_stays_within_its_bounds _ _ _ _ _ _ _ _ demo_opened demo_runs). Defined.

Definition demo_entry : spooledResult :=
  default (mkSpooled "" 0 "" "" 0 0) (head (rs_entries demo_held)).

Lemma demo_entry_in : demo_entry ∈ rs_entries demo_held.
Proof. replace (rs_entries demo_held) with [demo_entry] by (vm_compute; reflexivity). by left. Qed.
Lemma demo_backed : backs demo_held demo_entry demo_result.
Proof. eexists. split; [vm_compute; reflexivity|]. split_and!; vm_compute; reflexivity. Qed.

Lemma an_undelivered_answer_is_offered_witness :
  demo_result ∈ (offer good_spool (100 * second) (replicate 8 true)
    (mkDelivery (rd_spool (deliver good_spool (10 * second) false demo_result (mkDelivery (Some demo_spool) true 0 ∅))) true 0 ∅)).1.
Proof.
  destruct demo_spool_sound as [Hs Hh].
  apply (an_undelivered_answer_is_offered good_spool (10 * second) demo_result (sbytes "one") demo_spool true 0 ∅); try done.
  all: repeat constructor.
Defined.

Lemma a_restart_forgets_nothing_witness :
  ∃ s', OpenResultSpool good_spool (rs_limit demo_held) (rs_maxSize demo_held) (rs_ttl demo_held) (rs_disk demo_held) = Some s'
    ∧ rs_entries s' = rs_entries demo_held ∧ rs_bytes s' = rs_bytes demo_held.
Proof.
  apply (a_restart_forgets_nothing 8 4096 (3600 * second) demo_spool [demo_write] demo_held demo_opened).
  eapply quiet_event; [|reflexivity|apply quiet_nothing]. by split_and!.
Defined.

(** ** The panel *)

Definition demo_signer : Signer := NewSignerFromKey first_key.
Definition demo_json (r : TaskResult) : option bytes := None.
Definition demo_read_json (v : Verification) : option bytes := Some (sbytes "{}").
Definition demo_dispatched : DB := demo_invoke (DoMarkDispatched "J" "A1" (mkFence "session" 2) (60 * second)) demo_leased.
Definition demo_session : GatewaySession := mkGatewaySession "session" "host" 2.
Definition demo_panel_io : panel_io := mkPanelIo false None None.
Definition demo_record (r : TaskResult) (d : DB) : recorded * DB :=
  recordTaskResult demo_json demo_read_json (Some demo_signer) demo_panel_io demo_session r d.
Definition demo_taken : taken :=
  mkTaken demo_panel_io demo_session demo_result demo_dispatched (demo_record demo_result demo_dispatched).2.
Definition demo_ack : TaskResultAck :=
  default (Build_TaskResultAck "" "" 0 "" [] "" [] []) (rec_ack (demo_record demo_result demo_dispatched).1).

Lemma demo_acked : rec_ack (demo_record demo_result demo_dispatched).1 = Some demo_ack ∧ ack_Status demo_ack = ACK_SETTLED.
Proof. vm_compute. split; reflexivity. Qed.

Lemma an_acknowledgement_stands_for_the_record_witness :
  ack_TaskId demo_ack = res_TaskId demo_result ∧ ack_IdempotencyKey demo_ack = res_IdempotencyKey demo_result
  ∧ ack_ResultDigest demo_ack = ResultDigest (Some demo_result)
  ∧ disposed demo_json demo_read_json demo_panel_io demo_session demo_result demo_dispatched
      (demo_record demo_result demo_dispatched).2 (ack_Status demo_ack) (ack_ReasonCode demo_ack).
Proof.
  assert (E : demo_record demo_result demo_dispatched
    = (mkRecorded (Some demo_ack) false false, (demo_record demo_result demo_dispatched).2)) by (vm_compute; reflexivity).
  refine (an_acknowledgement_stands_for_the_record demo_json demo_read_json (Some demo_signer) demo_panel_io demo_session demo_result
    demo_dispatched (mkRecorded (Some demo_ack) false false) _ E _). discriminate.
Defined.

(** ** Back at the host *)

Definition demo_answered : ResultSpool := (Acknowledge good_spool demo_ack demo_held).2.
Definition demo_delivering : resultDelivery := mkDelivery (Some demo_held) true 0 ∅.
Definition demo_ring : bytes → Prop := λ public, loadKeyring enrolled !! ack_KeyId demo_ack = Some public.

Lemma demo_freed : demo_entry ∉ rs_entries demo_answered.
Proof. replace (rs_entries demo_answered) with (@nil spooledResult) by (vm_compute; reflexivity). by intros ?%elem_of_nil. Qed.

Lemma an_answer_leaves_for_a_reason_witness :
  freed demo_held demo_entry demo_result (EvAcknowledge good_spool demo_ack).
Proof.
  destruct demo_held_sound as [Hs Hh].
  exact (an_answer_leaves_for_a_reason demo_held demo_entry demo_result (EvAcknowledge good_spool demo_ack) demo_answered
    Hs Hh I demo_backed eq_refl demo_entry_in demo_freed).
Defined.

Lemma demo_ack_fits : ack_fits "host" demo_ack.
Proof. vm_compute. repeat split; discriminate. Qed.

Lemma MResultAck_inj h x h' a : MResultAck h x = MResultAck h' a → h = h' ∧ x = a.
Proof. by intros [= <- <-]. Qed.

Lemma demo_signed public : loadKeyring enrolled !! ack_KeyId demo_ack = Some public → panel_signed demo_json demo_read_json demo_signer [demo_taken] public "host" demo_ack.
Proof.
  intros _. split; [exact demo_ack_fits|]. intros _. exists (MResultAck "host" demo_ack).
  split_and!; [exact demo_ack_fits|reflexivity|]. intros host' a He.
  apply MResultAck_inj in He as [<- <-]. exists demo_taken.
  split_and!; [left|split; [reflexivity|discriminate]|reflexivity|exact (proj1 demo_acked)].
Qed.

Lemma demo_acknowledged :
  rd_spool (acknowledge good_spool (resultAckVerifier good_trust_io enrolled "host" demo_ack) demo_ack demo_delivering) = Some demo_answered.
Proof.
  assert (Hv : resultAckVerifier good_trust_io enrolled "host" demo_ack = Ok tt) by (vm_compute; reflexivity).
  rewrite Hv. vm_compute. reflexivity.
Qed.

Lemma an_answer_is_freed_by_the_panel_alone_witness :
  ∃ k, k ∈ [demo_taken] ∧ happened demo_json demo_read_json demo_signer k ∧ gs_HostID (tk_session k) = "host"
    ∧ res_TaskId (tk_result k) = sr_taskID demo_entry
    ∧ (sr_idempotencyKey demo_entry = "" ∨ res_IdempotencyKey (tk_result k) = sr_idempotencyKey demo_entry)
    ∧ disposed demo_json demo_read_json (tk_io k) (tk_session k) (tk_result k) (tk_before k) (tk_after k)
        (ack_Status demo_ack) (ack_ReasonCode demo_ack).
Proof.
  destruct demo_held_sound as [Hs Hh].
  apply (an_answer_is_freed_by_the_panel_alone demo_json demo_read_json demo_signer [demo_taken] good_spool good_trust_io enrolled "host"
    demo_ack demo_delivering demo_held demo_answered demo_entry demo_result eq_refl Hs Hh demo_backed demo_entry_in demo_acknowledged demo_freed).
  - vm_compute. discriminate.
  - exact demo_signed.
Defined.

(** The panel took [demo_changed] up, the host holds [demo_result]. *)
Definition demo_lie : TaskResultAck :=
  default (Build_TaskResultAck "" "" 0 "" [] "" [] []) (ackResult (Some demo_signer) "host" demo_changed ACK_SETTLED "").
Definition demo_misled : ResultSpool :=
  default demo_held (rd_spool (acknowledge good_spool (resultAckVerifier good_trust_io enrolled "host" (stripped demo_lie))
    (stripped demo_lie) demo_delivering)).

Lemma a_stripped_digest_frees_the_answer_witness : demo_entry ∉ rs_entries demo_misled.
Proof.
  apply (a_stripped_digest_frees_the_answer demo_signer "host" ACK_SETTLED "" demo_changed good_spool good_trust_io enrolled
    demo_delivering demo_held demo_misled demo_entry) with (ack := demo_lie).
  - vm_compute. reflexivity.
  - reflexivity.
  - reflexivity.
  - reflexivity.
  - replace (rs_entries demo_held) with [demo_entry] by (vm_compute; reflexivity). apply NoDup_singleton.
  - exact demo_entry_in.
  - vm_compute. reflexivity.
  - discriminate.
  - vm_compute. reflexivity.
  - vm_compute. reflexivity.
  - vm_compute. reflexivity.
Defined.

(** ** Odd cases *)

(** An answer that comes while its job is still leased is refused for good: the
    envelope goes out before [MarkDispatched], the job may not move from leased
    to succeeded, and the host drops the answer on the signed refusal. *)
Lemma an_early_answer_is_refused_for_good :
  ∃ ack, rec_ack (demo_record demo_result demo_leased).1 = Some ack ∧ ack_Status ack = ACK_REJECTED_STALE
    ∧ ack_ReasonCode ack = errorJobSettled ∧ known_status (ack_Status ack) = true
    ∧ (j_state <$> jobs (demo_record demo_result demo_leased).2 !! "J") = Some StateLeased
    ∧ (a_status <$> attempts (demo_record demo_result demo_leased).2 !! "A1") = Some None.
Proof. eexists. split_and!; [vm_compute; reflexivity..]. Qed.

(** The answer that settled its job, sent again because the acknowledgement got
    lost, is refused as stale instead of acknowledged as a duplicate. *)
Lemma a_repeated_answer_is_called_stale :
  ∃ ack, rec_ack (demo_record demo_result (demo_record demo_result demo_dispatched).2).1 = Some ack
    ∧ ack_Status ack = ACK_REJECTED_STALE ∧ ack_ReasonCode ack = errorJobSettled.
Proof. eexists. split_and!; [vm_compute; reflexivity..]. Qed.
End demo.
