(* ===== verification/Budgets.v ===== *)
(** * Budgets: the capacity of the fleet

    Models src/internal/budgets/budgets.go - the keys of the budgets, the
    classes of work, the sentences a refusal is described in - and the writing
    part of src/internal/budgets/store.go: granting, renewing, releasing and
    sweeping leases over the tables budget_limits, budget_leases and
    budget_waiters. [now()] is the clock of the database; the waiting time is
    taken exactly, without the rounding of the float the query returns. What an
    operation changes and locks comes from the table of operations, an argument
    of the definitions. *)
From coqutil Require Import Datatypes.RecordSetters.
From Stdlib Require Import Strings.Ascii.
From S2P Require Import Prelude Bytes Digest Text Order.

Import OCamlLikeNotations.
Open Scope Z_scope.

(** ** Classes of work *)

Inductive Class_ := ClassIncident | ClassInteractive | ClassMaintenance | ClassBackground
                  | ClassOther (text : string).

#[export] Instance Class_eq_dec : EqDecision Class_.
Proof. solve_decision. Defined.

(** The class as the string the code keeps. *)
Definition class_text (c : Class_) : string :=
  match c with
  | ClassIncident => "incident" | ClassInteractive => "interactive"
  | ClassMaintenance => "maintenance" | ClassBackground => "background"
  | ClassOther text => text
  end.

Definition PromotionAge (c : Class_) : Z :=
  match c with
  | ClassIncident => 0
  | ClassInteractive => 15 * second
  | ClassMaintenance => 2 * minute
  | _ => 5 * minute
  end.

Definition Known (c : Class_) : bool := match c with ClassOther _ => false | _ => true end.

(** ** Needs and refusals *)

Record Need := mkNeed { n_key : string; n_weight : Z }.

Definition ReasonCapacity : string := "capacity".
Definition ReasonFairShare : string := "fair_share".

Record Refusal := mkRefusal {
  rf_key : string; rf_reason : string; rf_used : Z; rf_capacity : Z;
  rf_share : Z; rf_held : Z; rf_waiting : Z;
}.

Definition no_refusal : Refusal := mkRefusal "" "" 0 0 0 0 0.
Definition Empty (r : Refusal) : bool := bool_decide (rf_key r = ""%string).

Definition Describe (r : Refusal) : string :=
  if Empty r then ""
  else if bool_decide (rf_reason r = ReasonFairShare) then
    "budget " +:+ rf_key r +:+ ": share " +:+ FormatInt (rf_share r) +:+ " of " +:+
    FormatInt (rf_capacity r) +:+ " tokens, holding " +:+ FormatInt (rf_held r) +:+
    ", waiting " +:+ duration_string (round_to_second (rf_waiting r))
  else
    "budget " +:+ rf_key r +:+ ": " +:+ FormatInt (rf_used r) +:+ " of " +:+
    FormatInt (rf_capacity r) +:+ " taken, waiting " +:+
    duration_string (round_to_second (rf_waiting r)).

(** ** Keys *)

Definition KeyGlobalMutations : string := "global:mutations".
Definition KeyGlobalReads : string := "global:reads".

Definition colon : byte := Byte.x3a.
Definition space : byte := Byte.x20.
Definition underscore : byte := Byte.x5f.

(** The parts between the colons. *)
Fixpoint split_bytes (key : bytes) : list bytes :=
  match key with
  | [] => [[]]
  | c :: key' =>
      if bool_decide (c = colon) then [] :: split_bytes key'
      else match split_bytes key' with
           | part :: parts => (c :: part) :: parts
           | [] => [[c]]
           end
  end.
Definition split (key : string) : list string := bstring <$> split_bytes (sbytes key).

Definition Pattern (key : string) : string :=
  match split key with
  | [first; _; last] => first +:+ ":*:" +:+ last
  | _ => ""
  end.

Definition SiteKey (site family : string) : string :=
  if bool_decide (site = ""%string) || bool_decide (family = ""%string) then ""
  else "site:" +:+ site +:+ ":" +:+ family.

Definition replace_byte (c : byte) : byte :=
  if bool_decide (c = colon) || bool_decide (c = space) then underscore else c.

Definition scopeName (text : string) : string :=
  let trimmed := TrimSpace (sbytes text) in
  if bool_decide (trimmed = []) then ""
  else
    let name := replace_byte <$> trimmed in
    if bool_decide (100 < len name)
    then bstring (take 100 name) +:+ "_" +:+ bstring (take 16 (hex_encode (sha256 trimmed)))
    else bstring name.

Definition scoped (prefix text family : string) : string :=
  let name := scopeName text in
  if bool_decide (name = ""%string) || bool_decide (family = ""%string) then ""
  else prefix +:+ name +:+ ":" +:+ family.

Definition BackendKey (repository : string) : string :=
  let name := scopeName repository in
  if bool_decide (name = ""%string) then "" else "backend:" +:+ name +:+ ":backup".
Definition DomainKey (domain family : string) : string := scoped "domain:" domain family.
Definition GatewayKey (gateway family : string) : string := scoped "gateway:" gateway family.

(** ** What an operation needs *)

(** The row of an operation in the table of operations. *)
Record action_spec := mkActionSpec { as_lock_class : string; as_mutating : bool }.

Record Topology := mkTopology { t_site : string; t_failure_domain : string; t_gateway : string }.

Definition ActionSystemReboot : string := "system.reboot".
Definition ActionSystemShutdown : string := "system.shutdown".
Definition backupActions : list string := ["backup.run"; "backup.verify"; "backup.restore"].
Definition ActionLocalUserLock : string := "localuser.lock".

Section needs.
Context (actionSpecs : string → option action_spec).

Definition LockClass (action : string) : string :=
  match actionSpecs action with Some s => as_lock_class s | None => "" end.
Definition Mutating (action : string) : bool :=
  match actionSpecs action with Some s => as_mutating s | None => false end.

Definition SiteFamily (action : string) : string :=
  if bool_decide (action ∈ [ActionSystemReboot; ActionSystemShutdown]) then "reboot"
  else LockClass action.

Definition Needs (action : string) (where_ : Topology) (repository : string) : list Need :=
  let mutating := Mutating action || bool_decide (actionSpecs action = None) in
  let family := SiteFamily action in
  let present key := if bool_decide (key = ""%string) then [] else [mkNeed key 1] in
  mkNeed (if mutating then KeyGlobalMutations else KeyGlobalReads) 1
  :: (if mutating then
        present (SiteKey (t_site where_) family)
        ++ present (DomainKey (t_failure_domain where_) family)
        ++ present (GatewayKey (t_gateway where_) family)
      else [])
  ++ (if bool_decide (action ∈ backupActions) then present (BackendKey repository) else []).
End needs.

(** ** Owners, claimants and wait reasons *)

Definition JobOwner (jobID : string) : string := "job:" +:+ jobID.
Definition JobClaimant (createdBy : string) : string := "jobs:" +:+ createdBy.

Definition WaitReasonPrefix : string := "awaiting_budget:".
Definition WaitReason (r : Refusal) : string :=
  if Empty r then "" else WaitReasonPrefix +:+ rf_key r.
Definition WaitedKey (reason : string) : string :=
  if negb (HasPrefix reason WaitReasonPrefix) then "" else TrimPrefix reason WaitReasonPrefix.

Definition DescribedKey (description : string) : string :=
  if negb (HasPrefix description "budget ") then ""
  else match Cut (sbytes ": ") (sbytes (TrimPrefix description "budget ")) with
       | Some (key, _) => bstring key
       | None => ""
       end.

Record JobFacts := mkJobFacts { jf_action : string; jf_created_by : string; jf_stated : Class_ }.

Definition PanelAuthorPrefix : string := "flotestro/".
Definition ClassUnknown : string := "unknown".

Definition JobClass (action createdBy : string) (stated : Class_) : Class_ :=
  if Known stated then stated
  else if HasPrefix createdBy PanelAuthorPrefix then ClassBackground
  else if bool_decide (action = ActionLocalUserLock) then ClassIncident
  else ClassInteractive.

Definition LeaseClass (owner claimant : string) (job : option JobFacts) : string :=
  if HasPrefix owner "job:" then
    match job with
    | None => ClassUnknown
    | Some j => class_text (JobClass (jf_action j) (jf_created_by j) (jf_stated j))
    end
  else if HasPrefix claimant "campaign:" then class_text ClassMaintenance
  else if HasPrefix owner "fanout:" then class_text ClassInteractive
  else ClassUnknown.

(** ** The tables *)

Record limit := mkLimit { l_capacity : Z; l_note : string; l_updated_at : time }.
Record lease := mkLease {
  e_claimant : string; e_weight : Z; e_acquired_at : time; e_until : time; e_token : Z;
}.
Record waiter := mkWaiter { w_class : string; w_since : time; w_seen_at : time }.

(** The primary keys are the key of a limit, (key, owner) of a lease and
    (key, claimant) of a waiter. *)
Record Tables := mkTables {
  clock : time;
  limits : gmap string limit;
  leases : gmap (string * string) lease;
  waiters : gmap (string * string) waiter;
}.

#[global] Arguments constant {E} newValue / _.

Definition defaultLease : Z := 2 * minute.
Definition waiterAge : Z := 30 * second.
Definition sweepAge : Z := 10 * minute.

Inductive budget_err := ErrLeaseLost | ErrFenceStale | ErrCapacityMoved.

(** [sum(weight) filter (where ...)] *)
Definition sum_weight (P : string * string → lease → bool) (m : gmap (string * string) lease) : Z :=
  map_fold (λ k l acc, (if P k l then e_weight l else 0) + acc) 0 m.

Definition alive (now : time) (l : lease) : bool := bool_decide (now < e_until l).

(** The tokens of a key in use. *)
Definition used (d : Tables) (key : string) : Z :=
  sum_weight (λ k l, bool_decide (k.1 = key) && alive (clock d) l) (leases d).

(** The capacity of a key: its own row, or the row of its pattern. *)
Definition capacity_of (d : Tables) (key : string) : option Z :=
  match limits d !! key with
  | Some l => Some (l_capacity l)
  | None => if bool_decide (Pattern key = ""%string) then None
            else l_capacity <$> limits d !! Pattern key
  end.

(** ** Granting *)

Definition claimants (d : Tables) (key : string) : Z :=
  let holding : gset string := list_to_set
    ((λ kl, e_claimant kl.2) <$> filter (λ kl, kl.1.1 = key ∧ alive (clock d) kl.2 = true)
       (map_to_list (leases d))) in
  let asking : gset string := list_to_set
    ((λ kw, kw.1.2) <$> filter (λ kw, kw.1.1 = key ∧ clock d - waiterAge < w_seen_at kw.2)
       (map_to_list (waiters d))) in
  Z.of_nat (base.size (holding ∪ asking)).

Definition waitingTime (d : Tables) (key claimant : string) : Z :=
  match waiters d !! (key, claimant) with Some w => clock d - w_since w | None => 0 end.

(** What the others hold of a key, and what the claimant holds of it under
    other owners. *)
Definition used_by_others (d : Tables) (owner key : string) : Z :=
  sum_weight (λ k l, bool_decide (k.1 = key) && alive (clock d) l && bool_decide (k.2 ≠ owner)) (leases d).
Definition held_by (d : Tables) (owner claimant key : string) : Z :=
  sum_weight (λ k l, bool_decide (k.1 = key) && alive (clock d) l && bool_decide (k.2 ≠ owner)
                     && bool_decide (e_claimant l = claimant)) (leases d).

Definition check (d : Tables) (owner claimant : string) (class : Class_) (need : Need) (capacity : Z)
    : Refusal :=
  let used := used_by_others d owner (n_key need) in
  let mine := held_by d owner claimant (n_key need) in
  let waiting := waitingTime d (n_key need) claimant in
  if bool_decide (capacity < used + n_weight need) then
    mkRefusal (n_key need) ReasonCapacity used capacity 0 0 waiting
  else
    let share := Z.quot capacity (Z.max (claimants d (n_key need)) 1) in
    let share := if bool_decide (share < 1) then 1 else share in
    if bool_decide (share < mine + n_weight need) && bool_decide (waiting < PromotionAge class) then
      mkRefusal (n_key need) ReasonFairShare used capacity share mine waiting
    else no_refusal.

Definition recordWaiter (key claimant : string) (class : Class_) (d : Tables) : Tables :=
  { d with waiters ::= <[(key, claimant) :=
      match waiters d !! (key, claimant) with
      | Some w => { w with w_seen_at := clock d; w_class := class_text class }
      | None => mkWaiter (class_text class) (clock d) (clock d)
      end]> }.

Definition recordLease (owner claimant : string) (token : Z) (need : Need) (d : Tables) : Tables :=
  { d with leases ::= <[(n_key need, owner) :=
      match leases d !! (n_key need, owner) with
      | Some l => { l with e_claimant := claimant; e_weight := n_weight need;
                    e_until := clock d + defaultLease; e_token := token }
      | None => mkLease claimant (n_weight need) (clock d) (clock d + defaultLease) token
      end]> }.

(** The needs granted, or the first one refused. *)
Fixpoint judge (d : Tables) (owner claimant : string) (class : Class_) (needs : list Need)
    : Refusal + list Need :=
  match needs with
  | [] => inr []
  | need :: rest =>
      match capacity_of d (n_key need) with
      | None => judge d owner claimant class rest
      | Some capacity =>
          let refusal := check d owner claimant class need capacity in
          if negb (Empty refusal) then inl refusal
          else match judge d owner claimant class rest with
               | inr granted => inr (need :: granted)
               | inl r => inl r
               end
      end
  end.

Definition order_needs (needs : list Need) : list Need :=
  sort_stable (λ a b, bool_decide (bytes_cmp (sbytes (n_key a)) (sbytes (n_key b)) = Lt)) needs.

Definition AcquireFenced (owner claimant : string) (class : Class_) (needs : list Need) (token : Z)
    (d : Tables) : Refusal * Tables :=
  match needs with
  | [] => (no_refusal, d)
  | _ =>
      match judge d owner claimant class (order_needs needs) with
      | inl refusal => (refusal, recordWaiter (rf_key refusal) claimant class d)
      | inr granted =>
          let d1 := foldl (λ d need, recordLease owner claimant token need d) d granted in
          (no_refusal, { d1 with waiters ::= filter (λ kw : string * string * waiter,
             ¬ (kw.1.2 = claimant ∧ kw.1.1 ∈ n_key <$> granted)) })
      end
  end.

Definition Acquire (owner claimant : string) (class : Class_) (needs : list Need) (d : Tables) :
    Refusal * Tables := AcquireFenced owner claimant class needs 0 d.

(** ** Renewing and releasing *)

(** [Renew]: a lease that ran out is not renewed, and is reported. *)
Definition Renew (owners : list string) (d : Tables) : result budget_err unit * Tables :=
  match owners with
  | [] => (Ok tt, d)
  | _ =>
      let lost := filter (λ kl : string * string * lease, kl.1.2 ∈ owners ∧ alive (clock d) kl.2 = false) (map_to_list (leases d)) in
      (if bool_decide (lost = []) then Ok tt else Err ErrLeaseLost,
       { d with leases ::= map_imap (λ k l, Some
           (if bool_decide (k.2 ∈ owners) && alive (clock d) l
            then { l with e_until := clock d + defaultLease } else l)) })
  end.

Record Fenced := mkFenced { f_owner : string; f_token : Z }.

(** The leases of an owner, whatever the key. *)
Definition leases_of (d : Tables) (owner : string) : list lease :=
  (filter (λ kl : string * string * lease, kl.1.2 = owner) (map_to_list (leases d))).*2.

Definition is_stale (d : Tables) (h : Fenced) : bool :=
  existsb (λ l, negb (bool_decide (e_token l = f_token h))) (leases_of d (f_owner h)).
Definition is_expired (d : Tables) (h : Fenced) : bool :=
  existsb (λ l, bool_decide (e_token l = f_token h) && negb (alive (clock d) l)) (leases_of d (f_owner h)).
Definition is_missing (d : Tables) (h : Fenced) : bool :=
  match leases_of d (f_owner h) with [] => true | _ => false end.

(** [RenewFenced]: the counts are taken over the tables as they were. *)
Definition RenewFenced (held : list Fenced) (d : Tables) : result budget_err unit * Tables :=
  match held with
  | [] => (Ok tt, d)
  | _ =>
      (if existsb (is_stale d) held then Err ErrFenceStale
       else if existsb (is_expired d) held then Err ErrLeaseLost
       else if existsb (is_missing d) held then Err ErrLeaseLost
       else Ok tt,
       { d with leases ::= map_imap (λ k l, Some
           (if existsb (λ h, bool_decide (k.2 = f_owner h) && bool_decide (e_token l = f_token h)) held
               && alive (clock d) l
            then { l with e_until := clock d + defaultLease } else l)) })
  end.

Definition delete_leases (P : string * string → lease → bool) (d : Tables) : Tables :=
  { d with leases ::= filter (λ kl, P kl.1 kl.2 = false) }.
Definition delete_waiters (P : string * string → waiter → bool) (d : Tables) : Tables :=
  { d with waiters ::= filter (λ kw, P kw.1 kw.2 = false) }.

Definition Release (owner : string) : Tables → Tables :=
  delete_leases (λ k _, bool_decide (k.2 = owner)).
Definition ReleaseIn (owner : string) : Tables → Tables := Release owner.
Definition ReleaseFenced (owner : string) (token : Z) : Tables → Tables :=
  delete_leases (λ k l, bool_decide (k.2 = owner) && bool_decide (e_token l = token)).
Definition ReleaseClaimant (claimant : string) (d : Tables) : Tables :=
  delete_waiters (λ k _, bool_decide (k.2 = claimant))
    (delete_leases (λ _ l, bool_decide (e_claimant l = claimant)) d).

Definition sweep (d : Tables) : Tables :=
  delete_waiters (λ _ w, bool_decide (w_seen_at w < clock d - sweepAge))
    (delete_leases (λ _ l, bool_decide (e_until l < clock d - sweepAge)) d).

(** ** The policy *)

Definition SetCapacity (key : string) (capacity : Z) (note : string) (expected : time) (d : Tables)
    : result budget_err unit * Tables :=
  if is_zero expected then
    match limits d !! key with
    | Some _ => (Err ErrCapacityMoved, d)
    | None => (Ok tt, { d with limits ::= <[key := mkLimit capacity note (clock d)]> })
    end
  else
    match limits d !! key with
    | Some l =>
        if bool_decide (l_updated_at l = expected)
        then (Ok tt, { d with limits ::= <[key := mkLimit capacity note (clock d)]> })
        else (Err ErrCapacityMoved, d)
    | None => (Err ErrCapacityMoved, d)
    end.
