(* ===== verification/BudgetProps.v ===== *)
(** * BudgetProps: the promises of the budgets

    The tables as a state machine whose steps are the operations of [Budgets],
    and what holds in every state it reaches: the capacity, the all-or-nothing
    grant, the fencing, the way out of the fair share, the keys. *)
From coqutil Require Import Datatypes.RecordSetters.
From S2P Require Import Prelude Bytes Digest Text Order Budgets.

Import OCamlLikeNotations.
Open Scope Z_scope.

(** ** Sums over the leases *)

Definition weight_at (P : string * string → lease → bool) (k : string * string) (l : option lease) : Z :=
  match l with Some l => if P k l then e_weight l else 0 | None => 0 end.

Section sums.
Implicit Types (P Q : string * string → lease → bool) (m : gmap (string * string) lease).

Lemma sum_weight_empty P : sum_weight P ∅ = 0.
Proof. done. Qed.

Lemma sum_weight_new P m i l : m !! i = None → sum_weight P (<[i := l]> m) = weight_at P i (Some l) + sum_weight P m.
Proof.
  intros Hi. unfold sum_weight. rewrite map_fold_insert_L; [done| |done].
  intros j1 j2 z1 z2 y *. lia.
Qed.

(** One row taken apart from the rest. *)
Lemma sum_weight_at P m i : sum_weight P m = weight_at P i (m !! i) + sum_weight P (delete i m).
Proof.
  destruct (m !! i) as [l|] eqn:E; cbn.
  - rewrite <- (insert_delete_id m i l) at 1 by done. rewrite sum_weight_new by apply lookup_delete_eq. done.
  - by rewrite delete_id.
Qed.

Lemma sum_weight_nonneg Q m : (∀ k, 0 ≤ weight_at Q k (m !! k)) → 0 ≤ sum_weight Q m.
Proof.
  induction m as [|i l m Hi IH] using map_ind; intros H; [done|].
  rewrite sum_weight_new by done. pose proof (H i) as Hl. rewrite lookup_insert_eq in Hl.
  enough (0 ≤ sum_weight Q m) by lia. apply IH. intros k. destruct (decide (i = k)) as [<-|N].
  - by rewrite Hi.
  - by rewrite <- (lookup_insert_ne m i k l N).
Qed.

Lemma sum_weight_le P Q m m' :
  (∀ k, weight_at P k (m !! k) ≤ weight_at Q k (m' !! k)) → sum_weight P m ≤ sum_weight Q m'.
Proof.
  revert m'. induction m as [|i l m Hi IH] using map_ind; intros m' H.
  - rewrite sum_weight_empty. apply sum_weight_nonneg. intros k. by specialize (H k).
  - rewrite sum_weight_new, (sum_weight_at Q m' i) by done.
    pose proof (H i) as Hl. rewrite lookup_insert_eq in Hl.
    enough (sum_weight P m ≤ sum_weight Q (delete i m')) by lia. apply IH. intros k.
    destruct (decide (i = k)) as [<-|N]; [by rewrite Hi, lookup_delete_eq|].
    specialize (H k). by rewrite lookup_insert_ne in H by done; rewrite lookup_delete_ne.
Qed.

Lemma sum_weight_same P Q m m' :
  (∀ k, weight_at P k (m !! k) = weight_at Q k (m' !! k)) → sum_weight P m = sum_weight Q m'.
Proof. intros H. apply Z.le_antisymm; apply sum_weight_le; intros k; by rewrite H. Qed.
End sums.

(** What an owner holds of a key, next to what the others do. *)
Lemma used_split d owner key :
  used d key = used_by_others d owner key
    + weight_at (λ _ l, alive (clock d) l) (key, owner) (leases d !! (key, owner)).
Proof.
  unfold used, used_by_others. rewrite (sum_weight_at _ _ (key, owner)), Z.add_comm. f_equal.
  - apply sum_weight_same. intros k. destruct (decide ((key, owner) = k)) as [<-|N].
    + rewrite lookup_delete_eq. unfold weight_at. destruct (leases d !! _); [|done].
      cbn. by rewrite (bool_decide_eq_false_2 (owner ≠ owner)), andb_false_r by (intros []; done).
    + rewrite lookup_delete_ne by done. unfold weight_at. destruct (leases d !! k); [|done].
      destruct k as [k1 k2]; cbn. destruct (decide (k1 = key)) as [->|N1].
      * rewrite (bool_decide_eq_true_2 (k2 ≠ owner)) by congruence. by rewrite andb_true_r.
      * by rewrite bool_decide_eq_false_2.
  - unfold weight_at. destruct (leases d !! _); [|done]. cbn. by rewrite bool_decide_eq_true_2.
Qed.

(** ** The grant *)

Lemma judge_inr d owner claimant class needs granted :
  judge d owner claimant class needs = inr granted → Forall (λ n, n_key n ≠ ""%string) needs →
  (∀ n, n ∈ granted → n ∈ needs)
  ∧ (∀ n, n ∈ needs → is_Some (capacity_of d (n_key n)) → n ∈ granted)
  ∧ (∀ n, n ∈ granted → ∃ c, capacity_of d (n_key n) = Some c
       ∧ check d owner claimant class n c = no_refusal).
Proof.
  intros Hj Hk. revert granted Hj. induction Hk as [|n needs Hn _ IH]; intros granted Hj; cbn in Hj.
  - injection Hj as <-. split_and!; set_solver.
  - destruct (capacity_of d (n_key n)) as [c|] eqn:Ec.
    + destruct (Empty _) eqn:Ee; [|done]. cbn in Hj.
      destruct (judge d owner claimant class needs) as [?|g] eqn:Eg; [done|]. injection Hj as <-.
      destruct (IH g eq_refl) as (I1 & I2 & I3). split_and!; [set_solver|set_solver|].
      intros x [->|Hx]%elem_of_cons; [|by apply I3]. exists c. split; [done|].
      unfold check in Ee |- *. repeat case_bool_decide; cbn in Ee; try done; by apply bool_decide_eq_true in Ee.
    + destruct (IH granted Hj) as (I1 & I2 & I3). split_and!; [set_solver| |done].
      intros x [->|Hx]%elem_of_cons Hs; [|by apply I2]. rewrite Ec in Hs. by destruct Hs.
Qed.

Lemma judge_inl d owner claimant class needs r :
  judge d owner claimant class needs = inl r →
  ∃ n c, n ∈ needs ∧ capacity_of d (n_key n) = Some c ∧ r = check d owner claimant class n c ∧ Empty r = false.
Proof.
  induction needs as [|n needs IH]; cbn; [done|]. intros Hj.
  destruct (capacity_of d (n_key n)) as [c|] eqn:Ec.
  - destruct (Empty (check d owner claimant class n c)) eqn:Ee; cbn in Hj.
    + destruct (judge d owner claimant class needs) as [r'|g]; cbn in Hj; [|discriminate Hj]. injection Hj as ->.
      destruct (IH eq_refl) as (n' & c' & ? & ?). exists n', c'. set_solver.
    + injection Hj as <-. exists n, c. split_and!; [set_solver|done|done|done].
  - destruct (IH Hj) as (n' & c' & ? & ?). exists n', c'. set_solver.
Qed.

Lemma check_fits d owner claimant class n c :
  check d owner claimant class n c = no_refusal → n_key n ≠ ""%string →
  used_by_others d owner (n_key n) + n_weight n ≤ c.
Proof.
  unfold check. intros Hc Hk. case_bool_decide; [by injection Hc as Hc|lia].
Qed.

(** The leases a grant writes. *)
Definition granted_lease (d : Tables) (claimant : string) (token : Z) (n : Need) (l : lease) : Prop :=
  e_claimant l = claimant ∧ e_weight l = n_weight n ∧ e_token l = token
  ∧ e_until l = clock d + defaultLease.

Lemma record_frame owner claimant token n d :
  clock (recordLease owner claimant token n d) = clock d
  ∧ limits (recordLease owner claimant token n d) = limits d
  ∧ waiters (recordLease owner claimant token n d) = waiters d.
Proof. by destruct d. Qed.

Lemma record_leases owner claimant token granted d :
  let d1 := foldl (λ d n, recordLease owner claimant token n d) d granted in
  clock d1 = clock d ∧ limits d1 = limits d ∧ waiters d1 = waiters d
  ∧ (∀ k, k.2 ≠ owner ∨ k.1 ∉ n_key <$> granted → leases d1 !! k = leases d !! k)
  ∧ (∀ key, key ∈ n_key <$> granted → ∃ n l, n ∈ granted ∧ n_key n = key
       ∧ leases d1 !! (key, owner) = Some l ∧ granted_lease d claimant token n l).
Proof.
  revert d. induction granted as [|n granted IH] using rev_ind; intros d; cbv zeta.
  { split_and!; set_solver. }
  rewrite foldl_app. cbn [foldl]. destruct (IH d) as (C & L & W & I1 & I2). clear IH.
  set (d1 := foldl _ d granted) in *. destruct (record_frame owner claimant token n d1) as (C1 & L1 & W1).
  rewrite C1, L1, W1. split_and!; try done.
  - intros k Hk. rewrite fmap_app in Hk. transitivity (leases d1 !! k); [|apply I1; set_solver].
    unfold recordLease. destruct d1; cbn. rewrite lookup_insert_ne; [done|].
    intros <-. cbn in Hk. set_solver.
  - intros key Hkey. rewrite fmap_app in Hkey. destruct (decide (key = n_key n)) as [->|N].
    + exists n. unfold granted_lease. rewrite <- C. unfold recordLease. destruct d1; cbn. eexists.
      split; [set_solver|]. split; [done|]. rewrite lookup_insert_eq. split; [done|].
      by destruct (_ !! _) as [[]|].
    + destruct (I2 key ltac:(set_solver)) as (n' & l & ? & ? & Hl & ?). exists n', l.
      split_and!; [set_solver|done| |done]. unfold recordLease. destruct d1; cbn in *.
      by rewrite lookup_insert_ne by congruence.
Qed.

(** ** The capacity *)

(** A policy that takes no capacity away: every budget described before has at
    least the capacity it had. *)
Definition never_lower (d d' : Tables) : Prop :=
  ∀ key c, capacity_of d key = Some c → ∃ c', capacity_of d' key = Some c' ∧ c ≤ c'.

(** One operation, or the clock moving on. A need has a weight and names a
    budget, which [Needs] shows of every operation. *)
Inductive bstep (d : Tables) : Tables → Prop :=
| bs_tick t : clock d ≤ t → bstep d (mkTables t (limits d) (leases d) (waiters d))
| bs_acquire owner claimant class needs token :
    Forall (λ n, 0 < n_weight n ∧ n_key n ≠ ""%string) needs →
    bstep d (AcquireFenced owner claimant class needs token d).2
| bs_renew owners : bstep d (Renew owners d).2
| bs_renew_fenced held : bstep d (RenewFenced held d).2
| bs_release owner : bstep d (Release owner d)
| bs_release_fenced owner token : bstep d (ReleaseFenced owner token d)
| bs_release_claimant claimant : bstep d (ReleaseClaimant claimant d)
| bs_sweep : bstep d (sweep d)
| bs_set key capacity note expected :
    0 < capacity → never_lower d (SetCapacity key capacity note expected d).2 →
    bstep d (SetCapacity key capacity note expected d).2.

Record capacity_kept (d : Tables) : Prop := {
  ck_weight : ∀ k l, leases d !! k = Some l → 0 < e_weight l;
  ck_known : ∀ k l, leases d !! k = Some l → is_Some (capacity_of d k.1);
  ck_used : ∀ key c, capacity_of d key = Some c → used d key ≤ c;
}.

(** What only gives tokens back: the limits stay, and every lease was there
    with its weight, and alive if it is alive now. *)
Definition shrinks (d d' : Tables) : Prop :=
  limits d' = limits d ∧ ∀ k l', leases d' !! k = Some l' →
    ∃ l, leases d !! k = Some l ∧ e_weight l' = e_weight l ∧ (alive (clock d') l' = true → alive (clock d) l = true).

Lemma capacity_limits d d' key : limits d' = limits d → capacity_of d' key = capacity_of d key.
Proof. intros H. unfold capacity_of. by rewrite H. Qed.

Lemma used_shrinks d d' key :
  (∀ k l, leases d !! k = Some l → 0 < e_weight l) → shrinks d d' → used d' key ≤ used d key.
Proof.
  intros Hw [_ Hs]. apply sum_weight_le. intros k. unfold weight_at.
  assert (Hn : 0 ≤ match leases d !! k with
      Some l => if bool_decide (k.1 = key) && alive (clock d) l then e_weight l else 0 | None => 0 end).
  { destruct (leases d !! k) as [l|] eqn:E; [|done]. specialize (Hw k l E). destruct (_ && _); lia. }
  destruct (leases d' !! k) as [l'|] eqn:E'; [|done].
  destruct (Hs k l' E') as (l & E & Hwl & Ha). rewrite E in *. rewrite Hwl.
  destruct (bool_decide _); [|done]. cbn in *. destruct (alive (clock d') l'); [by rewrite Ha|done].
Qed.

Lemma kept_shrinks d d' : capacity_kept d → shrinks d d' → capacity_kept d'.
Proof.
  intros [W K U] Hs. pose proof Hs as [Hl Hp]. split.
  - intros k l' Hl'. destruct (Hp k l' Hl') as (l & Hk & -> & _). eauto.
  - intros k l' Hl'. destruct (Hp k l' Hl') as (l & Hk & _). rewrite (capacity_limits d d') by done. eauto.
  - intros key c Hc. rewrite (capacity_limits d d') in Hc by done.
    pose proof (used_shrinks d d' key W Hs). pose proof (U key c Hc). lia.
Qed.

Lemma shrinks_imap d (f : string * string → lease → lease) :
  (∀ k l, e_weight (f k l) = e_weight l ∧ (alive (clock d) (f k l) = true → alive (clock d) l = true)) →
  shrinks d { d with leases ::= map_imap (λ k l, Some (f k l)) }.
Proof.
  intros Hf. split; [by destruct d|]. intros k l'. destruct d; cbn in *. rewrite map_lookup_imap.
  intros (l & Hl & [= <-])%bind_Some. exists l. destruct (Hf k l). by split_and!.
Qed.

Lemma shrinks_delete P d : shrinks d (delete_leases P d).
Proof.
  split; [by destruct d|]. intros k l'. destruct d; cbn. intros [Hl _]%map_lookup_filter_Some. eauto.
Qed.

Lemma shrinks_waiters d f : shrinks d { d with waiters ::= f }.
Proof. destruct d; split; cbn; eauto. Qed.

Lemma shrinks_trans d1 d2 d3 : shrinks d1 d2 → shrinks d2 d3 → shrinks d1 d3.
Proof.
  intros [L1 H1] [L2 H2]. split; [congruence|]. intros k l3 H.
  destruct (H2 k l3 H) as (l2 & Hl2 & W2 & A2). destruct (H1 k l2 Hl2) as (l1 & ? & W1 & A1).
  exists l1. split_and!; auto. congruence.
Qed.

Lemma renewal_keeps now b (l : lease) :
  let l' := if (b : bool) && alive now l then { l with e_until := now + defaultLease } else l in
  e_weight l' = e_weight l ∧ (alive now l' = true → alive now l = true).
Proof. cbv zeta. destruct l, b; cbn; [|done]. destruct (alive now _) eqn:E; cbn; split; congruence. Qed.

Lemma kept_acquire owner claimant class needs token d :
  Forall (λ n, 0 < n_weight n ∧ n_key n ≠ ""%string) needs →
  capacity_kept d → capacity_kept (AcquireFenced owner claimant class needs token d).2.
Proof.
  intros Hn C. unfold AcquireFenced. destruct needs as [|n0 ns]; [done|].
  set (needs := n0 :: ns) in *. clearbody needs.
  assert (Ho : Forall (λ n, 0 < n_weight n ∧ n_key n ≠ ""%string) (order_needs needs))
    by (unfold order_needs; by rewrite sort_stable_perm).
  destruct (judge _ _ _ _ _) as [r|granted] eqn:Ej; cbn [snd].
  { eapply kept_shrinks; [exact C|]. apply shrinks_waiters. }
  destruct (judge_inr _ _ _ _ _ _ Ej) as (Hsub & _ & Hg); [by eapply Forall_impl; [exact Ho|intros ? []]|].
  destruct (record_leases owner claimant token granted d) as (Cl & Li & _ & Hout & Hin).
  set (d1 := foldl _ d granted) in *. eapply kept_shrinks; [|apply shrinks_waiters].
  destruct C as [W K U].
  assert (Hpos : ∀ n, n ∈ granted → 0 < n_weight n ∧ n_key n ≠ ""%string).
  { rewrite Forall_forall in Ho. intros n H. by apply Ho, Hsub. }
  assert (Hcase : ∀ k l, leases d1 !! k = Some l →
     (leases d !! k = Some l ∧ (k.2 ≠ owner ∨ k.1 ∉ n_key <$> granted))
     ∨ ∃ n, n ∈ granted ∧ n_key n = k.1 ∧ granted_lease d claimant token n l).
  { intros k l Hl. destruct (decide (k.2 = owner ∧ k.1 ∈ n_key <$> granted)) as [[<- Hk]|Nk].
    - right. destruct (Hin _ Hk) as (n & l' & ? & ? & Hl' & ?). exists n.
      rewrite <- surjective_pairing in Hl'. split_and!; congruence.
    - left. apply not_and_l in Nk. by rewrite <- Hout. }
  split.
  - intros k l Hl. destruct (Hcase k l Hl) as [[? _]|(n & Hng & _ & _ & -> & _)]; [eauto|by apply Hpos].
  - intros k l Hl. rewrite (capacity_limits d d1) by done.
    destruct (Hcase k l Hl) as [[? _]|(n & Hng & <- & _)]; [eauto|]. destruct (Hg n Hng) as (c & -> & _). done.
  - intros key c Hc. rewrite (capacity_limits d d1) in Hc by done.
    assert (Hother : used_by_others d1 owner key = used_by_others d owner key).
    { apply sum_weight_same. intros k. rewrite Cl. destruct (decide (k.2 = owner)) as [Hk|Hk].
      - unfold weight_at. cbv beta. rewrite (bool_decide_eq_false_2 (k.2 ≠ owner)) by tauto.
        by destruct (leases d1 !! k), (leases d !! k); rewrite ?andb_false_r.
      - by rewrite Hout by (by left). }
    destruct (decide (key ∈ n_key <$> granted)) as [Hk|Hk].
    + destruct (Hin key Hk) as (n & l & Hng & <- & Hl & _ & Hw & _ & Hu).
      rewrite (used_split d1 owner), Hother, Hl. cbn.
      destruct (Hg n Hng) as (c' & Hc' & Hch). assert (c' = c) as -> by congruence.
      apply check_fits in Hch; [|by apply Hpos]. rewrite Hw.
      pose proof (Hpos n Hng). destruct (alive _ _); lia.
    + rewrite (used_split d1 owner), Hother, (Hout (key, owner)), Cl by (by right).
      rewrite <- used_split. by apply U.
Qed.

Lemma used_none d key : capacity_kept d → capacity_of d key = None → used d key = 0.
Proof.
  intros [_ K _] Hc. transitivity (sum_weight (λ _ _, false) ∅); [|done]. apply sum_weight_same.
  intros k. rewrite lookup_empty. unfold weight_at. destruct (leases d !! k) as [l|] eqn:E; [|done].
  rewrite bool_decide_eq_false_2; [done|]. intros <-. destruct (K k l E). congruence.
Qed.

Lemma kept_limits d f :
  capacity_kept d → let d' := { d with limits ::= f } in never_lower d d' →
  (∀ key c, capacity_of d key = None → capacity_of d' key = Some c → 0 ≤ c) → capacity_kept d'.
Proof.
  intros C d' Hn Hnew. assert (Hus : ∀ key, used d' key = used d key) by (unfold d'; by destruct d).
  assert (Hl : leases d' = leases d) by (unfold d'; by destruct d). clearbody d'. pose proof C as [W K U]. split.
  - rewrite Hl. eauto.
  - intros k l. rewrite Hl. intros Hk. destruct (K k l Hk) as [c Hc]. by destruct (Hn _ _ Hc) as (c' & -> & _).
  - intros key c' Hc'. rewrite Hus. destruct (capacity_of d key) as [c|] eqn:E.
    + destruct (Hn key c E) as (c2 & Hc2 & Hle). pose proof (U key c E). assert (c2 = c') by congruence. lia.
    + rewrite used_none by done. eauto.
Qed.

Lemma kept_set key capacity note expected d :
  0 < capacity → never_lower d (SetCapacity key capacity note expected d).2 →
  capacity_kept d → capacity_kept (SetCapacity key capacity note expected d).2.
Proof.
  intros Hc Hn C.
  assert (Hset : ∀ d', never_lower d d' → d' = { d with limits ::= <[key := mkLimit capacity note (clock d)]> } →
    capacity_kept d').
  { intros d' Hd ->. apply kept_limits; [done|done|].
    intros k c. unfold capacity_of. destruct d as [t m ls ws]; cbn.
    destruct (decide (key = k)) as [<-|N]; [rewrite lookup_insert_eq; intros _ [= <-]; lia|].
    rewrite lookup_insert_ne by done. destruct (m !! k); [done|]. destruct (bool_decide _); [done|].
    destruct (decide (key = Pattern k)) as [<-|N']; [|by rewrite lookup_insert_ne, fmap_None by done; intros ->].
    rewrite lookup_insert_eq. intros _ [= <-]. lia. }
  unfold SetCapacity in *. destruct (is_zero expected); destruct (limits d !! key) as [l|]; try done; eauto.
  destruct (bool_decide _); eauto.
Qed.

Lemma bstep_kept d d' : bstep d d' → capacity_kept d → capacity_kept d'.
Proof.
  intros Hs C. destruct Hs as [t Ht|owner claimant class needs token Hn|owners|held|owner|owner token|claimant| |key c note e Hc Hn].
  - eapply kept_shrinks; [exact C|]. split; [done|]. intros k l Hl. exists l. split_and!; [done|done|].
    cbn. unfold alive. rewrite !bool_decide_eq_true. lia.
  - by apply kept_acquire.
  - destruct owners as [|o owners]; [done|]. eapply kept_shrinks; [exact C|]. apply shrinks_imap.
    intros k l. apply renewal_keeps.
  - destruct held as [|h held]; [done|]. eapply kept_shrinks; [exact C|]. apply shrinks_imap.
    intros k l. apply renewal_keeps.
  - eapply kept_shrinks; [exact C|apply shrinks_delete].
  - eapply kept_shrinks; [exact C|apply shrinks_delete].
  - eapply kept_shrinks; [exact C|]. eapply shrinks_trans; [apply shrinks_delete|apply shrinks_waiters].
  - eapply kept_shrinks; [exact C|]. eapply shrinks_trans; [apply shrinks_delete|apply shrinks_waiters].
  - by apply kept_set.
Qed.

(** C25: no budget is ever oversold. From tables in which every budget holds its
    capacity, whatever is asked for, renewed, given back, swept or expires, and
    as long as the policy takes no capacity away, the living leases of every
    described budget together weigh no more than its capacity - the one of its
    own row, or of the row of its pattern. *)
Theorem capacity_never_exceeded d d' key c :
  capacity_kept d → rtc bstep d d' → capacity_of d' key = Some c → used d' key ≤ c.
Proof.
  intros C Hs. assert (C' : capacity_kept d'); [|by apply C'].
  induction Hs; [done|]. eauto using bstep_kept.
Qed.

(** A key of one family of budgets, or none. *)
Definition keyed (prefix key : string) : Prop := key = ""%string ∨ ∃ x, key = prefix +:+ x.

Lemma keyed_scoped prefix text family : keyed prefix (scoped prefix text family).
Proof. unfold keyed, scoped. destruct (_ || _); eauto. Qed.

Lemma keyed_site site family : keyed "site:" (SiteKey site family).
Proof. unfold keyed, SiteKey. destruct (_ || _); eauto. Qed.

Lemma keyed_backend repository : keyed "backend:" (BackendKey repository).
Proof. unfold keyed, BackendKey. case_bool_decide; eauto. Qed.

Ltac distinct_keys :=
  cbn; repeat (apply NoDup_cons; split;
    [intros H; repeat (apply elem_of_cons in H as [H|H]; [discriminate H|]); by apply elem_of_nil in H|]);
  apply NoDup_nil_2.

(** What every operation asks for: budgets that are named, each once, and one
    token of each. *)
Lemma Needs_well_formed actionSpecs action where_ repository :
  let needs := Needs actionSpecs action where_ repository in
  NoDup (n_key <$> needs) ∧ Forall (λ n, n_weight n = 1 ∧ n_key n ≠ ""%string) needs.
Proof.
  cbv zeta. unfold Needs. set (f := SiteFamily _ _).
  destruct (keyed_site (t_site where_) f) as [->|[x1 ->]], (keyed_scoped "domain:" (t_failure_domain where_) f) as [E2|[x2 E2]],
    (keyed_scoped "gateway:" (t_gateway where_) f) as [E3|[x3 E3]], (keyed_backend repository) as [->|[x4 ->]];
    unfold DomainKey, GatewayKey; rewrite E2, E3;
    destruct (_ || _), (bool_decide (action ∈ _)); (split; [distinct_keys|by repeat constructor]).
Qed.

Lemma order_needs_perm needs : order_needs needs ≡ₚ needs.
Proof. apply sort_stable_perm. Qed.

(** C27: a grant is whole or nothing. When nothing is refused every described
    need has its lease - of the claimant, with its weight and the caller's token,
    within the capacity - the claimant waits for none of them any more, and no
    other lease changed. A refusal leaves the leases and the limits as they
    were, and the refused budget has the claimant waiting since it first asked. *)
Theorem Acquire_all_or_nothing owner claimant class needs token d :
  Forall (λ n, 0 < n_weight n ∧ n_key n ≠ ""%string) needs → NoDup (n_key <$> needs) →
  let '(r, d') := AcquireFenced owner claimant class needs token d in
  limits d' = limits d ∧
  if Empty r then
    (∀ n c, n ∈ needs → capacity_of d (n_key n) = Some c →
      (∃ l, leases d' !! (n_key n, owner) = Some l ∧ granted_lease d claimant token n l)
      ∧ used_by_others d owner (n_key n) + n_weight n ≤ c ∧ waiters d' !! (n_key n, claimant) = None)
    ∧ (∀ k, k.2 ≠ owner ∨ k.1 ∉ n_key <$> needs → leases d' !! k = leases d !! k)
  else
    leases d' = leases d
    ∧ ∃ w, waiters d' !! (rf_key r, claimant) = Some w ∧ w_seen_at w = clock d
        ∧ w_since w = match waiters d !! (rf_key r, claimant) with Some w0 => w_since w0 | None => clock d end.
Proof.
  intros Hn Hnd. unfold AcquireFenced. destruct needs as [|n0 ns].
  { cbn. split_and!; set_solver. }
  set (needs := n0 :: ns) in *. clearbody needs.
  assert (Hmem : ∀ n, n ∈ order_needs needs ↔ n ∈ needs) by (intros n; by rewrite order_needs_perm).
  destruct (judge _ _ _ _ _) as [r|granted] eqn:Ej.
  - apply judge_inl in Ej as (n & c & _ & _ & -> & He). rewrite He. destruct d; cbn. split_and!; try done.
    eexists. rewrite lookup_insert_eq. split; [done|]. by destruct (_ !! _) as [[]|].
  - change (Empty no_refusal) with true. cbn iota.
    destruct (judge_inr _ _ _ _ _ _ Ej) as (Hsub & Hall & Hg).
    { rewrite order_needs_perm. eapply Forall_impl; [exact Hn|]. by intros ? []. }
    destruct (record_leases owner claimant token granted d) as (Cl & Li & Wa & Hout & Hin).
    set (d1 := foldl _ d granted) in *.
    match goal with |- limits ?x = _ ∧ _ => set (d2 := x) end.
    assert (E : limits d2 = limits d1 ∧ leases d2 = leases d1) by (unfold d2; by destruct d1).
    destruct E as [-> ->]. split; [done|]. split.
    + intros n c Hnn Hc. assert (Hng : n ∈ granted) by (apply Hall; [by apply Hmem|by eexists]).
      assert (Hk : n_key n ∈ n_key <$> granted) by (by apply list_elem_of_fmap_2).
      destruct (Hin _ Hk) as (n' & l & Hn' & Hkk & Hl & Hgl).
      assert (n' = n) as ->.
      { apply Hsub, Hmem in Hn'. apply list_elem_of_lookup in Hn' as [i Hi], Hnn as [i' Hi'].
        assert (i = i') as ->; [|congruence]. eapply (NoDup_lookup _ _ _ (n_key n) Hnd); rewrite list_lookup_fmap.
        - by rewrite Hi; cbn; rewrite Hkk.
        - by rewrite Hi'. }
      split; [by exists l|]. split.
      * destruct (Hg n Hng) as (c' & Hc' & Hch). assert (c' = c) as -> by congruence.
        apply check_fits in Hch; [done|]. rewrite Forall_forall in Hn. by apply Hn.
      * unfold d2. destruct d1; cbn. apply map_lookup_filter_None. right. intros w _ Hp. by apply Hp.
    + intros k [?|Hk]; apply Hout; [by left|right]. intros Hin'. apply Hk.
      apply list_elem_of_fmap in Hin' as (n & -> & Hn'). by apply list_elem_of_fmap_2, Hmem, Hsub.
Qed.

(** ** The way out of the fair share *)

Lemma waiter_since d d' k w w' :
  bstep d d' → waiters d !! k = Some w → waiters d' !! k = Some w' → w_since w' = w_since w.
Proof.
  intros Hs Hw. assert (Heq : waiters d' = waiters d → waiters d' !! k = Some w' → w_since w' = w_since w)
    by (intros -> ?; congruence).
  destruct Hs as [t Ht|owner claimant class needs token Hn|owners|held|owner|owner token|claimant| |key c note e Hc Hn].
  - by apply Heq.
  - unfold AcquireFenced. destruct needs as [|n0 ns]; [by apply Heq|].
    destruct (judge _ _ _ _ _) as [r|granted] eqn:Ej; cbn [snd]; clear Heq.
    + destruct d; cbn in *. intros [[<- <-]|[_ ?]]%lookup_insert_Some; [|congruence]. rewrite Hw. by destruct w.
    + pose proof (record_leases owner claimant token granted d) as (_ & _ & Hwa & _).
      set (d1 := foldl _ d granted) in *. clearbody d1. destruct d1; cbn in *.
      intros [H _]%map_lookup_filter_Some. congruence.
  - apply Heq. destruct owners; [done|]. by destruct d.
  - apply Heq. destruct held; [done|]. by destruct d.
  - apply Heq. by destruct d.
  - apply Heq. by destruct d.
  - clear Heq. destruct d; cbn in *. intros [H _]%map_lookup_filter_Some. congruence.
  - clear Heq. destruct d; cbn in *. intros [H _]%map_lookup_filter_Some. congruence.
  - apply Heq. unfold SetCapacity. destruct (is_zero e), (limits d !! key); cbn; try done; try (by destruct d).
    destruct (bool_decide _); by destruct d.
Qed.

Lemma judge_reason d owner claimant class needs r :
  judge d owner claimant class needs = inl r → rf_reason r = ReasonFairShare →
  waitingTime d (rf_key r) claimant < PromotionAge class.
Proof.
  intros (n & c & _ & _ & -> & _)%judge_inl. unfold check. repeat case_bool_decide; cbn; try done.
Qed.

(** C26: the fair share binds nobody for ever. A claimant that keeps waiting for
    a budget - its entry is never given up - is, once the age of its class has
    passed since it first asked, no longer refused that budget for the share:
    only for the capacity. *)
Theorem waiting_ends_the_share d d' key claimant w owner class needs token :
  waiters d !! (key, claimant) = Some w →
  rtc (λ d d', bstep d d' ∧ is_Some (waiters d' !! (key, claimant))) d d' →
  w_since w + PromotionAge class ≤ clock d' →
  let r := (AcquireFenced owner claimant class needs token d').1 in
  rf_key r = key → rf_reason r ≠ ReasonFairShare.
Proof.
  intros Hw Hs Ht r Hk Hr.
  assert (Hw' : ∃ w', waiters d' !! (key, claimant) = Some w' ∧ w_since w' = w_since w).
  { clear -Hw Hs. revert w Hw. induction Hs as [d|d1 d2 d3 [H12 [w2 Hw2]] _ IH]; intros w Hw; [eauto|].
    destruct (IH w2 Hw2) as (w3 & Hw3 & H3). exists w3. split; [done|].
    rewrite H3. by eapply waiter_since. }
  destruct Hw' as (w' & Hw' & Hsince). unfold r, AcquireFenced in Hr, Hk. destruct needs as [|n ns]; [done|].
  destruct (judge _ _ _ _ _) as [r'|granted] eqn:Ej; cbn in *; [|done].
  pose proof (judge_reason _ _ _ _ _ _ Ej Hr) as H. unfold waitingTime in H. rewrite Hk, Hw' in H. lia.
Qed.

(** ** Fencing *)

Lemma leases_of_elem d owner l : l ∈ leases_of d owner ↔ ∃ key, leases d !! (key, owner) = Some l.
Proof.
  unfold leases_of. rewrite list_elem_of_fmap. split.
  - intros ([[key o] l'] & -> & [Ho Hl]%list_elem_of_filter). cbn in *. subst o.
    exists key. by apply elem_of_map_to_list in Hl.
  - intros [key Hl]. exists (key, owner, l). split; [done|]. apply list_elem_of_filter.
    split; [done|]. by apply elem_of_map_to_list.
Qed.

Lemma existsb_elem {A} (f : A → bool) l : existsb f l = true ↔ ∃ x, x ∈ l ∧ f x = true.
Proof. rewrite existsb_exists. by setoid_rewrite list_elem_of_In. Qed.

Lemma existsb_none {A} (f : A → bool) l : existsb f l = false ↔ ∀ x, x ∈ l → f x = false.
Proof.
  rewrite <- not_true_iff_false, existsb_elem. split.
  - intros H x Hx. apply not_true_iff_false. naive_solver.
  - intros H (x & Hx & Hf). rewrite H in Hf; done.
Qed.

(** The rows after a renewal: those the caller names by owner and token, and
    that are alive, run from now on; the others are untouched. *)
Lemma RenewFenced_rows held d k :
  leases (RenewFenced held d).2 !! k = (λ l,
    if existsb (λ h, bool_decide (k.2 = f_owner h) && bool_decide (e_token l = f_token h)) held && alive (clock d) l
    then { l with e_until := clock d + defaultLease } else l) <$> leases d !! k.
Proof.
  destruct held as [|h held].
  - cbn. by destruct (leases d !! k).
  - cbn [RenewFenced snd]. destruct d; cbn. rewrite map_lookup_imap. by destruct (_ !! k).
Qed.

(** what a fenced renewal vouches for. When it returns without an error,
    every owner the caller named has leases, all of them are the caller's by
    their token, were alive, and run for the whole term from now. When another
    claim took a lease of an owner over, the renewal says so before anything
    else. And a token that is not the one on a lease moves nothing: neither a
    renewal nor a release with it changes the lease. *)
Theorem RenewFenced_vouches held d :
  ((RenewFenced held d).1 = Ok tt → ∀ h, h ∈ held →
     (∃ key l, leases d !! (key, f_owner h) = Some l)
     ∧ ∀ key l, leases d !! (key, f_owner h) = Some l →
         e_token l = f_token h ∧ alive (clock d) l = true
         ∧ ∃ l', leases (RenewFenced held d).2 !! (key, f_owner h) = Some l'
             ∧ e_token l' = f_token h ∧ e_until l' = clock d + defaultLease)
  ∧ ((RenewFenced held d).1 = Err ErrFenceStale ↔
     ∃ h key l, h ∈ held ∧ leases d !! (key, f_owner h) = Some l ∧ e_token l ≠ f_token h)
  ∧ (∀ key owner l, leases d !! (key, owner) = Some l →
       (∀ h, h ∈ held → f_owner h = owner → e_token l ≠ f_token h) →
       leases (RenewFenced held d).2 !! (key, owner) = Some l
       ∧ ∀ token, token ≠ e_token l → leases (ReleaseFenced owner token d) !! (key, owner) = Some l).
Proof.
  split_and!.
  - intros Hok h Hh. destruct held as [|h0 held0]; [by apply elem_of_nil in Hh|].
    set (held := h0 :: held0) in *.
    assert (Hc : existsb (is_stale d) held = false ∧ existsb (is_expired d) held = false
                 ∧ existsb (is_missing d) held = false).
    { revert Hok. unfold held. cbn. by repeat destruct (_ || _). }
    rewrite !existsb_none in Hc. destruct Hc as (Hs & He & Hm). split.
    + specialize (Hm h Hh). unfold is_missing in Hm. destruct (leases_of d (f_owner h)) as [|l ls] eqn:E; [done|].
      destruct (leases_of_elem d (f_owner h) l) as [[key Hl] _]; [rewrite E; set_solver|eauto].
    + intros key l Hl. assert (Hin : l ∈ leases_of d (f_owner h)) by (apply leases_of_elem; eauto).
      specialize (Hs h Hh). specialize (He h Hh). unfold is_stale, is_expired in Hs, He.
      rewrite existsb_none in Hs, He. specialize (Hs l Hin). specialize (He l Hin).
      apply negb_false_iff, bool_decide_eq_true in Hs. rewrite bool_decide_eq_true_2 in He by done.
      apply negb_false_iff in He. split_and!; [done|done|]. rewrite RenewFenced_rows, Hl. cbn [fmap option_fmap option_map snd].
      rewrite He, andb_true_r. assert (Hx : existsb (λ h', bool_decide (f_owner h = f_owner h') && bool_decide (e_token l = f_token h')) held = true).
      { apply existsb_elem. exists h. split; [done|]. by rewrite !bool_decide_eq_true_2. }
      rewrite Hx. eexists. split; [done|]. by destruct l.
  - destruct held as [|h0 held0]; [split; [done|by intros (? & ? & ? & []%elem_of_nil & _)]|].
    cbn [RenewFenced fst]. set (held := h0 :: held0). clearbody held.
    assert (Hst : existsb (is_stale d) held = true ↔
      ∃ h key l, h ∈ held ∧ leases d !! (key, f_owner h) = Some l ∧ e_token l ≠ f_token h).
    { rewrite existsb_elem. unfold is_stale. setoid_rewrite existsb_elem. setoid_rewrite leases_of_elem.
      setoid_rewrite negb_true_iff. setoid_rewrite bool_decide_eq_false. naive_solver. }
    rewrite <- Hst. destruct (existsb (is_stale d) held); [done|].
    split; [|done]. by repeat destruct (existsb _ _).
  - intros key owner l Hl Ht. split.
    + rewrite RenewFenced_rows, Hl. cbn [fmap option_fmap option_map snd].
      replace (existsb _ held) with false; [done|]. symmetry. apply existsb_none. intros h Hh.
      destruct (decide (owner = f_owner h)) as [->|]; [|by rewrite bool_decide_eq_false_2].
      rewrite (bool_decide_eq_false_2 (e_token l = _)) by auto. by rewrite andb_false_r.
    + intros token Hn. destruct d; cbn in *. apply map_lookup_filter_Some. split; [done|]. cbn.
      rewrite (bool_decide_eq_false_2 (e_token l = token)) by done. by rewrite andb_false_r.
Qed.

(** ** The policy is written once *)

Lemma limit_stays d d' key l :
  bstep d d' → limits d !! key = Some l →
  ∃ l', limits d' !! key = Some l' ∧ (l_updated_at l' = l_updated_at l ∨ l_updated_at l' = clock d) ∧ clock d ≤ clock d'.
Proof.
  intros Hs Hl. assert (Heq : limits d' = limits d → clock d ≤ clock d' → ∃ l', limits d' !! key = Some l'
    ∧ (l_updated_at l' = l_updated_at l ∨ l_updated_at l' = clock d) ∧ clock d ≤ clock d')
    by (intros -> ?; eauto).
  destruct Hs as [t Ht|owner claimant class needs token Hn|owners|held|owner|owner token|claimant| |k c note e Hc Hn].
  - by apply Heq.
  - unfold AcquireFenced in *. destruct needs as [|n0 ns]; [by apply Heq|].
    destruct (judge _ _ _ _ _) as [r|granted] eqn:Ej; cbn [snd] in *.
    + apply Heq; by destruct d.
    + pose proof (record_leases owner claimant token granted d) as (Hc & Hli & _).
      set (d1 := foldl _ d granted) in *. clearbody d1.
      apply Heq; [rewrite <- Hli|rewrite <- Hc]; by destruct d1.
  - destruct owners; [by apply Heq|]. apply Heq; by destruct d.
  - destruct held; [by apply Heq|]. apply Heq; by destruct d.
  - apply Heq; by destruct d.
  - apply Heq; by destruct d.
  - apply Heq; by destruct d.
  - apply Heq; by destruct d.
  - clear Heq Hn. assert (Hw : ∃ l', limits ({ d with limits ::= <[k := mkLimit c note (clock d)]> }) !! key = Some l'
        ∧ (l_updated_at l' = l_updated_at l ∨ l_updated_at l' = clock d) ∧ clock d ≤ clock ({ d with limits ::= <[k := mkLimit c note (clock d)]> })).
    { destruct d; cbn in *. destruct (decide (k = key)) as [->|N].
      - rewrite lookup_insert_eq. eexists. split; [done|]. split; [by right|done].
      - rewrite lookup_insert_ne by done. exists l. split_and!; [done|by left|lia]. }
    assert (Hsame : ∃ l', limits d !! key = Some l' ∧ (l_updated_at l' = l_updated_at l ∨ l_updated_at l' = clock d) ∧ clock d ≤ clock d)
      by (exists l; split_and!; auto; lia).
    unfold SetCapacity. destruct (is_zero e), (limits d !! k); cbn [snd]; try done.
    destruct (bool_decide _); done.
Qed.

(** Of two writers that read the same policy one writes. Once a write of a
    budget's capacity went through, a second one that rests on the same reading
    is refused, whatever happened in between; so no capacity is written over a
    change its author has not seen. *)
Theorem SetCapacity_second_writer_refused key c1 note1 c2 note2 expected d d' :
  is_zero expected = true ∨ expected < clock d →
  (SetCapacity key c1 note1 expected d).1 = Ok tt →
  rtc bstep (SetCapacity key c1 note1 expected d).2 d' →
  SetCapacity key c2 note2 expected d' = (Err ErrCapacityMoved, d').
Proof.
  intros Ht H1 Hs.
  assert (Hrow : ∃ l, limits (SetCapacity key c1 note1 expected d).2 !! key = Some l ∧ l_updated_at l = clock d
    ∧ clock (SetCapacity key c1 note1 expected d).2 = clock d).
  { assert (Hw : ∃ l, limits ({ d with limits ::= <[key := mkLimit c1 note1 (clock d)]> }) !! key = Some l ∧ l_updated_at l = clock d
      ∧ clock ({ d with limits ::= <[key := mkLimit c1 note1 (clock d)]> }) = clock d).
    { destruct d; cbn. rewrite lookup_insert_eq. by eexists. }
    unfold SetCapacity in *. destruct (is_zero expected), (limits d !! key); cbn in H1 |- *; try done.
    destruct (bool_decide _); done. }
  assert (Hlast : ∃ l, limits d' !! key = Some l ∧ clock d ≤ l_updated_at l ∧ clock d ≤ clock d').
  { destruct Hrow as (l & Hl & Hu & Hc). clear H1.
    set (d0 := (SetCapacity key c1 note1 expected d).2) in *. clearbody d0. assert (Hge : clock d ≤ l_updated_at l ∧ clock d ≤ clock d0) by lia. clear Hu Hc.
    revert l Hl Hge. induction Hs as [d0|d1 d2 d3 H12 _ IH]; intros l Hl [Hge Hcl]; [by exists l|].
    destruct (limit_stays _ _ _ _ H12 Hl) as (l2 & Hl2 & Hu & Hle). apply (IH l2 Hl2). lia. }
  destruct Hlast as (l & Hl & Hge & _). unfold SetCapacity. rewrite Hl. destruct (is_zero expected) eqn:Ez; [done|].
  destruct Ht as [?|Ht]; [done|]. rewrite bool_decide_eq_false_2 by lia. done.
Qed.
