(* ===== verification/BudgetKeys.v ===== *)
(** * BudgetKeys: the keys of the budgets and their sentences

    A budget nobody described by its own row takes its capacity from the row of
    its pattern, so a key has to have one; and the reasons and sentences a
    refusal is kept in are read back into the key. *)
From coqutil Require Import Datatypes.RecordSetters.
From S2P Require Import Prelude Bytes Digest Text Order Budgets BudgetProps.

Open Scope Z_scope.
Import OCamlLikeNotations.

Definition colon_free (s : string) : Prop := colon ∉ sbytes s.

Lemma split_bytes_free a : colon ∉ a → split_bytes a = [a].
Proof.
  induction a as [|c a IH]; [done|]. intros [Hc Ha]%not_elem_of_cons. cbn.
  by rewrite bool_decide_eq_false_2, IH by done.
Qed.

Lemma split_bytes_colon a b : colon ∉ a → split_bytes (a ++ colon :: b) = a :: split_bytes b.
Proof.
  induction a as [|c a IH]; [done|]. intros [Hc Ha]%not_elem_of_cons. cbn.
  by rewrite bool_decide_eq_false_2, IH by done.
Qed.

Lemma split_bytes_length a : List.length (split_bytes a) = S (List.length (filter (λ c, c = colon) a)).
Proof.
  induction a as [|c a IH]; [done|]. cbn [split_bytes]. rewrite filter_cons. case_bool_decide as Hc.
  - subst c. rewrite decide_True by done. cbn. by rewrite IH.
  - rewrite decide_False by done. destruct (split_bytes a); cbn in *; lia.
Qed.

Lemma sbytes_colon : sbytes ":" = [colon].
Proof. done. Qed.

Lemma split_three a b c :
  colon_free a → colon_free b → colon_free c → split (a +:+ ":" +:+ b +:+ ":" +:+ c) = [a; b; c].
Proof.
  unfold split, colon_free. intros Ha Hb Hc. rewrite !sbytes_app, sbytes_colon. cbn [app].
  rewrite !split_bytes_colon, split_bytes_free by done. cbn. by rewrite !bstring_sbytes.
Qed.

Lemma Pattern_three a b c :
  colon_free a → colon_free b → colon_free c →
  Pattern (a +:+ ":" +:+ b +:+ ":" +:+ c) = a +:+ ":*:" +:+ c.
Proof. intros. unfold Pattern. by rewrite split_three. Qed.

Lemma Pattern_more key :
  (3 ≤ List.length (filter (λ c, c = colon) (sbytes key)))%nat → Pattern key = ""%string.
Proof.
  intros H. unfold Pattern, split. pose proof (split_bytes_length (sbytes key)) as Hl.
  destruct (split_bytes (sbytes key)) as [|a [|b [|c [|e l]]]]; cbn in *; try done; lia.
Qed.

Lemma replace_byte_free (l : bytes) : (colon ∉ replace_byte <$> l) ∧ (space ∉ replace_byte <$> l).
Proof.
  split; intros (x & Hx & _)%list_elem_of_fmap; unfold replace_byte in Hx;
    destruct (_ || _) eqn:E; try done; apply orb_false_iff in E as [E1%bool_decide_eq_false E2%bool_decide_eq_false];
    congruence.
Qed.

Lemma hex_free data : colon ∉ hex_encode data.
Proof.
  induction data as [|c data IH]; [set_solver|].
  change (hex_encode (c :: data)) with (hex_digit (b2z c / 16) :: hex_digit (b2z c mod 16) :: hex_encode data).
  pose proof (b2z_range c).
  assert (Hd : ∀ n, 0 ≤ n < 16 → hex_digit n ≠ colon).
  { intros n Hn He. pose proof (hex_value_digit n Hn) as Hv. rewrite He in Hv. done. }
  intros [Hc|[Hc|Hc]%elem_of_cons]%elem_of_cons; [| |done]; symmetry in Hc; revert Hc; apply Hd.
  - split; [apply Z.div_pos|apply Z.div_lt_upper_bound]; lia.
  - apply Z.mod_pos_bound; lia.
Qed.

Lemma scopeName_free text : colon_free (scopeName text).
Proof.
  unfold colon_free, scopeName. case_bool_decide; [set_solver|]. cbv zeta.
  destruct (replace_byte_free (TrimSpace (sbytes text))) as [Hc _]. case_bool_decide.
  - rewrite !sbytes_app, !sbytes_bstring. rewrite !not_elem_of_app. split_and!.
    + intros Hin. apply Hc. exact (subseteq_take _ _ _ Hin).
    + intros [E|E]%elem_of_cons; [discriminate E|by apply elem_of_nil in E].
    + intros Hin. eapply hex_free, (subseteq_take _ _ _ Hin).
  - by rewrite sbytes_bstring.
Qed.

Lemma scopeName_some text : TrimSpace (sbytes text) ≠ [] → scopeName text ≠ ""%string.
Proof.
  intros Ht. unfold scopeName. rewrite bool_decide_eq_false_2 by done. cbv zeta.
  destruct (TrimSpace (sbytes text)) as [|c l]; [done|]. by case_bool_decide.
Qed.

(** the pattern of a key. A failure domain and a gateway get the capacity of
    their pattern whatever they are called. A site gets it exactly when its name
    has no colon: the name goes into the key as it is, and a key with a fourth
    part has no pattern - so a site called after two parts is held by no budget
    but one written for it by name. *)
Theorem only_scoped_names_keep_their_pattern family :
  family ≠ ""%string → colon_free family →
  (∀ domain, TrimSpace (sbytes domain) ≠ [] → Pattern (DomainKey domain family) = ("domain:*:" +:+ family)%string)
  ∧ (∀ gateway, TrimSpace (sbytes gateway) ≠ [] → Pattern (GatewayKey gateway family) = ("gateway:*:" +:+ family)%string)
  ∧ (∀ site, site ≠ ""%string → colon_free site → Pattern (SiteKey site family) = ("site:*:" +:+ family)%string)
  ∧ (∀ site, site ≠ ""%string → ¬ colon_free site → Pattern (SiteKey site family) = ""%string
       ∧ ∀ d, limits d !! SiteKey site family = None → capacity_of d (SiteKey site family) = None).
Proof.
  intros Hf Hcf.
  assert (Hscoped : ∀ a name, colon_free a → TrimSpace (sbytes name) ≠ [] →
    Pattern (scoped (a +:+ ":") name family) = a +:+ ":*:" +:+ family).
  { intros a name Ha Hn. unfold scoped. rewrite !bool_decide_eq_false_2 by (done || by apply scopeName_some).
    cbn [orb]. rewrite <- app_string_assoc. apply Pattern_three; [done|apply scopeName_free|done]. }
  split_and!.
  - intros domain. apply (Hscoped "domain"). unfold colon_free; set_solver.
  - intros gateway. apply (Hscoped "gateway"). unfold colon_free; set_solver.
  - intros site Hs Hcs. unfold SiteKey. rewrite !bool_decide_eq_false_2 by done.
    apply (Pattern_three "site"); [unfold colon_free; set_solver|done|done].
  - intros site Hs Hcs.
    assert (Hp : Pattern (SiteKey site family) = ""%string).
    { unfold SiteKey. rewrite !bool_decide_eq_false_2 by done. cbn [orb]. apply Pattern_more.
      rewrite !sbytes_app, !filter_app, !length_app.
      assert (1 ≤ List.length (filter (λ c, c = colon) (sbytes site)))%nat.
      { unfold colon_free in Hcs. apply dec_stable in Hcs.
        assert (Hin : colon ∈ filter (λ c, c = colon) (sbytes site)) by (by apply list_elem_of_filter).
        destruct (filter _ _); [by apply elem_of_nil in Hin|cbn; lia]. }
      change (List.length (filter (λ c, c = colon) (sbytes "site:"))) with 1%nat.
      change (List.length (filter (λ c, c = colon) (sbytes ":"))) with 1%nat. lia. }
    split; [done|]. intros d Hl. unfold capacity_of. by rewrite Hl, Hp.
Qed.

(** ** Sentences *)

Lemma Cut_before a b :
  (∀ x y, a ≠ x ++ sbytes ": " ++ y) → Cut (sbytes ": ") (a ++ sbytes ": " ++ b) = Some (a, b).
Proof.
  change (sbytes ": ") with [colon; space].
  induction a as [|c a IH]; intros Ha; [done|].
  cbn [app Cut]. rewrite bool_decide_eq_false_2.
  - cbn [app] in IH. rewrite IH; [done|]. intros x y ->. by apply (Ha (c :: x) y).
  - intros [k Hk]. cbn in Hk. injection Hk as -> Hk. destruct a as [|c' a]; [done|].
    cbn in Hk. injection Hk as -> Hk. by apply (Ha [] a).
Qed.

(** The reason a task waits for and the sentence a campaign shows both give
    the key of the refused budget back, as long as the key itself does not hold
    a colon followed by a space, where the sentence breaks off. *)
Theorem described_key_roundtrip r :
  (∀ a b, sbytes (rf_key r) ≠ a ++ sbytes ": " ++ b) →
  DescribedKey (Describe r) = rf_key r ∧ WaitedKey (WaitReason r) = rf_key r.
Proof.
  intros Hk. unfold Describe, WaitReason, Empty. case_bool_decide as He; [by rewrite He|].
  split; [|unfold WaitedKey; rewrite HasPrefix_app; cbn [negb]; apply TrimPrefix_app].
  assert (Hd : ∀ rest, DescribedKey ("budget " +:+ rf_key r +:+ ": " +:+ rest) = rf_key r).
  { intros rest. unfold DescribedKey. rewrite HasPrefix_app, TrimPrefix_app. cbn [negb].
    rewrite !sbytes_app, Cut_before by done. apply bstring_sbytes. }
  case_bool_decide.
  - exact (Hd ("share " +:+ FormatInt (rf_share r) +:+ " of " +:+
    FormatInt (rf_capacity r) +:+ " tokens, holding " +:+ FormatInt (rf_held r) +:+
    ", waiting " +:+ duration_string (round_to_second (rf_waiting r)))).
  - apply Hd.
Qed.

(** ** The budgets on concrete tables

    The theorems of [BudgetProps] and [BudgetKeys] at one site with room for
    two package transactions. *)

Definition demo_tables : Tables :=
  mkTables (100 * second)
    {["global:mutations" := mkLimit 50 "" (second); "site:*:packages" := mkLimit 2 "" second]}
    {[("site:warsaw:packages", "job:1") := mkLease "jobs:ann" 1 (90 * second) (210 * second) 7]}
    {[("site:warsaw:packages", "jobs:bob") := mkWaiter "interactive" (80 * second) (99 * second)]}.

Definition demo_action (action : string) : option action_spec :=
  if bool_decide (action = "packages.apply"%string) then Some (mkActionSpec "packages" true) else None.
Definition demo_needs : list Need := Needs demo_action "packages.apply" (mkTopology "warsaw" "" "") "".

Lemma demo_lease k l :
  leases demo_tables !! k = Some l → k = ("site:warsaw:packages", "job:1")%string ∧ 0 < e_weight l.
Proof. cbn [leases demo_tables]. by intros [<- <-]%lookup_singleton_Some. Qed.

Lemma demo_limit k l : limits demo_tables !! k = Some l → 0 < l_capacity l.
Proof.
  cbn [limits demo_tables]. intros [[_ <-]|[_ [_ <-]%lookup_singleton_Some]]%lookup_insert_Some; done.
Qed.

Lemma demo_kept : capacity_kept demo_tables.
Proof.
  split.
  - intros k l Hl. apply (demo_lease k l Hl).
  - intros k l Hl. destruct (demo_lease k l Hl) as [-> _]. vm_compute. by eexists.
  - intros key c Hc. destruct (decide (key = "site:warsaw:packages"%string)) as [->|N].
    { vm_compute in Hc. injection Hc as <-. by vm_compute. }
    transitivity 0.
    + apply Z.eq_le_incl. transitivity (sum_weight (λ _ _, false) ∅); [|done]. apply sum_weight_same.
      intros k. rewrite lookup_empty. unfold weight_at. destruct (leases demo_tables !! k) as [l|] eqn:E; [|done].
      destruct (demo_lease k l E) as [-> _]. by rewrite bool_decide_eq_false_2.
    + unfold capacity_of in Hc. destruct (limits demo_tables !! key) as [l|] eqn:E.
      * injection Hc as <-. by apply Z.lt_le_incl, (demo_limit key).
      * case_bool_decide; [done|]. apply fmap_Some in Hc as (l & Hl & ->). by apply Z.lt_le_incl, (demo_limit _ _ Hl).
Qed.

Lemma demo_needs_ok : Forall (λ n, 0 < n_weight n ∧ n_key n ≠ ""%string) demo_needs.
Proof.
  eapply Forall_impl; [apply Needs_well_formed|]. intros n [-> ?]. split; [lia|done].
Qed.

Definition demo_granted : Tables := (AcquireFenced "job:2" "jobs:bob" ClassInteractive demo_needs 8 demo_tables).2.

Lemma capacity_never_exceeded_witness : used demo_granted "site:warsaw:packages" ≤ 2.
Proof.
  apply (capacity_never_exceeded demo_tables demo_granted); [apply demo_kept| |vm_compute; reflexivity].
  apply rtc_once, bs_acquire, demo_needs_ok.
Defined.

Lemma Acquire_all_or_nothing_witness :
  ∃ l, leases demo_granted !! ("site:warsaw:packages", "job:2")%string = Some l ∧ e_token l = 8.
Proof.
  pose proof (Acquire_all_or_nothing "job:2" "jobs:bob" ClassInteractive demo_needs 8 demo_tables
    demo_needs_ok (proj1 (Needs_well_formed demo_action "packages.apply" (mkTopology "warsaw" "" "") ""))) as H.
  destruct (AcquireFenced _ _ _ _ _ _) as [r d'] eqn:E in H.
  assert (Hd : d' = demo_granted) by (unfold demo_granted; by rewrite E). subst d'.
  assert (Hr : r = no_refusal) by (apply (f_equal fst) in E; vm_compute in E; symmetry; exact E). subst r.
  change (Empty no_refusal) with true in H. cbv beta iota in H. destruct H as (_ & H & _). destruct (H (mkNeed "site:warsaw:packages" 1) 2) as ((l & Hl & Hg) & _).
  - vm_compute. right. left.
  - vm_compute. reflexivity.
  - exists l. split; [exact Hl|apply Hg].
Defined.

Lemma waiting_ends_the_share_witness :
  rf_reason (AcquireFenced "job:3" "jobs:bob" ClassInteractive [mkNeed "site:warsaw:packages" 2] 0 demo_tables).1
  ≠ ReasonFairShare.
Proof.
  apply (waiting_ends_the_share demo_tables demo_tables "site:warsaw:packages" "jobs:bob"
    (mkWaiter "interactive" (80 * second) (99 * second))).
  - vm_compute. reflexivity.
  - apply rtc_refl.
  - vm_compute. discriminate.
  - vm_compute. reflexivity.
Defined.

Lemma SetCapacity_second_writer_refused_witness :
  (SetCapacity "site:*:packages" 9 "" second (SetCapacity "site:*:packages" 4 "" second demo_tables).2).1
  = Err ErrCapacityMoved.
Proof.
  rewrite (SetCapacity_second_writer_refused "site:*:packages" 4 "" 9 "" second demo_tables
    (SetCapacity "site:*:packages" 4 "" second demo_tables).2); [reflexivity| |vm_compute; reflexivity|apply rtc_refl].
  right. vm_compute. reflexivity.
Defined.

Lemma only_scoped_names_keep_their_pattern_witness :
  Pattern (DomainKey "rack 7:b" "packages") = "domain:*:packages"%string
  ∧ capacity_of demo_tables (SiteKey "dc:warsaw" "packages") = None.
Proof.
  destruct (only_scoped_names_keep_their_pattern "packages") as (Hd & _ & _ & Hs);
    [done|unfold colon_free; refine (bool_decide_unpack _ _); vm_compute; exact I|].
  split.
  - apply Hd. vm_compute. discriminate.
  - apply Hs; [done| |vm_compute; reflexivity]. intros H. apply H. refine (bool_decide_unpack _ _). vm_compute. exact I.
Defined.

Lemma described_key_roundtrip_witness :
  DescribedKey (Describe (mkRefusal "site:warsaw:packages" ReasonCapacity 2 2 0 0 (3 * second)))
  = "site:warsaw:packages"%string.
Proof.
  apply (described_key_roundtrip (mkRefusal "site:warsaw:packages" ReasonCapacity 2 2 0 0 (3 * second))).
  intros a b H. assert (Hs : space ∈ sbytes "site:warsaw:packages").
  { cbn [rf_key] in H. rewrite H. set_solver. }
  revert Hs. refine (bool_decide_unpack _ _). vm_compute. exact I.
Defined.
