(* ===== verification/Selector.v ===== *)
(** * Selector: which hosts an order concerns

    Models src/internal/selector/selector.go: the expression, its validation,
    the expansion of the group references and the compilation to an SQL
    condition. An error is its kind, without the sentence that says where. A
    lookup of a group and the test whether a text is a UUID are arguments: the
    first is the database, the second a library. *)
From coqutil Require Import Datatypes.RecordSetters.
From S2P Require Import Prelude Bytes Text.

Import OCamlLikeNotations.
Open Scope Z_scope.

(** ** Expressions *)

(** The text fields of a node. *)
Record Facts := mkFacts {
  Site : string; Environment : string; OSFamily : string; Tag : string; Group_ : string;
  Capability : string; ConnectionState : string; LifecycleState : string; Owner : string;
  Channel : string; OSVersion : string; SecurityUpdates : string; RebootRequired : string;
  FailedUnits : string; AgentVersion : string; Relay : string; FailureDomain : string;
  MemberOf : string;
}.

#[global] Arguments constant {E} newValue / _.

Definition no_facts : Facts :=
  mkFacts "" "" "" "" "" "" "" "" "" "" "" "" "" "" "" "" "" "".

#[local] Unset Elimination Schemes.

Inductive Expression := Expr (All Any : list Expression) (Not : option Expression) (facts : Facts).

#[local] Set Elimination Schemes.

(** The induction principle over the children of a node. *)
Section expression_ind.
Context (P : Expression → Prop)
  (HP : ∀ all any not f, Forall P all → Forall P any → (∀ e, not = Some e → P e) → P (Expr all any not f)).

Fixpoint Expression_rect_all (e : Expression) : P e :=
  match e with
  | Expr all any not f =>
      let fix go l : Forall P l :=
        match l with
        | [] => @List.Forall_nil _ P
        | c :: l' => @List.Forall_cons _ P c l' (Expression_rect_all c) (go l')
        end in
      HP all any not f (go all) (go any)
        (match not as o return ∀ e, o = Some e → P e with
         | None => λ e H, match H in _ = o return match o with None => True | Some _ => P e end with eq_refl => I end
         | Some c => λ e H, match H in _ = o return match o with None => True | Some x => P x end with eq_refl => Expression_rect_all c end
         end)
  end.
End expression_ind.

Definition leaves (f : Facts) : list (string * string) :=
  [("site", Site f); ("environment", Environment f); ("os_family", OSFamily f); ("tag", Tag f);
   ("group", Group_ f); ("capability", Capability f); ("connection_state", ConnectionState f);
   ("lifecycle_state", LifecycleState f); ("owner", Owner f); ("channel", Channel f);
   ("os_version", OSVersion f); ("security_updates", SecurityUpdates f);
   ("reboot_required", RebootRequired f); ("failed_units", FailedUnits f);
   ("agent_version", AgentVersion f); ("relay", Relay f); ("failure_domain", FailureDomain f);
   ("group_id", MemberOf f)]%string.

Definition MaxDepth : Z := 8.
Definition MaxNodes : Z := 64.
Definition MaxExpansion : nat := 4.
Definition maxValue : Z := 128.

Inductive sel_err := ErrInvalid | ErrUnknownGroup | ErrCycle | ErrUnexpanded
                   | ErrLookup (text : string) | OutOfFuel.

(** ** Values *)

Definition in_range (a b : Z) (c : byte) : bool := bool_decide (a ≤ b2z c ≤ b).
Definition is_lower (c : byte) : bool := in_range 97 122 c.
Definition is_upper (c : byte) : bool := in_range 65 90 c.
Definition is_any (l : bytes) (c : byte) : bool := bool_decide (c ∈ l).

(** [^[a-z0-9][a-z0-9_.-]*(=[a-zA-Z0-9_.:/-]+)?$] *)
Definition tag_key (c : byte) : bool := is_lower c || isDigit c || is_any (sbytes "_.-") c.
Definition tag_value (c : byte) : bool :=
  is_lower c || is_upper c || isDigit c || is_any (sbytes "_.:/-") c.
Fixpoint tag_rest (s : bytes) : bool :=
  match s with
  | [] => true
  | c :: s' => if tag_key c then tag_rest s'
               else bool_decide (c = Byte.x3d) && negb (bool_decide (s' = [])) && forallb tag_value s'
  end.
Definition TagPattern (s : string) : bool :=
  match sbytes s with
  | [] => false
  | c :: s' => (is_lower c || isDigit c) && tag_rest s'
  end.

Definition connectionStates : list string := ["online"; "offline"; "stale"; "unknown"].
Definition lifecycleStates : list string := ["active"; "quarantined"; "recovery"; "retiring"; "retired"].
Definition releaseChannels : list string := ["stable"; "beta"].
Definition booleans : list string := ["true"; "false"].
Definition contains (l : list string) (value : string) : bool := bool_decide (value ∈ l).

(** [^v?(\d+(?:\.\d+){0,3})$]: up to [more] further parts. *)
Fixpoint version_parts (more : nat) (started : bool) (s : bytes) : bool :=
  match s with
  | [] => started
  | c :: s' =>
      if isDigit c then version_parts more true s'
      else match more with
           | S more' => started && bool_decide (c = Byte.x2e) && version_parts more' false s'
           | O => false
           end
  end.
Definition versionPattern (s : bytes) : option bytes :=
  let body := match s with Byte.x76 :: s' => s' | _ => s end in
  if version_parts 3 false body then Some body else None.

Definition versionOperators : list string := ["<="; ">="; "<"; ">"; "="].

Record VersionComparison := mkVersionComparison { Operator : string; Version : string }.

(** [VersionComparison.String] *)
Definition comparison_string (v : VersionComparison) : string := Operator v +:+ " " +:+ Version v.

Fixpoint take_operator (ops : list string) (text : bytes) : string * bytes :=
  match ops with
  | [] => ("="%string, text)
  | op :: ops' => if HasPrefix (bstring text) op
                  then (op, TrimSpace (drop (List.length (sbytes op)) text))
                  else take_operator ops' text
  end.

Definition ParseVersionComparison (value : string) : result sel_err VersionComparison :=
  let '(operator, text) := take_operator versionOperators (TrimSpace (sbytes value)) in
  match versionPattern text with
  | None => Err ErrInvalid
  | Some version => Ok (mkVersionComparison operator (bstring version))
  end.

(** ** Validation *)

Definition check_fact (fact : string * string) : bool :=
  let '(name, value) := fact in
  bool_decide (slen value ≤ maxValue)
  && bool_decide (TrimSpace (sbytes value) = sbytes value)
  && (if bool_decide (name = "tag"%string) then TagPattern value
      else if bool_decide (name = "connection_state"%string) then contains connectionStates value
      else if bool_decide (name = "lifecycle_state"%string) then contains lifecycleStates value
      else if bool_decide (name = "channel"%string) then contains releaseChannels value
      else if bool_decide (name ∈ ["security_updates"; "reboot_required"; "failed_units"]%string) then contains booleans value
      else if bool_decide (name = "agent_version"%string) then is_ok (ParseVersionComparison value)
      else true).

Definition named (f : Facts) : list (string * string) :=
  filter (λ fact, fact.2 ≠ ""%string) (leaves f).

Definition b2n (b : bool) : Z := if b then 1 else 0.

(** How many fields of a node are set. *)
Definition fields_set (all any : list Expression) (not : option Expression) (f : Facts) : Z :=
  b2n (negb (bool_decide (len all = 0))) + b2n (negb (bool_decide (len any = 0)))
  + b2n (match not with Some _ => true | None => false end) + len (named f).

Fixpoint validate (depth : Z) (e : Expression) (nodes : Z) : result sel_err Z :=
  match e with
  | Expr all any not f =>
      if bool_decide (MaxDepth < depth) then Err ErrInvalid
      else let nodes := nodes + 1 in
      if bool_decide (MaxNodes < nodes) then Err ErrInvalid
      else if negb (bool_decide (MemberOf f = ""%string)) then Err ErrInvalid
      else if bool_decide (fields_set all any not f ≠ 1) then Err ErrInvalid
      else
        nodes ← pass (validate (depth + 1)) all nodes;
        nodes ← pass (validate (depth + 1)) any nodes;
        nodes ← match not with Some c => validate (depth + 1) c nodes | None => Ok nodes end;
        if forallb check_fact (named f) then Ok nodes else Err ErrInvalid
  end.

(** [Validate], on the pointer the caller holds. *)
Definition Validate (e : option Expression) : result sel_err unit :=
  match e with
  | None => Err ErrInvalid
  | Some e => _ ← validate 1 e 0; Ok tt
  end.

(** ** Expansion *)

Definition KindStatic : string := "static".
Definition KindDynamic : string := "dynamic".

Record Group := mkGroup {
  g_id : string; g_name : string; g_kind : string; g_selector : option Expression;
}.

(** The store of the groups, when there is one. *)
Definition Groups : Type := option (string → result sel_err (option Group)).

Fixpoint count (e : Expression) : Z :=
  match e with
  | Expr all any not f =>
      1 + sumZ count all + sumZ count any + match not with Some c => count c | None => 0 end
  end.

Definition countNode (nodes : Z) : result sel_err Z :=
  if bool_decide (MaxNodes < nodes + 1) then Err ErrInvalid else Ok (nodes + 1).

Section expand.
Context (groups : Groups).

(** What a group reference becomes; [deeper] expands the selector of a dynamic
    group. *)
Definition resolve (deeper : Expression → list string → Z → result sel_err (Expression * Z))
    (ref : string) (chain : list string) (nodes : Z) : result sel_err (Expression * Z) :=
  match groups with
  | None => Err ErrUnknownGroup
  | Some lookup =>
      found ← lookup ref;
      match found with
      | None => Err ErrUnknownGroup
      | Some group =>
          if bool_decide (g_id group ∈ chain) then Err ErrCycle
          else if bool_decide (g_kind group = KindStatic) then
            nodes ← countNode nodes;
            Ok (Expr [] [] None ({ no_facts with MemberOf := g_id group }), nodes)
          else if bool_decide (g_kind group = KindDynamic) then
            match g_selector group with
            | None => Err ErrInvalid
            | Some selector =>
                if bool_decide (MaxExpansion ≤ List.length chain)%nat then Err ErrInvalid
                else deeper selector (chain ++ [g_id group]) nodes
            end
          else Err ErrInvalid
      end
  end.

(** [expand]; [levels] bounds the groups inside one another, and
    [MaxExpansion] of them are enough. *)
Fixpoint expand (levels : nat) : Expression → list string → Z → result sel_err (Expression * Z) :=
  fix go (e : Expression) (chain : list string) (nodes : Z) {struct e} : result sel_err (Expression * Z) :=
    match e with
    | Expr all any not f =>
        nodes ← (if bool_decide (Group_ f = ""%string) then countNode nodes else Ok nodes);
        '(all', nodes) ← thread (λ c, go c chain) all nodes;
        '(any', nodes) ← thread (λ c, go c chain) any nodes;
        '(not', nodes) ← match not with
                         | Some c => '(c', n) ← go c chain nodes; Ok (Some c', n)
                         | None => Ok (None, nodes)
                         end;
        if bool_decide (Group_ f = ""%string) then Ok (Expr all' any' not' f, nodes)
        else resolve (match levels with S levels' => expand levels' | O => λ _ _ _, Err OutOfFuel end)
               (Group_ f) chain nodes
    end.

Definition Expand (e : option Expression) : result sel_err Expression :=
  match e with
  | None => Err ErrInvalid
  | Some e =>
      '(expanded, _) ← expand MaxExpansion e [] 0;
      if bool_decide (MaxNodes < count expanded) then Err ErrInvalid else Ok expanded
  end.
End expand.

(** ** Compilation *)

(** An argument of the query: a text, or an array of texts. *)
Inductive arg := ArgText (s : string) | ArgArray (l : list string).

(** [VersionParts], for the alias h *)
Definition VersionParts (alias : string) : string :=
  "string_to_array(substring(" +:+ alias +:+ ".agent_version from '^v?(\d+(?:\.\d+)*)'), '.')::int[]".

Section compile.
Context (is_uuid : string → bool) (offset : Z).

Definition param (value : arg) (args : list arg) : string * list arg :=
  let args := args ++ [value] in ("$" +:+ FormatInt (offset + len args), args).

(** A condition with one argument in its middle. *)
Definition with_param (before : string) (value : arg) (after : string) (args : list arg)
    : result sel_err (string * list arg) :=
  let '(p, args) := param value args in Ok (before +:+ p +:+ after, args).

(** The cases of [node] for the text fields, in their order. *)
Definition leaf_node (f : Facts) (args : list arg) : result sel_err (string * list arg) :=
  let set v := negb (bool_decide (v = ""%string)) in
  if set (Site f) then with_param "h.site = " (ArgText (Site f)) "" args
  else if set (Environment f) then with_param "h.environment = " (ArgText (Environment f)) "" args
  else if set (OSFamily f) then with_param "h.os_family = " (ArgText (OSFamily f)) "" args
  else if set (Tag f) then with_param "h.tags @> " (ArgArray [Tag f]) "::text[]" args
  else if set (Capability f) then
    with_param "exists (select 1 from host_capability_registry r where r.host_id = h.id and r.name = "
      (ArgText (Capability f)) " and r.available)" args
  else if set (ConnectionState f) then with_param "h.connection_state = " (ArgText (ConnectionState f)) "" args
  else if set (LifecycleState f) then with_param "h.lifecycle_state = " (ArgText (LifecycleState f)) "" args
  else if set (Owner f) then with_param "h.owner = " (ArgText (Owner f)) "" args
  else if set (Channel f) then with_param "h.release_channel = " (ArgText (Channel f)) "" args
  else if set (OSVersion f) then with_param "starts_with(h.os_version, " (ArgText (OSVersion f)) ")" args
  else if set (SecurityUpdates f) then
    Ok (if bool_decide (SecurityUpdates f = "true"%string) then "h.pending_security_updates > 0"
        else "h.pending_security_updates = 0", args)%string
  else if set (RebootRequired f) then Ok ("h.reboot_required = " +:+ RebootRequired f, args)
  else if set (FailedUnits f) then
    Ok (if bool_decide (FailedUnits f = "true"%string) then "h.failed_units > 0"
        else "h.failed_units = 0", args)%string
  else if set (AgentVersion f) then
    comparison ← ParseVersionComparison (AgentVersion f);
    with_param ("(h.agent_version ~ '^v?\d+(\.\d+)*' and " +:+ VersionParts "h" +:+ " " +:+
                Operator comparison +:+ " string_to_array(")
      (ArgText (Version comparison)) ", '.')::int[])" args
  else if set (Relay f) then
    if is_uuid (Relay f) then
      with_param "exists (select 1 from agent_sessions s where s.host_id = h.id and s.ended_at is null and s.relay_id = "
        (ArgText (Relay f)) "::uuid)" args
    else
      with_param "exists (select 1 from agent_sessions s join relays r on r.id = s.relay_id where s.host_id = h.id and s.ended_at is null and r.name = "
        (ArgText (Relay f)) ")" args
  else if set (FailureDomain f) then with_param "h.failure_domain = " (ArgText (FailureDomain f)) "" args
  else if set (MemberOf f) then
    with_param "exists (select 1 from host_group_members m where m.group_id = " (ArgText (MemberOf f))
      "::uuid and m.host_id = h.id)" args
  else if set (Group_ f) then Err ErrUnexpanded
  else Err ErrInvalid.

(** [strings.Join] *)
Fixpoint Join (parts : list string) (sep : string) : string :=
  match parts with
  | [] => ""
  | [part] => part
  | part :: parts' => part +:+ sep +:+ Join parts' sep
  end.

Fixpoint node (e : Expression) (args : list arg) : result sel_err (string * list arg) :=
  match e with
  | Expr all any not f =>
      let join children operator :=
        '(parts, args) ← thread node children args; Ok ("(" +:+ Join parts operator +:+ ")", args) in
      match all, any, not with
      | _ :: _, _, _ => join all " and "
      | [], _ :: _, _ => join any " or "
      | [], [], Some c => '(inner, args) ← node c args; Ok ("not " +:+ inner, args)
      | [], [], None => leaf_node f args
      end
  end.

Definition Compile (e : option Expression) : result sel_err (string * list arg) :=
  match e with None => Err ErrInvalid | Some e => node e [] end.
End compile.

(** ** Describing *)

Definition describe_fact (fact : string * string) : string :=
  let '(name, value) := fact in
  match (if bool_decide (name = "agent_version"%string) then ParseVersionComparison value else Err ErrInvalid) with
  | Ok comparison => name +:+ " " +:+ comparison_string comparison
  | Err _ => name +:+ "=" +:+ value
  end.

Fixpoint Describe (e : Expression) : string :=
  match e with
  | Expr all any not f =>
      match all, any, not with
      | _ :: _, _, _ => "(" +:+ Join (map Describe all) " and " +:+ ")"
      | [], _ :: _, _ => "(" +:+ Join (map Describe any) " or " +:+ ")"
      | [], [], Some c => "not " +:+ Describe c
      | [], [], None => match named f with fact :: _ => describe_fact fact | [] => "nothing" end
      end
  end.
