(* ===== verification/SelectorProps.v ===== *)
(** * SelectorProps: what the selectors mean

    The meaning of a selector for one host, in the three-valued logic of SQL,
    with a dynamic group meaning what its own selector means; and that the
    expansion keeps it, stays within its bounds, and compiles to a condition no
    value of the selector is part of. *)
From coqutil Require Import Datatypes.RecordSetters.
From S2P Require Import Prelude Bytes Text Selector.

Import OCamlLikeNotations.
Open Scope Z_scope.

(** ** Shapes *)

#[local] Unset Elimination Schemes.

(** A node as [Validate] lets it through. *)
Inductive shaped : Expression → Prop :=
| shaped_node all any not f :
    fields_set all any not f = 1 → MemberOf f = ""%string → forallb check_fact (named f) = true →
    Forall shaped all → Forall shaped any → (∀ c, not = Some c → shaped c) →
    shaped (Expr all any not f).

(** A node as the expansion leaves it: no group, and the members of a static
    group by identifier. *)
Inductive ready : Expression → Prop :=
| ready_node all any not f :
    fields_set all any not f = 1 → Group_ f = ""%string →
    (forallb check_fact (named f) = true ∨ ∃ id, f = { no_facts with MemberOf := id }) →
    Forall ready all → Forall ready any → (∀ c, not = Some c → ready c) →
    ready (Expr all any not f).

#[local] Set Elimination Schemes.

(** What a node that sets one field is. *)
Inductive single (all any : list Expression) (not : option Expression) (f : Facts) : Prop :=
| single_all : all ≠ [] → any = [] → not = None → named f = [] → single all any not f
| single_any : all = [] → any ≠ [] → not = None → named f = [] → single all any not f
| single_not c : all = [] → any = [] → not = Some c → named f = [] → single all any not f
| single_fact fact : all = [] → any = [] → not = None → named f = [fact] → single all any not f.

Lemma fields_single all any not f : fields_set all any not f = 1 ↔ single all any not f.
Proof.
  unfold fields_set. pose proof (len_nonneg (named f)).
  assert (Hl : ∀ l : list Expression, b2n (negb (bool_decide (len l = 0))) = if l is [] then 0 else 1).
  { intros [|x l]; [done|]. rewrite bool_decide_eq_false_2; [done|]. rewrite len_cons. pose proof (len_nonneg l). lia. }
  rewrite !Hl. split.
  - intros Hs. assert (Hcases : named f = [] ∧ len (named f) = 0 ∨ (∃ x, named f = [x]) ∧ len (named f) = 1 ∨ 2 ≤ len (named f)).
    { destruct (named f) as [|x [|y l]]; [by left|right; left; eauto|right; right].
      rewrite !len_cons. pose proof (len_nonneg l). lia. }
    destruct all, any, not; cbn [b2n] in Hs; destruct Hcases as [[? ?]|[[[x ?] ?]|?]]; try lia;
      first [by eapply single_not|by eapply single_fact|by apply single_any|by apply single_all].
  - intros [Ha -> -> Hn| -> Ha -> Hn|c -> -> -> Hn|fact -> -> -> Hn]; rewrite Hn; cbn; try done; by destruct all || destruct any.
Qed.

Lemma named_leaf f name value : (name, value) ∈ leaves f → value ≠ ""%string → (name, value) ∈ named f.
Proof. intros. by apply list_elem_of_filter. Qed.

Lemma named_nil f name value : named f = [] → (name, value) ∈ leaves f → value = ""%string.
Proof.
  intros Hn Hin. apply dec_stable. intros Hv. assert (H : (name, value) ∈ named f) by by apply named_leaf.
  rewrite Hn in H. by apply elem_of_nil in H.
Qed.

Lemma named_one f fact name value :
  named f = [fact] → (name, value) ∈ leaves f → value ≠ ""%string → fact = (name, value).
Proof.
  intros Hn Hin Hv. assert (H : (name, value) ∈ named f) by by apply named_leaf.
  rewrite Hn in H. by apply list_elem_of_singleton in H.
Qed.

Lemma named_in f fact : fact ∈ named f → fact ∈ leaves f ∧ fact.2 ≠ ""%string.
Proof. intros [? ?]%list_elem_of_filter. done. Qed.

(** Each name stands once among the leaves. *)
Lemma leaf_name f name v1 v2 : (name, v1) ∈ leaves f → (name, v2) ∈ leaves f → v1 = v2.
Proof.
  assert (Hnd : NoDup (leaves f).*1) by (cbn; by apply (bool_decide_unpack _); vm_compute).
  intros [i1 H1]%list_elem_of_lookup [i2 H2]%list_elem_of_lookup.
  assert (i1 = i2) as ->; [|congruence].
  by eapply (NoDup_lookup _ _ _ name Hnd); rewrite list_lookup_fmap; [rewrite H1|rewrite H2].
Qed.

Lemma validate_shaped e : ∀ depth nodes n, validate depth e nodes = Ok n → shaped e.
Proof.
  induction e as [all any not f IHa IHb IHn] using Expression_rect_all. intros depth nodes n Hv. cbn [validate] in Hv.
  destruct (bool_decide (MaxDepth < depth)); [done|]. cbv zeta in Hv.
  destruct (bool_decide (MaxNodes < nodes + 1)); [done|].
  destruct (bool_decide (MemberOf f = ""%string)) eqn:Em; [|done].
  cbn [negb] in Hv. destruct (bool_decide (fields_set all any not f ≠ 1)) eqn:Hs; [done|].
  apply bool_decide_eq_false in Hs.
  apply result_bind_Ok in Hv as (n1 & Ha & Hv). apply result_bind_Ok in Hv as (n2 & Hb & Hv).
  apply result_bind_Ok in Hv as (n3 & Hn & Hv). destruct (forallb check_fact (named f)) eqn:Ef; [|done].
  apply bool_decide_eq_true in Em. constructor; [by apply dec_stable|done|done| | |].
  - eapply (pass_Forall shaped); [|exact Ha]. eapply Forall_impl; [exact IHa|]. cbn. eauto.
  - eapply (pass_Forall shaped); [|exact Hb]. eapply Forall_impl; [exact IHb|]. cbn. eauto.
  - intros c ->. eapply IHn; [done|exact Hn].
Qed.

(** ** Meanings *)

(** The values of an SQL condition: true, false, or unknown. *)
Definition and3 (l : list (option bool)) : option bool :=
  if bool_decide (Some false ∈ l) then Some false
  else if bool_decide (None ∈ l) then None else Some true.
Definition or3 (l : list (option bool)) : option bool :=
  if bool_decide (Some true ∈ l) then Some true
  else if bool_decide (None ∈ l) then None else Some false.
Definition not3 (b : option bool) : option bool := negb <$> b.

Section meaning.
(** What a fact is for the host at hand, and the groups. *)
Context (fact : string → string → option bool) (lookup : string → result sel_err (option Group)).

Definition eval_fact (f : Facts) : option bool :=
  match named f with (name, value) :: _ => fact name value | [] => None end.

(** The meaning of a selector without group references. *)
Fixpoint eval (e : Expression) : option bool :=
  match e with
  | Expr all any not f =>
      match all, any, not with
      | _ :: _, _, _ => and3 (map eval all)
      | [], _ :: _, _ => or3 (map eval any)
      | [], [], Some c => not3 (eval c)
      | [], [], None => eval_fact f
      end
  end.

#[local] Unset Elimination Schemes.

(** The meaning of a selector with them: a static group is its members, a
    dynamic group its selector. *)
Inductive means : Expression → option bool → Prop :=
| means_all all f bs : all ≠ [] → Forall2 means all bs → means (Expr all [] None f) (and3 bs)
| means_any any f bs : any ≠ [] → Forall2 means any bs → means (Expr [] any None f) (or3 bs)
| means_not c f b : means c b → means (Expr [] [] (Some c) f) (not3 b)
| means_fact f : Group_ f = ""%string → means (Expr [] [] None f) (eval_fact f)
| means_static f g : Group_ f ≠ ""%string → lookup (Group_ f) = Ok (Some g) → g_kind g = KindStatic →
    means (Expr [] [] None f) (fact "group_id" (g_id g))
| means_dynamic f g e b : Group_ f ≠ ""%string → lookup (Group_ f) = Ok (Some g) → g_kind g = KindDynamic →
    g_selector g = Some e → means e b → means (Expr [] [] None f) b.

#[local] Set Elimination Schemes.

(** The groups of the store: identified, and a saved selector was validated. *)
Definition groups_valid : Prop :=
  ∀ ref g, lookup ref = Ok (Some g) →
    g_id g ≠ ""%string ∧ ∀ e, g_selector g = Some e → Validate (Some e) = Ok tt.

Lemma Validate_shaped e : Validate (Some e) = Ok tt → shaped e.
Proof. cbn. intros (n & Hn & _)%result_bind_Ok. by eapply validate_shaped. Qed.

(** What one round of the expansion gives. *)
Record expanded (nodes : Z) (e e' : Expression) (nodes' : Z) : Prop := {
  ex_means : means e (eval e');
  ex_unique : ∀ b, means e b → b = eval e';
  ex_ready : ready e';
  ex_count : nodes' = nodes + count e';
}.

Lemma means_children l l' :
  Forall2 (λ c c', means c (eval c') ∧ (∀ b, means c b → b = eval c') ∧ ready c') l l' →
  Forall2 means l (map eval l') ∧ (∀ bs, Forall2 means l bs → bs = map eval l') ∧ Forall ready l'.
Proof.
  induction 1 as [|c c' l l' (H1 & H2 & H3) _ (I1 & I2 & I3)]; cbn.
  - split_and!; [constructor| |constructor]. intros bs Hb. by inversion Hb.
  - split_and!; [by constructor| |by constructor]. intros bs Hb. inversion Hb; subst. f_equal; eauto.
Qed.

Lemma named_member id : id ≠ ""%string → named ({ no_facts with MemberOf := id }) = [("group_id"%string, id)].
Proof.
  intros Hid. by destruct id.
Qed.

Lemma leaf_group f : ("group"%string, Group_ f) ∈ leaves f.
Proof. unfold leaves. do 4 right. left. Qed.

Lemma leaf_member f : ("group_id"%string, MemberOf f) ∈ leaves f.
Proof. unfold leaves. do 17 right. left. Qed.

(** The facts of a node that has no group and no more than one fact. *)
Lemma single_no_group all any not f : single all any not f → named f = [] → Group_ f = ""%string.
Proof. intros _ Hn. by eapply named_nil, leaf_group. Qed.

Lemma expanded_member nodes g f :
  Group_ f ≠ ""%string → g_id g ≠ ""%string → lookup (Group_ f) = Ok (Some g) → g_kind g = KindStatic →
  expanded nodes (Expr [] [] None f) (Expr [] [] None ({ no_facts with MemberOf := g_id g })) (nodes + 1).
Proof.
  intros Hf Hid Hl Hk.
  assert (He : eval (Expr [] [] None ({ no_facts with MemberOf := g_id g })) = fact "group_id" (g_id g)).
  { cbn [eval]. unfold eval_fact. by rewrite named_member. }
  split; rewrite ?He.
  - by apply means_static.
  - unfold KindStatic in Hk. intros b Hb. inversion Hb as [| | | |f1 g1 _ Hl1 _|f1 g1 e1 b1 _ Hl1 Hk1 _ _]; subst; try done.
    + congruence.
    + unfold KindDynamic in Hk1. congruence.
  - apply ready_node; [|done|right; by eexists|done..].
    unfold fields_set. by rewrite named_member.
  - done.
Qed.

(** A node without a group keeps its fields and takes the expanded children. *)
Lemma expanded_node nodes all any not f all' any' not' nodes' :
  Group_ f = ""%string → shaped (Expr all any not f) →
  Forall2 (λ c c', means c (eval c') ∧ (∀ b, means c b → b = eval c') ∧ ready c') all all' →
  Forall2 (λ c c', means c (eval c') ∧ (∀ b, means c b → b = eval c') ∧ ready c') any any' →
  match not, not' with
  | Some c, Some c' => means c (eval c') ∧ (∀ b, means c b → b = eval c') ∧ ready c'
  | None, None => True | _, _ => False end →
  nodes' = nodes + count (Expr all' any' not' f) →
  expanded nodes (Expr all any not f) (Expr all' any' not' f) nodes'.
Proof.
  intros Hg Hsh Ha Hb Hn Hc. inversion Hsh as [a1 b1 n1 f1 Hs Hm Hf _ _ _]; subst.
  pose proof (proj1 (fields_single _ _ _ _) Hs) as Hsingle.
  destruct (means_children _ _ Ha) as (A1 & A2 & A3), (means_children _ _ Hb) as (B1 & B2 & B3).
  pose proof (Forall2_length _ _ _ Ha) as La. pose proof (Forall2_length _ _ _ Hb) as Lb.
  assert (Hready : ready (Expr all' any' not' f)).
  { constructor; try done; [|by left|].
    - rewrite <- Hs. unfold fields_set, len. rewrite La, Lb. by destruct not, not'.
    - intros c ->. destruct not; [apply Hn|done]. }
  split; try done.
  - destruct Hsingle as [Hne -> -> Hnm| -> Hne -> Hnm|c -> -> -> Hnm|fct -> -> -> Hnm]; destruct not' as [c'|]; try done.
    + inversion Hb; subst. destruct all' as [|x l]; [by destruct all|]. by apply means_all.
    + inversion Ha; subst. destruct any' as [|x l]; [by destruct any|]. by apply means_any.
    + inversion Ha; inversion Hb; subst. apply means_not, Hn.
    + inversion Ha; inversion Hb; subst. by apply means_fact.
  - intros b Hb'. destruct Hsingle as [Hne -> -> Hnm| -> Hne -> Hnm|c -> -> -> Hnm|fct -> -> -> Hnm];
      destruct not' as [c'|]; try done.
    + inversion Hb; subst. inversion Hb'; subst; try done. destruct all' as [|x l]; [by destruct all|].
      cbn [eval]. f_equal. by apply A2.
    + inversion Ha; subst. destruct any' as [|x l]; [by destruct any|]. inversion Hb'; subst; try done.
      cbn [eval]. f_equal. by apply B2.
    + inversion Ha; inversion Hb; subst. inversion Hb'; subst; try done. cbn [eval]. f_equal. by apply Hn.
    + inversion Ha; inversion Hb; subst. inversion Hb'; subst; try done.
Qed.

Lemma countNode_Ok nodes n : countNode nodes = Ok n → n = nodes + 1.
Proof. unfold countNode. case_bool_decide; [done|]. by intros [= <-]. Qed.

Lemma count_node all any not f :
  count (Expr all any not f) = 1 + sumZ count all + sumZ count any + match not with Some c => count c | None => 0 end.
Proof. done. Qed.

(** What a reference becomes, given what the selector of a dynamic group does. *)
Lemma resolve_expanded deeper f chain nodes e' n' :
  groups_valid → Group_ f ≠ ""%string →
  (∀ sel chain nodes e' n', shaped sel → deeper sel chain nodes = Ok (e', n') → expanded nodes sel e' n') →
  resolve (Some lookup) deeper (Group_ f) chain nodes = Ok (e', n') →
  expanded nodes (Expr [] [] None f) e' n'.
Proof.
  intros Hgv Hf Hdeep Hr. unfold resolve in Hr. apply result_bind_Ok in Hr as (found & Hl & Hr).
  destruct found as [g|]; [|done]. destruct (Hgv _ _ Hl) as [Hid Hsel].
  destruct (bool_decide (g_id g ∈ chain)); [done|].
  destruct (bool_decide (g_kind g = KindStatic)) eqn:Ek.
  - apply bool_decide_eq_true in Ek. apply result_bind_Ok in Hr as (n & Hn%countNode_Ok & Hr).
    injection Hr as <- <-. subst n. by apply expanded_member.
  - destruct (bool_decide (g_kind g = KindDynamic)) eqn:Ed; [|done]. apply bool_decide_eq_true in Ed.
    destruct (g_selector g) as [sel|] eqn:Es; [|done].
    destruct (bool_decide (MaxExpansion ≤ _)%nat); [done|].
    pose proof (Validate_shaped _ (Hsel sel eq_refl)) as Hsh.
    destruct (Hdeep sel _ _ _ _ Hsh Hr) as [D1 D2 D3 D4]. split; try done.
    + by eapply means_dynamic.
    + intros b Hb. inversion Hb; subst; try done.
      * assert (g0 = g) as -> by congruence. unfold KindStatic, KindDynamic in *. congruence.
      * assert (g0 = g) as -> by congruence. assert (e = sel) as -> by congruence. by apply D2.
Qed.

Lemma expand_unfold groups levels all any not f chain nodes :
  expand groups levels (Expr all any not f) chain nodes = (
    nodes ← (if bool_decide (Group_ f = ""%string) then countNode nodes else Ok nodes);
    '(all', nodes) ← thread (λ c, expand groups levels c chain) all nodes;
    '(any', nodes) ← thread (λ c, expand groups levels c chain) any nodes;
    '(not', nodes) ← match not with
                     | Some c => '(c', n) ← expand groups levels c chain nodes; Ok (Some c', n)
                     | None => Ok (None, nodes)
                     end;
    if bool_decide (Group_ f = ""%string) then Ok (Expr all' any' not' f, nodes)
    else resolve groups (match levels with S levels' => expand groups levels' | O => λ _ _ _, Err OutOfFuel end)
           (Group_ f) chain nodes).
Proof. by destruct levels. Qed.

Lemma expand_expanded levels e :
  groups_valid → ∀ chain nodes e' n', shaped e →
  expand (Some lookup) levels e chain nodes = Ok (e', n') → expanded nodes e e' n'.
Proof.
  intros Hgv. revert e. induction levels as [levels IHl] using lt_wf_ind. intros e.
  induction e as [all any not f IHa IHb IHn] using Expression_rect_all. intros chain nodes e' n' Hsh Hx.
  rewrite expand_unfold in Hx. inversion Hsh as [a1 b1 n1 f1 Hs Hm Hf Sa Sb Sn]; subst.
  apply result_bind_Ok in Hx as (m0 & H0 & Hx). apply result_bind_Ok in Hx as ([all' m1] & H1 & Hx).
  apply result_bind_Ok in Hx as ([any' m2] & H2 & Hx). apply result_bind_Ok in Hx as ([not' m3] & H3 & Hx).
  assert (Hch : ∀ l, Forall (λ e, ∀ chain nodes e' n', shaped e → expand (Some lookup) levels e chain nodes = Ok (e', n') →
      expanded nodes e e' n') l → Forall shaped l →
    Forall (λ c, ∀ n c' n', expand (Some lookup) levels c chain n = Ok (c', n') → expanded n c c' n') l).
  { intros l Hl Hsl. rewrite Forall_forall in *. eauto. }
  specialize (Hch all IHa Sa) as Ca. specialize (Hch any IHb Sb) as Cb. clear Hch.
  assert (Hn3 : match not, not' with
    | Some c, Some c' => expanded m2 c c' m3 | None, None => m3 = m2 | _, _ => False end).
  { destruct not as [c|]; [|by injection H3 as <- <-].
    apply result_bind_Ok in H3 as ([c' n] & H3 & H4). injection H4 as <- <-. eapply IHn; eauto. }
  assert (S1 : m1 = m0 + sumZ count all').
  { eapply (thread_sum count); [|exact H1]. eapply Forall_impl; [exact Ca|]. intros c Hc s y s' Hy. apply (Hc _ _ _ Hy). }
  assert (S2 : m2 = m1 + sumZ count any').
  { eapply (thread_sum count); [|exact H2]. eapply Forall_impl; [exact Cb|]. intros c Hc s y s' Hy. apply (Hc _ _ _ Hy). }
  destruct (bool_decide (Group_ f = ""%string)) eqn:Eg.
  - apply bool_decide_eq_true in Eg. apply countNode_Ok in H0. injection Hx as <- <-.
    apply expanded_node; try done.
    + eapply thread_Forall2; [|exact H1]. eapply Forall_impl; [exact Ca|]. intros c Hc s y s' Hy.
      destruct (Hc _ _ _ Hy). by split_and!.
    + eapply thread_Forall2; [|exact H2]. eapply Forall_impl; [exact Cb|]. intros c Hc s y s' Hy.
      destruct (Hc _ _ _ Hy). by split_and!.
    + destruct not, not'; try done. destruct Hn3. by split_and!.
    + rewrite count_node. destruct not, not'; try done; [destruct Hn3 as [_ _ _ ->]|]; lia.
  - apply bool_decide_eq_false in Eg. injection H0 as <-.
    pose proof (proj1 (fields_single _ _ _ _) Hs) as Hsingle.
    destruct Hsingle as [Hne -> -> Hnm| -> Hne -> Hnm|c -> -> -> Hnm|fct -> -> -> Hnm];
      try (destruct Eg; by eapply named_nil, leaf_group).
    cbn in H1, H2. injection H1 as <- <-. injection H2 as <- <-. injection H3 as <- <-.
    eapply resolve_expanded; [done|done| |exact Hx].
    intros sel ch nd r nr Hsel Hr. destruct levels as [|levels]; [done|]. by eapply (IHl levels); [lia|..|exact Hr].
Qed.
End meaning.

(** ** Termination *)

Lemma resolve_fuel groups deeper ref chain nodes :
  (∀ lookup, groups = Some lookup → ∀ r, lookup r ≠ Err OutOfFuel) →
  (List.length chain < MaxExpansion → ∀ e chain' n, List.length chain' = S (List.length chain) →
     deeper e chain' n ≠ Err OutOfFuel)%nat →
  resolve groups deeper ref chain nodes ≠ Err OutOfFuel.
Proof.
  intros Hg Hd. unfold resolve. destruct groups as [lookup|]; [|done]. specialize (Hg lookup eq_refl ref).
  destruct (lookup ref) as [[g|]|e]; cbn [mbind result_bind]; [|done|congruence].
  destruct (bool_decide (g_id g ∈ chain)); [done|].
  destruct (bool_decide (g_kind g = KindStatic)); [unfold countNode; by case_bool_decide|].
  destruct (bool_decide (g_kind g = KindDynamic)); [|done]. destruct (g_selector g); [|done].
  case_bool_decide; [done|]. apply Hd; [lia|]. rewrite length_app. cbn. lia.
Qed.

(** The levels left are enough for the groups that may still be entered. *)
Lemma expand_fuel groups levels e :
  (∀ lookup, groups = Some lookup → ∀ r, lookup r ≠ Err OutOfFuel) →
  ∀ chain nodes, (MaxExpansion ≤ List.length chain + levels)%nat →
  expand groups levels e chain nodes ≠ Err OutOfFuel.
Proof.
  intros Hg. revert e. induction levels as [levels IHl] using lt_wf_ind. intros e.
  induction e as [all any not f IHa IHb IHn] using Expression_rect_all. intros chain nodes Hlen Hx.
  assert (Hch : ∀ l s, Forall (λ e, ∀ chain nodes, (MaxExpansion ≤ List.length chain + levels)%nat →
      expand groups levels e chain nodes ≠ Err OutOfFuel) l →
    thread (λ c, expand groups levels c chain) l s ≠ Err OutOfFuel).
  { intros l s Hl (c & n & Hc & He)%thread_Err. rewrite Forall_forall in Hl. by eapply Hl. }
  rewrite expand_unfold in Hx. revert Hx.
  assert (H0 : (if bool_decide (Group_ f = ""%string) then countNode nodes else Ok nodes) ≠ Err OutOfFuel)
    by (unfold countNode; by repeat case_bool_decide).
  destruct (if bool_decide _ then _ else _) as [m0|e0]; cbn [mbind result_bind]; [|congruence].
  pose proof (Hch all m0 IHa) as H1. destruct (thread _ all m0) as [[all' m1]|e1]; cbn [mbind result_bind]; [|congruence].
  pose proof (Hch any m1 IHb) as H2. destruct (thread _ any m1) as [[any' m2]|e2]; cbn [mbind result_bind]; [|congruence].
  assert (H3 : match not with
     | Some c => '(c', n) ← expand groups levels c chain m2; Ok (Some c', n) | None => Ok (None, m2) end ≠ Err OutOfFuel).
  { destruct not as [c|]; [|done]. pose proof (IHn c eq_refl chain m2 Hlen) as H.
    destruct (expand _ _ c _ _) as [[c' n]|e3]; [done|]. cbn. congruence. }
  destruct (match not with Some _ => _ | None => _ end) as [[not' m3]|e3]; cbn [mbind result_bind]; [|congruence].
  destruct (bool_decide (Group_ f = ""%string)); [done|]. apply resolve_fuel; [done|].
  intros Hlt sel chain' n Hlen'. destruct levels as [|levels]; [lia|]. apply IHl; lia.
Qed.

Lemma count_pos e : 1 ≤ count e.
Proof.
  induction e as [all any not f IHa IHb IHn] using Expression_rect_all.
  assert (Hs : ∀ l, Forall (λ e, 1 ≤ count e) l → 0 ≤ sumZ count l).
  { induction 1 as [|c l Hc _ IH]; [done|]. change (sumZ count (c :: l)) with (count c + sumZ count l). lia. }
  rewrite count_node. pose proof (Hs all IHa). pose proof (Hs any IHb).
  destruct not as [c|]; [pose proof (IHn c eq_refl)|]; lia.
Qed.

(** What [Expand] gives is what its recursion gives, within the bound. *)
Lemma Expand_Ok fact lookup e e' :
  groups_valid lookup → Validate (Some e) = Ok tt → Expand (Some lookup) (Some e) = Ok e' →
  expanded fact lookup 0 e e' (count e') ∧ count e' ≤ MaxNodes.
Proof.
  intros Hg Hv Hx. apply result_bind_Ok in Hx as ([e1 n] & Hx & Hc).
  case_bool_decide as Hm; [done|]. injection Hc as <-.
  pose proof (expand_expanded fact lookup _ e Hg _ _ _ _ (Validate_shaped _ Hv) Hx) as H.
  assert (n = count e1) as -> by (destruct H; lia). split; [done|lia].
Qed.

Lemma Expand_ready lookup e e' :
  groups_valid lookup → Validate (Some e) = Ok tt → Expand (Some lookup) (Some e) = Ok e' →
  ready e' ∧ 1 ≤ count e' ≤ MaxNodes.
Proof.
  intros Hg Hv Hx. destruct (Expand_Ok (λ _ _, None) _ _ _ Hg Hv Hx) as [[_ _ Hr _] Hm].
  pose proof (count_pos e'). by split.
Qed.

(** ** Properties *)

(** C35: the expansion keeps what a selector means. A selector that validated,
    over a store of groups whose saved selectors validated, means for every host
    exactly what its expansion means: true, false or unknown, as SQL counts it. *)
Theorem Expand_preserves_meaning fact lookup e e' :
  groups_valid lookup → Validate (Some e) = Ok tt → Expand (Some lookup) (Some e) = Ok e' →
  means fact lookup e (eval fact e') ∧ ∀ b, means fact lookup e b → b = eval fact e'.
Proof.
  intros Hg Hv Hx. by destruct (Expand_Ok fact _ _ _ Hg Hv Hx) as [[? ?] _].
Qed.

(** C36: the expansion always ends, whatever the groups refer to - themselves
    included - and what it gives stays within the bound on the conditions and
    holds no reference any more. *)
Theorem Expand_terminates groups e :
  (∀ lookup, groups = Some lookup → ∀ r, lookup r ≠ Err OutOfFuel) →
  Expand groups (Some e) ≠ Err OutOfFuel
  ∧ ∀ lookup e', groups = Some lookup → groups_valid lookup → Validate (Some e) = Ok tt →
      Expand groups (Some e) = Ok e' → ready e' ∧ 1 ≤ count e' ≤ MaxNodes.
Proof.
  intros Hg. split.
  - cbn [Expand]. pose proof (expand_fuel groups MaxExpansion e Hg [] 0 ltac:(done)) as Hf.
    destruct (expand _ _ e _ _) as [[e1 n]|x]; cbn [mbind result_bind]; [by case_bool_decide|congruence].
  - intros lookup e' -> Hgv Hv Hx. by eapply Expand_ready.
Qed.
