(* ===== verification/SelectorSql.v ===== *)
(** * SelectorSql: the condition a selector compiles to

    The text of a compiled condition is that of a skeleton: a tree over a fixed
    set of columns and operators, whose type holds no text at all. What the
    selector says goes into the arguments of the query. *)
From coqutil Require Import Datatypes.RecordSetters.
From S2P Require Import Prelude Bytes Text Selector SelectorProps.

Import OCamlLikeNotations.
Open Scope Z_scope.

(** ** Skeletons *)

Inductive column :=
| CSite | CEnvironment | COSFamily | CTag | CCapability | CConnection | CLifecycle | COwner | CChannel
| COSVersion | CRelayID | CRelayName | CFailureDomain | CMember.

Inductive operator := OLe | OGe | OLt | OGt | OEq.

#[local] Unset Elimination Schemes.
Inductive skeleton :=
| KAll (l : list skeleton) | KAny (l : list skeleton) | KNot (k : skeleton)
| KSecurity (b : bool) | KReboot (b : bool) | KFailed (b : bool)
| KVersion (op : operator) | KColumn (c : column).
#[local] Set Elimination Schemes.

(** What stands before and after the placeholder. *)
Definition around (c : column) : string * string :=
  match c with
  | CSite => ("h.site = ", "") | CEnvironment => ("h.environment = ", "")
  | COSFamily => ("h.os_family = ", "") | CTag => ("h.tags @> ", "::text[]")
  | CCapability => ("exists (select 1 from host_capability_registry r where r.host_id = h.id and r.name = ", " and r.available)")
  | CConnection => ("h.connection_state = ", "") | CLifecycle => ("h.lifecycle_state = ", "")
  | COwner => ("h.owner = ", "") | CChannel => ("h.release_channel = ", "")
  | COSVersion => ("starts_with(h.os_version, ", ")")
  | CRelayID => ("exists (select 1 from agent_sessions s where s.host_id = h.id and s.ended_at is null and s.relay_id = ", "::uuid)")
  | CRelayName => ("exists (select 1 from agent_sessions s join relays r on r.id = s.relay_id where s.host_id = h.id and s.ended_at is null and r.name = ", ")")
  | CFailureDomain => ("h.failure_domain = ", "")
  | CMember => ("exists (select 1 from host_group_members m where m.group_id = ", "::uuid and m.host_id = h.id)")
  end%string.

Definition operator_text (op : operator) : string :=
  match op with OLe => "<=" | OGe => ">=" | OLt => "<" | OGt => ">" | OEq => "=" end.

(** The texts of a list of skeletons, the placeholders numbered on. *)
Section numbered.
Context {A : Type} (f : A → Z → string * Z).
Fixpoint numbered (l : list A) (n : Z) : list string * Z :=
  match l with
  | [] => ([], n)
  | x :: l' => let '(part, n) := f x n in let '(parts, n) := numbered l' n in (part :: parts, n)
  end.
End numbered.

Definition placeholder (before after : string) (n : Z) : string * Z :=
  (before +:+ ("$" +:+ FormatInt (n + 1)) +:+ after, n + 1).

(** The text of a skeleton, after [n] placeholders. *)
Fixpoint render (k : skeleton) (n : Z) : string * Z :=
  match k with
  | KAll l => let '(parts, n) := numbered render l n in ("(" +:+ Join parts " and " +:+ ")", n)
  | KAny l => let '(parts, n) := numbered render l n in ("(" +:+ Join parts " or " +:+ ")", n)
  | KNot k => let '(inner, n) := render k n in ("not " +:+ inner, n)
  | KSecurity b => (if b then "h.pending_security_updates > 0" else "h.pending_security_updates = 0", n)%string
  | KReboot b => (if b then "h.reboot_required = true" else "h.reboot_required = false", n)%string
  | KFailed b => (if b then "h.failed_units > 0" else "h.failed_units = 0", n)%string
  | KVersion op => placeholder ("(h.agent_version ~ '^v?\d+(\.\d+)*' and " +:+ VersionParts "h" +:+ " " +:+
                     operator_text op +:+ " string_to_array(") ", '.')::int[])" n
  | KColumn c => placeholder (around c).1 (around c).2 n
  end.

(** The arguments of a selector, in the order of its nodes. *)
Definition fact_arguments (fact : string * string) : list arg :=
  let '(name, value) := fact in
  if bool_decide (name = "tag"%string) then [ArgArray [value]]
  else if bool_decide (name ∈ ["security_updates"; "reboot_required"; "failed_units"]%string) then []
  else if bool_decide (name = "agent_version"%string) then
    match ParseVersionComparison value with Ok c => [ArgText (Version c)] | Err _ => [] end
  else [ArgText value].

Fixpoint arguments (e : Expression) : list arg :=
  match e with
  | Expr all any not f =>
      match all, any, not with
      | _ :: _, _, _ => mjoin (map arguments all)
      | [], _ :: _, _ => mjoin (map arguments any)
      | [], [], Some c => arguments c
      | [], [], None => mjoin (fact_arguments <$> named f)
      end
  end.

(** ** A node with one fact *)

Definition fact_names : list string :=
  ["site"; "environment"; "os_family"; "tag"; "group"; "capability"; "connection_state"; "lifecycle_state";
   "owner"; "channel"; "os_version"; "security_updates"; "reboot_required"; "failed_units"; "agent_version";
   "relay"; "failure_domain"; "group_id"]%string.

Definition one_fact (name value : string) : Facts :=
  let put n := if bool_decide (name = n) then value else ""%string in
  mkFacts (put "site") (put "environment") (put "os_family") (put "tag") (put "group") (put "capability")
    (put "connection_state") (put "lifecycle_state") (put "owner") (put "channel") (put "os_version")
    (put "security_updates") (put "reboot_required") (put "failed_units") (put "agent_version")
    (put "relay") (put "failure_domain") (put "group_id").

Lemma named_is_one f name value :
  named f = [(name, value)] → f = one_fact name value ∧ name ∈ fact_names ∧ value ≠ ""%string.
Proof.
  intros Hn. assert (Hin : (name, value) ∈ named f) by (rewrite Hn; by left).
  apply named_in in Hin as [Hin Hv]. cbn in Hv.
  assert (Hput : ∀ n v, (n, v) ∈ leaves f → v = if bool_decide (name = n) then value else ""%string).
  { intros n v Hl. case_bool_decide as E; [subst n; by eapply leaf_name|].
    apply dec_stable. intros Hne. pose proof (named_one _ _ _ _ Hn Hl Hne) as [= -> _]. done. }
  split; [|split; [|done]].
  - assert (Hall : Forall (λ nv, nv.2 = if bool_decide (name = nv.1) then value else ""%string) (leaves f)).
    { apply Forall_forall. intros [n v] Hl. by apply Hput. }
    destruct f; cbn in Hall. unfold one_fact. repeat (apply Forall_cons in Hall as [? Hall]). f_equal; assumption.
  - change fact_names with (leaves f).*1. apply list_elem_of_fmap. by exists (name, value).
Qed.

Lemma take_operator_elem ops text :
  (take_operator ops text).1 ∈ "="%string :: ops.
Proof.
  induction ops as [|op ops IH]; cbn; [by left|]. destruct (HasPrefix _ _); cbn; [right; by left|]. set_solver.
Qed.

Lemma comparison_operator value c :
  ParseVersionComparison value = Ok c → ∃ op, Operator c = operator_text op.
Proof.
  unfold ParseVersionComparison. pose proof (take_operator_elem versionOperators (TrimSpace (sbytes value))) as H.
  destruct (take_operator _ _) as [o t]. cbn in H. destruct (versionPattern t); [|done]. intros [= <-]. cbn.
  repeat (apply elem_of_cons in H as [->|H]; [first
    [by exists OEq|by exists OLe|by exists OGe|by exists OLt|by exists OGt]|]). by apply elem_of_nil in H.
Qed.

Section compile.
Context (is_uuid : string → bool) (offset : Z).

Lemma boolean_cases value : contains booleans value = true → value = "true"%string ∨ value = "false"%string.
Proof. unfold contains, booleans. rewrite bool_decide_eq_true, !elem_of_cons, elem_of_nil. tauto. Qed.

Lemma len_snoc (args : list arg) a : len (args ++ [a]) = len args + 1.
Proof. rewrite len_app. done. Qed.

Lemma with_param_placeholder before value after args :
  with_param offset before value after args
  = Ok ((placeholder before after (offset + len args)).1, args ++ [value]).
Proof. unfold with_param, param, placeholder. cbn. by rewrite len_snoc, Z.add_assoc. Qed.

(** A fact that passed its check, or names the members of a group. *)
Lemma leaf_rendered name value args :
  name ∈ fact_names → value ≠ ""%string → name ≠ "group"%string →
  check_fact (name, value) = true ∨ name = "group_id"%string →
  ∃ k, leaf_node is_uuid offset (one_fact name value) args
       = Ok ((render k (offset + len args)).1, args ++ fact_arguments (name, value))
     ∧ (render k (offset + len args)).2 = offset + len (args ++ fact_arguments (name, value)).
Proof.
  intros Hn Hv Hg Hc.
  assert (Hcol : ∀ c before after arg, around c = (before, after) → ∀ x, x = [arg] →
    ∃ k, with_param offset before arg after args = Ok ((render k (offset + len args)).1, args ++ x)
       ∧ (render k (offset + len args)).2 = offset + len (args ++ x)).
  { intros c before after a Hb x ->. exists (KColumn c). cbn [render]. rewrite Hb, with_param_placeholder, len_snoc.
    split; [done|]. cbn. lia. }
  destruct value as [|ch value]; [done|]. set (v := String.String ch value) in *.
  repeat (apply elem_of_cons in Hn as [->|Hn]).
  - by apply (Hcol CSite).
  - by apply (Hcol CEnvironment).
  - by apply (Hcol COSFamily).
  - by apply (Hcol CTag).
  - done.
  - by apply (Hcol CCapability).
  - by apply (Hcol CConnection).
  - by apply (Hcol CLifecycle).
  - by apply (Hcol COwner).
  - by apply (Hcol CChannel).
  - by apply (Hcol COSVersion).
  - destruct Hc as [[_ Hc]%andb_true_iff|]; [|done]. cbn in Hc. apply boolean_cases in Hc. clearbody v.
    destruct Hc as [->| ->]; [exists (KSecurity true)|exists (KSecurity false)]; by rewrite app_nil_r.
  - destruct Hc as [[_ Hc]%andb_true_iff|]; [|done]. cbn in Hc. apply boolean_cases in Hc. clearbody v.
    destruct Hc as [->| ->]; [exists (KReboot true)|exists (KReboot false)]; by rewrite app_nil_r.
  - destruct Hc as [[_ Hc]%andb_true_iff|]; [|done]. cbn in Hc. apply boolean_cases in Hc. clearbody v.
    destruct Hc as [->| ->]; [exists (KFailed true)|exists (KFailed false)]; by rewrite app_nil_r.
  - destruct Hc as [[_ Hc]%andb_true_iff|]; [|done].
    change (is_ok (ParseVersionComparison v) = true) in Hc.
    change (fact_arguments ("agent_version"%string, v)) with
      match ParseVersionComparison v with Ok c => [ArgText (Version c)] | Err _ => [] end.
    destruct (ParseVersionComparison v) as [c|] eqn:Ep; [|done].
    destruct (comparison_operator _ _ Ep) as [op Hop]. exists (KVersion op). cbn [render].
    rewrite <- Hop, len_snoc. split; [|cbn; lia].
    transitivity (c ← ParseVersionComparison v;
      with_param offset ("(h.agent_version ~ '^v?\d+(\.\d+)*' and " +:+ VersionParts "h" +:+ " " +:+
                Operator c +:+ " string_to_array(") (ArgText (Version c)) ", '.')::int[])" args); [done|].
    rewrite Ep. apply with_param_placeholder.
  - assert (Hif : leaf_node is_uuid offset (one_fact "relay" v) args =
      if is_uuid v then with_param offset (around CRelayID).1 (ArgText v) (around CRelayID).2 args
      else with_param offset (around CRelayName).1 (ArgText v) (around CRelayName).2 args) by done.
    rewrite Hif. by destruct (is_uuid v); [apply (Hcol CRelayID)|apply (Hcol CRelayName)].
  - by apply (Hcol CFailureDomain).
  - by apply (Hcol CMember).
  - by apply elem_of_nil in Hn.
Qed.

(** ** Whole selectors *)

(** What compiling gives: the text of a skeleton, the placeholders numbered on
    from the arguments before, and the arguments of the selector after them. *)
Definition compiled (e : Expression) (args : list arg) (k : skeleton) : Prop :=
  node is_uuid offset e args = Ok ((render k (offset + len args)).1, args ++ arguments e)
  ∧ (render k (offset + len args)).2 = offset + len (args ++ arguments e).

Lemma children_compiled l args :
  Forall (λ e, ∀ args, ∃ k, compiled e args k) l →
  ∃ ks, thread (node is_uuid offset) l args
        = Ok ((numbered render ks (offset + len args)).1, args ++ mjoin (map arguments l))
     ∧ (numbered render ks (offset + len args)).2 = offset + len (args ++ mjoin (map arguments l)).
Proof.
  intros H. revert args. induction H as [|e l He _ IH]; intros args.
  { exists []. cbn. by rewrite app_nil_r. }
  destruct (He args) as (k & Hk & Hn). destruct (IH (args ++ arguments e)) as (ks & Hks & Hns).
  exists (k :: ks). cbn [thread numbered map]. rewrite Hk. cbn [mbind result_bind]. rewrite Hks.
  destruct (render k (offset + len args)) as [part n]. cbn in Hn. subst n.
  destruct (numbered render ks _) as [parts m]. cbn in Hns |- *. by rewrite app_assoc.
Qed.

Lemma ready_compiled e : ready e → ∀ args, ∃ k, compiled e args k.
Proof.
  induction e as [all any not f IHa IHb IHn] using Expression_rect_all. intros Hr args.
  inversion Hr as [a1 b1 n1 f1 Hs Hg Hf Ra Rb Rn]; subst.
  assert (Hch : ∀ l, Forall (λ e, ready e → ∀ args, ∃ k, compiled e args k) l → Forall ready l →
    Forall (λ e, ∀ args, ∃ k, compiled e args k) l) by (intros l Hl Hrl; rewrite Forall_forall in *; eauto).
  unfold compiled. apply fields_single in Hs as [Hne -> -> Hnm| -> Hne -> Hnm|c -> -> -> Hnm|fct -> -> -> Hnm].
  - destruct (children_compiled all args (Hch all IHa Ra)) as (ks & Hk & Hn). exists (KAll ks).
    destruct all as [|e l]; [done|]. cbn [node render arguments]. rewrite Hk. cbn [mbind result_bind].
    by destruct (numbered render ks _) as [parts n].
  - destruct (children_compiled any args (Hch any IHb Rb)) as (ks & Hk & Hn). exists (KAny ks).
    destruct any as [|e l]; [done|]. cbn [node render arguments]. rewrite Hk. cbn [mbind result_bind].
    by destruct (numbered render ks _) as [parts n].
  - destruct (IHn c eq_refl (Rn c eq_refl) args) as (k & Hk & Hn). exists (KNot k).
    cbn [node render arguments]. rewrite Hk. cbn [mbind result_bind]. by destruct (render k _) as [inner n].
  - destruct fct as [name value]. destruct (named_is_one _ _ _ Hnm) as (Hone & Hname & Hv).
    cbn [node arguments]. rewrite Hnm. cbn [fmap list_fmap mjoin list_join]. rewrite app_nil_r, Hone.
    apply leaf_rendered; [done|done| |].
    + intros ->. rewrite Hone in Hg. done.
    + destruct Hf as [Hf|[id Hf]]; [left|right].
      * rewrite Hnm in Hf. cbn [forallb] in Hf. by rewrite andb_true_r in Hf.
      * rewrite Hf in Hnm. destruct (decide (id = ""%string)) as [->|Hid]; [done|].
        rewrite (named_member id Hid) in Hnm. by injection Hnm as <- _.
Qed.
End compile.

(** C37: a selector that validated always compiles once it is expanded, and no
    value of it is part of the condition: the text is that of a skeleton, which
    holds no text of the selector, with one placeholder for every argument,
    numbered from the offset on, and the values are the arguments, in order. *)
Theorem Compile_separates_values is_uuid offset lookup e e' :
  groups_valid lookup → Validate (Some e) = Ok tt → Expand (Some lookup) (Some e) = Ok e' →
  ∃ k : skeleton,
    Compile is_uuid offset (Some e') = Ok ((render k offset).1, arguments e')
    ∧ (render k offset).2 = offset + len (arguments e').
Proof.
  intros Hg Hv Hx. destruct (Expand_ready lookup e e' Hg Hv Hx) as [Hr _].
  destruct (ready_compiled is_uuid offset e' Hr []) as (k & Hk & Hn).
  rewrite Z.add_0_r in Hk, Hn. by exists k.
Qed.

(** ** Witnesses *)

(** A store of two groups: the hosts of a rack by hand, and the database hosts
    of a site by a selector that refers to the first. *)
Definition demo_fact (name value : string) : Expression :=
  Expr [] [] None (one_fact name value).
Definition demo_dynamic : Expression :=
  Expr [demo_fact "site" "warsaw"; Expr [] [] (Some (demo_fact "group" "rack")) no_facts] [] None no_facts.
Definition demo_groups (ref : string) : result sel_err (option Group) :=
  if bool_decide (ref = "rack"%string) then Ok (Some (mkGroup "id-rack" "rack" KindStatic None))
  else if bool_decide (ref = "databases"%string) then Ok (Some (mkGroup "id-db" "databases" KindDynamic (Some demo_dynamic)))
  else Ok None.
Definition demo_selector : Expression :=
  Expr [] [demo_fact "group" "databases"; demo_fact "agent_version" "< 0.49.0"] None no_facts.
Definition demo_expanded : Expression :=
  Expr [] [Expr [demo_fact "site" "warsaw"; Expr [] [] (Some (demo_fact "group_id" "id-rack")) no_facts] [] None no_facts;
           demo_fact "agent_version" "< 0.49.0"] None no_facts.

Lemma demo_groups_valid : groups_valid demo_groups.
Proof.
  intros ref g. unfold demo_groups. case_bool_decide; [by intros [= <-]|]. case_bool_decide; [|done].
  intros [= <-]. split; [done|]. intros e [= <-]. by vm_compute.
Qed.

Lemma Expand_preserves_meaning_witness :
  means (λ _ _, Some true) demo_groups demo_selector (eval (λ _ _, Some true) demo_expanded).
Proof.
  apply (Expand_preserves_meaning (λ _ _, Some true) demo_groups demo_selector demo_expanded);
    [apply demo_groups_valid|vm_compute; reflexivity|vm_compute; reflexivity].
Defined.

Lemma Expand_terminates_witness : Expand (Some demo_groups) (Some demo_selector) ≠ Err OutOfFuel.
Proof.
  apply (Expand_terminates (Some demo_groups) demo_selector). intros lookup [= <-] r. unfold demo_groups.
  repeat case_bool_decide; discriminate.
Defined.

Lemma Compile_separates_values_witness :
  ∃ k, Compile (λ _, false) 3 (Some demo_expanded) = Ok ((render k 3).1, arguments demo_expanded).
Proof.
  destruct (Compile_separates_values (λ _, false) 3 demo_groups demo_selector demo_expanded) as (k & Hk & _);
    [apply demo_groups_valid|vm_compute; reflexivity|vm_compute; reflexivity|].
  exists k. exact Hk.
Defined.
