(* ===== verification/SpoolSegment.v ===== *)
(** * SpoolSegment: the directory of the spool and its segment files

    Models src/internal/relay/spool/segment.go over an explicit disk: the
    files of the spool's directory by name, each with the length the last
    fsync reached, the free space of the filesystem, and a queue of faults
    consumed one per system call, so that every error branch of the code can
    be taken. An empty queue is a disk that works. *)
From S2P Require Import Prelude Bytes Text Digest SpoolRecord.

Open Scope Z_scope.

(** ** The disk *)

Record file := mkFile {
  data : bytes;
  (** how many leading bytes an fsync has made durable *)
  synced : Z;
}.

(** The outcome of one system call: done, or refused; a refused write has put
    [n] bytes into the file first. *)
Inductive outcome :=
| Done
| Refused (n : nat).

Record disk := mkDisk {
  files : gmap string file;
  free : option Z;
  faults : list outcome;
}.

Inductive error :=
| ErrExhausted
| ErrCritical
| ErrClosed
| ErrNoRecord
| ErrIO
| ErrExist
| ErrNotExist
| ErrFileClosed
| ErrTorn
| ErrEOF
| ErrTombstone
| ErrDecode (e : decode_error)
| ErrAnotherRecord.

Definition set_files (f : gmap string file → gmap string file) (d : disk) : disk :=
  mkDisk (f (files d)) (free d) (faults d).

(** The next system call. *)
Definition syscall : M disk error outcome := λ d,
  match faults d with
  | [] => (Ok Done, d)
  | o :: rest => (Ok o, mkDisk (files d) (free d) rest)
  end.

(** A system call that either works or fails without an effect. *)
Definition attempt : M disk error unit :=
  o ← syscall; match o with Done => mret tt | Refused _ => fail ErrIO end.

(** [os.Remove]; the callers tolerate a file that is not there. *)
Definition remove_file (name : string) : M disk error unit :=
  attempt ;; modify (set_files (delete name)).

(** ** Segments *)

Record segment := mkSegment {
  seg_id : N;
  seg_size : Z;
  (** false once the handle was closed: writes and syncs on it fail *)
  opened : bool;
}.

Definition segmentPath (id : N) : string :=
  "segment-" +:+ pad_zeros 16 (FormatUint id) +:+ ".log".

(** [syncDir] flushes the directory entries. *)
Definition syncDir : M disk error unit := attempt.

Definition createSegment (id : N) : M disk error segment :=
  attempt ;;
  d ← gets files;
  match d !! segmentPath id with
  | Some _ => fail ErrExist
  | None =>
      modify (set_files <[segmentPath id := mkFile [] 0]>) ;;
      syncDir ;;
      mret (mkSegment id 0 true)
  end.

(** [segment.append]: the file grows by what the write put into it, the size
    of the segment only when the whole frame went out. *)
Definition append (framed : bytes) : M (segment * disk) error Z := λ '(s, d),
  let offset := seg_size s in
  if negb (opened s) then (Err ErrFileClosed, (s, d))
  else
    let grow n := alter (λ f, mkFile (data f ++ take n framed) (synced f)) (segmentPath (seg_id s)) in
    match syscall d with
    | (Ok Done, d') =>
        (Ok offset, (mkSegment (seg_id s) (seg_size s + len framed) (opened s),
                     set_files (grow (List.length framed)) d'))
    | (Ok (Refused n), d') => (Err ErrIO, (s, set_files (grow n) d'))
    | (Err e, d') => (Err e, (s, d'))
    end.

Definition mark_synced (name : string) : disk → disk :=
  set_files (alter (λ f, mkFile (data f) (len (data f))) name).

(** [segment.sync] *)
Definition sync : M (segment * disk) error unit := λ '(s, d),
  if negb (opened s) then (Err ErrFileClosed, (s, d))
  else match attempt d with
       | (Ok _, d') => (Ok tt, (s, mark_synced (segmentPath (seg_id s)) d'))
       | (Err e, d') => (Err e, (s, d'))
       end.

(** [segment.close]: the sync and the close are both made; the error of the
    sync wins. The handle is gone either way. *)
Definition close : M (segment * disk) error unit := λ sd,
  let '(syncErr, (s, d)) := sync sd in
  let '(closeErr, d') :=
    if opened s then attempt d else (Err ErrFileClosed, d) in
  let s' := mkSegment (seg_id s) (seg_size s) false in
  match syncErr with
  | Err e => (Err e, (s', d'))
  | Ok _ => (closeErr, (s', d'))
  end.

(** ** Listing *)

Definition segmentID (name : string) : option N :=
  if negb (HasPrefix name "segment-") || negb (HasSuffix name ".log") then None
  else ParseUint (TrimSuffix (TrimPrefix name "segment-") ".log").

Definition listSegments : M disk error (list N) :=
  attempt ;;
  d ← gets files;
  mret (sort_stable N.ltb (omap segmentID (map_to_list d).*1)).

(** ** Walking *)

Record visited := mkVisited {
  v_kind : byte;
  v_body : bytes;
  v_offset : Z;
}.
Definition v_size (v : visited) : Z := headerSize + len (v_body v).

(** The frames of a reader in order, and the offset the walk stopped at; the
    flag says whether what follows is torn. Every frame takes at least the
    header, so the length of the reader is fuel enough. *)
Fixpoint walk_loop (fuel : nat) (offset : Z) (reader : bytes) : list visited * Z * bool :=
  match fuel with
  | O => ([], offset, true)
  | S fuel' =>
      match readFrame reader with
      | FrameEOF => ([], offset, false)
      | FrameTorn => ([], offset, true)
      | FrameRead kind body rest =>
          let '(vs, stop, torn) := walk_loop fuel' (offset + headerSize + len body) rest in
          (mkVisited kind body offset :: vs, stop, torn)
      end
  end.

Definition walk (content : bytes) : list visited * Z * bool :=
  walk_loop (S (List.length content)) 0 content.

(** [walkSegment], with the frames it hands to the visitor as its result. *)
Definition walkSegment (name : string) : M disk error (list visited) :=
  attempt ;;
  d ← gets files;
  match d !! name with
  | None => fail ErrNotExist
  | Some f =>
      let '(vs, stop, torn) := walk (data f) in
      if torn then
        attempt ;;
        modify (set_files (alter (λ f, mkFile (take (Z.to_nat stop) (data f))
                                         (Z.min (synced f) stop)) name)) ;;
        attempt ;;
        modify (mark_synced name) ;;
        mret vs
      else mret vs
  end.

(** [openSegment] reopens an existing segment for appending. *)
Definition openSegment (id : N) : M disk error segment :=
  walkSegment (segmentPath id) ;;
  attempt ;;
  d ← gets files;
  match d !! segmentPath id with
  | None => fail ErrNotExist
  | Some f => attempt ;; mret (mkSegment id (len (data f)) true)
  end.

(** [os.Stat(path).Size()] *)
Definition stat_size (name : string) : M disk error Z :=
  attempt ;;
  d ← gets files;
  match d !! name with
  | None => fail ErrNotExist
  | Some f => mret (len (data f))
  end.

(** The frame at an offset of a file, decoded: the disk side of [readLocked]. *)
Definition read_record (name : string) (offset : Z) : M disk error Record_ :=
  attempt ;;
  d ← gets files;
  match d !! name with
  | None => fail ErrNotExist
  | Some f =>
      match readFrame (drop (Z.to_nat offset) (data f)) with
      | FrameEOF => fail ErrEOF
      | FrameTorn => fail ErrTorn
      | FrameRead kind body _ =>
          if bool_decide (kind ≠ kindRecord) then fail ErrTombstone
          else match decode body with
               | Err e => fail (ErrDecode e)
               | Ok record => mret record
               end
      end
  end.

(** ** Lemmas: a disk without faults *)

Lemma attempt_ok d : faults d = [] → attempt d = (Ok tt, d).
Proof. intros H. unfold attempt, syscall, mbind, M_bind. by rewrite H. Qed.
#[export] Hint Resolve attempt_ok : run.
#[export] Hint Extern 1 (faults _ = []) => assumption : run.

(** ** Lemmas: segments as logs of frames *)

(** The bytes of a sequence of frames, and where each of them starts. *)
Definition logs (l : list (byte * bytes)) : bytes := mjoin ((λ kb, frame kb.1 kb.2) <$> l).

Fixpoint place (offset : Z) (l : list (byte * bytes)) : list visited :=
  match l with
  | [] => []
  | (k, b) :: l' => mkVisited k b offset :: place (offset + headerSize + len b) l'
  end.

Definition frames_fit (l : list (byte * bytes)) : Prop :=
  Forall (λ kb, len kb.2 ≤ maxRecordBytes) l.

Lemma logs_cons k b l : logs ((k, b) :: l) = frame k b ++ logs l.
Proof. done. Qed.

Lemma logs_app l1 l2 : logs (l1 ++ l2) = logs l1 ++ logs l2.
Proof. unfold logs. by rewrite fmap_app, join_app. Qed.

Lemma logs_snoc l k b : logs (l ++ [(k, b)]) = logs l ++ frame k b.
Proof. by rewrite logs_app, logs_cons, app_nil_r. Qed.

Lemma place_app o l1 l2 : place o (l1 ++ l2) = place o l1 ++ place (o + len (logs l1)) l2.
Proof.
  revert o. induction l1 as [|[k b] l1 IH]; intros o.
  - change (logs []) with (@nil byte). by rewrite len_nil, Z.add_0_r.
  - cbn [place app]. rewrite IH, logs_cons, len_app, len_frame. do 3 f_equal. lia.
Qed.

Lemma place_length o l : List.length (place o l) = List.length l.
Proof. revert o. induction l as [|[k b] l IH]; intros o; cbn; auto. Qed.

(** A visited frame sits where the walk says it does. *)
Lemma place_elem o l v :
  v ∈ place o l →
  ∃ l1 l2, l = l1 ++ (v_kind v, v_body v) :: l2 ∧ v_offset v = o + len (logs l1).
Proof.
  revert o. induction l as [|[k b] l IH]; intros o; cbn [place].
  - by intros ?%elem_of_nil.
  - intros [->|Hv]%elem_of_cons.
    + exists [], l. split; [done|]. change (logs []) with (@nil byte). rewrite len_nil. cbn. lia.
    + destruct (IH _ Hv) as (l1 & l2 & -> & Ho). exists ((k, b) :: l1), l2.
      split; [done|]. rewrite logs_cons, len_app, len_frame. lia.
Qed.

Lemma place_elem_in o l v : v ∈ place o l → (v_kind v, v_body v) ∈ l.
Proof. intros (l1 & l2 & -> & _)%place_elem. set_solver. Qed.

Lemma elem_place o l1 k b l2 :
  mkVisited k b (o + len (logs l1)) ∈ place o (l1 ++ (k, b) :: l2).
Proof. rewrite place_app. cbn. set_solver. Qed.

Lemma walk_loop_place fuel o l tail :
  frames_fit l → (tail = [] ∨ readFrame tail = FrameTorn) →
  (List.length l < fuel)%nat →
  walk_loop fuel o (logs l ++ tail) =
    (place o l, o + len (logs l), bool_decide (tail ≠ [])).
Proof.
  intros Hl Htail. revert fuel o.
  induction Hl as [|[k b] l Hb Hl IH]; intros fuel o Hf; (destruct fuel as [|fuel]; [cbn in Hf; lia|]).
  - change (logs []) with (@nil byte). rewrite len_nil, Z.add_0_r.
    cbn [app walk_loop place].
    destruct (decide (tail = [])) as [->|Hne].
    + by rewrite readFrame_nil, bool_decide_eq_false_2 by auto.
    + rewrite bool_decide_eq_true_2 by done. by destruct Htail as [| ->].
  - cbn [walk_loop place]. rewrite logs_cons, <- app_assoc, readFrame_frame by done.
    rewrite IH by (cbn in Hf; lia). rewrite len_app, len_frame. do 2 f_equal. lia.
Qed.

Lemma length_logs l : (List.length l ≤ List.length (logs l))%nat.
Proof.
  induction l as [|[k b] l IH]; [done|]. rewrite logs_cons, length_app. cbn. lia.
Qed.

Lemma walk_logs l tail :
  frames_fit l → (tail = [] ∨ readFrame tail = FrameTorn) →
  walk (logs l ++ tail) = (place 0 l, len (logs l), bool_decide (tail ≠ [])).
Proof.
  intros Hl Ht. unfold walk. rewrite walk_loop_place; [by rewrite Z.add_0_l|done..|].
  rewrite length_app. pose proof (length_logs l). lia.
Qed.

(** Any content is a log followed by nothing or by something torn. *)
Lemma content_split content :
  ∃ l tail, content = logs l ++ tail ∧ frames_fit l ∧ (tail = [] ∨ readFrame tail = FrameTorn).
Proof.
  remember (List.length content) as n eqn:Hn. revert content Hn.
  induction n as [n IH] using lt_wf_ind. intros content ->.
  destruct (readFrame content) as [| |k b rest] eqn:E.
  - exists [], content. split; [done|]. split; [constructor|].
    left. unfold readFrame in E. destruct (read_full headerSize content) as [[]|].
    + repeat case_bool_decide; try done. destruct (read_full _ _) as [[]|]; [|done].
      by case_bool_decide.
    + by case_bool_decide.
  - exists [], content. split; [done|]. split; [constructor|]. by right.
  - apply readFrame_inv in E as [-> Hb].
    destruct (IH (List.length rest)) with (content := rest) as (l & tail & -> & Hl & Ht); [|done|].
    + rewrite length_app. cbn. lia.
    + exists ((k, b) :: l), tail. rewrite logs_cons, <- app_assoc. split; [done|].
      split; [by constructor|done].
Qed.

(** A walk that stops at the first frame that is not whole stops past every
    frame that is. *)
Lemma prefix_maximal l1 l2 (tail p : bytes) :
  frames_fit (l1 ++ l2) →
  match l2 with [] => tail = [] | kb :: _ => len p < len (logs (l1 ++ [kb])) end →
  ∀ l3, l3 `prefix_of` l1 ++ l2 → len (logs l3) ≤ len p → l3 `prefix_of` l1.
Proof.
  intros _ Hlen l3 [l4 H4] H3.
  destruct l2 as [|kb l2]; [rewrite app_nil_r in H4; by exists l4|].
  destruct (decide (List.length l3 ≤ List.length l1)%nat) as [Hle|Hgt].
  - apply (f_equal (take (List.length l1))) in H4.
    rewrite take_app_length, take_app_ge in H4 by done. by eexists.
  - exfalso. assert (Hp : l1 ++ [kb] `prefix_of` l3).
    { replace (l1 ++ kb :: l2) with ((l1 ++ [kb]) ++ l2) in H4 by (by rewrite <- app_assoc).
      apply (f_equal (take (List.length l3))) in H4.
      rewrite take_app_length, take_app_ge in H4 by (rewrite length_app; cbn; lia).
      rewrite <- H4. by eexists. }
    destruct Hp as [r ->]. rewrite logs_app, len_app in H3. pose proof (len_nonneg (logs r)). lia.
Qed.

(** The room a frame takes on top of a log. *)
Lemma readFrame_at l1 k b l2 :
  len b ≤ maxRecordBytes →
  readFrame (drop (Z.to_nat (len (logs l1))) (logs (l1 ++ (k, b) :: l2))) = FrameRead k b (logs l2).
Proof.
  intros Hb. rewrite logs_app, drop_len_app, logs_cons. by apply readFrame_frame.
Qed.

(** A proper prefix of a log is a shorter log and a torn tail. *)
Lemma prefix_of_log l p q :
  frames_fit l → logs l = p ++ q →
  ∃ l1 l2 tail, l = l1 ++ l2 ∧ p = logs l1 ++ tail ∧ (tail = [] ∨ readFrame tail = FrameTorn)
    ∧ match l2 with [] => tail = [] | kb :: _ => len p < len (logs (l1 ++ [kb])) end.
Proof.
  intros Hl. revert p q. induction Hl as [|[k b] l Hb Hl IH]; intros p q Hpq.
  - exists [], [], []. by destruct p; [auto|].
  - rewrite logs_cons in Hpq.
    destruct (decide (len p < len (frame k b))) as [Hlt|Hge].
    + exists [], ((k, b) :: l), p. split; [done|]. split; [done|].
      assert (Hsplit : frame k b = p ++ take (List.length (frame k b) - List.length p) q).
      { apply (f_equal (take (List.length (frame k b)))) in Hpq.
        rewrite take_app_length, take_app in Hpq.
        rewrite Hpq at 1. f_equal. apply take_ge. unfold len in Hlt. lia. }
      split.
      * destruct (decide (p = [])) as [->|Hp]; [by left|right].
        eapply readFrame_prefix; [|exact Hsplit|done|].
        -- cbn in Hb. unfold maxRecordBytes in Hb. lia.
        -- intros H0. rewrite H0, app_nil_r in Hsplit. rewrite Hsplit in Hlt. lia.
      * cbn [app]. rewrite logs_cons, app_nil_r. exact Hlt.
    + assert (Hp : ∃ p', p = frame k b ++ p').
      { exists (drop (List.length (frame k b)) p).
        apply (f_equal (take (List.length (frame k b)))) in Hpq.
        rewrite take_app_length, take_app_le in Hpq by (unfold len in Hge; lia).
        rewrite Hpq at 1. by rewrite take_drop. }
      destruct Hp as [p' ->]. rewrite <- app_assoc in Hpq. apply app_inv_head in Hpq.
      destruct (IH _ _ Hpq) as (l1 & l2 & tail & -> & -> & Ht & Hlen).
      exists ((k, b) :: l1), l2, tail. rewrite !logs_cons, <- app_assoc.
      split; [done|]. split; [done|]. split; [done|]. destruct l2 as [|kb l2]; [done|].
      cbn [app]. rewrite logs_cons, !(len_app (frame k b)). rewrite len_app in *. lia.
Qed.

(** ** Lemmas: names *)

Lemma segmentID_segmentPath id : (id < 2 ^ 64)%N → segmentID (segmentPath id) = Some id.
Proof.
  intros Hid. unfold segmentID, segmentPath.
  rewrite HasPrefix_app. rewrite (app_string_assoc "segment-"), HasSuffix_app. cbn [negb orb].
  rewrite <- app_string_assoc, TrimPrefix_app, TrimSuffix_app. by apply ParseUint_pad.
Qed.

Lemma segmentPath_inj id id' : segmentPath id = segmentPath id' → id = id'.
Proof.
  intros H. unfold segmentPath in H.
  apply (f_equal (λ s, TrimSuffix (TrimPrefix s "segment-") ".log")) in H.
  rewrite !TrimPrefix_app, !TrimSuffix_app in H. by apply pad_inj in H.
Qed.

(** ** Properties *)

(** C29: recovering a segment after a power cut. Whatever prefix of a log of
    frames the disk kept, [walkSegment] hands out, in order and with their
    offsets, exactly the frames that are whole in it, and leaves the file
    ending at the last of them, so that a second walk hands out the same and
    cuts nothing. *)
Theorem walkSegment_recovers d name l p q sy :
  frames_fit l → logs l = p ++ q → faults d = [] → files d !! name = Some (mkFile p sy) →
  ∃ l1 l2 d' sy', l = l1 ++ l2
    ∧ (∀ l3, l3 `prefix_of` l → len (logs l3) ≤ len p → l3 `prefix_of` l1)
    ∧ walkSegment name d = (Ok (place 0 l1), d')
    ∧ files d' = <[name := mkFile (logs l1) sy']> (files d)
    ∧ walkSegment name d' = (Ok (place 0 l1), d').
Proof.
  intros Hl Hpq Hf Hfile.
  destruct (prefix_of_log l p q Hl Hpq) as (l1 & l2 & tail & -> & -> & Ht & Hlen).
  assert (Hl1 : frames_fit l1) by (by apply Forall_app in Hl as [? _]).
  exists l1, l2.
  set (torn := bool_decide (tail ≠ [])).
  set (sy' := if torn then len (logs l1) else sy).
  exists (set_files <[name := mkFile (logs l1) sy']> d), sy'.
  split; [done|]. split; [eapply prefix_maximal; [exact Hl|exact Hlen]|].
  assert (Hwalk : ∀ d0 sy0, faults d0 = [] → files d0 !! name = Some (mkFile (logs l1) sy0) →
                  walkSegment name d0 = (Ok (place 0 l1), d0)).
  { intros d0 sy0 Hf0 Hd0. unfold walkSegment. do 2 mstep.
    rewrite Hd0. cbn [data]. by rewrite <- (app_nil_r (logs l1)), walk_logs by auto. }
  split; [|split; [done|]].
  - destruct (decide (tail = [])) as [->|Hne].
    + rewrite app_nil_r in Hfile. rewrite (Hwalk d sy Hf Hfile). f_equal.
      unfold sy', torn. rewrite bool_decide_eq_false_2 by auto.
      destruct d as [fs fr fa]. cbn in *. unfold set_files; cbn. by rewrite insert_id.
    + unfold walkSegment. do 2 mstep. rewrite Hfile. cbn [data]. rewrite walk_logs by done.
      unfold sy', torn. rewrite bool_decide_eq_true_2 by done. do 4 mstep.
      unfold mret, M_ret, mark_synced, set_files; cbn. do 2 f_equal.
      apply map_eq. intros i. rewrite lookup_insert. case_decide as Hi.
      * subst i. rewrite !lookup_alter_eq, Hfile. cbn. by rewrite take_len_app.
      * by rewrite !lookup_alter_ne.
  - apply (Hwalk _ sy'); [done|]. cbn. by rewrite lookup_insert_eq.
Qed.

(** Two frames, the second cut in its last byte. *)
Definition demo_log : list (byte * bytes) :=
  [(kindRecord, [Byte.x01; Byte.x02]); (kindTombstone, [Byte.x03; Byte.x04])].
Definition demo_cut : bytes := removelast (logs demo_log).

Lemma walkSegment_recovers_witness :
  ∃ l1 l2 d' sy', demo_log = l1 ++ l2
    ∧ (∀ l3, l3 `prefix_of` demo_log → len (logs l3) ≤ len demo_cut → l3 `prefix_of` l1)
    ∧ walkSegment "s" (mkDisk {["s"%string := mkFile demo_cut 0]} None []) = (Ok (place 0 l1), d')
    ∧ files d' = <["s"%string := mkFile (logs l1) sy']> {["s"%string := mkFile demo_cut 0]}
    ∧ walkSegment "s" d' = (Ok (place 0 l1), d').
Proof.
  refine (walkSegment_recovers (mkDisk {["s"%string := mkFile demo_cut 0]} None []) "s"
            demo_log demo_cut [Byte.x04] 0 _ _ eq_refl _).
  - repeat constructor; vm_compute; discriminate.
  - vm_compute. reflexivity.
  - vm_compute. reflexivity.
Defined.
