(* ===== verification/Spool.v ===== *)
(** * Spool: the durable queue of a relay

    Models src/internal/relay/spool/spool.go, operation by operation. The
    index and the per-host lists of the code hold pointers to the same entry
    objects, so the model keeps a heap of entries and lets both hold its
    locations: a change through one is seen through the other, as in the code.
    The clock and the disk are part of the state. The mutex makes every
    exported method one step; the flush loop is the step [flush_tick]. *)
From S2P Require Import Prelude Bytes Text Digest SpoolRecord SpoolSegment.

Open Scope Z_scope.

(** ** State *)

Record Options := mkOptions {
  o_Site : string;
  MaxBytes : Z;
  CriticalReserveBytes : Z;
  MinFreeBytes : Z;
  AckTimeout : Z;
  MaxInflightPerHost : Z;
  SegmentBytes : Z;
  FlushInterval : Z;
}.

(** The defaults of the spool. *)
Definition DefaultMaxBytes : Z := 2 ^ 30.
Definition DefaultCriticalReserveBytes : Z := 128 * 2 ^ 20.
Definition DefaultMinFreeBytes : Z := 256 * 2 ^ 20.
Definition DefaultAckTimeout : Z := 30 * second.
Definition DefaultMaxInflightPerHost : Z := 64.
Definition DefaultSegmentBytes : Z := 16 * 2 ^ 20.
Definition DefaultFlushInterval : Z := 100000000.

(** [Options.fill]; the clock of the options is the [clock] of the state. *)
Definition fill (o : Options) : Options :=
  let max := if bool_decide (MaxBytes o ≤ 0) then DefaultMaxBytes else MaxBytes o in
  let reserve := if bool_decide (CriticalReserveBytes o ≤ 0) then DefaultCriticalReserveBytes
                 else CriticalReserveBytes o in
  {| o_Site := o_Site o;
     MaxBytes := max;
     CriticalReserveBytes := if bool_decide (max < reserve) then max else reserve;
     MinFreeBytes := if bool_decide (MinFreeBytes o < 0) then 0 else MinFreeBytes o;
     AckTimeout := if bool_decide (AckTimeout o ≤ 0) then DefaultAckTimeout else AckTimeout o;
     MaxInflightPerHost := if bool_decide (MaxInflightPerHost o ≤ 0) then DefaultMaxInflightPerHost
                           else MaxInflightPerHost o;
     SegmentBytes := if bool_decide (SegmentBytes o ≤ 0) then DefaultSegmentBytes else SegmentBytes o;
     FlushInterval := if bool_decide (FlushInterval o ≤ 0) then DefaultFlushInterval
                      else FlushInterval o |}.

(** [entry]: what the index keeps of a record. *)
Record entry := mkEntry {
  e_id : uuid;
  e_hostID : string;
  e_sessionID : string;
  e_stream : string;
  e_priority : Z;
  e_sequence : Z;
  e_createdAt : time;
  e_expiresAt : option time;
  e_full : bool;
  e_size : Z;
  e_segment : N;
  e_offset : Z;
  e_sentAt : time;
  e_firstSentAt : time;
}.

(** [segmentState]: the size of a segment file and the live records in it. *)
Record segmentState := mkSegmentState {
  ss_id : N;
  ss_size : Z;
  ss_live : Z;
}.

(** [Spool]; a location is the pointer to an entry. *)
Record Spool := mkSpool {
  options : Options;
  heap : gmap nat entry;
  next_loc : nat;
  index : gmap uuid nat;
  byHost : gmap string (list nat);
  segments : gmap N segmentState;
  active : option segment;
  nextID : N;
  live : Z;
  dropped : Z;
  expired : Z;
  dirty : bool;
  closed : bool;
  flushErr : option error;
  dsk : disk;
  clock : time;
}.

(** Field updates. *)
Definition set_e_segment (f : N → N) (s : entry) : entry :=
  mkEntry (e_id s) (e_hostID s) (e_sessionID s) (e_stream s) (e_priority s) (e_sequence s) (e_createdAt s) (e_expiresAt s) (e_full s) (e_size s) (f (e_segment s)) (e_offset s) (e_sentAt s) (e_firstSentAt s).
Definition set_e_offset (f : Z → Z) (s : entry) : entry :=
  mkEntry (e_id s) (e_hostID s) (e_sessionID s) (e_stream s) (e_priority s) (e_sequence s) (e_createdAt s) (e_expiresAt s) (e_full s) (e_size s) (e_segment s) (f (e_offset s)) (e_sentAt s) (e_firstSentAt s).
Definition set_e_sentAt (f : time → time) (s : entry) : entry :=
  mkEntry (e_id s) (e_hostID s) (e_sessionID s) (e_stream s) (e_priority s) (e_sequence s) (e_createdAt s) (e_expiresAt s) (e_full s) (e_size s) (e_segment s) (e_offset s) (f (e_sentAt s)) (e_firstSentAt s).
Definition set_e_firstSentAt (f : time → time) (s : entry) : entry :=
  mkEntry (e_id s) (e_hostID s) (e_sessionID s) (e_stream s) (e_priority s) (e_sequence s) (e_createdAt s) (e_expiresAt s) (e_full s) (e_size s) (e_segment s) (e_offset s) (e_sentAt s) (f (e_firstSentAt s)).
Definition set_ss_size (f : Z → Z) (s : segmentState) : segmentState :=
  mkSegmentState (ss_id s) (f (ss_size s)) (ss_live s).
Definition set_ss_live (f : Z → Z) (s : segmentState) : segmentState :=
  mkSegmentState (ss_id s) (ss_size s) (f (ss_live s)).
Definition set_heap (f : gmap nat entry → gmap nat entry) (s : Spool) : Spool :=
  mkSpool (options s) (f (heap s)) (next_loc s) (index s) (byHost s) (segments s) (active s) (nextID s) (live s) (dropped s) (expired s) (dirty s) (closed s) (flushErr s) (dsk s) (clock s).
Definition set_next_loc (f : nat → nat) (s : Spool) : Spool :=
  mkSpool (options s) (heap s) (f (next_loc s)) (index s) (byHost s) (segments s) (active s) (nextID s) (live s) (dropped s) (expired s) (dirty s) (closed s) (flushErr s) (dsk s) (clock s).
Definition set_index (f : gmap uuid nat → gmap uuid nat) (s : Spool) : Spool :=
  mkSpool (options s) (heap s) (next_loc s) (f (index s)) (byHost s) (segments s) (active s) (nextID s) (live s) (dropped s) (expired s) (dirty s) (closed s) (flushErr s) (dsk s) (clock s).
Definition set_byHost (f : gmap string (list nat) → gmap string (list nat)) (s : Spool) : Spool :=
  mkSpool (options s) (heap s) (next_loc s) (index s) (f (byHost s)) (segments s) (active s) (nextID s) (live s) (dropped s) (expired s) (dirty s) (closed s) (flushErr s) (dsk s) (clock s).
Definition set_segments (f : gmap N segmentState → gmap N segmentState) (s : Spool) : Spool :=
  mkSpool (options s) (heap s) (next_loc s) (index s) (byHost s) (f (segments s)) (active s) (nextID s) (live s) (dropped s) (expired s) (dirty s) (closed s) (flushErr s) (dsk s) (clock s).
Definition set_active (f : option segment → option segment) (s : Spool) : Spool :=
  mkSpool (options s) (heap s) (next_loc s) (index s) (byHost s) (segments s) (f (active s)) (nextID s) (live s) (dropped s) (expired s) (dirty s) (closed s) (flushErr s) (dsk s) (clock s).
Definition set_nextID (f : N → N) (s : Spool) : Spool :=
  mkSpool (options s) (heap s) (next_loc s) (index s) (byHost s) (segments s) (active s) (f (nextID s)) (live s) (dropped s) (expired s) (dirty s) (closed s) (flushErr s) (dsk s) (clock s).
Definition set_live (f : Z → Z) (s : Spool) : Spool :=
  mkSpool (options s) (heap s) (next_loc s) (index s) (byHost s) (segments s) (active s) (nextID s) (f (live s)) (dropped s) (expired s) (dirty s) (closed s) (flushErr s) (dsk s) (clock s).
Definition set_dropped (f : Z → Z) (s : Spool) : Spool :=
  mkSpool (options s) (heap s) (next_loc s) (index s) (byHost s) (segments s) (active s) (nextID s) (live s) (f (dropped s)) (expired s) (dirty s) (closed s) (flushErr s) (dsk s) (clock s).
Definition set_expired (f : Z → Z) (s : Spool) : Spool :=
  mkSpool (options s) (heap s) (next_loc s) (index s) (byHost s) (segments s) (active s) (nextID s) (live s) (dropped s) (f (expired s)) (dirty s) (closed s) (flushErr s) (dsk s) (clock s).
Definition set_dirty (f : bool → bool) (s : Spool) : Spool :=
  mkSpool (options s) (heap s) (next_loc s) (index s) (byHost s) (segments s) (active s) (nextID s) (live s) (dropped s) (expired s) (f (dirty s)) (closed s) (flushErr s) (dsk s) (clock s).
Definition set_closed (f : bool → bool) (s : Spool) : Spool :=
  mkSpool (options s) (heap s) (next_loc s) (index s) (byHost s) (segments s) (active s) (nextID s) (live s) (dropped s) (expired s) (dirty s) (f (closed s)) (flushErr s) (dsk s) (clock s).
Definition set_flushErr (f : option error → option error) (s : Spool) : Spool :=
  mkSpool (options s) (heap s) (next_loc s) (index s) (byHost s) (segments s) (active s) (nextID s) (live s) (dropped s) (expired s) (dirty s) (closed s) (f (flushErr s)) (dsk s) (clock s).
Definition set_dsk (f : disk → disk) (s : Spool) : Spool :=
  mkSpool (options s) (heap s) (next_loc s) (index s) (byHost s) (segments s) (active s) (nextID s) (live s) (dropped s) (expired s) (dirty s) (closed s) (flushErr s) (f (dsk s)) (clock s).
Definition set_clock (f : time → time) (s : Spool) : Spool :=
  mkSpool (options s) (heap s) (next_loc s) (index s) (byHost s) (segments s) (active s) (nextID s) (live s) (dropped s) (expired s) (dirty s) (closed s) (flushErr s) (dsk s) (f (clock s)).

(** Running a disk operation, and an operation on the active segment. *)
Definition on_disk {A} (m : M disk error A) : M Spool error A := λ s,
  let '(r, d) := m (dsk s) in (r, set_dsk (λ _, d) s).

(** A nil active segment cannot be reached here: every caller rolls first. *)
Definition on_active {A} (m : M (segment * disk) error A) : M Spool error A := λ s,
  match active s with
  | None => (Err ErrFileClosed, s)
  | Some seg =>
      let '(r, (seg', d)) := m (seg, dsk s) in
      (r, set_active (λ _, Some seg') (set_dsk (λ _, d) s))
  end.

Section spool.
Context `{Wire} `{MapOrder}.

(** ** Accounting *)

(** [roomLocked]: nil, or the refusal. The subtraction is on uint64. *)
Definition roomLocked (s : Spool) (priority sz : Z) : option error :=
  let '(limit, refusal) :=
    if bool_decide (PriorityJobResult < priority)
    then (MaxBytes (options s) - CriticalReserveBytes (options s), ErrExhausted)
    else (MaxBytes (options s), ErrCritical) in
  if bool_decide (limit < live s + sz) then Some refusal
  else match free (dsk s) with
       | Some fr => if bool_decide (u64 (fr - u64 sz) < u64 (MinFreeBytes (options s)))
                    then Some refusal else None
       | None => None
       end.

Definition diskLocked (s : Spool) : Z :=
  map_fold (λ _ st used, used + ss_size st) 0 (segments s).

(** ** Writing *)

Definition rollLocked : M Spool error unit :=
  act ← gets active;
  match act with Some _ => on_active close | None => mret tt end ;;
  modify (set_nextID N.succ) ;;
  id ← gets nextID;
  seg ← on_disk (createSegment id);
  modify (set_active (λ _, Some seg)) ;;
  modify (set_segments <[seg_id seg := mkSegmentState (seg_id seg) 0 0]>).

(** [if s.active == nil || s.active.size >= s.options.SegmentBytes] *)
Definition active_full (s : Spool) : bool :=
  match active s with
  | None => true
  | Some seg => bool_decide (SegmentBytes (options s) ≤ seg_size seg)
  end.

Definition roll_if_full : M Spool error unit :=
  full ← gets active_full;
  if (full : bool) then rollLocked else mret tt.

Definition active_id (s : Spool) : N := match active s with Some seg => seg_id seg | None => 0%N end.
Definition active_size (s : Spool) : Z := match active s with Some seg => seg_size seg | None => 0 end.

(** [s.segments[s.active.id]] changed in place. *)
Definition touch_active (f : segmentState → segmentState) (s : Spool) : Spool :=
  set_segments (alter f (active_id s)) s.

Definition alloc_entry (e : entry) : M Spool error nat := λ s,
  (Ok (next_loc s), set_next_loc S (set_heap <[next_loc s := e]> s)).

Definition entry_of (record : Record_) (sz : Z) (seg : N) (offset : Z) : entry :=
  {| e_id := ID record; e_hostID := HostID record; e_sessionID := SessionID record;
     e_stream := Stream record; e_priority := Priority record; e_sequence := Sequence record;
     e_createdAt := CreatedAt record; e_expiresAt := ExpiresAt record; e_full := Full record;
     e_size := sz; e_segment := seg; e_offset := offset;
     e_sentAt := zero_time; e_firstSentAt := zero_time |}.

Definition host_list (s : Spool) (hostID : string) : list nat := default [] (byHost s !! hostID).

(** [s.byHost[host] = append(s.byHost[host], item)] *)
Definition push_host (hostID : string) (l : nat) (s : Spool) : Spool :=
  set_byHost <[hostID := host_list s hostID ++ [l]]> s.

Definition writeLocked (record : Record_) : M Spool error unit :=
  roll_if_full ;;
  let framed := frame kindRecord (encode record) in
  offset ← on_active (append framed);
  modify (λ s, touch_active (λ st, set_ss_live Z.succ (set_ss_size (λ _, active_size s) st)) s) ;;
  id ← gets active_id;
  l ← alloc_entry (entry_of record (len framed) id offset);
  modify (set_index <[ID record := l]>) ;;
  modify (push_host (HostID record) l) ;;
  modify (set_live (λ n, n + len framed)).

(** ** Reading back *)

Definition readLocked (item : entry) : M Spool error Record_ :=
  record ← on_disk (read_record (segmentPath (e_segment item)) (e_offset item));
  if bool_decide (ID record ≠ e_id item) then fail ErrAnotherRecord else mret record.

(** ** Compaction *)

Definition index_locs (s : Spool) : list nat := range_order (map_to_list (index s)).*2.

Definition allowance (o : Options) : Z :=
  let quarter := Z.quot (MaxBytes o) 4 in
  if bool_decide (SegmentBytes o < quarter) then quarter else SegmentBytes o.

(** One living record of an old segment moved to the active one. *)
Definition compact_item (id : N) (l : nat) : M Spool error unit :=
  e ← gets (λ s, heap s !! l);
  match e with
  | None => mret tt
  | Some item =>
      if bool_decide (e_segment item ≠ id) then mret tt
      else
        record ← readLocked item;
        offset ← on_active (append (frame kindRecord (encode record)));
        aid ← gets active_id;
        modify (set_heap (alter (λ e, set_e_offset (λ _, offset) (set_e_segment (λ _, aid) e)) l)) ;;
        modify (touch_active (set_ss_live Z.succ)) ;;
        modify (λ s, touch_active (set_ss_size (λ _, active_size s)) s)
  end.

(** One old segment emptied and removed. *)
Definition compact_segment (id : N) : M Spool error unit :=
  locs ← gets index_locs;
  mfor locs (compact_item id) ;;
  on_active sync ;;
  on_disk (remove_file (segmentPath id)) ;;
  modify (set_segments (delete id)).

Definition compactLocked : M Spool error unit :=
  idle ← gets (λ s, bool_decide (diskLocked s - live s ≤ allowance (options s))
                    || bool_decide (Z.of_nat (base.size (segments s)) < 2));
  if (idle : bool) then mret tt
  else
    rollLocked ;;
    ids ← gets (λ s, sort_stable N.ltb
                       (filter (λ id, id ≠ active_id s) (map_to_list (segments s)).*1));
    mfor ids compact_segment.

(** ** Forgetting *)

(** The pointer taken out of the host's list; an empty list goes too. *)
Fixpoint remove_first (l : nat) (ls : list nat) : list nat :=
  match ls with
  | [] => []
  | x :: ls' => if bool_decide (x = l) then ls' else x :: remove_first l ls'
  end.

Definition pop_host (hostID : string) (l : nat) (s : Spool) : Spool :=
  let ls := remove_first l (host_list s hostID) in
  set_byHost (λ m, if bool_decide (ls = []) then delete hostID m else <[hostID := ls]> m) s.

(** The segment a record was in loses it; a dead file goes at once. *)
Definition drop_from_segment (id : N) : M Spool error unit :=
  st ← gets (λ s, segments s !! id);
  match st with
  | None => mret tt
  | Some st =>
      modify (set_segments (alter (set_ss_live Z.pred) id)) ;;
      act ← gets active;
      if bool_decide (ss_live st - 1 ≤ 0)
         && match act with None => true | Some seg => bool_decide (ss_id st ≠ seg_id seg) end
      then on_disk (remove_file (segmentPath (ss_id st))) ;; modify (set_segments (delete (ss_id st)))
      else mret tt
  end.

Definition deleteLocked (l : nat) : M Spool error unit :=
  e ← gets (λ s, heap s !! l);
  match e with
  | None => mret tt
  | Some item =>
      known ← gets (λ s, index s !! e_id item);
      match known with
      | None => mret tt
      | Some _ =>
          roll_if_full ;;
          on_active (append (frame kindTombstone (e_id item))) ;;
          modify (λ s, touch_active (set_ss_size (λ _, active_size s)) s) ;;
          modify (set_dirty (λ _, true)) ;;
          modify (set_index (delete (e_id item))) ;;
          modify (set_live (λ n, n - e_size item)) ;;
          modify (pop_host (e_hostID item) l) ;;
          drop_from_segment (e_segment item) ;;
          compactLocked
      end
  end.

(** ** Making room *)

Definition forget (l : nat) : M Spool error unit := try (deleteLocked l) ;; mret tt.

Definition coalesceInventoryLocked (hostID : string) : M Spool error unit :=
  ls ← gets (λ s, host_list s hostID);
  mfor ls (λ l,
    e ← gets (λ s, heap s !! l);
    match e with
    | Some item =>
        if bool_decide (e_stream item = StreamInventory) && is_zero (e_sentAt item)
        then forget l else mret tt
    | None => mret tt
    end).

Definition createdAt_of (s : Spool) (l : nat) : time :=
  match heap s !! l with Some e => e_createdAt e | None => zero_time end.

Definition waiting_metric (s : Spool) (l : nat) : bool :=
  match heap s !! l with
  | Some e => bool_decide (e_stream e = StreamMetric) && is_zero (e_sentAt e)
  | None => false
  end.

(** The waiting metric samples, oldest first; equal ages in any order. *)
Definition metric_candidates (s : Spool) : list nat :=
  sort_stable (λ a b, bool_decide (createdAt_of s a < createdAt_of s b))
    (filter (waiting_metric s) (index_locs s)).

Fixpoint evict_loop (candidates : list nat) (sz : Z) (evicted : bool) : M Spool error bool :=
  match candidates with
  | [] => mret evicted
  | l :: rest =>
      room ← gets (λ s, roomLocked s PriorityMetric sz);
      match room with
      | None => mret evicted
      | Some _ =>
          r ← try (deleteLocked l);
          match r with
          | Err _ => mret evicted
          | Ok _ => modify (set_dropped Z.succ) ;; evict_loop rest sz true
          end
      end
  end.

Definition evictOldestMetricLocked (sz : Z) : M Spool error bool :=
  candidates ← gets metric_candidates;
  evict_loop candidates sz false.

(** ** Append *)

Definition notKeptLocked (record : Record_) (e : error) : M Spool error unit :=
  (if Durable (Stream record) then modify (set_flushErr (λ _, Some e)) else mret tt) ;;
  fail e.

(** The record as [Append] takes it: the site and the identifier filled in. *)
Definition completed (s : Spool) (newID : uuid) (record : Record_) : Record_ :=
  {| ID := if bool_decide (ID record = uuid_nil) then newID else ID record;
     Site := if bool_decide (Site record = ""%string) then o_Site (options s) else Site record;
     HostID := HostID record; SessionID := SessionID record; Stream := Stream record;
     Priority := Priority record; Sequence := Sequence record; CreatedAt := CreatedAt record;
     ExpiresAt := ExpiresAt record; Envelope := Envelope record; Payload := Payload record;
     PayloadHash := PayloadHash record |}.

(** The quota decision of [Append]: nil, or the refusal that stands after a
    metric sample tried to push older ones out. *)
Definition quota_decision (record : Record_) (sz : Z) : M Spool error (option error) :=
  room ← gets (λ s, roomLocked s (Priority record) sz);
  match room with
  | None => mret None
  | Some e =>
      if bool_decide (Stream record = StreamMetric) then
        evicted ← evictOldestMetricLocked sz;
        if (evicted : bool) then gets (λ s, roomLocked s (Priority record) sz) else mret (Some e)
      else mret (Some e)
  end.

(** [Append]; [newID] is what [uuid.New()] gives a record without one. *)
Definition Append (newID : uuid) (record : option Record_) : M Spool error unit :=
  match record with
  | None => fail ErrNoRecord
  | Some record =>
      record ← gets (λ s, completed s newID record);
      is_closed ← gets closed;
      if (is_closed : bool) then fail ErrClosed
      else
        (if bool_decide (Stream record = StreamInventory) && Full record
         then coalesceInventoryLocked (HostID record) else mret tt) ;;
        refused ← quota_decision record (Size record);
        match refused with
        | Some e => modify (set_dropped Z.succ) ;; notKeptLocked record e
        | None =>
            written ← try (writeLocked record);
            match written with
            | Err e => notKeptLocked record e
            | Ok _ =>
                if Durable (Stream record) then
                  synced ← try (on_active sync);
                  match synced with
                  | Err e => modify (set_flushErr (λ _, Some e)) ;; fail e
                  | Ok _ => modify (set_flushErr (λ _, None)) ;; modify (set_dirty (λ _, false))
                  end
                else modify (set_dirty (λ _, true))
            end
        end
  end.

(** ** Sending *)

Definition expireLocked (hostID : string) (now : time) : M Spool error unit :=
  ls ← gets (λ s, host_list s hostID);
  mfor ls (λ l,
    e ← gets (λ s, heap s !! l);
    match e with
    | Some item =>
        match e_expiresAt item with
        | Some at_ =>
            if bool_decide (at_ < now) then
              r ← try (deleteLocked l);
              if is_ok r then modify (set_expired Z.succ) else mret tt
            else mret tt
        | None => mret tt
        end
    | None => mret tt
    end).

(** Sent, and the acknowledgement not overdue yet. *)
Definition in_flight (o : Options) (now : time) (e : entry) : bool :=
  negb (is_zero (e_sentAt e)) && bool_decide (time_sub now (e_sentAt e) < AckTimeout o).

Definition entries_at (s : Spool) (ls : list nat) : list (nat * entry) :=
  omap (λ l, (l,.) <$> heap s !! l) ls.

(** The send order: priority, then sequence, then age. *)
Definition due_before (a b : nat * entry) : bool :=
  if bool_decide (e_priority a.2 ≠ e_priority b.2) then bool_decide (e_priority a.2 < e_priority b.2)
  else if bool_decide (e_sequence a.2 ≠ e_sequence b.2) then bool_decide (e_sequence a.2 < e_sequence b.2)
  else bool_decide (e_createdAt a.2 < e_createdAt b.2).

(** The room of the host, and what is due within it. *)
Definition host_room (s : Spool) (hostID : string) (limit : Z) : Z :=
  let inflight := len (filter (λ le, in_flight (options s) (clock s) le.2)
                              (entries_at s (host_list s hostID))) in
  let room := MaxInflightPerHost (options s) - inflight in
  if bool_decide (0 < limit) && bool_decide (limit < room) then limit else room.

Definition due (s : Spool) (hostID : string) (room : Z) : list (nat * entry) :=
  take (Z.to_nat room)
    (sort_stable due_before
      (filter (λ le, ¬ in_flight (options s) (clock s) le.2) (entries_at s (host_list s hostID)))).

Definition mark_entry (now : time) (e : entry) : entry :=
  let e := set_e_sentAt (λ _, now) e in
  if is_zero (e_firstSentAt e) then set_e_firstSentAt (λ _, now) e else e.

(** One due record read back and marked; one the disk does not give back is
    dropped. The entry is read through its pointer: an earlier round may have
    moved it. *)
Fixpoint send_loop (ls : list nat) (now : time) : M Spool error (list Record_) :=
  match ls with
  | [] => mret []
  | l :: rest =>
      e ← gets (λ s, heap s !! l);
      match e with
      | None => send_loop rest now
      | Some item =>
          r ← try (readLocked item);
          match r with
          | Err _ =>
              modify (set_dropped Z.succ) ;; forget l ;; send_loop rest now
          | Ok record =>
              modify (set_heap (alter (mark_entry now) l)) ;;
              records ← send_loop rest now;
              mret (record :: records)
          end
      end
  end.

Definition Next (hostID : string) (limit : Z) : M Spool error (list Record_) :=
  is_closed ← gets closed;
  if (is_closed : bool) then fail ErrClosed
  else
    now ← gets clock;
    expireLocked hostID now ;;
    room ← gets (λ s, host_room s hostID limit);
    if bool_decide (room ≤ 0) then mret []
    else
      ls ← gets (λ s, (due s hostID room).*1);
      send_loop ls now.

Definition MarkSent (id : uuid) : M Spool error unit :=
  known ← gets (λ s, index s !! id);
  match known with
  | Some l => now ← gets clock; modify (set_heap (alter (mark_entry now) l))
  | None => mret tt
  end.

Definition Hosts (s : Spool) : list string :=
  sort_stable (λ a b, String.ltb a b) (range_order (map_to_list (byHost s)).*1).

Definition Unsend (hostID : string) : M Spool error unit :=
  ls ← gets (λ s, host_list s hostID);
  mfor ls (λ l, modify (set_heap (alter (λ e, set_e_firstSentAt (λ _, zero_time)
                                          (set_e_sentAt (λ _, zero_time) e)) l))).

(** ** Acknowledgements *)

Definition err_of {A} (r : result error A) : option error :=
  match r with Ok _ => None | Err e => Some e end.

(** The methods that return a value beside their error. *)
Definition delete_found (l : nat) : M Spool error (bool * option error) :=
  r ← try (deleteLocked l); mret (true, err_of r).

Definition Ack (hostID sessionID : string) (seq : Z) : M Spool error (bool * option error) :=
  is_closed ← gets closed;
  if (is_closed : bool) then mret (false, Some ErrClosed)
  else
    found ← gets (λ s, head (filter (λ le, e_sessionID (snd le) = sessionID
                                           ∧ e_sequence (snd le) = seq ∧ e_sequence (snd le) ≠ 0)
                                    (entries_at s (host_list s hostID))));
    match found with
    | Some (l, _) => delete_found l
    | None => mret (false, None)
    end.

Definition AckID (hostID : string) (id : uuid) : M Spool error (bool * option error) :=
  is_closed ← gets closed;
  if (is_closed : bool) then mret (false, Some ErrClosed)
  else
    item ← gets (λ s, l ← index s !! id; e ← heap s !! l; Some (l, e));
    match item with
    | None => mret (false, None)
    | Some (l, e) =>
        if bool_decide (e_hostID e ≠ hostID) then mret (false, None) else delete_found l
    end.

Fixpoint forget_loop (ls : list nat) (now : time) (grace : Z) (lastNamed : time) (n : Z)
    : M Spool error (Z * option error) :=
  match ls with
  | [] => mret (n, None)
  | l :: rest =>
      e ← gets (λ s, heap s !! l);
      match e with
      | None => forget_loop rest now grace lastNamed n
      | Some item =>
          if bool_decide (e_sequence item ≠ 0) || is_zero (e_firstSentAt item)
          then forget_loop rest now grace lastNamed n
          else if bool_decide (time_sub now (e_firstSentAt item) < grace)
                  || bool_decide (e_firstSentAt item < lastNamed)
          then forget_loop rest now grace lastNamed n
          else
            r ← try (deleteLocked l);
            match r with
            | Err e => mret (n, Some e)
            | Ok _ => forget_loop rest now grace lastNamed (n + 1)
            end
      end
  end.

Definition ForgetUnacknowledged (hostID : string) (grace : Z) (lastNamed : time)
    : M Spool error (Z * option error) :=
  is_closed ← gets closed;
  if (is_closed : bool) then mret (0, Some ErrClosed)
  else
    now ← gets clock;
    ls ← gets (λ s, host_list s hostID);
    forget_loop ls now grace lastNamed 0.

Definition Delete (id : uuid) : M Spool error unit :=
  is_closed ← gets closed;
  if (is_closed : bool) then fail ErrClosed
  else
    known ← gets (λ s, index s !! id);
    match known with
    | None => mret tt
    | Some l => deleteLocked l
    end.

(** ** Stats *)

Record Stats_ := mkStats {
  BytesUsed : Z; BytesLimit : Z; DiskBytes : Z; Items : Z; Inflight : Z;
  DroppedTotal : Z; ExpiredTotal : Z; Critical_ : bool; Segments_ : Z;
}.

Definition Stats (s : Spool) : Stats_ :=
  let used := live s in
  {| BytesUsed := used; BytesLimit := MaxBytes (options s); DiskBytes := diskLocked s;
     Items := Z.of_nat (base.size (index s));
     Inflight := len (filter (λ le, in_flight (options s) (clock s) le.2)
                             (entries_at s (index_locs s)));
     DroppedTotal := dropped s; ExpiredTotal := expired s;
     Critical_ := bool_decide (MaxBytes (options s) - CriticalReserveBytes (options s) < used)
       || match free (dsk s) with
          | Some fr => bool_decide (fr < u64 (MinFreeBytes (options s)))
          | None => false
          end;
     Segments_ := Z.of_nat (base.size (segments s)) |}.

Definition Critical (s : Spool) : bool := Critical_ (Stats s).
Definition FlushError (s : Spool) : option error := flushErr s.

(** ** Opening and closing *)

(** One tick of [flushLoop]. *)
Definition flush_tick : M Spool error unit :=
  go ← gets (λ s, dirty s && match active s with Some _ => true | None => false end && negb (closed s));
  if (go : bool) then
    r ← try (on_active sync);
    modify (set_flushErr (λ _, err_of r)) ;;
    modify (set_dirty (λ _, false))
  else mret tt.

Definition Close : M Spool error unit :=
  is_closed ← gets closed;
  if (is_closed : bool) then mret tt
  else
    modify (set_closed (λ _, true)) ;;
    act ← gets active;
    match act with
    | None => mret tt
    | Some _ =>
        r ← try (on_active close);
        modify (set_active (λ _, None)) ;;
        match r with Err e => fail e | Ok _ => mret tt end
    end.

(** The visitor of the first pass: the identifiers of the tombstones. *)
Definition tombstones_of (vs : list visited) : list uuid :=
  v_body <$> filter (λ v, v_kind v = kindTombstone ∧ len (v_body v) = 16) vs.

(** The visitor of the second pass: a record of segment [id] enters the index
    unless it is buried; [state] is the account of the segment being walked. *)
Definition index_record (id : N) (buried : list uuid) (v : visited)
    (ss : Spool * segmentState) : Spool * segmentState :=
  let '(s, state) := ss in
  if bool_decide (v_kind v ≠ kindRecord) then (s, state)
  else match decode (v_body v) with
       | Err _ => (set_dropped Z.succ s, state)
       | Ok record =>
           if bool_decide (ID record ∈ buried) then (s, state)
           else
             let item := entry_of record (v_size v) id (v_offset v) in
             match index s !! ID record with
             | Some existing =>
                 let old := heap s !! existing in
                 let old_size := match old with Some e => e_size e | None => 0 end in
                 let old_seg := match old with Some e => e_segment e | None => 0%N end in
                 (set_live (λ n, n - old_size + v_size v)
                    (set_segments (alter (set_ss_live Z.pred) old_seg)
                       (set_heap <[existing := item]> s)),
                  set_ss_live Z.succ state)
             | None =>
                 let l := next_loc s in
                 (set_live (λ n, n + v_size v)
                    (push_host (HostID record) l
                       (set_index <[ID record := l]>
                          (set_next_loc S (set_heap <[l := item]> s)))),
                  set_ss_live Z.succ state)
             end
       end.

Fixpoint collect_tombstones (ids : list N) : M Spool error (list uuid) :=
  match ids with
  | [] => mret []
  | id :: rest =>
      vs ← on_disk (walkSegment (segmentPath id));
      more ← collect_tombstones rest;
      mret (tombstones_of vs ++ more)
  end.

Definition index_segment (buried : list uuid) (id : N) : M Spool error unit :=
  vs ← on_disk (walkSegment (segmentPath id));
  state ← (λ s, let '(s', st) := fold_left (λ ss v, index_record id buried v ss) vs
                                   (s, mkSegmentState id 0 0) in (Ok st, s'));
  sz ← on_disk (stat_size (segmentPath id));
  modify (set_segments <[id := set_ss_size (λ _, sz) state]>) ;;
  modify (set_nextID (λ n, if bool_decide (n < id)%N then id else n)).

Definition remove_dead (id : N) : M Spool error unit :=
  dead ← gets (λ s, match segments s !! id with
                    | Some st => bool_decide (ss_live st = 0) && bool_decide (id ≠ nextID s)
                    | None => false
                    end);
  if (dead : bool) then
    on_disk (remove_file (segmentPath id)) ;; modify (set_segments (delete id))
  else mret tt.

Definition rebuild : M Spool error unit :=
  ids ← on_disk listSegments;
  buried ← collect_tombstones ids;
  mfor ids (index_segment buried) ;;
  mfor ids remove_dead ;;
  last ← gets nextID;
  if bool_decide (0 < last)%N then
    seg ← on_disk (openSegment last);
    modify (set_active (λ _, Some seg)) ;;
    modify (set_segments (alter (set_ss_size (λ _, seg_size seg)) (seg_id seg)))
  else mret tt.

(** The spool [Open] builds before it reads the directory. *)
Definition empty_spool (o : Options) (d : disk) (now : time) : Spool :=
  mkSpool (fill o) ∅ 0 ∅ ∅ ∅ None 0 0 0 0 false false None d now.

Definition Open (o : Options) (d : disk) (now : time) : result error unit * Spool :=
  rebuild (empty_spool o d now).
End spool.
