(* ===== verification/SpoolAccount.v ===== *)
(** * SpoolAccount: the books of the spool stay right whatever the disk does

    The accounting invariant - index, per-host lists and the count of live
    bytes agree - is kept by every operation of [Spool] on a disk with any
    faults, with no hypothesis on the disk at all. *)
From S2P Require Import Prelude Bytes Text Digest SpoolRecord SpoolSegment Spool.

Open Scope Z_scope.

Definition Zsum : list Z → Z := foldr Z.add 0.

Lemma Zsum_perm l k : l ≡ₚ k → Zsum l = Zsum k.
Proof. induction 1; cbn; unfold Zsum in *; lia. Qed.

Definition size_at (h : gmap nat entry) (l : nat) : Z :=
  match h !! l with Some e => e_size e | None => 0 end.

Definition live_sum (h : gmap nat entry) (idx : gmap uuid nat) : Z :=
  Zsum (size_at h <$> (map_to_list idx).*2).

(** What an entry is filed under. *)
Definition filed (e e' : entry) : Prop :=
  e_id e' = e_id e ∧ e_hostID e' = e_hostID e ∧ e_size e' = e_size e.

Lemma filed_trans e1 e2 e3 : filed e1 e2 → filed e2 e3 → filed e1 e3.
Proof. intros (? & ? & ?) (? & ? & ?). repeat split; congruence. Qed.

Record books (s : Spool) : Prop := {
  bk_index : ∀ id l, index s !! id = Some l →
    ∃ e, heap s !! l = Some e ∧ e_id e = id ∧ l ∈ host_list s (e_hostID e);
  bk_hosts : ∀ h l, l ∈ host_list s h →
    ∃ e, heap s !! l = Some e ∧ e_hostID e = h ∧ index s !! e_id e = Some l;
  bk_lists : ∀ h ls, byHost s !! h = Some ls → ls ≠ [] ∧ NoDup ls;
  bk_live : live s = live_sum (heap s) (index s);
  bk_alloc : ∀ l, is_Some (heap s !! l) → (l < next_loc s)%nat;
  bk_size : ∀ l e, heap s !! l = Some e → 0 ≤ e_size e;
}.

(** The part of the state the books are kept in. *)
Definition same_books (s s' : Spool) : Prop :=
  index s' = index s ∧ byHost s' = byHost s ∧ live s' = live s ∧ next_loc s' = next_loc s
  ∧ options s' = options s
  ∧ (∀ l, match heap s !! l, heap s' !! l with
          | Some e, Some e' => filed e e'
          | None, None => True
          | _, _ => False
          end).

Lemma same_books_heap s s' : 
  index s' = index s → byHost s' = byHost s → live s' = live s → next_loc s' = next_loc s →
  heap s' = heap s → options s' = options s → same_books s s'.
Proof.
  intros. repeat split; try done. intros l. replace (heap s') with (heap s) by done.
  by destruct (heap s !! l).
Qed.

#[export] Instance same_books_preorder : PreOrder same_books.
Proof.
  split.
  - intros s. by apply same_books_heap.
  - intros s1 s2 s3 (H1 & H2 & H3 & H4 & Ho & H5) (G1 & G2 & G3 & G4 & Go & G5).
    repeat split; try congruence. intros l. specialize (H5 l). specialize (G5 l).
    destruct (heap s1 !! l), (heap s2 !! l), (heap s3 !! l); try done.
    by eapply filed_trans.
Qed.

Lemma live_sum_ext h h' idx :
  (∀ l, size_at h' l = size_at h l) → live_sum h' idx = live_sum h idx.
Proof. intros Hs. unfold live_sum. f_equal. apply list_fmap_ext. intros i x _. apply Hs. Qed.

Lemma same_books_size s s' l : same_books s s' → size_at (heap s') l = size_at (heap s) l.
Proof.
  intros (_ & _ & _ & _ & _ & Hh). specialize (Hh l). unfold size_at, filed in *.
  destruct (heap s !! l), (heap s' !! l); try done. by destruct Hh as (_ & _ & ->).
Qed.

Lemma books_same s s' : same_books s s' → books s → books s'.
Proof.
  intros Hs B. pose proof (λ l, same_books_size s s' l Hs) as Hsz.
  destruct Hs as (Hi & Hb & Hl & Hn & _ & Hh). destruct B as [B1 B2 B3 B4 B5 B6].
  assert (Hhl : ∀ h, host_list s' h = host_list s h) by (intros h; unfold host_list; by rewrite Hb).
  assert (Hget : ∀ l e, heap s !! l = Some e → ∃ e', heap s' !! l = Some e' ∧ filed e e').
  { intros l e He. specialize (Hh l). rewrite He in Hh.
    destruct (heap s' !! l) as [e'|]; [by exists e'|done]. }
  split.
  - intros id l. rewrite Hi. intros Hid. destruct (B1 id l Hid) as (e & He & Hid' & Hin).
    destruct (Hget l e He) as (e' & He' & F1 & F2 & F3). exists e'.
    rewrite Hhl, F1, F2. auto.
  - intros h l. rewrite Hhl. intros Hin. destruct (B2 h l Hin) as (e & He & Hh' & Hx).
    destruct (Hget l e He) as (e' & He' & F1 & F2 & F3). exists e'.
    rewrite Hi, F1, F2. auto.
  - intros h ls. rewrite Hb. apply B3.
  - rewrite Hl, Hi, B4. symmetry. by apply live_sum_ext.
  - intros l [e' He']. rewrite Hn. apply B5. specialize (Hh l). rewrite He' in Hh.
    destruct (heap s !! l); [by eexists|done].
  - intros l e' He'. specialize (Hh l). rewrite He' in Hh.
    destruct (heap s !! l) as [e|] eqn:E; [|done]. destruct Hh as (_ & _ & ->). eauto.
Qed.

(** ** Operations that do not touch the books *)

Definition keeps {A} (m : M Spool error A) : Prop := ∀ s, same_books s (m s).2.

Lemma keeps_bind {A B} (m : M Spool error A) (k : A → M Spool error B) :
  keeps m → (∀ a, keeps (k a)) → keeps (m ≫= k).
Proof.
  intros Hm Hk s. unfold mbind, M_bind. specialize (Hm s).
  destruct (m s) as [[a|e] s']; [|done]. cbn in Hm. etrans; [exact Hm|apply Hk].
Qed.

Lemma keeps_ret {A} (a : A) : keeps (mret a).
Proof. intros s. reflexivity. Qed.
Lemma keeps_fail {A} e : keeps (fail e : M Spool error A).
Proof. intros s. reflexivity. Qed.
Lemma keeps_gets {A} (f : Spool → A) : keeps (gets f).
Proof. intros s. reflexivity. Qed.
Lemma keeps_try {A} (m : M Spool error A) : keeps m → keeps (try m).
Proof. intros Hm s. specialize (Hm s). unfold try. by destruct (m s). Qed.
Lemma keeps_on_disk {A} (m : M disk error A) : keeps (on_disk m).
Proof. intros s. unfold on_disk. destruct (m (dsk s)). by apply same_books_heap. Qed.
Lemma keeps_on_active {A} (m : M (segment * disk) error A) : keeps (on_active m).
Proof.
  intros s. unfold on_active. destruct (active s); [|reflexivity].
  destruct (m _) as [r [seg d]]. by apply same_books_heap.
Qed.
Lemma keeps_modify f : (∀ s, same_books s (f s)) → keeps (modify f).
Proof. intros Hf s. apply Hf. Qed.
Lemma keeps_mfor {A} (l : list A) body : (∀ x, keeps (body x)) → keeps (mfor l body).
Proof.
  intros Hb. induction l as [|x l IH]; [apply keeps_ret|]. cbn. by apply keeps_bind.
Qed.

Create HintDb keeps.
#[export] Hint Resolve keeps_bind keeps_ret keeps_fail keeps_gets keeps_try keeps_on_disk
  keeps_on_active keeps_mfor : keeps.
#[export] Hint Extern 2 (keeps (modify _)) =>
  apply keeps_modify; intros ?; apply same_books_heap; reflexivity : keeps.

(** Takes a computation apart along its binds and its branches. *)
Ltac keeps_tac :=
  repeat (intros; first
    [ solve [auto 2 with keeps]
    | apply keeps_bind; [|intros]
    | apply keeps_try | apply keeps_mfor
    | match goal with |- keeps (match ?x with _ => _ end) => destruct x end
    | match goal with |- keeps (if ?x then _ else _) => destruct x end ]).

Section account.
Context `{Wire} `{MapOrder}.

Lemma keeps_rollLocked : keeps rollLocked.
Proof. unfold rollLocked. keeps_tac. Qed.

Lemma keeps_roll_if_full : keeps roll_if_full.
Proof. unfold roll_if_full. keeps_tac. Qed.

Lemma keeps_readLocked e : keeps (readLocked e).
Proof. unfold readLocked. keeps_tac. Qed.

(** Moving or marking an entry leaves it filed where it was. *)
Lemma same_books_alter (f : entry → entry) l s :
  (∀ e, filed e (f e)) → same_books s (set_heap (alter f l) s).
Proof.
  intros Hf. repeat split; try done. intros l'. cbn.
  destruct (decide (l = l')) as [->|Hl].
  - rewrite lookup_alter_eq. destruct (heap s !! l'); cbn; auto.
  - rewrite lookup_alter_ne by done. by destruct (heap s !! l').
Qed.

Lemma keeps_alter_entry (f : entry → entry) l :
  (∀ e, filed e (f e)) → keeps (modify (set_heap (alter f l))).
Proof. intros Hf. apply keeps_modify. intros s. by apply same_books_alter. Qed.

Lemma filed_mark now e : filed e (mark_entry now e).
Proof. unfold mark_entry. by destruct (is_zero _). Qed.

Lemma keeps_compactLocked : keeps compactLocked.
Proof.
  unfold compactLocked, compact_segment, compact_item. keeps_tac.
  by apply keeps_alter_entry.
Qed.

Lemma keeps_drop_from_segment id : keeps (drop_from_segment id).
Proof. unfold drop_from_segment. keeps_tac. Qed.

(** ** Operations that take entries out *)

(** [shrinks s s']: what is filed in [s'] was filed in [s]. *)
Definition shrinks (s s' : Spool) : Prop :=
  (∀ id l, index s' !! id = Some l → index s !! id = Some l)
  ∧ (∀ l e', heap s' !! l = Some e' → ∃ e, heap s !! l = Some e ∧ filed e e')
  ∧ live s' ≤ live s
  ∧ options s' = options s.

#[export] Instance shrinks_preorder : PreOrder shrinks.
Proof.
  split.
  - intros s. split; [done|]. split; [|done]. intros l e He. by exists e.
  - intros s1 s2 s3 (A1 & A2 & A3 & A4) (B1 & B2 & B3 & B4). split; [auto|].
    split; [|split; [lia|congruence]].
    intros l e3 He3. destruct (B2 _ _ He3) as (e2 & He2 & F). destruct (A2 _ _ He2) as (e1 & He1 & F').
    exists e1. split; [done|]. by eapply filed_trans.
Qed.

Lemma same_books_shrinks s s' : same_books s s' → shrinks s s'.
Proof.
  intros (Hi & _ & Hl & _ & Ho & Hh). split; [by rewrite Hi|]. split; [|split; [lia|done]].
  intros l e' He'. specialize (Hh l). rewrite He' in Hh. destruct (heap s !! l); [|done]. eauto.
Qed.

(** A pointer that is filed, or whose record is forgotten already. *)
Definition current (s : Spool) (l : nat) : Prop :=
  ∀ e, heap s !! l = Some e → index s !! e_id e = Some l ∨ index s !! e_id e = None.

Lemma current_shrinks s s' l : shrinks s s' → current s l → current s' l.
Proof.
  intros (A1 & A2 & _) Hc e' He'. destruct (A2 _ _ He') as (e & He & F & _).
  destruct (index s' !! e_id e') as [l'|] eqn:E; [|by right].
  pose proof (A1 _ _ E) as Hs. rewrite F in Hs. destruct (Hc e He) as [Hc'|Hc']; congruence || (left; congruence).
Qed.

Lemma hosts_current s h l : books s → l ∈ host_list s h → current s l.
Proof.
  intros B Hl e He. destruct (bk_hosts s B h l Hl) as (e' & He' & _ & Hx). left. congruence.
Qed.

Lemma index_current s id l : books s → index s !! id = Some l → current s l.
Proof.
  intros B Hl e He. destruct (bk_index s B id l Hl) as (e' & He' & Hid & _). left. congruence.
Qed.

Lemma remove_first_elem l x ls : NoDup ls → x ∈ remove_first l ls ↔ x ∈ ls ∧ x ≠ l.
Proof.
  induction 1 as [|y ls Hy Hnd IH]; cbn; [set_solver|].
  case_bool_decide as Hyl; set_solver.
Qed.

Lemma remove_first_NoDup l ls : NoDup ls → NoDup (remove_first l ls).
Proof.
  induction 1 as [|y ls Hy Hnd IH]; cbn; [constructor|].
  case_bool_decide; [done|]. constructor; [|done]. rewrite remove_first_elem; set_solver.
Qed.

Lemma live_sum_delete h idx id l :
  idx !! id = Some l → live_sum h idx = size_at h l + live_sum h (delete id idx).
Proof.
  intros Hid. unfold live_sum.
  rewrite <- (insert_delete_id idx id l Hid) at 1.
  rewrite (Zsum_perm _ (size_at h <$> ((id, l) :: map_to_list (delete id idx)).*2)); [done|].
  apply fmap_Permutation, fmap_Permutation, map_to_list_insert, lookup_delete_eq.
Qed.

Lemma live_sum_insert h idx id l :
  idx !! id = None → live_sum h (<[id := l]> idx) = size_at h l + live_sum h idx.
Proof.
  intros Hid. rewrite (live_sum_delete _ _ id l) by apply lookup_insert_eq.
  by rewrite delete_insert_id.
Qed.

Lemma host_list_pop s h l h' :
  (∀ ls, byHost s !! h = Some ls → NoDup ls) →
  ∀ x, x ∈ host_list (pop_host h l s) h' ↔ x ∈ host_list s h' ∧ ¬ (h' = h ∧ x = l).
Proof.
  intros Hnd x. unfold host_list at 1, pop_host. cbn.
  assert (Hn : NoDup (host_list s h)).
  { unfold host_list. destruct (byHost s !! h) eqn:E; cbn; [eauto|constructor]. }
  destruct (decide (h' = h)) as [->|Hne].
  - case_bool_decide as Hr.
    + rewrite lookup_delete_eq. cbn. pose proof (remove_first_elem l x _ Hn). rewrite Hr in *. set_solver.
    + rewrite lookup_insert_eq. cbn. rewrite remove_first_elem by done. set_solver.
  - case_bool_decide.
    + rewrite lookup_delete_ne by done. unfold host_list. set_solver.
    + rewrite lookup_insert_ne by done. unfold host_list. set_solver.
Qed.

(** The three lines of [deleteLocked] that take an entry out of the books. *)
Definition unfile (item : entry) (l : nat) (s : Spool) : Spool :=
  pop_host (e_hostID item) l (set_live (λ n, n - e_size item) (set_index (delete (e_id item)) s)).

Lemma books_unfile item e l s :
  books s → heap s !! l = Some e → filed item e → index s !! e_id item = Some l →
  books (unfile item l s).
Proof.
  intros [B1 B2 B3 B4 B5 B6] He (F1 & F2 & F3) Hx.
  assert (Hnd : ∀ ls, byHost s !! e_hostID item = Some ls → NoDup ls) by (intros ls Hls; by eapply B3).
  pose proof (λ h', host_list_pop (set_live (λ n, n - e_size item) (set_index (delete (e_id item)) s))
                      (e_hostID item) l h' Hnd) as Hhl.
  change (host_list (set_live _ _)) with (host_list s) in Hhl.
  split.
  - intros id l' Hid. cbn in Hid. apply lookup_delete_Some in Hid as [Hne Hid].
    destruct (B1 id l' Hid) as (e' & He' & Hid' & Hin). exists e'. split; [done|]. split; [done|].
    apply Hhl. split; [done|]. intros [_ ->]. apply Hne. congruence.
  - intros h l' Hin. apply Hhl in Hin as [Hin Hne].
    destruct (B2 h l' Hin) as (e' & He' & Hh' & Hx'). exists e'. split; [done|]. split; [done|].
    cbn. apply lookup_delete_Some. split; [|done]. intros Heq.
    assert (l' = l) as -> by congruence. apply Hne. split; congruence.
  - intros h ls Hls. unfold unfile, pop_host in Hls. cbn in Hls.
    change (host_list (set_live _ _)) with (host_list s) in Hls.
    case_bool_decide as Hr.
    + apply lookup_delete_Some in Hls as [_ Hls]. eauto.
    + apply lookup_insert_Some in Hls as [[_ <-]|[_ Hls]]; [|eauto].
      split; [done|]. apply remove_first_NoDup. unfold host_list.
      destruct (byHost s !! e_hostID item) eqn:E; cbn; [eauto|constructor].
  - change (live s - e_size item = live_sum (heap s) (delete (e_id item) (index s))).
    rewrite B4, (live_sum_delete _ _ _ l Hx). unfold size_at. rewrite He, F3. lia.
  - exact B5.
  - exact B6.
Qed.

Lemma shrinks_unfile item e l s :
  books s → heap s !! l = Some e → filed item e → shrinks s (unfile item l s).
Proof.
  intros B He (F1 & F2 & F3). split; [|split].
  - intros id l' Hid. cbn in Hid. by apply lookup_delete_Some in Hid as [_ ?].
  - intros l' e' He'. by exists e'.
  - cbn. pose proof (bk_size s B l e He). split; [lia|done].
Qed.

Lemma wp_keeps {A} (m : M Spool error A) s :
  keeps m → wp m s (λ _ s', same_books s s') (λ _ s', same_books s s').
Proof. intros Hm. specialize (Hm s). unfold wp. by destruct (m s) as [[]]. Qed.

Lemma wp_deleteLocked s l :
  books s → current s l →
  wp (deleteLocked l) s
    (λ _ s', (books s' ∧ shrinks s s')
             ∧ ∀ e, heap s !! l = Some e → index s' = delete (e_id e) (index s))
    (λ _ s', books s' ∧ shrinks s s').
Proof.
  intros B Hc. unfold deleteLocked. wp_steps.
  destruct (heap s !! l) as [item|] eqn:He; [|apply wp_ret; split; [done|intros e; done]].
  wp_steps. destruct (index s !! e_id item) as [l'|] eqn:Hx.
  2:{ apply wp_ret. split; [done|]. intros e [= <-]. by rewrite delete_id. }
  assert (l' = l) as -> by (destruct (Hc item He); congruence). clear Hc.
  apply wp_bind. eapply wp_mono; [apply wp_keeps, keeps_roll_if_full| |].
  2:{ intros ? s1 Hs. split; [by apply (books_same s)|by apply same_books_shrinks]. }
  intros ? s1 Hs1. apply wp_bind.
  eapply wp_mono; [apply wp_keeps, keeps_on_active| |].
  2:{ intros ? s2 Hs2. assert (same_books s s2) by (etrans; [exact Hs1|exact Hs2]).
      split; [by apply (books_same s)|by apply same_books_shrinks]. }
  intros ? s2 Hs2. wp_steps.
  set (s3 := set_dirty _ _).
  assert (Hs3 : same_books s s3).
  { etrans; [exact Hs1|]. etrans; [exact Hs2|]. by apply same_books_heap. }
  clearbody s3. clear s1 s2 Hs1 Hs2.
  pose proof (books_same _ _ Hs3 B) as B3.
  assert (He3 : ∃ e, heap s3 !! l = Some e ∧ filed item e).
  { destruct Hs3 as (_ & _ & _ & _ & _ & Hh). specialize (Hh l). rewrite He in Hh.
    destruct (heap s3 !! l) as [e|]; [by exists e|done]. }
  destruct He3 as (e & He3 & Hf).
  assert (Hx3 : index s3 !! e_id item = Some l) by (destruct Hs3 as (-> & _); done).
  pose proof (books_unfile item e l s3 B3 He3 Hf Hx3) as B4.
  pose proof (shrinks_unfile item e l s3 B3 He3 Hf) as H4.
  change (pop_host _ _ _) with (unfile item l s3).
  assert (Hdone : ∀ s5, same_books (unfile item l s3) s5 → books s5 ∧ shrinks s s5).
  { intros s5 Hs5. split; [by apply (books_same (unfile item l s3))|].
    etrans; [by apply same_books_shrinks|]. etrans; [exact H4|by apply same_books_shrinks]. }
  eapply wp_mono; [apply wp_keeps, keeps_drop_from_segment| |]; cbv beta; [|auto].
  intros ? s4 Hs4. eapply wp_mono; [apply wp_keeps, keeps_compactLocked| |]; cbv beta.
  - intros ? s5 Hs5. assert (Hs : same_books (unfile item l s3) s5) by (by etrans; [exact Hs4|]).
    split; [auto|]. intros e' [= <-]. destruct Hs as (-> & _). cbn. by destruct Hs3 as (-> & _).
  - intros ? s5 Hs5. apply Hdone. by etrans; [exact Hs4|].
Qed.

(** ** Operations that file an entry *)

(** The lines of [writeLocked] that enter a record into the books. *)
Definition file_entry (e : entry) (s : Spool) : Spool :=
  set_live (λ n, n + e_size e)
    (push_host (e_hostID e) (next_loc s)
      (set_index <[e_id e := next_loc s]>
        (set_next_loc S (set_heap <[next_loc s := e]> s)))).

Lemma host_list_push s h l h' :
  host_list (push_host h l s) h' = if decide (h' = h) then host_list s h ++ [l] else host_list s h'.
Proof.
  unfold push_host, host_list at 1. cbn. case_decide as Hh.
  - subst h'. by rewrite lookup_insert_eq.
  - by rewrite lookup_insert_ne.
Qed.

Lemma books_file e s :
  books s → index s !! e_id e = None → 0 ≤ e_size e → books (file_entry e s).
Proof.
  intros B Hnew Hsz. pose proof B as [B1 B2 B3 B4 B5 B6].
  assert (Hfresh : heap s !! next_loc s = None).
  { destruct (heap s !! next_loc s) eqn:E; [|done].
    assert (next_loc s < next_loc s)%nat by (apply B5; by eexists). lia. }
  assert (Hold : ∀ l, is_Some (heap s !! l) → <[next_loc s := e]> (heap s) !! l = heap s !! l).
  { intros l Hl. apply lookup_insert_ne. specialize (B5 l Hl). lia. }
  assert (Hhosts : ∀ h, host_list (file_entry e s) h
            = if decide (h = e_hostID e) then host_list s (e_hostID e) ++ [next_loc s] else host_list s h).
  { intros h. rewrite <- (host_list_push s (e_hostID e) (next_loc s) h). reflexivity. }
  split.
  - intros id l Hid. cbn in Hid. apply lookup_insert_Some in Hid as [[<- <-]|[Hne Hid]].
    + exists e. cbn. rewrite lookup_insert_eq. split; [done|]. split; [done|].
      rewrite Hhosts, decide_True by done. set_solver.
    + destruct (B1 id l Hid) as (e' & He' & Hid' & Hin). exists e'. cbn.
      rewrite Hold by (by eexists). split; [done|]. split; [done|].
      rewrite Hhosts. case_decide as Hh; [|done]. rewrite <- Hh. set_solver.
  - intros h l Hin. rewrite Hhosts in Hin.
    assert (Hcase : l ∈ host_list s h ∨ (h = e_hostID e ∧ l = next_loc s)).
    { case_decide as Hh; [subst h|by left]. apply elem_of_app in Hin as [?|?%list_elem_of_singleton]; auto. }
    cbn. destruct Hcase as [Hin'|[-> ->]].
    + destruct (B2 h l Hin') as (e' & He' & Hh' & Hx). exists e'.
      rewrite Hold by (by eexists). split; [done|]. split; [done|].
      rewrite lookup_insert_ne; [done|congruence].
    + exists e. by rewrite !lookup_insert_eq.
  - intros h ls Hls. cbn in Hls. apply lookup_insert_Some in Hls as [[<- <-]|[_ Hls]]; [|eauto].
    split; [by destruct (host_list _ _)|].
    apply NoDup_app. split; [|split; [|apply NoDup_singleton]].
    + change (NoDup (host_list s (e_hostID e))). unfold host_list.
      destruct (byHost s !! e_hostID e) eqn:E; cbn; [by eapply B3|constructor].
    + intros l Hl ->%list_elem_of_singleton. destruct (B2 _ _ Hl) as (e' & He' & _). congruence.
  - cbn. rewrite B4, live_sum_insert by done. unfold size_at at 1. rewrite lookup_insert_eq.
    assert (Heq : live_sum (<[next_loc s := e]> (heap s)) (index s) = live_sum (heap s) (index s));
      [|lia].
    unfold live_sum. f_equal. apply list_fmap_ext. intros i l Hl.
    apply list_elem_of_lookup_2, list_elem_of_fmap in Hl as ([id l'] & -> & Hl).
    apply elem_of_map_to_list in Hl. destruct (B1 id l' Hl) as (e' & He' & _).
    unfold size_at. cbn. rewrite Hold by (by eexists). done.
  - intros l [e' He']. cbn in *. apply lookup_insert_Some in He' as [[<- _]|[_ He']]; [lia|].
    assert (l < next_loc s)%nat by (apply B5; by eexists). lia.
  - intros l e' He'. cbn in He'. apply lookup_insert_Some in He' as [[_ <-]|[_ He']]; eauto.
Qed.

Lemma wp_writeLocked r s :
  books s → index s !! ID r = None →
  wp (writeLocked r) s
    (λ _ s', books s' ∧ live s' = live s + len (frame kindRecord (encode r))
             ∧ options s' = options s ∧ ∃ l, index s' = <[ID r := l]> (index s))
    (λ _ s', same_books s s').
Proof.
  intros B Hnew. unfold writeLocked. apply wp_bind.
  eapply wp_mono; [apply wp_keeps, keeps_roll_if_full| |]; cbv beta; [|done].
  intros ? s1 Hs1. apply wp_bind.
  eapply wp_mono; [apply wp_keeps, keeps_on_active| |]; cbv beta.
  2:{ intros ? s2 Hs2. by etrans; [exact Hs1|]. }
  intros offset s2 Hs2. wp_steps.
  set (s3 := touch_active _ s2).
  assert (Hs3 : same_books s s3).
  { etrans; [exact Hs1|]. etrans; [exact Hs2|]. by apply same_books_heap. }
  clearbody s3. clear s1 s2 Hs1 Hs2. unfold wp, alloc_entry. wp_steps.
  set (e := entry_of r _ _ offset).
  assert (Hn : index s3 !! e_id e = None) by (destruct Hs3 as (-> & _); exact Hnew).
  pose proof (books_file e s3 (books_same _ _ Hs3 B) Hn (len_nonneg _)) as B4.
  split; [exact B4|]. destruct Hs3 as (Hi & _ & Hl & _ & Ho & _). cbn. rewrite Hl, Hi. eauto.
Qed.
End account.
