(* ===== verification/SpoolSteps.v ===== *)
(** * SpoolSteps: the spool as a state machine, and what its quota promises

    Every exported method is one step, because the mutex is held for the whole
    of it; between two methods the clock, the free space and the behaviour of
    the disk may change in any way. The invariants here hold in every
    reachable state, faults included. *)
From S2P Require Import Prelude Bytes Text Digest SpoolRecord SpoolSegment Spool SpoolAccount.

Open Scope Z_scope.

Section steps.
Context `{Wire} `{MapOrder}.

(** ** Loops that only forget *)

Definition good (s s' : Spool) : Prop := books s' ∧ shrinks s s'.

Lemma good_refl s : books s → good s s.
Proof. by split. Qed.

Lemma good_trans s1 s2 s3 : good s1 s2 → good s2 s3 → good s1 s3.
Proof. intros [_ ?] [? ?]. split; [done|]. by etrans. Qed.

Lemma good_same s s' : books s → same_books s s' → good s s'.
Proof. intros B Hs. split; [by apply (books_same s)|by apply same_books_shrinks]. Qed.

(** [forgetful m s]: from [s], [m] ends in a good state whatever happens. *)
Definition forgetful {A} (m : M Spool error A) (s : Spool) : Prop :=
  wp m s (λ _ s', good s s') (λ _ s', good s s').

Lemma forgetful_bind {A B} (m : M Spool error A) (k : A → M Spool error B) s :
  forgetful m s → (∀ a s', good s s' → forgetful (k a) s') → forgetful (m ≫= k) s.
Proof.
  intros Hm Hk. apply wp_bind. eapply wp_mono; [exact Hm| |done]; cbv beta.
  intros a s' Hg. eapply wp_mono; [by apply Hk| |]; cbv beta; intros ? s''; by apply good_trans.
Qed.

Lemma forgetful_keeps {A} (m : M Spool error A) s : books s → keeps m → forgetful m s.
Proof.
  intros B Hm. eapply wp_mono; [by apply wp_keeps| |]; cbv beta; intros ? s'; by apply good_same.
Qed.

Lemma forgetful_try {A} (m : M Spool error A) s : forgetful m s → forgetful (try m) s.
Proof. intros Hm. by apply wp_try. Qed.

Lemma forgetful_delete s l : books s → current s l → forgetful (deleteLocked l) s.
Proof.
  intros B Hc. eapply wp_mono; [by apply wp_deleteLocked| |]; cbv beta; [|done].
  intros ? s' [Hg _]. exact Hg.
Qed.

Lemma forgetful_forget s l : books s → current s l → forgetful (forget l) s.
Proof.
  intros B Hc. apply forgetful_bind; [by apply forgetful_try, forgetful_delete|].
  intros ? s' [B' _]. by apply forgetful_keeps; [|apply keeps_ret].
Qed.

Lemma forgetful_mfor s (ls : list nat) body :
  books s → Forall (current s) ls →
  (∀ s' l, books s' → current s' l → forgetful (body l) s') →
  forgetful (mfor ls body) s.
Proof.
  intros B Hls Hb. revert s B Hls. induction ls as [|l ls IH]; intros s B Hls.
  - by apply forgetful_keeps; [|apply keeps_ret].
  - apply Forall_cons in Hls as [Hl Hls]. cbn. apply forgetful_bind; [by apply Hb|].
    intros _ s' [B' Hs]. apply IH; [done|].
    eapply Forall_impl; [exact Hls|]. intros l' Hc. by eapply current_shrinks.
Qed.

Lemma host_list_current s h : books s → Forall (current s) (host_list s h).
Proof. intros B. apply Forall_forall. intros l. by apply hosts_current. Qed.

Ltac forgetful_gets := apply forgetful_bind;
  [by apply forgetful_keeps; [|apply keeps_gets]|intros ? ? [? _]].
Ltac forgetful_done := by apply forgetful_keeps; [|auto with keeps].

Lemma forgetful_coalesce s h : books s → forgetful (coalesceInventoryLocked h) s.
Proof.
  intros B. unfold coalesceInventoryLocked, forgetful. wp_steps.
  apply forgetful_mfor; [done|by apply host_list_current|].
  intros s' l B' Hc. unfold forgetful. wp_steps.
  destruct (heap s' !! l) as [e|]; [|by apply good_refl].
  destruct (_ && _); [by apply forgetful_forget|by apply good_refl].
Qed.

Lemma forgetful_expire s h now : books s → forgetful (expireLocked h now) s.
Proof.
  intros B. unfold expireLocked, forgetful. wp_steps.
  apply forgetful_mfor; [done|by apply host_list_current|].
  intros s' l B' Hc. unfold forgetful. wp_steps.
  destruct (heap s' !! l) as [e|]; [|by apply good_refl].
  destruct (e_expiresAt e) as [t|]; [|by apply good_refl].
  case_bool_decide; [|by apply good_refl].
  apply forgetful_bind; [by apply forgetful_try, forgetful_delete|].
  intros r s'' [B'' _]. destruct (is_ok r); forgetful_done.
Qed.

Lemma forgetful_evict_loop ls sz b s :
  books s → Forall (current s) ls → forgetful (evict_loop ls sz b) s.
Proof.
  revert b s. induction ls as [|l ls IH]; intros b s B Hls; cbn [evict_loop].
  - forgetful_done.
  - apply Forall_cons in Hls as [Hl Hls]. unfold forgetful. wp_steps.
    destruct (roomLocked _ _ _); [|by apply good_refl].
    apply forgetful_bind; [by apply forgetful_try, forgetful_delete|].
    intros r s' [B' Hs]. destruct r; [|forgetful_done].
    apply forgetful_bind; [forgetful_done|]. intros ? s'' [B'' Hs'].
    apply IH; [done|]. eapply Forall_impl; [exact Hls|].
    intros l' Hc. eapply current_shrinks; [exact Hs'|]. by eapply current_shrinks.
Qed.

Lemma index_locs_current s : books s → Forall (current s) (index_locs s).
Proof.
  intros B. apply Forall_forall. intros l Hl. unfold index_locs in Hl.
  rewrite range_order_perm in Hl. apply list_elem_of_fmap in Hl as ([id l'] & -> & Hl).
  apply elem_of_map_to_list in Hl. by eapply index_current.
Qed.

Lemma forgetful_evict sz s : books s → forgetful (evictOldestMetricLocked sz) s.
Proof.
  intros B. unfold evictOldestMetricLocked, forgetful. wp_steps.
  apply forgetful_evict_loop; [done|]. unfold metric_candidates.
  rewrite sort_stable_perm. apply Forall_forall. intros l [_ Hl]%list_elem_of_filter.
  by eapply Forall_forall in Hl; [|apply index_locs_current].
Qed.

(** The quota of a class: what [roomLocked] holds the live bytes under. *)
Definition class_limit (o : Options) (priority : Z) : Z :=
  if bool_decide (PriorityJobResult < priority)
  then MaxBytes o - CriticalReserveBytes o else MaxBytes o.

Lemma roomLocked_None s p sz :
  roomLocked s p sz = None → live s + sz ≤ class_limit (options s) p.
Proof.
  unfold roomLocked, class_limit. case_bool_decide; case_bool_decide; try done; lia.
Qed.

Lemma wp_quota_decision r sz s :
  books s →
  wp (quota_decision r sz) s
    (λ v s', good s s' ∧ (v = None → live s' + sz ≤ class_limit (options s') (Priority r)))
    (λ _ s', good s s').
Proof.
  intros B. unfold quota_decision. wp_steps.
  destruct (roomLocked s (Priority r) sz) as [e|] eqn:E.
  2:{ apply wp_ret. split; [by apply good_refl|]. intros _. by apply roomLocked_None. }
  case_bool_decide; [|apply wp_ret; by split; [apply good_refl|]].
  apply wp_bind. eapply wp_mono; [by apply forgetful_evict| |]; cbv beta; [|done].
  intros b s' Hg. destruct b; [|by apply wp_ret].
  apply wp_gets. split; [done|]. apply roomLocked_None.
Qed.

(** A record of the right shape: Go's arrays [16]byte and [32]byte. *)
Definition shaped (r : Record_) : Prop := len (ID r) = 16 ∧ len (PayloadHash r) = 32.

Lemma Size_frame r : shaped r → len (frame kindRecord (encode r)) = Size r.
Proof. intros [? ?]. unfold Size. by rewrite len_frame, len_encode. Qed.

Definition capped (s s' : Spool) : Prop :=
  books s' ∧ options s' = options s ∧ live s' ≤ Z.max (live s) (MaxBytes (options s)).

Lemma good_capped s s' : good s s' → capped s s'.
Proof. intros [B (_ & _ & Hl & Ho)]. split; [done|]. split; [done|]. lia. Qed.

Lemma wp_notKept r e s (Q : unit → Spool → Prop) (R : error → Spool → Prop) :
  (∀ s', same_books s s' → R e s') → wp (notKeptLocked r e) s Q R.
Proof.
  intros HR. unfold notKeptLocked.
  destruct (Durable _); wp_steps; apply HR; [by apply same_books_heap|reflexivity].
Qed.

Lemma class_limit_max o p : 0 ≤ CriticalReserveBytes o → class_limit o p ≤ MaxBytes o.
Proof. unfold class_limit. case_bool_decide; lia. Qed.

Lemma wp_Append newID r s :
  books s → 0 ≤ CriticalReserveBytes (options s) →
  let r' := completed s newID r in
  shaped r' → index s !! ID r' = None →
  wp (Append newID (Some r)) s
    (λ _ s', capped s s' ∧ live s' ≤ class_limit (options s) (Priority r))
    (λ _ s', capped s s').
Proof.
  intros B Hres r' Hsh Hnew. unfold Append. wp_steps. fold r'.
  destruct (closed s); [apply wp_fail, good_capped, good_refl, B|].
  assert (Hpre : forgetful (if bool_decide (Stream r' = StreamInventory) && Full r'
                    then coalesceInventoryLocked (HostID r') else mret tt) s).
  { destruct (_ && _); [by apply forgetful_coalesce|forgetful_done]. }
  apply wp_bind. eapply wp_mono; [exact Hpre| |]; cbv beta; [|intros; by apply good_capped].
  intros _ s1 Hg1. apply wp_bind.
  eapply wp_mono; [apply wp_quota_decision; apply Hg1| |]; cbv beta.
  2:{ intros ? s2 Hg2. apply good_capped. by eapply good_trans. }
  intros refused s2 [Hg2 Hroom]. assert (Hg : good s s2) by (by eapply good_trans).
  destruct refused as [e|].
  { apply wp_bind, wp_modify. apply wp_notKept. intros s3 Hs3. apply good_capped.
    eapply good_trans; [exact Hg|]. apply good_same; [apply Hg|].
    etrans; [|exact Hs3]. by apply same_books_heap. }
  specialize (Hroom eq_refl). pose proof Hg as [B2 (Hi & _ & Hl & Ho)].
  apply wp_bind, wp_try. eapply wp_mono; [apply wp_writeLocked; [exact B2|]| |]; cbv beta.
  { destruct (index s2 !! ID r') as [l|] eqn:E; [|done]. apply Hi in E. congruence. }
  2:{ intros e s3 Hs3. apply wp_notKept. intros s4 Hs4. apply good_capped.
      eapply good_trans; [exact Hg|]. apply good_same; [done|]. by etrans. }
  intros ? s3 (B3 & Hl3 & Ho3 & _). rewrite Size_frame in Hl3 by done.
  assert (Hfin : ∀ s4, same_books s3 s4 →
            capped s s4 ∧ live s4 ≤ class_limit (options s) (Priority r)).
  { intros s4 Hs4. pose proof Hs4 as (_ & _ & Hl4 & _ & Ho4 & _).
    pose proof (class_limit_max (options s) (Priority r) Hres).
    rewrite Ho in Hroom. change (Priority r') with (Priority r) in Hroom.
    split; [|lia]. split; [by apply (books_same s3)|]. split; [congruence|]. lia. }
  destruct (Durable _).
  - apply wp_bind, wp_try. eapply wp_mono; [apply wp_keeps, keeps_on_active| |]; cbv beta.
    + intros ? s4 Hs4. wp_steps. apply Hfin. etrans; [exact Hs4|]. by apply same_books_heap.
    + intros e s4 Hs4. wp_steps. apply Hfin. etrans; [exact Hs4|]. by apply same_books_heap.
  - apply wp_modify. apply Hfin. by apply same_books_heap.
Qed.

Lemma forgetful_send_loop ls now s :
  books s → Forall (current s) ls → forgetful (send_loop ls now) s.
Proof.
  revert s. induction ls as [|l ls IH]; intros s B Hls; cbn [send_loop]; [forgetful_done|].
  apply Forall_cons in Hls as [Hl Hls]. unfold forgetful. apply wp_bind, wp_gets.
  assert (Hrest : ∀ s', good s s' → Forall (current s') ls).
  { intros s' [_ Hs]. eapply Forall_impl; [exact Hls|]. intros l' Hc. by eapply current_shrinks. }
  destruct (heap s !! l) as [item|]; [|by apply IH].
  apply forgetful_bind; [apply forgetful_keeps; [done|]; apply keeps_try, keeps_readLocked|].
  intros r s1 Hg1. destruct r as [record|e].
  - apply forgetful_bind.
    { apply forgetful_keeps; [apply Hg1|]. apply keeps_alter_entry, filed_mark. }
    intros ? s2 Hg2. assert (good s s2) by (by eapply good_trans).
    apply forgetful_bind; [apply IH; [apply Hg2|by apply Hrest]|].
    intros ? s3 [B3 _]. forgetful_done.
  - apply forgetful_bind; [apply forgetful_keeps; [apply Hg1|auto with keeps]|].
    intros ? s2 Hg2. assert (Hg : good s s2) by (by eapply good_trans).
    apply forgetful_bind.
    { apply forgetful_forget; [apply Hg2|]. eapply current_shrinks; [apply Hg|done]. }
    intros ? s3 Hg3. assert (good s s3) by (by eapply good_trans).
    apply IH; [apply Hg3|by apply Hrest].
Qed.

Lemma entries_at_elem s ls le : le ∈ entries_at s ls → le.1 ∈ ls ∧ heap s !! le.1 = Some le.2.
Proof.
  unfold entries_at. intros (l & Hl & Hf)%list_elem_of_omap.
  destruct (heap s !! l) eqn:E; [|done]. injection Hf as <-. done.
Qed.

Lemma due_elem s h room le :
  le ∈ due s h room →
  le.1 ∈ host_list s h ∧ heap s !! le.1 = Some le.2 ∧ in_flight (options s) (clock s) le.2 = false.
Proof.
  unfold due. intros Hle%(subseteq_take _ _ _). rewrite sort_stable_perm in Hle.
  apply list_elem_of_filter in Hle as [Hf Hle]. apply entries_at_elem in Hle as [? ?].
  split; [done|]. split; [done|]. by destruct (in_flight _ _ _).
Qed.

Lemma forgetful_Next h limit s : books s → forgetful (Next h limit) s.
Proof.
  intros B. unfold Next, forgetful. wp_steps. destruct (closed s); [by apply good_refl|].
  wp_steps. eapply wp_mono; [by apply forgetful_expire| |]; cbv beta; [|done].
  intros ? s1 Hg1. pose proof Hg1 as [B1 _]. wp_steps. case_bool_decide; [done|].
  apply wp_bind, wp_gets.
  eapply wp_mono; [|intros ? ?; by apply (good_trans _ _ _ Hg1)..].
  apply forgetful_send_loop; [done|].
  apply Forall_forall. intros l (le & -> & Hle)%list_elem_of_fmap.
  apply due_elem in Hle as [Hle _]. by eapply hosts_current.
Qed.

Lemma forgetful_delete_found s l : books s → current s l → forgetful (delete_found l) s.
Proof.
  intros B Hc. apply forgetful_bind; [by apply forgetful_try, forgetful_delete|].
  intros ? s' [B' _]. forgetful_done.
Qed.

Lemma forgetful_Ack h sess seq s : books s → forgetful (Ack h sess seq) s.
Proof.
  intros B. unfold Ack, forgetful. wp_steps. destruct (closed s); [by apply good_refl|].
  wp_steps. destruct (head _) as [[l e]|] eqn:E; [|by apply good_refl].
  apply forgetful_delete_found; [done|]. apply head_Some_elem_of in E.
  apply list_elem_of_filter in E as [_ E]. apply entries_at_elem in E as [E _].
  by eapply hosts_current.
Qed.

Lemma forgetful_AckID h id s : books s → forgetful (AckID h id) s.
Proof.
  intros B. unfold AckID, forgetful. wp_steps. destruct (closed s); [by apply good_refl|].
  wp_steps. destruct (index s !! id) as [l|] eqn:E; cbn [mbind option_bind]; [|by apply good_refl].
  destruct (heap s !! l) as [e|]; cbn [mbind option_bind]; [|by apply good_refl].
  case_bool_decide; [by apply good_refl|].
  apply forgetful_delete_found; [done|]. by eapply index_current.
Qed.

Lemma forgetful_forget_loop ls now grace last n s :
  books s → Forall (current s) ls → forgetful (forget_loop ls now grace last n) s.
Proof.
  revert n s. induction ls as [|l ls IH]; intros n s B Hls; cbn [forget_loop]; [forgetful_done|].
  apply Forall_cons in Hls as [Hl Hls]. unfold forgetful. apply wp_bind, wp_gets.
  destruct (heap s !! l) as [item|]; [|by apply IH].
  destruct (_ || _); [by apply IH|]. destruct (_ || _); [by apply IH|].
  apply forgetful_bind; [by apply forgetful_try, forgetful_delete|].
  intros r s' [B' Hs]. destruct r; [|forgetful_done].
  apply IH; [done|]. eapply Forall_impl; [exact Hls|]. intros l' Hc. by eapply current_shrinks.
Qed.

Lemma forgetful_ForgetUnacknowledged h grace last s :
  books s → forgetful (ForgetUnacknowledged h grace last) s.
Proof.
  intros B. unfold ForgetUnacknowledged, forgetful. wp_steps.
  destruct (closed s); [by apply good_refl|]. wp_steps.
  apply forgetful_forget_loop; [done|by apply host_list_current].
Qed.

Lemma forgetful_Delete id s : books s → forgetful (Delete id) s.
Proof.
  intros B. unfold Delete, forgetful. wp_steps. destruct (closed s); [by apply good_refl|].
  wp_steps. destruct (index s !! id) as [l|] eqn:E; [|by apply good_refl].
  apply forgetful_delete; [done|]. by eapply index_current.
Qed.

Lemma keeps_MarkSent id : keeps (MarkSent id).
Proof. unfold MarkSent. keeps_tac. apply keeps_alter_entry, filed_mark. Qed.

Lemma keeps_Unsend h : keeps (Unsend h).
Proof.
  unfold Unsend. apply keeps_bind; [auto with keeps|]. intros ls. apply keeps_mfor. intros l.
  by apply keeps_alter_entry.
Qed.

Lemma keeps_flush_tick : keeps flush_tick.
Proof. unfold flush_tick. keeps_tac. Qed.

Lemma keeps_Close : keeps Close.
Proof. unfold Close. keeps_tac. Qed.

(** ** The state machine *)

Inductive call :=
| CallAppend (newID : uuid) (record : option Record_)
| CallNext (hostID : string) (limit : Z)
| CallMarkSent (id : uuid)
| CallUnsend (hostID : string)
| CallAck (hostID sessionID : string) (seq : Z)
| CallAckID (hostID : string) (id : uuid)
| CallForget (hostID : string) (grace : Z) (lastNamed : time)
| CallDelete (id : uuid)
| CallFlush
| CallClose
| Weather (now : time) (fr : option Z) (fs : list outcome).

Definition invoke (c : call) (s : Spool) : Spool :=
  match c with
  | CallAppend newID record => (Append newID record s).2
  | CallNext h limit => (Next h limit s).2
  | CallMarkSent id => (MarkSent id s).2
  | CallUnsend h => (Unsend h s).2
  | CallAck h sess seq => (Ack h sess seq s).2
  | CallAckID h id => (AckID h id s).2
  | CallForget h grace last => (ForgetUnacknowledged h grace last s).2
  | CallDelete id => (Delete id s).2
  | CallFlush => (flush_tick s).2
  | CallClose => (Close s).2
  | Weather now fr fs => set_clock (λ _, now) (set_dsk (λ d, mkDisk (files d) fr fs) s)
  end.

(** What the caller owes: an identifier the index does not hold yet, which is
    what [uuid.New] gives. *)
Definition admissible (c : call) (s : Spool) : Prop :=
  match c with
  | CallAppend newID (Some r) =>
      shaped (completed s newID r) ∧ index s !! ID (completed s newID r) = None
  | _ => True
  end.

Inductive step (s : Spool) : Spool → Prop :=
| step_call c : admissible c s → step s (invoke c s).

Lemma wp_snd {A} (m : M Spool error A) s (P : Spool → Prop) :
  wp m s (λ _ s', P s') (λ _ s', P s') → P (m s).2.
Proof. unfold wp. by destruct (m s) as [[] ?]. Qed.

Lemma step_capped s s' :
  books s → 0 ≤ CriticalReserveBytes (options s) → step s s' → capped s s'.
Proof.
  intros B Hres [c Hc].
  assert (Hf : ∀ A (m : M Spool error A), forgetful m s → capped s (m s).2).
  { intros A m Hm. apply wp_snd. eapply wp_mono; [exact Hm| |]; intros ? ? ?; by apply good_capped. }
  assert (Hk : ∀ A (m : M Spool error A), keeps m → capped s (m s).2).
  { intros A m Hm. by apply Hf, forgetful_keeps. }
  destruct c as [newID [r|]|h limit|id|h|h sess seq|h id|h grace last|id| | |now fr fs]; cbn [invoke].
  - destruct Hc as [Hsh Hnew]. apply wp_snd.
    eapply wp_mono; [by apply wp_Append| |done]. by intros ? s1 [? _].
  - by apply good_capped, good_refl.
  - by apply Hf, forgetful_Next.
  - apply Hk, keeps_MarkSent.
  - apply Hk, keeps_Unsend.
  - by apply Hf, forgetful_Ack.
  - by apply Hf, forgetful_AckID.
  - by apply Hf, forgetful_ForgetUnacknowledged.
  - by apply Hf, forgetful_Delete.
  - apply Hk, keeps_flush_tick.
  - apply Hk, keeps_Close.
  - apply good_capped, good_same; [done|]. by apply same_books_heap.
Qed.

(** C28: in every state the spool can reach - whatever is called, in whatever
    order, and however the disk and the clock behave - the books agree: the
    index and the per-host lists hold exactly the same entries, no list is
    empty or names an entry twice, and the count of live bytes is the sum over
    the index; and that count never leaves the quota. *)
Theorem reachable_books_and_quota s0 s :
  books s0 → 0 ≤ CriticalReserveBytes (options s0) → live s0 ≤ MaxBytes (options s0) →
  rtc step s0 s →
  books s ∧ options s = options s0 ∧ live s ≤ MaxBytes (options s).
Proof.
  intros B Hres Hlive Hs. revert B Hres Hlive.
  induction Hs as [s|s0 s1 s Hstep Hs IH]; intros B Hres Hlive; [done|].
  destruct (step_capped _ _ B Hres Hstep) as (B1 & Ho & Hl).
  rewrite Ho in IH. destruct (IH B1 Hres ltac:(lia)) as (B2 & Ho2 & Hl2). done.
Qed.

(** A message [Append] took is within the quota of its class: a record
    outside control and job results never enters the reserve, whatever the
    older records of its class that were pushed out for it. *)
Theorem Append_respects_class_quota newID r s s' :
  books s → 0 ≤ CriticalReserveBytes (options s) →
  shaped (completed s newID r) → index s !! ID (completed s newID r) = None →
  Append newID (Some r) s = (Ok tt, s') →
  books s'
  ∧ live s' ≤ MaxBytes (options s)
             - (if bool_decide (PriorityJobResult < Priority r) then CriticalReserveBytes (options s) else 0).
Proof.
  intros B Hres Hsh Hnew HA. pose proof (wp_Append newID r s B Hres Hsh Hnew) as Hw.
  unfold wp in Hw. rewrite HA in Hw. destruct Hw as [(B' & _ & _) Hl]. split; [done|].
  unfold class_limit in Hl. case_bool_decide; lia.
Qed.

(** An acknowledgement frees what it names and nothing else: a refused or
    failing call may leave the record, but one that returns [true] without an
    error has taken exactly the record of that identifier out of the index,
    and an acknowledgement on another host's session frees nothing. *)
Theorem AckID_frees_only_its_record hostID id s b e s' :
  books s → AckID hostID id s = (Ok (b, e), s') →
  (b = false → s' = s)
  ∧ (b = true → e = None → index s' = delete id (index s) ∧ is_Some (index s !! id))
  ∧ (∀ l en, index s !! id = Some l → heap s !! l = Some en → e_hostID en ≠ hostID → s' = s ∧ b = false).
Proof.
  intros B. unfold AckID, gets, mbind, M_bind, mret, M_ret.
  destruct (closed s); [intros [= <- <- <-]; by repeat split|].
  destruct (index s !! id) as [l|] eqn:El; cbn; [|intros [= <- <- <-]; by repeat split].
  destruct (bk_index s B id l El) as (en & Hen & Hid & _). rewrite Hen. cbn.
  case_bool_decide as Hh; [intros [= <- <- <-]; by repeat split|].
  unfold delete_found, try, mbind, M_bind, mret, M_ret.
  pose proof (wp_deleteLocked s l B (index_current _ _ _ B El)) as Hw. unfold wp in Hw.
  destruct (deleteLocked l s) as [r s1]. intros [= <- <- <-].
  split; [done|]. split.
  - intros _ He. destruct r; [|done]. destruct Hw as [_ Hidx].
    split; [|by eexists]. rewrite (Hidx en Hen). by rewrite Hid.
  - intros l' en' [= <-] Hen'. congruence.
Qed.
End steps.

(** ** Concrete states *)

Lemma books_empty o d now : books (empty_spool o d now).
Proof.
  split; cbn; try done.
  - intros h l. unfold host_list. cbn. rewrite lookup_empty. set_solver.
  - intros l [? Hl]. by rewrite lookup_empty in Hl.
Qed.

(** Opening an empty directory gives the empty spool. *)
Lemma Open_empty `{Wire} `{MapOrder} o d now :
  faults d = [] → files d = ∅ → Open o d now = (Ok tt, empty_spool o d now).
Proof.
  intros Hf Hd. destruct d as [fs fr fa]. cbn in Hf, Hd. subst.
  vm_compute. reflexivity.
Qed.

(** A spool of 300-byte segments and a 20000-byte reserve on an empty disk. *)
Definition demo_options : Options := mkOptions "waw" 100000 20000 0 0 0 300 0.
Definition demo_spool : Spool := empty_spool demo_options (mkDisk ∅ None []) 5000.
Definition demo_result (n : Z) (host : string) (seq : Z) : Record_ :=
  demo_record n host (AgentMessage_TaskResult [Byte.x2a]) "s1" seq 1000.
Definition demo_append `{MapOrder} (n : Z) (host : string) (seq : Z) : M Spool error unit :=
  Append (demo_id 0) (Some (demo_result n host seq)).

Section witnesses.
#[local] Existing Instance identity_order.

(** One record of the host "h", on the disk and in the index. *)
Definition demo_held : Spool := (demo_append 1 "h" 1 demo_spool).2.

Lemma demo_held_books : books demo_held.
Proof.
  refine (proj1 (step_capped demo_spool demo_held (books_empty _ _ _) _
    (step_call demo_spool (CallAppend (demo_id 0) (Some (demo_result 1 "h" 1))) _))).
  - vm_compute. discriminate.
  - repeat split; vm_compute; reflexivity.
Qed.

Lemma reachable_books_and_quota_witness :
  books demo_held ∧ options demo_held = options demo_spool
  ∧ live demo_held ≤ MaxBytes (options demo_held).
Proof.
  refine (reachable_books_and_quota demo_spool demo_held (books_empty _ _ _) _ _
    (rtc_once _ _ (step_call demo_spool (CallAppend (demo_id 0) (Some (demo_result 1 "h" 1))) _))).
  - vm_compute. discriminate.
  - vm_compute. discriminate.
  - repeat split; vm_compute; reflexivity.
Defined.

Lemma Append_respects_class_quota_witness :
  books demo_held ∧ live demo_held ≤ MaxBytes (options demo_spool) - 0.
Proof.
  refine (Append_respects_class_quota (demo_id 0) (demo_result 1 "h" 1) demo_spool demo_held
    (books_empty _ _ _) _ _ _ _).
  - vm_compute. discriminate.
  - repeat split; vm_compute; reflexivity.
  - vm_compute. reflexivity.
  - vm_compute. reflexivity.
Defined.

Lemma AckID_frees_only_its_record_witness :
  ∃ s', AckID "h" (demo_id 1) demo_held = (Ok (true, None), s')
    ∧ index s' = delete (demo_id 1) (index demo_held) ∧ is_Some (index demo_held !! demo_id 1).
Proof.
  eexists. split; [vm_compute; reflexivity|].
  refine (proj1 (proj2 (AckID_frees_only_its_record "h" (demo_id 1) demo_held true None _
    demo_held_books _)) eq_refl eq_refl).
  vm_compute. reflexivity.
Defined.
End witnesses.
