(* ===== verification/SpoolFindings.v ===== *)
(** * SpoolFindings: where the spool does not do what it says

    The floor of the free space, a segment that could not be rolled, a write
    that stopped half way and a tombstone removed too early: each as a theorem
    on the operations of [Spool], general where the state allows it and as a
    run from an empty spool where the history is the point. *)
From S2P Require Import Prelude Bytes Text Digest SpoolRecord SpoolSegment Spool SpoolAccount SpoolSteps.

Open Scope Z_scope.

Section findings.
Context `{Wire} `{MapOrder}.

(** what the check of the quota and of the disk decides. Within the free
    space a record is let in exactly when it fits the limit of its class and
    leaves the floor free. A record larger than what is free is let in too
    (up to the end of the machine word): the subtraction wraps round, so the
    floor says nothing exactly when the disk cannot take the record. *)
Theorem roomLocked_exact s p sz fr :
  free (dsk s) = Some fr → 0 ≤ fr < 2 ^ 64 → 0 ≤ sz < 2 ^ 63 →
  0 ≤ MinFreeBytes (options s) < 2 ^ 63 →
  roomLocked s p sz = None ↔
    live s + sz ≤ class_limit (options s) p
    ∧ (sz ≤ fr → MinFreeBytes (options s) ≤ fr - sz).
Proof.
  intros Hfr Hf Hsz Hmin. unfold roomLocked, class_limit. rewrite Hfr.
  assert (Hu : u64 (fr - u64 sz) = if bool_decide (sz ≤ fr) then fr - sz else 2 ^ 64 + (fr - sz)).
  { unfold u64. rewrite (Z.mod_small sz) by lia. case_bool_decide; [rewrite Z.mod_small; lia|].
    rewrite <- (Z_mod_plus_full _ 1), Z.mod_small; lia. }
  rewrite Hu. unfold u64 at 1 2. rewrite !(Z.mod_small (MinFreeBytes _)) by lia.
  repeat case_bool_decide; try done; split; try done; try lia; intros []; lia.
Qed.

(** ** A segment that could not be rolled *)

(** The active segment is full and its handle is closed. *)
Definition stuck (s : Spool) : Prop :=
  ∃ seg, active s = Some seg ∧ opened seg = false ∧ SegmentBytes (options s) ≤ seg_size seg.

(** Nothing [m] does opens it again. *)
Definition stays {A} (m : M Spool error A) : Prop := ∀ s, stuck s → stuck (m s).2.

Lemma stays_bind {A B} (m : M Spool error A) (k : A → M Spool error B) :
  stays m → (∀ a, stays (k a)) → stays (m ≫= k).
Proof.
  intros Hm Hk s Hs. specialize (Hm s Hs). unfold mbind, M_bind.
  destruct (m s) as [[a|e] s']; [by apply Hk|done].
Qed.

Lemma stays_ret {A} (a : A) : stays (mret a).
Proof. by intros s. Qed.
Lemma stays_fail {A} e : stays (fail e : M Spool error A).
Proof. by intros s. Qed.
Lemma stays_gets {A} (f : Spool → A) : stays (gets f).
Proof. by intros s. Qed.
Lemma stays_try {A} (m : M Spool error A) : stays m → stays (try m).
Proof. intros Hm s Hs. specialize (Hm s Hs). unfold try. by destruct (m s). Qed.
Lemma stays_on_disk {A} (m : M disk error A) : stays (on_disk m).
Proof. intros s Hs. unfold on_disk. by destruct (m (dsk s)). Qed.
Lemma stays_modify f :
  (∀ s, active (f s) = active s) → (∀ s, options (f s) = options s) → stays (modify f).
Proof. intros Ha Ho s Hs. unfold stuck. cbn. by rewrite Ha, Ho. Qed.
Lemma stays_mfor {A} (l : list A) body : (∀ x, stays (body x)) → stays (mfor l body).
Proof.
  intros Hb. induction l; cbn; [apply stays_ret|]. apply stays_bind; auto.
Qed.

(** A closed handle takes no byte and no sync. *)
Lemma stays_active {A} (m : M (segment * disk) error A) :
  (∀ seg d, opened seg = false → (m (seg, d)).2.1 = seg) → stays (on_active m).
Proof.
  intros Hm s (seg & Ha & Ho & Hsz). unfold on_active. rewrite Ha.
  specialize (Hm seg (dsk s) Ho). destruct (m (seg, dsk s)) as [? [seg' ?]]. cbn in Hm.
  subst seg'. by exists seg.
Qed.

Lemma stays_append b : stays (on_active (append b)).
Proof. apply stays_active. intros seg d Ho. unfold append. by rewrite Ho. Qed.
Lemma stays_sync : stays (on_active sync).
Proof. apply stays_active. intros seg d Ho. unfold sync. by rewrite Ho. Qed.
Lemma stays_close : stays (on_active close).
Proof.
  apply stays_active. intros seg d Ho. unfold close, sync. rewrite Ho. cbn.
  destruct seg. cbn in *. by subst.
Qed.

Create HintDb stays.
Hint Resolve stays_ret stays_fail stays_gets stays_append stays_sync stays_close stays_on_disk : stays.
Ltac stays_tac := repeat first
  [ progress auto with stays
  | match goal with
    | |- stays (mbind _ _) => apply stays_bind; [|intros ?]
    | |- stays (try _) => apply stays_try
    | |- stays (mfor _ _) => apply stays_mfor; intros ?
    | |- stays (modify _) => apply stays_modify; by intros []
    | |- stays (match ?x with _ => _ end) => destruct x
    end ].

Lemma stuck_roll s : stuck s → rollLocked s = (Err ErrFileClosed, s).
Proof.
  intros (seg & Ha & Ho & _). unfold rollLocked, gets, mbind, M_bind, on_active. rewrite Ha.
  cbn. rewrite Ha. unfold close, sync. rewrite Ho. cbn. destruct s, seg. cbn in *. by subst.
Qed.
Lemma stays_roll : stays rollLocked.
Proof. intros s Hs. by rewrite stuck_roll. Qed.
Hint Resolve stays_roll : stays.

Lemma stays_roll_if_full : stays roll_if_full.
Proof. unfold roll_if_full. stays_tac. Qed.
Hint Resolve stays_roll_if_full : stays.
Lemma stays_compact_segment id : stays (compact_segment id).
Proof. unfold compact_segment, compact_item, readLocked. stays_tac. Qed.
Lemma stays_compactLocked : stays compactLocked.
Proof. pose proof stays_compact_segment. unfold compactLocked. stays_tac. Qed.
Hint Resolve stays_compactLocked : stays.

Lemma stays_deleteLocked l : stays (deleteLocked l).
Proof. unfold deleteLocked, drop_from_segment. stays_tac. Qed.
Hint Resolve stays_deleteLocked : stays.

Lemma stays_evict_loop ls sz b : stays (evict_loop ls sz b).
Proof. revert b. induction ls; intros b; cbn [evict_loop]; stays_tac. Qed.
Lemma stays_send_loop ls now : stays (send_loop ls now).
Proof. induction ls; cbn [send_loop]; unfold readLocked, forget; stays_tac. Qed.
Lemma stays_forget_loop ls now g t n : stays (forget_loop ls now g t n).
Proof. revert n. induction ls; intros n; cbn [forget_loop]; stays_tac. Qed.
Hint Resolve stays_evict_loop stays_send_loop stays_forget_loop : stays.

Lemma stays_write r : stays (writeLocked r).
Proof.
  unfold writeLocked. stays_tac. by intros s.
Qed.
Hint Resolve stays_write : stays.

Lemma stays_Append newID r : stays (Append newID r).
Proof.
  unfold Append. stays_tac.
  all: unfold coalesceInventoryLocked, quota_decision, notKeptLocked, evictOldestMetricLocked, forget.
  all: stays_tac.
Qed.

Lemma stays_invoke c s : c ≠ CallClose → stuck s → stuck (invoke c s).
Proof.
  intros Hc Hs. destruct c; cbn [invoke]; try done;
    match goal with |- stuck (?m s).2 => cut (stays m); [by auto|] | _ => idtac end.
  - apply stays_Append.
  - unfold Next, expireLocked. stays_tac.
  - unfold MarkSent. stays_tac.
  - unfold Unsend. stays_tac.
  - unfold Ack, delete_found. stays_tac.
  - unfold AckID, delete_found. stays_tac.
  - unfold ForgetUnacknowledged. stays_tac.
  - unfold Delete. stays_tac.
  - unfold flush_tick. stays_tac.
Qed.

Lemma stuck_write r s : stuck s → writeLocked r s = (Err ErrFileClosed, s).
Proof.
  intros Hs. unfold writeLocked, mbind at 1, M_bind at 1.
  assert (Hr : roll_if_full s = (Err ErrFileClosed, s)); [|by rewrite Hr].
  unfold roll_if_full, gets, mbind, M_bind, active_full. destruct (id Hs) as (seg & -> & _ & ?).
  rewrite bool_decide_eq_true_2 by done. by apply stuck_roll.
Qed.

Lemma wp_stays {A} (m : M Spool error A) s :
  stays m → stuck s → wp m s (λ _ s', stuck s') (λ _ s', stuck s').
Proof. intros Hm Hs. specialize (Hm s Hs). unfold wp. by destruct (m s) as [[] ?]. Qed.

Lemma wp_notKept_fails r e s R :
  (∀ s', R e s') → wp (notKeptLocked r e) s (λ _ _, False) R.
Proof. intros HR. unfold notKeptLocked. destruct (Durable _); by wp_steps. Qed.

Lemma stuck_Append newID r s :
  stuck s → wp (Append newID r) s (λ _ _, False) (λ _ _, True).
Proof.
  intros Hs. destruct r as [r|]; cbn [Append]; [|done]. wp_steps.
  destruct (closed s); [done|]. set (r' := completed s newID r).
  apply wp_bind. eapply wp_mono; [apply wp_stays; [|exact Hs]| |done]; cbv beta.
  { unfold coalesceInventoryLocked, forget. stays_tac. }
  intros _ s1 Hs1. apply wp_bind.
  eapply wp_mono; [apply wp_stays; [|exact Hs1]| |done]; cbv beta.
  { unfold quota_decision, evictOldestMetricLocked. stays_tac. }
  intros [e|] s2 Hs2; [apply wp_bind, wp_modify; by apply wp_notKept_fails|].
  apply wp_bind, wp_try. unfold wp at 1. rewrite stuck_write by done.
  by apply wp_notKept_fails.
Qed.

(** After a roll that closed the full segment and then failed to create
    the next one, no message is ever taken again: whatever is called, and
    however well the disk works from then on, every [Append] fails, until the
    process is restarted. *)
Theorem failed_roll_is_permanent s s' newID r :
  stuck s → rtc (λ s s', ∃ c, c ≠ CallClose ∧ s' = invoke c s) s s' →
  ∃ e, (Append newID r s').1 = Err e.
Proof.
  intros Hs Hrun. assert (Hs' : stuck s').
  { revert Hs. induction Hrun as [|s1 s2 s3 (c & Hc & ->) _ IH]; [done|].
    intros Hs. apply IH. by apply stays_invoke. }
  pose proof (stuck_Append newID r s' Hs') as Hw. unfold wp in Hw.
  destruct (Append newID r s') as [[?|e] ?]; [done|]. by exists e.
Qed.
End findings.

(** ** Runs *)

Section runs.
#[local] Existing Instance identity_order.

Definition faulty (fs : list outcome) (s : Spool) : Spool := invoke (Weather (clock s) (free (dsk s)) fs) s.
(** What a restart finds: the directory, opened again. *)
Definition reopened (s : Spool) : Spool := (Open demo_options (dsk s) (clock s)).2.
Definition held (s : Spool) : list Z := merge_sort Z.le ((e_sequence ∘ snd) <$> entries_at s (index_locs s)).

(** Three records fill the first segment; the fourth rolls it, and the disk
    refuses to create the next file once. *)
Definition demo_stuck : Spool :=
  (demo_append 4 "h" 4 (faulty [Done; Done; Refused 0]
     ((demo_append 1 "h" 1 ;; demo_append 2 "h" 2 ;; demo_append 3 "h" 3) demo_spool).2)).2.

Lemma demo_stuck_stuck : stuck demo_stuck ∧ faults (dsk demo_stuck) = [].
Proof.
  split; [|vm_compute; reflexivity].
  eexists. split; [vm_compute; reflexivity|]. split; [reflexivity|]. vm_compute. discriminate.
Qed.

Lemma failed_roll_is_permanent_witness :
  ∃ e, (demo_append 5 "h" 5 (invoke (CallAck "h" "s1" 1) demo_stuck)).1 = Err e.
Proof.
  apply (failed_roll_is_permanent demo_stuck _ (demo_id 0) (Some (demo_result 5 "h" 5))
           (proj1 demo_stuck_stuck)).
  apply rtc_once. exists (CallAck "h" "s1" 1). split; [discriminate|reflexivity].
Defined.

Lemma roomLocked_exact_witness :
  roomLocked (set_dsk (λ d, mkDisk (files d) (Some 100) []) demo_spool) PriorityJobResult 50 = None
  ↔ live demo_spool + 50 ≤ class_limit (options demo_spool) PriorityJobResult
    ∧ (50 ≤ 100 → MinFreeBytes (options demo_spool) ≤ 100 - 50).
Proof.
  refine (roomLocked_exact (set_dsk (λ d, mkDisk (files d) (Some 100) []) demo_spool)
            PriorityJobResult 50 100 eq_refl _ _ _); vm_compute; split; (discriminate || reflexivity).
Defined.

(** Acknowledged in the first segment, buried in the second; the second dies
    while the first lives. *)
Definition demo_acked : Spool :=
  ((demo_append 1 "h" 1 ;; demo_append 2 "h" 2 ;; demo_append 3 "h" 3 ;; Ack "h" "s1" 1 ;;
    demo_append 4 "h" 4 ;; demo_append 5 "h" 5 ;; demo_append 6 "h" 6 ;; demo_append 7 "h" 7 ;;
    Ack "h" "s1" 4 ;; Ack "h" "s1" 5 ;; Ack "h" "s1" 6) demo_spool).2.

(** an acknowledged record can come back after a restart, on a disk that
    never failed: its tombstone went with the segment it was written to, while
    the segment of the record was still there. *)
Theorem acknowledged_record_returns :
  held demo_acked = [2; 3; 7] ∧ held (reopened demo_acked) = [1; 2; 3; 7].
Proof. vm_compute. split; reflexivity. Qed.

(** The write of record 1 is refused after 20 bytes. *)
Definition demo_short : Spool :=
  (demo_append 1 "h" 1 (faulty [Done; Done; Refused 20] demo_spool)).2.

(** after a write the disk refused part of, the following durable messages
    are reported kept, but they are behind bytes no reader gets past: they
    cannot be read back to be sent, and a restart cuts them off. *)
Theorem short_write_loses_what_follows :
  faults (dsk demo_short) = []
  ∧ let '(r, s) := demo_append 2 "h" 2 demo_short in
    r = Ok tt ∧ held s = [2] ∧ (Next "h" 0 s).1 = Ok [] ∧ held (reopened s) = [].
Proof. vm_compute. repeat split. Qed.
End runs.
