(* ===== verification/CampaignStates.v ===== *)
(** * CampaignStates: the states of a campaign and of its hosts

    The enumerations of src/internal/campaigns/model.go with their predicates and
    moves, and the sets the SQL of the package shares (states.go). *)
From S2P Require Import Prelude.

Open Scope Z_scope.
Open Scope list_scope.

(** ** Campaigns *)

Inductive State :=
| StatePlanning | StatePlanned | StateAwaitingApproval | StateCanary | StateManualGate | StateRunning
| StatePausing | StatePaused | StateCanceling
| StateCompleted | StateCompletedWithIssues | StateFailed | StatePlanFailed | StateExpired | StateCanceled.
#[export] Instance State_eq_dec : EqDecision State. Proof. solve_decision. Defined.

Definition state_text (s : State) : string :=
  match s with
  | StatePlanning => "planning" | StatePlanned => "planned" | StateAwaitingApproval => "awaiting_approval"
  | StateCanary => "canary" | StateManualGate => "manual_gate" | StateRunning => "running"
  | StatePausing => "pausing" | StatePaused => "paused" | StateCanceling => "canceling"
  | StateCompleted => "completed" | StateCompletedWithIssues => "completed_with_issues" | StateFailed => "failed"
  | StatePlanFailed => "plan_failed" | StateExpired => "expired" | StateCanceled => "canceled"
  end.

Definition Active (s : State) : bool := bool_decide (s = StateCanary) || bool_decide (s = StateRunning).
Definition Terminal (s : State) : bool :=
  match s with
  | StateCompleted | StateCompletedWithIssues | StateFailed | StatePlanFailed | StateExpired | StateCanceled => true
  | _ => false
  end.
Definition Launching (s : State) : bool :=
  bool_decide (s = StatePlanning) || bool_decide (s = StatePlanned) || bool_decide (s = StateCanary)
  || bool_decide (s = StateRunning).

Definition PausableStates : list State := [StatePlanned; StateCanary; StateManualGate; StateRunning].

(** [State.mayBecome]. *)
Definition mayBecome (s to : State) : bool :=
  if Terminal s || bool_decide (s = to) then false
  else match to with
  | StateCanary | StateRunning => bool_decide (s ∈ [StatePlanned; StateCanary])
  | StateManualGate => bool_decide (s ∈ [StatePlanned; StateCanary; StateRunning])
  | StatePausing => bool_decide (s ∈ PausableStates)
  | StatePaused => bool_decide (s ∈ PausableStates) || bool_decide (s = StatePausing)
  | StateExpired => bool_decide (s ∈ [StatePlanned; StateAwaitingApproval])
  | StatePlanFailed => bool_decide (s = StatePlanning)
  | StateCompleted | StateCompletedWithIssues | StateFailed =>
      bool_decide (s ∈ [StatePlanning; StatePlanned; StateCanary; StateRunning])
  | StateCanceled => bool_decide (s = StateCanceling)
  | _ => false
  end.

(** ** Hosts of a campaign *)

Inductive TargetState :=
| TargetPending | TargetPlanning | TargetAwaitingBudget | TargetIneligible | TargetExcluded | TargetQueuedOffline
| TargetDispatched | TargetAwaitingLock | TargetRunning | TargetRebooting | TargetVerifying
| TargetSucceeded | TargetNoChange | TargetFailed | TargetUnknown | TargetSkipped | TargetCanceled.
#[export] Instance TargetState_eq_dec : EqDecision TargetState. Proof. solve_decision. Defined.

Definition target_text (s : TargetState) : string :=
  match s with
  | TargetPending => "pending" | TargetPlanning => "planning" | TargetAwaitingBudget => "awaiting_budget"
  | TargetIneligible => "ineligible" | TargetExcluded => "excluded" | TargetQueuedOffline => "queued_offline"
  | TargetDispatched => "dispatched" | TargetAwaitingLock => "awaiting_lock" | TargetRunning => "running"
  | TargetRebooting => "rebooting" | TargetVerifying => "verifying" | TargetSucceeded => "succeeded"
  | TargetNoChange => "no_change" | TargetFailed => "failed" | TargetUnknown => "unknown"
  | TargetSkipped => "skipped" | TargetCanceled => "canceled"
  end.

Definition Waiting (t : TargetState) : bool := bool_decide (t ∈ [TargetPending; TargetAwaitingBudget; TargetQueuedOffline]).
Definition UnderWay (t : TargetState) : bool :=
  match t with TargetDispatched | TargetAwaitingLock | TargetRunning | TargetRebooting | TargetVerifying => true | _ => false end.
Definition Succeeded (t : TargetState) : bool := bool_decide (t = TargetSucceeded) || bool_decide (t = TargetNoChange).
Definition Finished (t : TargetState) : bool :=
  match t with
  | TargetSucceeded | TargetNoChange | TargetFailed | TargetUnknown | TargetSkipped | TargetCanceled
  | TargetIneligible | TargetExcluded => true
  | _ => false
  end.

(** [TargetState.mayBecome]. *)
Definition target_mayBecome (t to : TargetState) : bool :=
  if Finished t then false
  else if bool_decide (t = to) then true
  else if Finished to then true
  else match to with
  | TargetPending => bool_decide (t ∈ [TargetAwaitingBudget; TargetQueuedOffline; TargetPlanning])
  | TargetAwaitingBudget | TargetQueuedOffline | TargetPlanning => Waiting t || bool_decide (t = TargetPlanning)
  | TargetDispatched => Waiting t || bool_decide (t ∈ [TargetAwaitingLock; TargetRunning])
  | TargetAwaitingLock | TargetRunning => Waiting t || bool_decide (t ∈ [TargetDispatched; TargetAwaitingLock; TargetRunning])
  | TargetRebooting => bool_decide (t ∈ [TargetDispatched; TargetAwaitingLock; TargetRunning])
  | TargetVerifying => bool_decide (t ∈ [TargetDispatched; TargetAwaitingLock; TargetRunning; TargetRebooting])
  | _ => false
  end.

(** ** The sets of the SQL *)

Definition AllStates : list State :=
  [StatePlanning; StatePlanned; StateAwaitingApproval; StateCanary; StateManualGate; StateRunning; StatePausing;
   StatePaused; StateCanceling; StateCompleted; StateCompletedWithIssues; StateFailed; StatePlanFailed; StateExpired;
   StateCanceled].
(** [unfinishedStates] and [withoutState]. *)
Definition UnfinishedStates : list State := filter (λ s, Terminal s = false) AllStates.
Definition withoutState (states : list State) (drop : State) : list State := filter (λ s, s ≠ drop) states.
Definition DrivenStates : list State := withoutState UnfinishedStates StatePaused.

Definition InFlightTargetStates : list TargetState :=
  [TargetDispatched; TargetAwaitingLock; TargetRunning; TargetRebooting; TargetVerifying].
Definition UnstartedTargetStates : list TargetState :=
  [TargetPending; TargetPlanning; TargetAwaitingBudget; TargetQueuedOffline].
Definition OpenTargetStates : list TargetState := UnstartedTargetStates ++ InFlightTargetStates.
Definition ClaimedTargetStates : list TargetState := [TargetPlanning] ++ InFlightTargetStates.

(** ** The sets agree with the predicates *)

Lemma AllStates_all s : s ∈ AllStates.
Proof. destruct s; repeat first [by left|right]. Qed.
Lemma AllStates_NoDup : NoDup AllStates.
Proof. by apply (bool_decide_unpack _). Qed.

Lemma UnfinishedStates_spec s : s ∈ UnfinishedStates ↔ Terminal s = false.
Proof. unfold UnfinishedStates. rewrite list_elem_of_filter. split; [by intros []|]. split; [done|apply AllStates_all]. Qed.
Lemma DrivenStates_spec s : s ∈ DrivenStates ↔ Terminal s = false ∧ s ≠ StatePaused.
Proof.
  unfold DrivenStates, withoutState. rewrite list_elem_of_filter, UnfinishedStates_spec. naive_solver.
Qed.
Lemma InFlight_spec t : t ∈ InFlightTargetStates ↔ UnderWay t = true.
Proof. split; [intros H; repeat (apply elem_of_cons in H as [->|H]; [done|]); by apply elem_of_nil in H|]. destruct t; try done; intros _; repeat first [by left|right]. Qed.
Lemma Open_spec t : t ∈ OpenTargetStates ↔ Finished t = false.
Proof.
  split; [intros H; repeat (apply elem_of_cons in H as [->|H]; [done|]); by apply elem_of_nil in H|].
  destruct t; try done; intros _; repeat first [by left|right].
Qed.

(** What is open has not started or is under way, and not both. *)
Lemma Unstarted_or_UnderWay t : Finished t = false ↔ t ∈ UnstartedTargetStates ∨ UnderWay t = true.
Proof.
  rewrite <- Open_spec, <- InFlight_spec. unfold OpenTargetStates. by rewrite elem_of_app.
Qed.
Lemma Unstarted_not_UnderWay t : t ∈ UnstartedTargetStates → UnderWay t = false.
Proof. intros H. repeat (apply elem_of_cons in H as [->|H]; [done|]). by apply elem_of_nil in H. Qed.

(** ** What a move keeps *)

Lemma Finished_is_final t to : Finished t = true → target_mayBecome t to = false.
Proof. unfold target_mayBecome. by intros ->. Qed.
Lemma Terminal_is_final s to : Terminal s = true → mayBecome s to = false.
Proof. unfold mayBecome. by intros ->. Qed.

(** A host under way never goes back to waiting. *)
Lemma UnderWay_never_waits t to : UnderWay t = true → target_mayBecome t to = true → Waiting to = false ∧ to ≠ TargetPlanning.
Proof. destruct t, to; try done; vm_compute; by repeat split. Qed.
(** A host starts its change from the queue. *)
Lemma start_from_the_queue t to :
  UnderWay t = false → UnderWay to = true → target_mayBecome t to = true → Waiting t = true.
Proof. by destruct t, to. Qed.
