(* ===== verification/Campaigns.v ===== *)
(** * Campaigns: what a pass decides from the rows it read

    The records and the decisions of src/internal/campaigns that look at nothing
    but their arguments: model.go, the placement of store.go, the waves of
    orchestrator.go, the verdicts of progress.go, steps.go, retry.go and
    compensation.go. Words for people are left out where they are formatted;
    codes, keys and states are the code's. *)
From S2P Require Import Prelude Bytes Text Actions ActionTables Registry JobState Jobs CampaignStates.

Open Scope Z_scope.
Open Scope list_scope.

(** ** The records *)

Definition RebootNever : string := "never".
Definition RebootIfRequired : string := "if_required".
Definition RebootAlways : string := "always".
Definition KnownRebootPolicy (policy : string) : bool := bool_decide (policy ∈ [RebootNever; RebootIfRequired; RebootAlways]).

Definition WaveNone : Z := -1.

(** The rows of campaigns and campaign_targets, as far as the engine reads
    them. *)
Record Campaign := mkCampaign {
  c_ActionType : ActionType;
  c_State : State;
  c_CanarySize : Z; c_WaveSize : Z; c_MaxConcurrent : Z;
  c_FailureThresholdPercent : Z; c_FailureThresholdAbsolute : Z;
  c_MaintenanceStart : option time; c_MaintenanceEnd : option time;
  c_RebootPolicy : string; c_HealthCheckUnits : list string;
  c_JobTimeoutSeconds : Z; c_RebootTimeoutSeconds : Z;
  c_RequiresApproval : bool;
  c_OfflinePolicy : OfflinePolicyName; c_DeadlineAt : option time;
  c_ManualGate : bool; c_GateAdvancedBy : string; c_GateAdvancedAt : option time;
  c_ConnectivityLostAbsolute : Z;
  c_ApprovalFingerprint : string; c_PlanSetHash : string;
  c_ApprovedBy : string; c_ApprovedAt : option time;
  c_PausedBy : option string; c_PausedAt : option time; c_PauseReason : option string;
  c_CanceledBy : string; c_CanceledAt : option time;
  c_CreatedBy : string; c_CompensatesCampaignID : string;
  c_StartedAt : option time; c_FinishedAt : option time;
  c_Revision : Z;
  c_RunnerID : option string; c_RunnerToken : Z; c_RunnerUntil : option time }.

Record Target := mkTarget {
  t_CampaignID : string; t_HostID : string; t_Wave : Z; t_Position : Z;
  t_State : TargetState;
  t_JobID : option string; t_RebootJobID : option string; t_HealthJobID : option string; t_PlanJobID : option string;
  t_BootIDBefore : string;
  t_ErrorCode : string; t_Blocker : string;
  t_StartedAt : option time; t_FinishedAt : option time; t_StateSince : option time;
  t_Revision : Z;
  t_ClaimedBy : option string; t_ClaimToken : Z; t_ClaimUntil : option time;
  t_CancelRequestedAt : option time }.

(** ** The order *)

Record Spec := mkSpec {
  sp_Name : string; sp_ActionType : ActionType;
  sp_CanarySize : Z; sp_WaveSize : Z; sp_MaxConcurrent : Z;
  sp_FailureThresholdPercent : Z; sp_FailureThresholdAbsolute : Z;
  sp_MaintenanceStart : option time; sp_MaintenanceEnd : option time;
  sp_RebootPolicy : string; sp_HealthCheckUnits : list string;
  sp_JobTimeoutSeconds : Z; sp_RebootTimeoutSeconds : Z; sp_RequiresApproval : bool;
  sp_OfflinePolicy : OfflinePolicyName; sp_DeadlineMinutes : Z; sp_ManualGate : bool;
  sp_ConnectivityLostAbsolute : Z; sp_CreatedBy : string; sp_IdempotencyKey : string;
  sp_CompensatesCampaignID : string }.

Definition DefaultDeadline : Z := 24 * hour.
Definition Deadline (s : Spec) : Z :=
  if bool_decide (sp_DeadlineMinutes s ≤ 0) then DefaultDeadline else sp_DeadlineMinutes s * minute.

Definition DefaultRebootTimeout : Z := 15 * minute.
Definition MinRebootTimeout : Z := minute.
Definition MaxRebootTimeout : Z := 2 * hour.
Definition rebootTimeoutOf (seconds : Z) : Z := if bool_decide (seconds ≤ 0) then DefaultRebootTimeout else seconds * second.
Definition RebootTimeout (s : Spec) : Z := rebootTimeoutOf (sp_RebootTimeoutSeconds s).
Definition Campaign_RebootTimeout (c : Campaign) : Z := rebootTimeoutOf (c_RebootTimeoutSeconds c).

(** [Validate]: whether the description holds together. *)
Definition after (a b : time) : bool := bool_decide (b < a).
Definition Spec_Validate (s : Spec) : bool :=
  negb (bool_decide (sp_Name s = ""))
  && bool_decide (0 < sp_WaveSize s)
  && bool_decide (0 < sp_MaxConcurrent s)
  && bool_decide (0 ≤ sp_CanarySize s)
  && bool_decide (0 ≤ sp_FailureThresholdPercent s ≤ 100)
  && KnownRebootPolicy (sp_RebootPolicy s)
  && match sp_MaintenanceStart s, sp_MaintenanceEnd s with Some start, Some stop => after stop start | _, _ => true end
  && (bool_decide (sp_OfflinePolicy s = "") || KnownOfflinePolicy (sp_OfflinePolicy s))
  && (bool_decide (sp_RebootTimeoutSeconds s = 0)
      || bool_decide (MinRebootTimeout / second ≤ sp_RebootTimeoutSeconds s ≤ MaxRebootTimeout / second))
  && bool_decide (0 ≤ sp_DeadlineMinutes s)
  && bool_decide (0 ≤ sp_ConnectivityLostAbsolute s)
  && negb (sp_ManualGate s && bool_decide (sp_CanarySize s ≤ 0)).

(** ** The waves *)

Definition AssignWave (index canarySize waveSize : Z) : Z * Z :=
  if bool_decide (index < canarySize) then (0, index)
  else let remaining := index - canarySize in (Z.quot remaining waveSize + 1, Z.rem remaining waveSize).

(** A host picked for a campaign; [None] is a host that may run. *)
Record TargetHost := mkTargetHost { th_ID : string; th_BootID : string; th_State : option TargetState; th_Reason : string }.
Record targetPlacement := mkPlacement { pl_Host : TargetHost; pl_State : TargetState; pl_Wave : Z; pl_Position : Z }.

Fixpoint place_from (hosts : list TargetHost) (canarySize waveSize ready aside : Z) : list targetPlacement :=
  match hosts with
  | [] => []
  | host :: hosts =>
      let state := default TargetPending (th_State host) in
      if bool_decide (state = TargetPending) then
        let '(wave, position) := AssignWave ready canarySize waveSize in
        mkPlacement host state wave position :: place_from hosts canarySize waveSize (ready + 1) aside
      else mkPlacement host state WaveNone aside :: place_from hosts canarySize waveSize ready (aside + 1)
  end.
Definition placeTargets (hosts : list TargetHost) (canarySize waveSize : Z) : list targetPlacement :=
  place_from hosts canarySize waveSize 0 0.

Definition StateQueuedOrApproval (requiresApproval : bool) : State :=
  if requiresApproval then StateAwaitingApproval else StatePlanned.

Definition Participates (t : Target) : bool := negb (bool_decide (t_Wave t = WaveNone)).
Definition HoldsWave (t : Target) : bool :=
  if Finished (t_State t) then false
  else negb (bool_decide (t_State t = TargetQueuedOffline)) || bool_decide (t_Wave t = 0).

Definition activeTargets (targets : list Target) : Z :=
  len (filter (λ t, negb (Finished (t_State t)) && negb (Waiting (t_State t)) = true) targets).
Definition allFinished (targets : list Target) : bool := forallb (λ t, Finished (t_State t)) targets.

Fixpoint currentWave_from (wave : Z) (targets : list Target) : Z :=
  match targets with
  | [] => wave
  | t :: targets =>
      if negb (HoldsWave t) then currentWave_from wave targets
      else if bool_decide (wave < 0) || bool_decide (t_Wave t < wave) then currentWave_from (t_Wave t) targets
      else currentWave_from wave targets
  end.
Definition currentWave (targets : list Target) : Z := currentWave_from (-1) targets.

Definition waveFinished (targets : list Target) (wave : Z) : bool :=
  if bool_decide (wave < 0) then true
  else forallb (λ t, negb (bool_decide (t_Wave t = wave) && HoldsWave t)) targets.

(** ** The stop rules and the verdict *)

Definition ConnectivityLostCode : string := "lease_expired".
Definition OutcomeUnknownCode : string := "outcome_unknown".
Definition ContainerNotFoundCode : string := "container_not_found".
Definition CancelAckTimeoutCode : string := "cancel_ack_timeout".
Definition SkippedByOperatorCode : string := "skipped_by_operator".
Definition RebootWindowClosedCode : string := "reboot_window_closed".
Definition PlanTTL : Z := 24 * hour.

Definition ConnectivityLost (t : Target) : bool :=
  bool_decide (t_State t = TargetUnknown) && bool_decide (t_ErrorCode t = ConnectivityLostCode).
Definition RebootWindowClosed (t : Target) : bool :=
  bool_decide (t_State t = TargetFailed) && bool_decide (t_ErrorCode t = RebootWindowClosedCode).

Record targetTally := mkTally {
  Total : Z; tally_Finished : Z; tally_Succeeded : Z; tally_Failed : Z; tally_Unknown : Z; tally_Skipped : Z; Lost : Z }.

Definition b1 (b : bool) : Z := if b then 1 else 0.
Definition tally_one (counts : targetTally) (t : Target) : targetTally :=
  if negb (Participates t) then counts
  else
    let in_state s := b1 (bool_decide (t_State t = s)) in
    mkTally (Total counts + 1) (tally_Finished counts + b1 (Finished (t_State t)))
      (tally_Succeeded counts + in_state TargetSucceeded + in_state TargetNoChange)
      (tally_Failed counts + in_state TargetFailed + in_state TargetUnknown)
      (tally_Unknown counts + in_state TargetUnknown) (tally_Skipped counts + in_state TargetSkipped)
      (Lost counts + b1 (ConnectivityLost t)).
Definition tallyTargets (targets : list Target) : targetTally := fold_left tally_one targets (mkTally 0 0 0 0 0 0 0).

Definition settleCampaignState (counts : targetTally) : State :=
  if bool_decide (0 < tally_Failed counts) && bool_decide (tally_Succeeded counts = 0) then StateFailed
  else if bool_decide (0 < tally_Failed counts) then StateCompletedWithIssues
  else StateCompleted.

Definition cancelSettled (targets : list Target) : bool := forallb (λ t, negb (UnderWay (t_State t))) targets.
Definition pauseState (targets : list Target) : State := if cancelSettled targets then StatePaused else StatePausing.

(** [plansExpired]; no oldest plan is the zero time. *)
Definition plansExpired (oldestPlan : option time) (started : option time) (now : time) : bool :=
  match started, oldestPlan with
  | None, Some oldest => bool_decide (PlanTTL < time_sub now oldest)
  | _, _ => false
  end.

Inductive stop_reason := AbsoluteReached (failed threshold : Z) | ShareReached (percent threshold : Z).
Definition ThresholdExceeded (failed finished percentThreshold absoluteThreshold : Z) : option stop_reason :=
  if bool_decide (0 < absoluteThreshold) && bool_decide (absoluteThreshold ≤ failed)
  then Some (AbsoluteReached failed absoluteThreshold)
  else if bool_decide (0 < percentThreshold) && bool_decide (0 < finished) then
    let percent := Z.quot (failed * 100) finished in
    if bool_decide (percentThreshold ≤ percent) then Some (ShareReached percent percentThreshold) else None
  else None.

Definition WithinMaintenanceWindow (now : time) (start stop : option time) : bool :=
  match start with Some s => negb (bool_decide (now < s)) | None => true end
  && match stop with Some e => negb (after now e) | None => true end.

Definition pastDeadline (c : Campaign) (now : time) : bool :=
  match c_DeadlineAt c with Some deadline => after now deadline | None => false end.

(** [canaryExercisedNothing]: the first canary host on which the change took
    place decides. *)
Fixpoint exercised_from (absent : bool) (targets : list Target) : bool :=
  match targets with
  | [] => absent
  | t :: targets =>
      if negb (bool_decide (t_Wave t = 0)) then exercised_from absent targets
      else if Succeeded (t_State t) then false
      else exercised_from (absent || bool_decide (t_State t = TargetSkipped) && bool_decide (t_ErrorCode t = ContainerNotFoundCode)) targets
  end.
Definition canaryExercisedNothing (c : Campaign) (targets : list Target) : bool :=
  if bool_decide (c_CanarySize c ≤ 0) then false else exercised_from false targets.

(** ** The steps of a host *)

Inductive StepKey := StepPlan | StepExecute | StepReboot | StepVerify | StepCompensate.
Inductive StepState := StepPending | StepRunning | StepSucceeded | StepFailed | StepSkipped | StepCanceled.
#[export] Instance StepKey_eq_dec : EqDecision StepKey. Proof. solve_decision. Defined.
#[export] Instance StepState_eq_dec : EqDecision StepState. Proof. solve_decision. Defined.

Definition Step_Open (s : StepState) : bool := bool_decide (s = StepPending) || bool_decide (s = StepRunning).

Record stepOutcome := mkOutcome { so_Key : StepKey; so_State : StepState; so_Reason : string }.

Definition stepReason (code message : string) : string :=
  if bool_decide (code = "") then message else if bool_decide (message = "") then code else code +:+ ": " +:+ message.

Definition runningStep (s : TargetState) : option StepKey :=
  match s with
  | TargetPlanning => Some StepPlan
  | TargetDispatched | TargetAwaitingLock | TargetRunning => Some StepExecute
  | TargetRebooting => Some StepReboot
  | TargetVerifying => Some StepVerify
  | _ => None
  end.
Definition nextStep (campaign : State) : StepKey := if bool_decide (campaign = StatePlanning) then StepPlan else StepExecute.
Definition stepStateOf (s : TargetState) : StepState :=
  match s with
  | TargetSucceeded | TargetNoChange | TargetIneligible => StepSucceeded
  | TargetFailed | TargetUnknown => StepFailed
  | TargetSkipped => StepSkipped
  | TargetCanceled => StepCanceled
  | _ => StepPending
  end.

Definition settledOutcomes (campaign : State) (from to : TargetState) (code message : string) : list stepOutcome :=
  let reason := stepReason code message in
  match runningStep from with
  | Some key => [mkOutcome key (stepStateOf to) reason]
  | None =>
      if negb (Waiting from) then []
      else if bool_decide (stepStateOf to = StepSucceeded) then []
      else [mkOutcome (nextStep campaign) (stepStateOf to) reason]
  end.

Definition dependencyOf (key : StepKey) (planned rebooted : bool) : option StepKey :=
  match key with
  | StepExecute => if planned then Some StepPlan else None
  | StepReboot => Some StepExecute
  | StepVerify => Some (if rebooted then StepReboot else StepExecute)
  | StepCompensate => Some StepExecute
  | StepPlan => None
  end.

(** ** The verdict on a task that ended *)

Definition orDefault (value fallback : string) : string := if bool_decide (value = "") then fallback else value.

(** [taskStanding] over the wait reason of the job. *)
Definition taskStanding (state : JobState.State) (waitReason : string) : TargetState * string :=
  match LockBlocker waitReason with
  | Some blocker => (TargetAwaitingLock, blocker)
  | None => if bool_decide (state = JobState.StateRunning) then (TargetRunning, "") else (TargetDispatched, "")
  end.

Definition job_state_text (s : JobState.State) : string :=
  match s with
  | JobState.StatePlanned => "planned" | JobState.StateAwaitingApproval => "awaiting_approval" | JobState.StateQueued => "queued"
  | JobState.StateLeased => "leased" | JobState.StateDispatched => "dispatched" | JobState.StateRunning => "running"
  | JobState.StateCancelRequested => "cancel_requested" | JobState.StateSucceeded => "succeeded"
  | JobState.StateFailed => "failed" | JobState.StateTimedOut => "timed_out" | JobState.StateCanceled => "canceled"
  | JobState.StateExpired => "expired"
  end.

Record jobVerdict := mkVerdict { jv_State : JobState.State; jv_ErrorCode : string; jv_Lost : bool; jv_NoChange : bool }.
Definition targetOutcome (v : jobVerdict) : TargetState * string :=
  if bool_decide (jv_State v = JobState.StateSucceeded) && jv_NoChange v then (TargetNoChange, "")
  else if bool_decide (jv_State v = JobState.StateSucceeded) then (TargetSucceeded, "")
  else if jv_Lost v then (TargetUnknown, ConnectivityLostCode)
  else if bool_decide (jv_ErrorCode v = OutcomeUnknownCode) then (TargetUnknown, OutcomeUnknownCode)
  else if bool_decide (jv_ErrorCode v = CancelAckTimeoutCode) then (TargetUnknown, CancelAckTimeoutCode)
  else if bool_decide (jv_State v = JobState.StateCanceled) then (TargetCanceled, "canceled")
  else if bool_decide (jv_ErrorCode v = ContainerNotFoundCode) then (TargetSkipped, ContainerNotFoundCode)
  else (TargetFailed, orDefault (jv_ErrorCode v) (job_state_text (jv_State v))).

(** [latestResultAttempt], over status and error code of the attempts, oldest
    first. *)
Definition latestResultAttempt (attempts : list (string * attempt)) : option attempt :=
  last (filter (λ a, AttemptCarriesResult (default "" (a_status a)) (default "" (a_error_code a)) = true) (snd <$> attempts)).

Definition rebootOrderedAt (t : Target) : option time :=
  match t_StateSince t with Some since => Some since | None => t_StartedAt t end.
Definition RebootShown (before after_ : string) : bool :=
  negb (bool_decide (before = "")) && negb (bool_decide (after_ = "")) && negb (bool_decide (before = after_)).

(** [judgeReboot]: [None] while the host is still waited for. *)
Definition judgeReboot (since : time) (windowEnd : option time) (timeout : Z) (now : time) : option string :=
  if match windowEnd with Some e => after now e | None => false end then Some RebootWindowClosedCode
  else if bool_decide (timeout < time_sub now since) then Some "reboot_timeout"
  else None.

(** [rebootNeeded] for what the result of the change says. *)
Definition rebootNeeded (c : Campaign) (required : bool) : bool :=
  if bool_decide (c_RebootPolicy c = RebootNever) then false
  else if bool_decide (c_RebootPolicy c = RebootAlways) then true else required.

(** ** Retries and compensations *)

Definition CodeCampaignNotFinished : string := "campaign_not_finished".
Definition CodeNothingToRetry : string := "nothing_to_retry".
Definition RetryTargets (original : Campaign) (targets : list Target) (includeUnknown : bool) : result string (list Target) :=
  if negb (Terminal (c_State original)) then Err CodeCampaignNotFinished
  else
    let picked := filter (λ t, bool_decide (t_State t = TargetFailed) || includeUnknown && bool_decide (t_State t = TargetUnknown) = true) targets in
    if bool_decide (picked = []) then Err CodeNothingToRetry else Ok picked.

Definition CodeCompensatedCampaignNotSettled : string := "compensated_campaign_not_settled".
Definition CodeNotReverseOperation : string := "not_reverse_operation".
Definition CodeNothingToCompensate : string := "nothing_to_compensate".
Definition CodeCompensationTargetUnchanged : string := "compensation_target_unchanged".
Definition CheckCompensation (original : Campaign) (action : ActionType) (changed : list Target) (hosts : list string) : result string unit :=
  if negb (Terminal (c_State original)) then Err CodeCompensatedCampaignNotSettled
  else match ReverseAction (c_ActionType original) with
  | None => Err CodeNotReverseOperation
  | Some reverse =>
      if negb (bool_decide (action = reverse)) then Err CodeNotReverseOperation
      else if bool_decide (changed = []) then Err CodeNothingToCompensate
      else if forallb (λ host, bool_decide (host ∈ t_HostID <$> changed)) hosts then Ok tt
      else Err CodeCompensationTargetUnchanged
  end.

Definition orReason (reason fallback : string) : string := if bool_decide (reason = "") then fallback else reason.
Definition compensationOutcome (s : TargetState) (code message : string) : StepState * string :=
  let reason := stepReason code message in
  match s with
  | TargetSucceeded => (StepSucceeded, reason)
  | TargetNoChange => (StepSucceeded, orReason reason "the host already held the state the compensation brings back")
  | TargetSkipped | TargetIneligible | TargetExcluded => (StepSkipped, orReason reason ("the compensating host was " +:+ target_text s))
  | TargetCanceled => (StepCanceled, orReason reason "the compensating campaign was canceled")
  | _ => (StepFailed, orReason reason ("the compensating change ended " +:+ target_text s))
  end.

(** ** Planning *)

Inductive planStep := planNothing | planOrder | planCollect | planCollectUnmoved | planRecheckOffline.
Definition planStepFor (t : Target) : planStep :=
  if Finished (t_State t) then planNothing
  else if bool_decide (t_State t = TargetPending) && negb (bool_decide (t_PlanJobID t = None)) then planCollectUnmoved
  else if bool_decide (t_State t = TargetPending) then planOrder
  else if bool_decide (t_State t = TargetPlanning) then planCollect
  else if bool_decide (t_State t = TargetQueuedOffline) then planRecheckOffline
  else planNothing.
