(* ===== verification/CampaignStore.v ===== *)
(** * CampaignStore: the tables of the campaigns and what writes them

    store.go, claims.go and steps.go of src/internal/campaigns: every statement
    or transaction is one operation over the tables, which hold the tasks of
    Jobs.v beside the campaigns. A write names the revision and the token its
    writer read. [now()] is the clock of the database. *)
From coqutil Require Import Datatypes.RecordSetters.
From S2P Require Import Prelude Bytes Text Actions ActionTables Registry JobState Jobs CampaignStates Campaigns.

Import OCamlLikeNotations.
Open Scope Z_scope.
Open Scope list_scope.

(** ** Tables *)

(** A row of campaign_steps; its key is the target, the kind of step and the
    digest of the plan, empty for none: the index takes two nulls for one. *)
Record Step := mkStep {
  st_State : StepState; st_DependsOn : option StepKey; st_JobID : option string; st_Reason : string;
  st_Attempts : Z; st_StartedAt : option time; st_FinishedAt : option time }.
#[export] Instance StepKey_countable : Countable StepKey.
Proof.
  refine (inj_countable'
    (λ k, match k with StepPlan => 0%nat | StepExecute => 1%nat | StepReboot => 2%nat | StepVerify => 3%nat | StepCompensate => 4%nat end)
    (λ n, match n with 0%nat => StepPlan | 1%nat => StepExecute | 2%nat => StepReboot | 3%nat => StepVerify | _ => StepCompensate end) _).
  by intros [].
Defined.
Definition step_key : Type := string * StepKey * string.

Record CDB := mkCDB {
  job_tables : Jobs.DB;
  campaigns : gmap string Campaign;
  targets : gmap string Target;
  steps : gmap step_key Step;
  plans : gmap (string * string) (string * time);
}.

Definition clock (d : CDB) : time := Jobs.now (job_tables d).

Inductive cerr :=
| CErrNotFound | CErrConflict | CErrNoTargets | CErrRepeated | CErrKeyReused | ErrConcurrentTransition | ErrIllegalTransition
| ErrLeaseLost | ErrSkipNotAllowed | ErrStep | ErrJob (e : Jobs.err) | ErrWorld.

Abbreviation C := (M CDB cerr).

(** A transaction rolls back on an error. *)
Definition in_ctx {A} (m : C A) : C A := λ d,
  match m d with (Ok a, d') => (Ok a, d') | (Err e, _) => (Err e, d) end.

(** A statement over the tables of the tasks. *)
Definition on_jobs {A} (m : Jobs.T A) : C A := λ d,
  match m (job_tables d) with
  | (Ok a, j) => (Ok a, { d with job_tables := j })
  | (Err e, j) => (Err (ErrJob e), { d with job_tables := j })
  end.

Definition set_campaign (id : string) (c : Campaign) : C unit := modify (λ d, { d with campaigns ::= <[id := c]> }).
Definition set_target (id : string) (t : Target) : C unit := modify (λ d, { d with targets ::= <[id := t]> }).
Definition set_step (k : step_key) (s : Step) : C unit := modify (λ d, { d with steps ::= <[k := s]> }).

(** A bulk update of the hosts of a campaign. *)
Definition update_targets (P : string → Target → bool) (f : Target → Target) : C unit :=
  modify (λ d, { d with targets ::= map_imap (λ id t, Some (if P id t then f t else t)) }).
Definition targets_of (d : CDB) (campaignID : string) : list (string * Target) :=
  filter (λ it, t_CampaignID it.2 = campaignID) (map_to_list (targets d)).

(** ** Steps *)

Definition needs_reason (s : StepState) : bool := bool_decide (s ∈ [StepFailed; StepSkipped; StepCanceled]).
Definition step_settled (s : StepState) : bool := bool_decide (s ∈ [StepSucceeded; StepFailed; StepSkipped; StepCanceled]).

(** [RecordStep]: a step that comes into being settled or waiting. *)
Definition RecordStep (targetID : string) (key : StepKey) (dependsOn : option StepKey) (planHash : string)
    (state : StepState) (jobID : option string) (reason : string) : C unit :=
  if bool_decide (reason = "") && needs_reason state then fail ErrStep
  else
    now ← gets clock;
    let finished := if step_settled state then Some now else None in
    found ← gets (λ d, steps d !! (targetID, key, planHash));
    set_step (targetID, key, planHash)
      match found with
      | None => mkStep state dependsOn jobID reason 0 None finished
      | Some s => mkStep state (coalesce dependsOn (st_DependsOn s)) (coalesce jobID (st_JobID s)) reason (st_Attempts s)
                    (st_StartedAt s) finished
      end.

(** [StartStep]. *)
Definition StartStep (targetID : string) (key : StepKey) (dependsOn : option StepKey) (planHash : string)
    (jobID : option string) (reason : string) : C unit :=
  now ← gets clock;
  found ← gets (λ d, steps d !! (targetID, key, planHash));
  set_step (targetID, key, planHash)
    match found with
    | None => mkStep StepRunning dependsOn jobID reason 1 (Some now) None
    | Some s => mkStep StepRunning (coalesce dependsOn (st_DependsOn s)) jobID reason (st_Attempts s + 1) (Some now) None
    end.

(** [FinishStep]: whether there was an open step of the kind. *)
Definition finish_steps (targetID : string) (key : StepKey) (state : StepState) (reason : string) (now : time)
    (m : gmap step_key Step) : gmap step_key Step :=
  map_imap (λ k s, Some (if bool_decide (k.1 = (targetID, key)) && Step_Open (st_State s)
                         then { { { s with st_State := state } with st_Reason := reason } with st_FinishedAt := Some now }
                         else s)) m.
Definition has_open_step (d : CDB) (targetID : string) (key : StepKey) : bool :=
  existsb (λ ks : step_key * Step, bool_decide (ks.1.1 = (targetID, key)) && Step_Open (st_State ks.2)) (map_to_list (steps d)).
Definition FinishStep (targetID : string) (key : StepKey) (state : StepState) (reason : string) : C bool :=
  if Step_Open state then fail ErrStep
  else if bool_decide (reason = "") && needs_reason state then fail ErrStep
  else
    now ← gets clock;
    found ← gets (λ d, has_open_step d targetID key);
    modify (λ d, { d with steps ::= finish_steps targetID key state reason now }) ;;
    mret found.

(** ** The row of a host *)

(** What the statement matches: the revision, the state and the token. *)
Definition same_row (row t : Target) : bool :=
  bool_decide (t_Revision row = t_Revision t) && bool_decide (t_State row = t_State t)
  && bool_decide (t_ClaimToken row = t_ClaimToken t).

(** The states the statement takes for final; it leaves out the two a host has
    from the order. *)
Definition sql_settled (s : TargetState) : bool :=
  bool_decide (s ∈ [TargetSucceeded; TargetNoChange; TargetFailed; TargetUnknown; TargetSkipped; TargetCanceled]).

Definition write_state (now : time) (state : TargetState) (code : string) (row : Target) : Target :=
  { { { { { { { row with t_StateSince := if bool_decide (t_State row = state) then t_StateSince row else Some now }
      with t_StartedAt := coalesce (t_StartedAt row)
             (if bool_decide (state ∈ [TargetPending; TargetAwaitingBudget; TargetQueuedOffline]) then None else Some now) }
      with t_FinishedAt := if sql_settled state then Some now else t_FinishedAt row }
      with t_Blocker := if sql_settled state then "" else t_Blocker row }
      with t_ErrorCode := code }
      with t_Revision := t_Revision row + 1 }
      with t_State := state }.

(** The row behind a target of memory, joined with its campaign. *)
Definition matched_row (d : CDB) (id : string) (t : Target) : option Target :=
  row ← targets d !! id;
  if same_row row t && negb (bool_decide (campaigns d !! t_CampaignID row = None)) then Some row else None.

(** [updateTarget]: the revision the row has afterwards. *)
Definition updateTarget (id : string) (t : Target) (state : TargetState) (code : string) : C Z :=
  if negb (target_mayBecome (t_State t) state) then fail ErrIllegalTransition
  else
    now ← gets clock;
    found ← gets (λ d, matched_row d id t);
    match found with
    | None => fail ErrConcurrentTransition
    | Some row => set_target id (write_state now state code row) ;; mret (t_Revision row + 1)
    end.

(** [FollowTask]. *)
Definition FollowTask (id : string) (t : Target) (state : TargetState) (blocker : string) : C Target :=
  if negb (target_mayBecome (t_State t) state) then fail ErrIllegalTransition
  else
    now ← gets clock;
    found ← gets (λ d, matched_row d id t);
    match found with
    | None => fail ErrConcurrentTransition
    | Some row =>
        set_target id { { { { row with t_StateSince := if bool_decide (t_State row = state) then t_StateSince row else Some now }
          with t_Blocker := blocker } with t_Revision := t_Revision row + 1 } with t_State := state } ;;
        mret { { { t with t_Revision := t_Revision row + 1 } with t_State := state } with t_Blocker := blocker }
    end.

(** [attachJob] and [setBootIDBefore]: under the claim, and they leave the
    revision. *)
Inductive job_column := ColumnJob | ColumnReboot | ColumnHealth | ColumnPlan.
Definition with_job (column : job_column) (jobID : string) (t : Target) : Target :=
  match column with
  | ColumnJob => { t with t_JobID := Some jobID }
  | ColumnReboot => { t with t_RebootJobID := Some jobID }
  | ColumnHealth => { t with t_HealthJobID := Some jobID }
  | ColumnPlan => { t with t_PlanJobID := Some jobID }
  end.
Definition claimed_row (d : CDB) (id : string) (t : Target) : option Target :=
  row ← targets d !! id;
  if bool_decide (t_Revision row = t_Revision t) && bool_decide (t_ClaimToken row = t_ClaimToken t) then Some row else None.
Definition attachJob (id : string) (t : Target) (column : job_column) (jobID : string) : C unit :=
  found ← gets (λ d, claimed_row d id t);
  match found with None => fail ErrConcurrentTransition | Some row => set_target id (with_job column jobID row) end.
Definition setBootIDBefore (id : string) (t : Target) (bootID : string) : C unit :=
  found ← gets (λ d, claimed_row d id t);
  match found with None => fail ErrConcurrentTransition | Some row => set_target id { row with t_BootIDBefore := bootID } end.

(** ** The row of a campaign *)

Definition update_campaign (id : string) (f : Campaign → Campaign) : C unit :=
  modify (λ d, { d with campaigns ::= alter f id }).
(** An update of one campaign by an operator: [ErrConflict] unless its state is
    one of [from]. *)
Definition operator_update (id : string) (from : list State) (f : time → CDB → Campaign → Campaign) : C unit :=
  now ← gets clock;
  found ← gets (λ d, campaigns d !! id);
  match found with
  | Some c =>
      if bool_decide (c_State c ∈ from)
      then modify (λ d, { d with campaigns ::= alter (λ c, { f now d c with c_Revision := c_Revision c + 1 }) id })
      else fail CErrConflict
  | None => fail CErrConflict
  end.

Definition in_flight (d : CDB) (campaignID : string) : bool :=
  existsb (λ it : string * Target, bool_decide (t_State it.2 ∈ InFlightTargetStates)) (targets_of d campaignID).

(** [Approve]; the record of the consent is left out. *)
Definition Approve (id approvedBy : string) : C unit :=
  operator_update id [StateAwaitingApproval] (λ now _ c,
    { { { c with c_ApprovedAt := Some now } with c_ApprovedBy := approvedBy } with c_State := StatePlanned }).

Definition Pause (id actor reason : string) : C unit :=
  operator_update id PausableStates (λ now d c,
    { { { { c with c_PausedAt := Some now } with c_PausedBy := Some actor } with c_PauseReason := nullable reason }
      with c_State := if in_flight d id then StatePausing else StatePaused }).

Definition Resume (id : string) : C unit :=
  operator_update id [StatePaused; StatePausing] (λ now _ c,
    { { { { c with c_PausedAt := None } with c_PausedBy := None } with c_PauseReason := None } with c_State := StatePlanned }).

Definition Advance (id actor : string) : C unit :=
  operator_update id [StateManualGate] (λ now _ c,
    { { { c with c_GateAdvancedAt := Some now } with c_GateAdvancedBy := actor } with c_State := StateRunning }).

Definition FinishPlanning (id planSetHash fingerprint : string) (next : State) : C unit :=
  operator_update id [StatePlanning] (λ now _ c,
    { { { c with c_ApprovalFingerprint := fingerprint } with c_PlanSetHash := planSetHash } with c_State := next }).

(** [SetState]: one try against the revision and the lease the writer holds. *)
Definition lease_matches (c row : Campaign) : bool :=
  match c_RunnerID c with
  | None => true
  | Some runner => bool_decide (c_RunnerID row = Some runner) && bool_decide (c_RunnerToken row = c_RunnerToken c)
  end.
Definition write_campaign (now : time) (state : State) (reason : string) (row : Campaign) : Campaign :=
  let pausing := bool_decide (state ∈ [StatePausing; StatePaused]) && negb (bool_decide (c_State row = StatePausing)) in
  { { { { { { { row with c_PauseReason := if pausing || bool_decide (state ∈ [StatePlanFailed; StateExpired]) then nullable reason else c_PauseReason row }
    with c_PausedAt := if pausing then Some now else c_PausedAt row }
    with c_PausedBy := if pausing then Some "system" else c_PausedBy row }
    with c_StartedAt := coalesce (c_StartedAt row) (if Active state then Some now else None) }
    with c_FinishedAt := if Terminal state then Some now else c_FinishedAt row }
    with c_Revision := c_Revision row + 1 }
    with c_State := state }.

Definition try_state (id : string) (c : Campaign) (state : State) (reason : string) : C (option Campaign) :=
  now ← gets clock;
  found ← gets (λ d, campaigns d !! id);
  match found with
  | Some row =>
      if bool_decide (c_Revision row = c_Revision c) && lease_matches c row
      then set_campaign id (write_campaign now state reason row) ;;
           mret (Some { { c with c_Revision := c_Revision row + 1 } with c_State := state })
      else mret None
  | None => mret None
  end.

(** The row read again after a try that matched nothing: what it decides. The
    campaign of memory becomes the one read when the tries go on. *)
Definition read_again (id : string) (c : Campaign) : C Campaign :=
  found ← gets (λ d, campaigns d !! id);
  match found with
  | None => fail CErrNotFound
  | Some fresh =>
      if negb (bool_decide (c_RunnerID c = None))
         && (negb (bool_decide (c_RunnerID fresh = c_RunnerID c)) || negb (bool_decide (c_RunnerToken fresh = c_RunnerToken c)))
      then fail ErrLeaseLost
      else if negb (bool_decide (c_State fresh = c_State c)) then fail ErrConcurrentTransition
      else mret fresh
  end.

(** Three tries; [others] is what other writers do before each of them. *)
Fixpoint SetState_from (tries : nat) (others : list (CDB → CDB)) (id : string) (c : Campaign) (state : State) (reason : string) : C Campaign :=
  match tries with
  | O => fail ErrConcurrentTransition
  | S tries =>
      if negb (mayBecome (c_State c) state) then fail ErrIllegalTransition
      else
        modify (default (λ d, d) (head others)) ;;
        done ← try_state id c state reason;
        match done with
        | Some c => mret c
        | None => fresh ← read_again id c; SetState_from tries (tail others) id fresh state reason
        end
  end.
Definition SetState (others : list (CDB → CDB)) (id : string) (c : Campaign) (state : State) (reason : string) : C Campaign :=
  SetState_from 3 others id c state reason.

(** ** The lease of a runner *)

Definition RunnerLeaseTerm : Z := 45 * second.
Definition RunnerLeaseRenewal : Z := 15 * second.

(** [ClaimRunner]: the token, or none while another runner holds the campaign.
    [locked]: another transaction holds the row. *)
Definition ClaimRunner (locked : bool) (id runner : string) : C (option Z) :=
  now ← gets clock;
  found ← gets (λ d, campaigns d !! id);
  match found with
  | None => mret None
  | Some c =>
      if bool_decide (c_RunnerID c = Some runner)
         && match c_RunnerUntil c with Some until => bool_decide (now + (RunnerLeaseTerm - RunnerLeaseRenewal) < until) | None => false end
      then mret (Some (c_RunnerToken c))
      else if locked then mret None
      else if bool_decide (c_RunnerID c = None) || bool_decide (c_RunnerID c = Some runner)
              || match c_RunnerUntil c with Some until => bool_decide (until < now) | None => false end
      then
        let token := if bool_decide (c_RunnerID c = Some runner) then c_RunnerToken c else c_RunnerToken c + 1 in
        set_campaign id { { { c with c_RunnerUntil := Some (now + RunnerLeaseTerm) } with c_RunnerToken := token } with c_RunnerID := Some runner } ;;
        mret (Some token)
      else mret None
  end.

Definition holds_runner (c : Campaign) (runner : string) (token : Z) : bool :=
  bool_decide (c_RunnerID c = Some runner) && bool_decide (c_RunnerToken c = token).
Definition RenewRunner (id runner : string) (token : Z) : C unit :=
  now ← gets clock;
  found ← gets (λ d, campaigns d !! id);
  match found with
  | Some c => if holds_runner c runner token then set_campaign id { c with c_RunnerUntil := Some (now + RunnerLeaseTerm) } else fail ErrLeaseLost
  | None => fail ErrLeaseLost
  end.
Definition ReleaseRunner (id runner : string) (token : Z) : C unit :=
  found ← gets (λ d, campaigns d !! id);
  match found with
  | Some c => if holds_runner c runner token then set_campaign id { { c with c_RunnerUntil := None } with c_RunnerID := None } else mret tt
  | None => mret tt
  end.

(** [AdoptTargets]; the tokens of the budgets follow in Budgets.v. *)
Definition AdoptTargets (id runner : string) : C unit :=
  now ← gets clock;
  let mine t := bool_decide (t_CampaignID t = id) in
  update_targets
    (λ _ t, mine t && negb (bool_decide (t_ClaimedBy t = Some runner)) && bool_decide (t_State t ∈ OpenTargetStates))
    (λ t, { { { { t with t_ClaimUntil := Some (now + RunnerLeaseTerm) } with t_ClaimToken := t_ClaimToken t + 1 }
          with t_Revision := t_Revision t + 1 } with t_ClaimedBy := Some runner }) ;;
  update_targets
    (λ _ t, mine t && bool_decide (t_ClaimedBy t = Some runner) && bool_decide (t_State t ∈ ClaimedTargetStates))
    (λ t, { t with t_ClaimUntil := Some (now + RunnerLeaseTerm) }).

(** [ClaimWaveTargets]: the waiting hosts of a wave, in their order. *)
Definition claimable (now : time) (locked : gset string) (campaignID : string) (wave : Z) (runner : string) (it : string * Target) : bool :=
  let t := it.2 in
  bool_decide (t_CampaignID t = campaignID) && bool_decide (t_Wave t = wave)
  && bool_decide (t_State t ∈ [TargetPending; TargetAwaitingBudget])
  && (bool_decide (t_ClaimedBy t = Some runner)
      || match t_ClaimUntil t with None => true | Some until => bool_decide (until < now) end)
  && bool_decide (it.1 ∉ locked).
Definition claim (now : time) (runner : string) (t : Target) : Target :=
  { { { { t with t_ClaimUntil := Some (now + RunnerLeaseTerm) } with t_ClaimToken := t_ClaimToken t + 1 }
    with t_Revision := t_Revision t + 1 } with t_ClaimedBy := Some runner }.
Definition ClaimWaveTargets (locked : gset string) (campaignID : string) (wave : Z) (runner : string) (limit : Z) : C (list (string * Target)) :=
  if bool_decide (limit ≤ 0) then mret []
  else
    now ← gets clock;
    found ← gets (λ d, take (Z.to_nat limit)
      (sort_stable (λ a b : string * Target, bool_decide (t_Position a.2 < t_Position b.2))
        (filter (λ it, claimable now locked campaignID wave runner it = true) (map_to_list (targets d)))));
    let claimed := (λ it : string * Target, (it.1, claim now runner it.2)) <$> found in
    mfor claimed (λ it, set_target it.1 it.2) ;;
    mret claimed.

(** [LockForLaunch]: the campaign may start a host now, under this lease. *)
Definition LockForLaunch (id : string) (c : Campaign) : C unit :=
  found ← gets (λ d, campaigns d !! id);
  match found with
  | None => fail CErrNotFound
  | Some row =>
      if negb (bool_decide (default "" (c_RunnerID row) = default "" (c_RunnerID c))) || negb (bool_decide (c_RunnerToken row = c_RunnerToken c))
      then fail ErrLeaseLost
      else if negb (Launching (c_State row)) then fail ErrConcurrentTransition
      else mret tt
  end.

(** ** Plans *)

(** [savePlan]: a plan saved again is computed again, as far as the row says. *)
Definition savePlan (campaignID hostID hash : string) : C unit :=
  now ← gets clock;
  modify (λ d, { d with plans ::= <[(campaignID, hostID) := (hash, now)]> }).
Definition OldestPlan (d : CDB) (campaignID : string) : option time :=
  foldr (λ (p : (string * string) * (string * time)) oldest, sql_least (Some p.2.2) oldest) None
    (filter (λ p, p.1.1 = campaignID) (map_to_list (plans d))).

(** ** Cancel *)

(** [followUpJobs]: the reboots and the checks owed to hosts whose change is
    done. *)
Definition followUpJobs (d : CDB) (campaignID : string) : list string :=
  mjoin ((λ it : string * Target, option_list (t_RebootJobID it.2) ++ option_list (t_HealthJobID it.2)) <$> targets_of d campaignID).

Definition cancel_waiting (now : time) (t : Target) : Target :=
  { { { { t with t_StateSince := Some now } with t_FinishedAt := Some now } with t_Revision := t_Revision t + 1 } with t_State := TargetCanceled }.
Definition cancel_taken_back (now : time) (t : Target) : Target :=
  { { { { { { t with t_Blocker := "" } with t_StateSince := Some now } with t_FinishedAt := Some now } with t_ErrorCode := "canceled" }
    with t_Revision := t_Revision t + 1 } with t_State := TargetCanceled }.

(** The steps of the canceled hosts: the open ones end, and a host without the
    step it waited for gets it. *)
Definition cancel_steps (now : time) (why : string) (canceled : list string) (m : gmap step_key Step) : gmap step_key Step :=
  map_imap (λ k s, Some (if bool_decide (k.1.1 ∈ canceled) && Step_Open (st_State s)
                         then { { { s with st_State := StepCanceled } with st_Reason := why } with st_FinishedAt := Some now }
                         else s)) m.
Definition record_canceled (now : time) (why : string) (step : StepKey) (canceled : list string) (m : gmap step_key Step) : gmap step_key Step :=
  foldr (λ id m, match m !! (id, step, "") with
                 | Some _ => m
                 | None => <[(id, step, "") := mkStep StepCanceled None None why 0 None (Some now)]> m
                 end) m canceled.

Section cancel.
Context `{MapOrder}.

(** [Cancel]; the leases of the hosts that end go back in Budgets.v. *)
Definition Cancel (id actor reason : string) : C unit := in_ctx (
  now ← gets clock;
  found ← gets (λ d, campaigns d !! id);
  match found with
  | None => fail CErrNotFound
  | Some c =>
      if Terminal (c_State c) || bool_decide (c_State c = StateCanceling) then fail CErrConflict
      else
        let mine t := bool_decide (t_CampaignID t = id) in
        let why := "the campaign was canceled by " +:+ actor +:+ (if bool_decide (reason = "") then "" else ": " +:+ reason) in
        update_targets (λ _ t, mine t && bool_decide (t_State t ∈ UnstartedTargetStates)) (cancel_waiting now) ;;
        owed ← gets (λ d, followUpJobs d id);
        takenBack ← on_jobs (Jobs.CancelQueuedOf id actor why owed);
        on_jobs (Jobs.RequestCancelOf id actor why owed) ;;
        update_targets (λ _ t, mine t && match t_JobID t with Some job => bool_decide (job ∈ takenBack) | None => false end
                               && bool_decide (t_State t ∈ [TargetDispatched; TargetAwaitingLock; TargetRunning]))
          (cancel_taken_back now) ;;
        update_targets (λ _ t, mine t && bool_decide (t_State t ∈ InFlightTargetStates))
          (λ t, { { t with t_CancelRequestedAt := coalesce (t_CancelRequestedAt t) (Some now) } with t_Revision := t_Revision t + 1 }) ;;
        let step := if bool_decide (c_State c = StatePlanning) then StepPlan else StepExecute in
        canceled ← gets (λ d, fst <$> filter (λ it : string * Target, t_State it.2 = TargetCanceled) (targets_of d id));
        modify (λ d, { d with steps ::= cancel_steps now why canceled }) ;;
        modify (λ d, { d with steps ::= record_canceled now why step canceled }) ;;
        underWay ← gets (λ d, in_flight d id);
        let next := if underWay : bool then StateCanceling else StateCanceled in
        set_campaign id { { { { { { c with c_PauseReason := nullable reason } with c_CanceledAt := Some now } with c_CanceledBy := actor }
          with c_FinishedAt := if bool_decide (next = StateCanceled) then Some now else c_FinishedAt c }
          with c_Revision := c_Revision c + 1 } with c_State := next }
  end).
End cancel.

(** ** Transactions over a host and its steps *)

Definition campaignPlans (c : Campaign) : bool := CampaignPlans (c_ActionType c).

(** [RecordStep] when there was no open step to finish. *)
Definition close_step (planned : bool) (id : string) (t : Target) (o : stepOutcome) : C unit :=
  settled ← FinishStep id (so_Key o) (so_State o) (so_Reason o);
  if settled : bool then mret tt
  else RecordStep id (so_Key o) (dependencyOf (so_Key o) planned (negb (bool_decide (t_RebootJobID t = None)))) "" (so_State o) None (so_Reason o).

(** [compensatedTarget]. *)
Definition compensatedTarget (d : CDB) (campaignID hostID : string) : option string :=
  fst <$> head (filter (λ it : string * Target, t_HostID it.2 = hostID) (targets_of d campaignID)).

Definition compensationNote (campaignID : string) : string := "compensated by campaign " +:+ campaignID.
Definition openCompensation (campaignID originalID : string) (t : Target) (planHash : string) (jobID : option string) : C unit :=
  found ← gets (λ d, compensatedTarget d originalID (t_HostID t));
  match found with
  | None => mret tt
  | Some original => StartStep original StepCompensate (Some StepExecute) planHash jobID (compensationNote campaignID)
  end.
Definition closeCompensation (campaignID : string) (c : Campaign) (t : Target) (state : TargetState) (code message : string) : C unit :=
  found ← gets (λ d, compensatedTarget d (c_CompensatesCampaignID c) (t_HostID t));
  match found with
  | None => mret tt
  | Some original =>
      let '(stepState, reason) := compensationOutcome state code message in
      FinishStep original StepCompensate stepState (if bool_decide (reason = "") then compensationNote campaignID else reason) ;;
      mret tt
  end.

(** [settleTarget]. *)
Definition settleTarget (campaignID : string) (c : Campaign) (id : string) (t : Target) (state : TargetState) (code message : string)
    (outcomes : list stepOutcome) : C Z := in_ctx (
  revision ← updateTarget id t state code;
  mfor outcomes (close_step (campaignPlans c) id t) ;;
  (if negb (bool_decide (c_CompensatesCampaignID c = "")) && Finished state
   then closeCompensation campaignID c t state code message else mret tt) ;;
  mret revision).

(** [stepStart]. *)
Record stepStart := mkStart {
  ss_Key : StepKey; ss_DependsOn : option StepKey; ss_PlanHash : string;
  ss_Job : option (job_column * string); ss_State : TargetState; ss_Note : string;
  ss_BootID : option string; ss_Closes : list stepOutcome; ss_Planned : bool; ss_Compensates : string }.

Definition startStepTx (campaignID id : string) (t : Target) (start : stepStart) : C Z :=
  mfor (ss_Closes start) (close_step (ss_Planned start) id t) ;;
  (match ss_Job start with Some (column, jobID) => attachJob id t column jobID | None => mret tt end) ;;
  (match ss_BootID start with Some bootID => setBootIDBefore id t bootID | None => mret tt end) ;;
  revision ← updateTarget id t (ss_State start) "";
  StartStep id (ss_Key start) (ss_DependsOn start) (ss_PlanHash start) (snd <$> ss_Job start) (ss_Note start) ;;
  (if bool_decide (ss_Compensates start = "") then mret tt
   else openCompensation campaignID (ss_Compensates start) t (ss_PlanHash start) (snd <$> ss_Job start)) ;;
  mret revision.

(** [applyStart]: the target of memory after the commit. *)
Definition applyStart (t : Target) (start : stepStart) (revision : Z) : Target :=
  let t := match ss_Job start with Some (column, jobID) => with_job column jobID t | None => t end in
  let t := match ss_BootID start with Some bootID => { t with t_BootIDBefore := bootID } | None => t end in
  { { { t with t_ErrorCode := "" } with t_Revision := revision } with t_State := ss_State start }.
Definition startStep (campaignID id : string) (t : Target) (start : stepStart) : C Target :=
  revision ← in_ctx (startStepTx campaignID id t start); mret (applyStart t start revision).

(** [launch]: the task and the start of its step, under the lock of the
    campaign. The first failure is a refusal of the task, the second one of the
    launch. *)
Inductive launched := Launched (t : Target) | Refused (e : cerr).
Definition launch (campaignID : string) (c : Campaign) (id : string) (t : Target) (create : C string) (step : string → stepStart) : C launched := λ d,
  match LockForLaunch campaignID c d with
  | (Err e, _) => (Err e, d)
  | (Ok _, d1) =>
      match create d1 with
      | (Err e, _) => (Ok (Refused e), d)
      | (Ok jobID, d2) =>
          match startStepTx campaignID id t (step jobID) d2 with
          | (Err e, _) => (Err e, d)
          | (Ok revision, d3) => (Ok (Launched (applyStart t (step jobID) revision)), d3)
          end
      end
  end.

(** [SkipTarget]: an operator leaves a host out that waits for its connection. *)
Definition SkipTarget (campaignID hostID message : string) : C unit := in_ctx (
  found ← gets (λ d, campaigns d !! campaignID);
  match found with
  | None => fail CErrNotFound
  | Some c =>
      if Terminal (c_State c) then fail CErrConflict
      else
        host ← gets (λ d, head (filter (λ it : string * Target, t_HostID it.2 = hostID) (targets_of d campaignID)));
        match host with
        | None => fail CErrNotFound
        | Some (id, t) =>
            if negb (bool_decide (t_State t = TargetQueuedOffline)) then fail ErrSkipNotAllowed
            else
              updateTarget id t TargetSkipped SkippedByOperatorCode ;;
              mfor (settledOutcomes (c_State c) (t_State t) TargetSkipped SkippedByOperatorCode message) (λ o,
                RecordStep id (so_Key o) (dependencyOf (so_Key o) (campaignPlans c) (negb (bool_decide (t_RebootJobID t = None))))
                  "" (so_State o) None (so_Reason o))
        end
  end).

(** [acceptPlan]: the plan on record and the host back in the queue. *)
Definition acceptPlan (campaignID id : string) (t : Target) (hash reason : string) : C Target :=
  revision ← in_ctx (
    savePlan campaignID (t_HostID t) hash ;;
    revision ← updateTarget id t TargetPending "";
    FinishStep id StepPlan StepSucceeded reason ;;
    mret revision);
  mret { { { t with t_ErrorCode := "" } with t_Revision := revision } with t_State := TargetPending }.
