(* ===== verification/CampaignPass.v ===== *)
(** * CampaignPass: one pass of the orchestrator over a campaign

    orchestrator.go, progress.go, planning.go and offline.go of
    src/internal/campaigns over the tables of CampaignStore.v. What the pass
    learns elsewhere - the hosts, the rights, the capacity - is a [world]; what
    the JSON of a result says is a class. An error of a host is logged and the
    pass goes on, as in the code. *)
From coqutil Require Import Datatypes.RecordSetters.
From S2P Require Import Prelude Bytes Text Actions ActionTables Registry AuthzTables Authz JobState Jobs CampaignStates Campaigns CampaignStore.

Import OCamlLikeNotations.
Open Scope Z_scope.
Open Scope list_scope.

(** ** The rights of the creator *)

Inductive RightsVerdict := RightsHeld | RightsGone | RightsUnconfirmed.
(** How a lookup of the identity fails. *)
Inductive lookup_error := LookupUnknown | LookupGroups | LookupFailed.

Definition judgeLookup (principal : option Principal) (err : option lookup_error) : RightsVerdict :=
  match err, principal with
  | Some LookupUnknown, _ => RightsGone
  | Some _, _ => RightsUnconfirmed
  | None, None => RightsUnconfirmed
  | None, Some _ => RightsHeld
  end.
Definition judgePermissions (now : time) (p : Principal) (scope : Scope) (permissions : list Permission) : RightsVerdict :=
  if forallb (λ permission, Can p now permission scope) permissions then RightsHeld else RightsGone.
Definition judgeRights (now : time) (principal : option Principal) (err : option lookup_error) (scope : Scope)
    (permissions : list Permission) : RightsVerdict :=
  match judgeLookup principal err, principal with
  | RightsHeld, Some p => judgePermissions now p scope permissions
  | RightsUnconfirmed, Some p =>
      match judgePermissions now p scope permissions with RightsHeld => RightsHeld | _ => RightsUnconfirmed end
  | verdict, _ => verdict
  end.

(** ** What a pass learns elsewhere *)

Record Host := mkHost { h_Online : bool; h_Maintenance : bool; h_BootID : string; h_Scope : Scope }.
Inductive capacity := CapacityFree | CapacityRefused (reason : string) | CapacityFailed.
Inductive renewal := RenewalLive | RenewalUnproven | RenewalStale.
Inductive plan_state := PlanGone | PlanRunning | PlanSucceeded | PlanStopped | PlanFailed.

Inductive plan_create := PlanCreated | PlanInProgress | PlanCreateFailed.

Record world := mkWorld {
  w_now : time;                                       (* time.Now() *)
  w_host : string → option Host;                      (* hosts.Get; none is an error *)
  w_lookup : option Principal * option lookup_error;  (* the identity of the creator *)
  w_renewal : renewal;                                (* RenewFenced over the hosts at work *)
  w_capacity : string → capacity;                     (* AcquireFenced for a target *)
  w_remediation : string → option plan_state;         (* the plan of a host; none is an error *)
  w_decode : string → option (list ActionType);       (* the steps of a host's remediation plan *)
  w_create_plan : string → plan_create;               (* remediation.Create for a host *)
  w_locked : gset string;                             (* rows another transaction holds *)
  w_others : list (CDB → CDB);                        (* other writers before the tries of SetState *)
  w_newID : string → string;                          (* the identifiers drawn for tasks, by their key *)
}.

(** What the JSON of a result and of a plan says. *)
Class ResultJson := {
  resultNoChange : option bytes → bool;
  reboot_required : option bytes → bool;
  verification_refusal : bytes → option string;   (* the host does not show the state asked for *)
  fingerprint : bytes → string;                   (* hostFingerprint, or else ContentFingerprint *)
  planRefusal : bytes → string;
  planNoChange : bytes → bool;
}.

(** What the world does not tell apart from a campaign: its tasks. *)
Class Orders := {
  order_valid : Jobs.Spec → bool;
  default_timeout : string → Z;
  destructive : string → bool;
  payload_hash : string → ActionType → bytes;     (* the canonical payload of a task of the campaign *)
}.

Section pass.
Context `{MapOrder} {RJ : ResultJson} {OR : Orders}.
Context (w : world) (campaignID : string).

Definition key_of (kind rest : string) : string := "campaign:" +:+ campaignID +:+ ":" +:+ kind +:+ ":" +:+ rest.

(** [submitJobTx]: the approval of the campaign is the approval of its tasks. *)
Definition submitJobTx (c : Campaign) (hostID : string) (action : ActionType) (key : string) : C string :=
  on_jobs (Jobs.Create order_valid default_timeout destructive (w_newID w key) ""
    (Jobs.mkSpec hostID action (payload_hash campaignID action) key false 0 (c_JobTimeoutSeconds c) 0
       ((c_JobTimeoutSeconds c + 600) * second) ("campaign:" +:+ campaignID) campaignID "")).
Definition submitJob (c : Campaign) (hostID : string) (action : ActionType) (key : string) : C string :=
  in_ctx (submitJobTx c hostID action key).

(** [createJob]: with the host's own plan where the change is computed per
    host, and none of it older than its limit. *)
Inductive create_error := PlanMissing | PlanStale | CreateFailed (e : cerr).
Definition HostPlan (hostID : string) (d : CDB) : string * option time :=
  match plans d !! (campaignID, hostID) with Some (hash, computed) => (hash, Some computed) | None => ("", None) end.
Definition plan_old (computed : option time) : bool :=
  match computed with Some at_ => bool_decide (PlanTTL < time_sub (w_now w) at_) | None => true end.

(** ** The end of a host *)

(** [finishTargetSteps]: what cannot be written is only logged. *)
Definition finishTargetSteps (c : Campaign) (id : string) (t : Target) (state : TargetState) (code message : string)
    (outcomes : list stepOutcome) : C Target :=
  done ← try (settleTarget campaignID c id t state code message outcomes);
  mret match done with
       | Err _ => t
       | Ok revision => { { { t with t_ErrorCode := code } with t_State := state } with t_Revision := revision }
       end.
Definition finishTarget (c : Campaign) (id : string) (t : Target) (state : TargetState) (code message : string) : C Target :=
  finishTargetSteps c id t state code message (settledOutcomes (c_State c) (t_State t) state code message).

(** ** A host under way *)

Definition known_job (id : string) : C job :=
  found ← gets (λ d, jobs (job_tables d) !! id);
  match found with Some j => mret j | None => fail CErrNotFound end.
Definition known_host (id : string) : C Host := match w_host w id with Some h => mret h | None => fail ErrWorld end.
Definition attempts_in_order (d : CDB) (jobID : string) : list (string * attempt) :=
  sort_stable (λ a b, bool_decide (a_number a.2 < a_number b.2)) (attempts_of (job_tables d) jobID).

(** [connectivityLost]. *)
Definition connectivityLost (j : job) (jobID : string) (t : Target) : C bool :=
  if bool_decide (j_state j = JobState.StateExpired) then mret true
  else if negb (bool_decide (j_state j = JobState.StateTimedOut)) then mret false
  else
    attempts ← gets (λ d, attempts_in_order d jobID);
    if existsb (λ a : string * attempt, bool_decide (a_status a.2 = Some "lease_expired")) attempts then mret true
    else host ← known_host (t_HostID t); mret (negb (h_Online host)).

(** [unverifiedChange]. *)
Definition unverifiedChange (action : ActionType) (a : option attempt) : option string :=
  if bool_decide (Verifier action = VerifierNone) || PanelSettled (Verifier action) then None
  else match a ≫= a_verification with
  | None | Some [] => Some ("the change was made and nothing read the host afterwards: the result carries no verification from the verifier " +:+ Verifier action)
  | Some verification => verification_refusal verification
  end.

(** [orderHealthCheck]. *)
Definition orderHealthCheck (c : Campaign) (id : string) (t : Target) (host : Host) (after_ : StepKey) (closes : list stepOutcome) : C Target :=
  done ← try (submitJob c (t_HostID t) ActionUnitStatus (key_of "health" (t_HostID t +:+ ":" +:+ h_BootID host)));
  match done with
  | Err _ => finishTargetSteps c id t TargetFailed "health_create_failed" ""
               (closes ++ [mkOutcome StepVerify StepFailed "health_create_failed"])
  | Ok job =>
      plan ← gets (HostPlan (t_HostID t));
      startStep campaignID id t (mkStart StepVerify (Some after_) plan.1 (Some (ColumnHealth, job)) TargetVerifying "" None closes
        (campaignPlans c) "")
  end.

(** [afterRemediation]. *)
Definition afterRemediation (c : Campaign) (id : string) (t : Target) : C Target :=
  match w_remediation w (t_HostID t) with
  | None => fail ErrWorld
  | Some PlanGone => finishTarget c id t TargetFailed "plan_missing" "the host's remediation plan is gone"
  | Some PlanRunning => mret t
  | Some PlanSucceeded => finishTarget c id t TargetSucceeded "" "the steps of the remediation plan succeeded"
  | Some PlanStopped => finishTarget c id t TargetFailed "remediation_stopped" "the remediation plan was stopped before it finished"
  | Some PlanFailed => finishTarget c id t TargetFailed "remediation_failed" "the remediation plan failed"
  end.

Definition followJob (id : string) (t : Target) (j : job) : C Target :=
  if bool_decide (j_state j = JobState.StateCancelRequested) then mret t
  else
    let '(state, blocker) := taskStanding (j_state j) (j_wait_reason j) in
    if bool_decide (state = t_State t) && bool_decide (blocker = t_Blocker t) then mret t
    else FollowTask id t state blocker.

(** What follows a change that landed: a reboot, a check of the units, or the
    end. *)
Definition nothing_changed : string := "the host reported that nothing changed".
Definition not_confirmed : string := "the change was not confirmed on the host".
Definition orderReboot (c : Campaign) (id : string) (t : Target) (changed : stepOutcome) : C Target :=
  match w_host w (t_HostID t) with
  | None => finishTargetSteps c id t TargetFailed "host_unavailable" "" [changed; mkOutcome StepReboot StepFailed "host_unavailable"]
  | Some host =>
      done ← try (submitJob c (t_HostID t) ActionSystemReboot (key_of "reboot" (t_HostID t)));
      match done with
      | Err _ => finishTargetSteps c id t TargetFailed "reboot_create_failed" "" [changed; mkOutcome StepReboot StepFailed "reboot_create_failed"]
      | Ok job =>
          plan ← gets (HostPlan (t_HostID t));
          startStep campaignID id t (mkStart StepReboot (Some StepExecute) plan.1 (Some (ColumnReboot, job)) TargetRebooting ""
            (Some (h_BootID host)) [changed] false "")
      end
  end.
Definition withoutReboot (c : Campaign) (id : string) (t : Target) (changed : stepOutcome) : C Target :=
  let why := if bool_decide (c_RebootPolicy c = RebootNever) then "the reboot policy of the campaign is never"
             else "the host did not report that the change requires a reboot" in
  let notRebooted := mkOutcome StepReboot StepSkipped why in
  if bool_decide (c_HealthCheckUnits c = []) then finishTargetSteps c id t TargetSucceeded "" "" [changed; notRebooted]
  else match w_host w (t_HostID t) with
  | None => finishTargetSteps c id t TargetFailed "host_unavailable" ""
              [changed; notRebooted; mkOutcome StepVerify StepFailed "host_unavailable"]
  | Some host => orderHealthCheck c id t host StepExecute [changed; notRebooted]
  end.

(** [afterMainJob]. *)
Definition afterMainJob (c : Campaign) (id : string) (t : Target) : C Target :=
  if bool_decide (c_ActionType c = ActionSecurityRemediate) then afterRemediation c id t
  else match t_JobID t with
  | None => mret t
  | Some jobID =>
      j ← known_job jobID;
      if negb (JobState.Terminal (j_state j)) then followJob id t j
      else if negb (bool_decide (j_state j = JobState.StateSucceeded)) then
        lost ← connectivityLost j jobID t;
        let '(state, code) := targetOutcome (mkVerdict (j_state j) (default "" (j_result_error_code j)) lost false) in
        finishTarget c id t state code (if lost : bool then "the session to the host broke" else default "" (j_result_message j))
      else
        attempts ← gets (λ d, attempts_in_order d jobID);
        let attempt := latestResultAttempt attempts in
        let detail := attempt ≫= a_detail in
        if resultNoChange detail then
          finishTargetSteps c id t TargetNoChange "" nothing_changed
            [mkOutcome StepExecute StepSucceeded nothing_changed; mkOutcome StepReboot StepSkipped nothing_changed;
             mkOutcome StepVerify StepSkipped nothing_changed]
        else match unverifiedChange (c_ActionType c) attempt with
        | Some reason =>
            finishTargetSteps c id t TargetFailed "applied_unverified" reason
              [mkOutcome StepExecute StepFailed (stepReason "applied_unverified" reason); mkOutcome StepReboot StepSkipped not_confirmed;
               mkOutcome StepVerify StepSkipped not_confirmed]
        | None =>
            let changed := mkOutcome StepExecute StepSucceeded "" in
            if rebootNeeded c (reboot_required detail) then orderReboot c id t changed else withoutReboot c id t changed
        end
  end.

(** [afterReboot]. *)
Definition reboot_failed (t : Target) : C (option (string * string)) :=
  match t_RebootJobID t with
  | None => mret None
  | Some jobID =>
      j ← known_job jobID;
      mret (if JobState.Terminal (j_state j) && negb (bool_decide (j_state j = JobState.StateSucceeded))
            then Some (orDefault (default "" (j_result_error_code j)) "reboot_failed", default "" (j_result_message j)) else None)
  end.
Definition afterReboot (c : Campaign) (id : string) (t : Target) : C Target :=
  failed ← reboot_failed t;
  match failed with
  | Some (code, message) => finishTarget c id t TargetFailed code message
  | None =>
      host ← known_host (t_HostID t);
      if negb (h_Online host) || negb (RebootShown (t_BootIDBefore t) (h_BootID host)) then
        match rebootOrderedAt t with
        | None => mret t
        | Some since =>
            match judgeReboot since (c_MaintenanceEnd c) (Campaign_RebootTimeout c) (w_now w) with
            | None => mret t
            | Some code => finishTarget c id t TargetFailed code "the host did not come back"
            end
        end
      else
        let rebooted := mkOutcome StepReboot StepSucceeded ("the host came back with boot ID " +:+ h_BootID host) in
        if bool_decide (c_HealthCheckUnits c = []) then
          finishTargetSteps c id t TargetSucceeded "" "the host came back after the reboot"
            [rebooted; mkOutcome StepVerify StepSkipped "the campaign names no units to check after the reboot"]
        else orderHealthCheck c id t host StepReboot [rebooted]
  end.

(** [afterHealthCheck]. *)
Definition afterHealthCheck (c : Campaign) (id : string) (t : Target) : C Target :=
  match t_HealthJobID t with
  | None => mret t
  | Some jobID =>
      j ← known_job jobID;
      if negb (JobState.Terminal (j_state j)) then mret t
      else if negb (bool_decide (j_state j = JobState.StateSucceeded)) then
        let code := default "" (j_result_error_code j) in
        let '(state, why) := if bool_decide (code = ConnectivityLostCode) then (TargetUnknown, ConnectivityLostCode)
                             else (TargetFailed, "health_check_failed") in
        finishTarget c id t state why (stepReason code (default "" (j_result_message j)))
      else finishTarget c id t TargetSucceeded "" "the health check passed"
  end.

(** ** Plans *)

(** [planFingerprint]: the newest attempt whose details carry a digest. *)
Definition planFingerprint (d : CDB) (jobID : string) : option (string * bytes) :=
  head (omap (λ a : string * attempt,
    match a_detail a.2 with
    | None | Some [] => None
    | Some detail => if bool_decide (fingerprint detail = "") then None else Some (fingerprint detail, detail)
    end) (reverse (attempts_in_order d jobID))).

Definition shortHash (hash : string) : string :=
  if bool_decide (12 < slen hash) then String.substring 0 12 hash else if bool_decide (hash = "") then "none" else hash.

Definition no_change_found : string := "the host already has the desired state; the plan found nothing to change".
Definition settleNoChange (c : Campaign) (id : string) (t : Target) (hash : string) : C Target :=
  finishTargetSteps c id t TargetNoChange "" no_change_found
    [mkOutcome StepPlan StepSucceeded ("plan " +:+ shortHash hash +:+ ": nothing to change"); mkOutcome StepExecute StepSkipped no_change_found].

(** [afterReplan]: the plan of a host that came back, against the one that was
    approved. *)
Definition afterReplan (c : Campaign) (id : string) (t : Target) : C Target :=
  match t_PlanJobID t with
  | None => mret t
  | Some jobID =>
      j ← known_job jobID;
      if negb (JobState.Terminal (j_state j)) then mret t
      else if negb (bool_decide (j_state j = JobState.StateSucceeded)) then
        finishTarget c id t TargetFailed (orDefault (default "" (j_result_error_code j)) "plan_failed") (default "" (j_result_message j))
      else
        found ← gets (λ d, planFingerprint d jobID);
        match found with
        | None => finishTarget c id t TargetFailed "plan_hash_missing" "the host gave no plan digest after the reconnect"
        | Some (hash, plan) =>
            if negb (bool_decide (planRefusal plan = "")) then finishTarget c id t TargetIneligible "plan_refused" (planRefusal plan)
            else if planNoChange plan then settleNoChange c id t hash
            else
              approved ← gets (HostPlan (t_HostID t));
              if negb (bool_decide (hash = approved.1)) then
                let why := "the plan computed after the reconnect (" +:+ shortHash hash +:+ ") differs from the approved one ("
                           +:+ shortHash approved.1 +:+ "); the consent covered the old plan" in
                finishTargetSteps c id t TargetSkipped "plan_changed_offline" why
                  [mkOutcome StepPlan StepSucceeded ("plan " +:+ shortHash hash);
                   mkOutcome StepExecute StepSkipped (stepReason "plan_changed_offline" why)]
              else acceptPlan campaignID id t hash ("plan " +:+ shortHash hash)
        end
  end.

(** [progressTarget]. *)
Definition progressTarget (c : Campaign) (id : string) (t : Target) : C Target :=
  match t_State t with
  | TargetDispatched | TargetAwaitingLock | TargetRunning => afterMainJob c id t
  | TargetRebooting => afterReboot c id t
  | TargetVerifying => afterHealthCheck c id t
  | TargetPlanning => afterReplan c id t
  | _ => mret t
  end.

(** A loop over the targets of memory; an error of one is logged. *)
Fixpoint each_target (body : string → Target → C Target) (ts : list (string * Target)) : C (list (string * Target)) :=
  match ts with
  | [] => mret []
  | (id, t) :: ts =>
      done ← try (body id t);
      rest ← each_target body ts;
      mret ((id, match done with Ok t' => t' | Err _ => t end) :: rest)
  end.
(** One that stops at the first error. *)
Fixpoint every_target (body : string → Target → C Target) (ts : list (string * Target)) : C (list (string * Target)) :=
  match ts with
  | [] => mret []
  | (id, t) :: ts => t' ← body id t; rest ← every_target body ts; mret ((id, t') :: rest)
  end.

(** ** Capacity and connection *)

(** [holdCapacity]: whether the pass may start hosts. *)
Definition holdCapacity (ts : list (string * Target)) : C bool :=
  if negb (existsb (λ it : string * Target, negb (Finished (t_State it.2)) && negb (Waiting (t_State it.2))) ts) then mret true
  else match w_renewal w with
  | RenewalLive => mret true
  | RenewalUnproven => mret false
  | RenewalStale => fail ErrLeaseLost
  end.

(** [UpdateTarget]. *)
Definition UpdateTarget (id : string) (t : Target) (state : TargetState) (code : string) : C Target :=
  revision ← updateTarget id t state code;
  mret { { { t with t_ErrorCode := code } with t_State := state } with t_Revision := revision }.

(** [takeCapacity]: whether the host has its tokens, and the target as it
    stands then. *)
Definition takeCapacity (id : string) (t : Target) : C (bool * Target) :=
  match w_capacity w id with
  | CapacityFree => mret (true, t)
  | CapacityFailed => fail ErrWorld
  | CapacityRefused reason =>
      let code := "budget_" +:+ reason in
      if negb (bool_decide (t_State t = TargetAwaitingBudget)) || negb (bool_decide (t_ErrorCode t = code))
      then t ← UpdateTarget id t TargetAwaitingBudget code; mret (false, t)
      else mret (false, t)
  end.

(** [holdOffline]. *)
Definition holdOffline (c : Campaign) (id : string) (t : Target) : C Target :=
  if bool_decide (c_OfflinePolicy c = OfflineRequireOnline) then
    finishTarget c id t TargetSkipped "offline" "the policy require_online does not wait for it"
  else if bool_decide (c_OfflinePolicy c = OfflineSkip) then
    finishTarget c id t TargetSkipped "skipped_offline" "the policy skip_if_offline leaves it out"
  else if pastDeadline c (w_now w) then
    finishTarget c id t TargetSkipped "offline_deadline" "the campaign's deadline has passed"
  else if bool_decide (t_State t = TargetQueuedOffline) then mret t
  else UpdateTarget id t TargetQueuedOffline "offline".

(** [replanTarget]: the next attempt of the plan step. *)
Definition replanTarget (c : Campaign) (id : string) (t : Target) : C Target :=
  let action := PlanningAction (c_ActionType c) in
  if bool_decide (action = "") then
    finishTarget c id t TargetSkipped "plan_changed_offline" "the operation has no planner any more"
  else
    done ← launch campaignID c id t
      (submitJobTx c (t_HostID t) action (key_of "replan" (t_HostID t +:+ ":after:" +:+ default "none" (t_PlanJobID t))))
      (λ job, mkStart StepPlan None "" (Some (ColumnPlan, job)) TargetPlanning "" None [] false "");
    match done with
    | Refused _ => finishTarget c id t TargetFailed "plan_create_failed" ""
    | Launched t => mret t
    end.

(** [serviceOfflineQueue], for one host. *)
Definition service_offline (c : Campaign) (id : string) (t : Target) : C Target :=
  if negb (bool_decide (t_State t = TargetQueuedOffline)) then mret t
  else match w_host w (t_HostID t) with
  | None => finishTarget c id t TargetSkipped "host_unavailable" ""
  | Some host =>
      if negb (h_Online host) then
        if pastDeadline c (w_now w) then finishTarget c id t TargetSkipped "offline_deadline" "the campaign's deadline has passed" else mret t
      else if bool_decide (c_OfflinePolicy c = OfflineReplan) then replanTarget c id t
      else UpdateTarget id t TargetPending ""
  end.
Definition serviceOfflineQueue (c : Campaign) (ts : list (string * Target)) : C (list (string * Target)) := every_target (service_offline c) ts.

(** ** The waves *)

(** [creatorMayDispatch]. *)
Definition creatorMayDispatch (c : Campaign) (host : Host) : RightsVerdict :=
  judgeRights (w_now w) (w_lookup w).1 (w_lookup w).2 (h_Scope host) [PermCampaignCreate; Registry.Permission (c_ActionType c)].

(** The job of a launch. *)
Definition createJob (c : Campaign) (t : Target) : C string :=
  plan ← gets (HostPlan (t_HostID t));
  if CampaignPlans (c_ActionType c) && bool_decide (plan.1 = "") then fail ErrWorld
  else if CampaignPlans (c_ActionType c) && plan_old plan.2 && negb (PanelPlanned (c_ActionType c)) then fail ErrWorld
  else submitJobTx c (t_HostID t) (c_ActionType c) (key_of "main" (t_HostID t)).
Definition create_code (c : Campaign) (t : Target) (d : CDB) : string :=
  let plan := HostPlan (t_HostID t) d in
  if CampaignPlans (c_ActionType c) && negb (bool_decide (plan.1 = "")) && plan_old plan.2 && negb (PanelPlanned (c_ActionType c))
  then "plan_stale" else "job_create_failed".
Definition main_start (c : Campaign) (host : Host) (planHash job : string) : stepStart :=
  mkStart StepExecute (dependencyOf StepExecute (campaignPlans c) false) planHash (Some (ColumnJob, job)) TargetDispatched ""
    (Some (h_BootID host)) [] false (c_CompensatesCampaignID c).
Definition plan_for (c : Campaign) (t : Target) (d : CDB) : string := if CampaignPlans (c_ActionType c) then (HostPlan (t_HostID t) d).1 else "".

(** What became of a host whose turn came. *)
Inductive turn := TurnStarted | TurnPassed | TurnPause.
Definition launch_target (c : Campaign) (id : string) (t : Target) (host : Host) : C (turn * Target) :=
  code ← gets (create_code c t);
  planHash ← gets (plan_for c t);
  done ← launch campaignID c id t (createJob c t) (main_start c host planHash);
  match done with
  | Launched t => mret (TurnStarted, t)
  | Refused _ => t ← finishTarget c id t TargetFailed code "the task was not created"; mret (TurnPassed, t)
  end.

(** [creatorMayRemediate]: the permission of every step, the first answer that
    is not held decides. *)
Fixpoint creatorMayRemediate (host : Host) (actions : list ActionType) : RightsVerdict :=
  match actions with
  | [] => RightsHeld
  | action :: actions =>
      match judgeRights (w_now w) (w_lookup w).1 (w_lookup w).2 (h_Scope host) [Registry.Permission action] with
      | RightsHeld => creatorMayRemediate host actions
      | verdict => verdict
      end
  end.

(** [startRemediation]: a plan of steps instead of a task. *)
Definition remediation_start (planHash : string) (host : Host) : stepStart :=
  mkStart StepExecute None planHash None TargetRunning "remediation plan" (Some (h_BootID host)) [] false "".
Definition startRemediation (c : Campaign) (id : string) (t : Target) (host : Host) : C (turn * Target) :=
  let failed code message := t ← finishTarget c id t TargetFailed code message; mret (TurnPassed, t) in
  plan ← gets (HostPlan (t_HostID t));
  if bool_decide (plan.1 = "") then failed "plan_missing" "the host has no remediation plan in this campaign"
  else if plan_old plan.2 then failed "plan_stale" "the plan expired"
  else match w_decode w (t_HostID t) with
  | None => failed "plan_invalid" "the plan does not decode"
  | Some actions =>
      match creatorMayRemediate host actions with
      | RightsUnconfirmed => mret (TurnPause, t)
      | RightsGone => t ← finishTarget c id t TargetSkipped "out_of_scope" ""; mret (TurnPassed, t)
      | RightsHeld =>
          LockForLaunch campaignID c ;;
          match w_create_plan w (t_HostID t) with
          | PlanInProgress => failed "plan_in_progress" "a remediation plan is already running on this host"
          | PlanCreateFailed => fail ErrWorld
          | PlanCreated => t ← startStep campaignID id t (remediation_start plan.1 host); mret (TurnStarted, t)
          end
      end
  end.

Definition take_turn (c : Campaign) (id : string) (t : Target) : C (turn * Target) :=
  let passed m := t ← m; mret (TurnPassed, t) in
  match w_host w (t_HostID t) with
  | None => passed (finishTarget c id t TargetSkipped "host_unavailable" "")
  | Some host =>
      if negb (h_Online host) then passed (holdOffline c id t)
      else match creatorMayDispatch c host with
      | RightsUnconfirmed => mret (TurnPause, t)
      | RightsGone => passed (finishTarget c id t TargetSkipped "out_of_scope" "")
      | RightsHeld =>
          if h_Maintenance host then passed (finishTarget c id t TargetSkipped "maintenance" "")
          else
            '(free, t) ← takeCapacity id t;
            if negb free then mret (TurnPassed, t)
            else if bool_decide (c_ActionType c = ActionSecurityRemediate) then startRemediation c id t host
            else launch_target c id t host
      end
  end.

Definition with_target (id : string) (t : Target) (ts : list (string * Target)) : list (string * Target) :=
  (λ it : string * Target, if bool_decide (it.1 = id) then (id, t) else it) <$> ts.
Definition find_target (id : string) (ts : list (string * Target)) : option Target := snd <$> head (filter (λ it : string * Target, it.1 = id) ts).

(** [pause]: the decision of the machinery. *)
Definition pause (c : Campaign) (ts : list (string * Target)) (reason : string) : C unit :=
  SetState (w_others w) campaignID c (pauseState (snd <$> ts)) reason ;; mret tt.

(** The loop of [launchWave] over the claimed rows. *)
Fixpoint launch_claimed (c : Campaign) (claimed : list (string * Target)) (running : Z) (ts : list (string * Target)) : C unit :=
  match claimed with
  | [] => mret tt
  | (id, row) :: claimed =>
      match find_target id ts with
      | None => launch_claimed c claimed running ts
      | Some t =>
          if negb (Waiting (t_State t)) || bool_decide (t_State t = TargetQueuedOffline) then launch_claimed c claimed running ts
          else if bool_decide (c_MaxConcurrent c ≤ running) then mret tt
          else
            '(outcome, t) ← take_turn c id { { t with t_ClaimToken := t_ClaimToken row } with t_Revision := t_Revision row };
            let ts := with_target id t ts in
            match outcome with
            | TurnStarted => launch_claimed c claimed (running + 1) ts
            | TurnPassed => launch_claimed c claimed running ts
            | TurnPause => pause c ts "creator_rights_unconfirmed"
            end
      end
  end.
Definition launchWave (c : Campaign) (runner : string) (ts : list (string * Target)) (wave : Z) : C unit :=
  let running := activeTargets (snd <$> ts) in
  if bool_decide (c_MaxConcurrent c ≤ running) then mret tt
  else
    claimed ← ClaimWaveTargets (w_locked w) campaignID wave runner (c_MaxConcurrent c - running);
    launch_claimed c claimed running ts.
End pass.
