(* ===== verification/CampaignAdvance.v ===== *)
(** * CampaignAdvance: how a campaign moves from pass to pass

    plan, advance, settle, drain, expire and tick of src/internal/campaigns. *)
From coqutil Require Import Datatypes.RecordSetters.
From S2P Require Import Prelude Bytes Text Actions ActionTables Registry AuthzTables Authz JobState Jobs CampaignStates Campaigns CampaignStore CampaignPass.

Import OCamlLikeNotations.
Open Scope Z_scope.
Open Scope list_scope.

Section advance.
Context `{MapOrder} {RJ : ResultJson} {OR : Orders}.
(** The plan set and the fingerprint of an approval: SHA-256 over texts. *)
Context (PlanSetFingerprint : list (string * string) → string) (FingerprintWithPlans : string → string → string).
(** The order as a mapping of hosts to names, and what a host's part hashes to:
    [ParseHostnameMapping], [PayloadFor], [ContentFingerprint]. *)
Context (mapping : option (string → option string)).
Context (w : world) (campaignID : string).

(** [Targets]: the rows of the campaign in the order of the rollout. *)
Definition target_before (a b : string * Target) : bool :=
  bool_decide (t_Wave a.2 < t_Wave b.2) || bool_decide (t_Wave a.2 = t_Wave b.2) && bool_decide (t_Position a.2 < t_Position b.2).
Definition Targets (d : CDB) : list (string * Target) := sort_stable target_before (targets_of d campaignID).

(** A move of the campaign by the pass. *)
Definition move (c : Campaign) (state : State) (reason : string) : C unit :=
  SetState (w_others w) campaignID c state reason ;; mret tt.

(** ** Planning *)

(** [failPlanning]. *)
Definition finish_open (c : Campaign) (state : TargetState) (code message : string) (ts : list (string * Target)) : C (list (string * Target)) :=
  every_target (λ id t, if Finished (t_State t) then mret t else finishTarget campaignID c id t state code message) ts.
Definition failPlanning (c : Campaign) (ts : list (string * Target)) (reason : string) : C unit :=
  finish_open c TargetSkipped "plan_failed" reason ts ;; move c StatePlanFailed reason.

(** [complete]. *)
Definition complete (c : Campaign) (ts : list (string * Target)) : C unit :=
  move c (settleCampaignState (tallyTargets (snd <$> ts))) "".

(** [finishPlanning]. *)
Definition Plans (d : CDB) : list (string * string) :=
  (λ p : (string * string) * (string * time), (p.1.2, p.2.1)) <$> filter (λ p, p.1.1 = campaignID) (map_to_list (plans d)).
Definition finishPlanning (c : Campaign) (ts : list (string * Target)) : C unit :=
  if allFinished (snd <$> ts) then
    if bool_decide (tally_Succeeded (tallyTargets (snd <$> ts)) = 0) then failPlanning c ts "no host computed a plan of the change"
    else complete c ts
  else
    plans ← gets Plans;
    if bool_decide (plans = []) then failPlanning c ts "no host computed a plan of the change"
    else
      let set := PlanSetFingerprint plans in
      if bool_decide (c_ApprovalFingerprint c = "") then fail ErrWorld
      else FinishPlanning campaignID set (FingerprintWithPlans (c_ApprovalFingerprint c) set)
             (if c_RequiresApproval c then StateAwaitingApproval else StatePlanned).

(** [orderPlan]. *)
Definition orderPlan (c : Campaign) (id : string) (t : Target) : C Target :=
  match w_host w (t_HostID t) with
  | None => finishTarget campaignID c id t TargetSkipped "host_unavailable" ""
  | Some host =>
      if negb (h_Online host) then holdOffline w campaignID c id t
      else
        done ← launch campaignID c id t
          (submitJobTx w campaignID c (t_HostID t) (PlanningAction (c_ActionType c)) (key_of campaignID "plan" (t_HostID t)))
          (λ job, mkStart StepPlan None "" (Some (ColumnPlan, job)) TargetPlanning "" None [] false "");
        match done with
        | Refused _ => finishTarget campaignID c id t TargetFailed "plan_create_failed" ""
        | Launched t => mret t
        end
  end.

(** [collectPlan]: whether the host is done, and the target. *)
Definition collectPlan (c : Campaign) (id : string) (t : Target) : C (bool * Target) :=
  let done m := t ← m; mret (true, t) in
  match t_PlanJobID t with
  | None => mret (false, t)
  | Some jobID =>
      j ← known_job jobID;
      if negb (JobState.Terminal (j_state j)) then mret (false, t)
      else if negb (bool_decide (j_state j = JobState.StateSucceeded)) then
        done (finishTarget campaignID c id t TargetFailed (orDefault (default "" (j_result_error_code j)) "plan_failed")
                (default "" (j_result_message j)))
      else
        found ← gets (λ d, planFingerprint d jobID);
        match found with
        | None => done (finishTarget campaignID c id t TargetFailed "plan_hash_missing" "the host gave no plan digest")
        | Some (hash, plan) =>
            if negb (bool_decide (planRefusal plan = "")) then
              done (finishTarget campaignID c id t TargetIneligible "plan_refused" (planRefusal plan))
            else if planNoChange plan then
              savePlan campaignID (t_HostID t) hash ;; done (settleNoChange campaignID c id t hash)
            else done (acceptPlan campaignID id t hash ("plan " +:+ shortHash hash))
        end
  end.

(** [recheckOfflinePlanning]: whether the host is back. *)
Definition recheckOfflinePlanning (c : Campaign) (id : string) (t : Target) : C (bool * Target) :=
  match w_host w (t_HostID t) with
  | None => t ← finishTarget campaignID c id t TargetSkipped "host_unavailable" ""; mret (false, t)
  | Some host =>
      if negb (h_Online host) then
        if pastDeadline c (w_now w)
        then t ← finishTarget campaignID c id t TargetSkipped "offline_deadline" "the campaign's deadline has passed"; mret (false, t)
        else mret (false, t)
      else t ← UpdateTarget id t TargetPending ""; mret (true, t)
  end.

(** One host of the planning pass: whether it counts as settled. *)
Definition plan_target (c : Campaign) (id : string) (t : Target) : C (bool * Target) :=
  if Finished (t_State t) then mret (true, t)
  else match planStepFor t with
  | planOrder => t ← orderPlan c id t; mret (false, t)
  | planCollect | planCollectUnmoved => collectPlan c id t
  | planRecheckOffline =>
      '(returned, t) ← recheckOfflinePlanning c id t;
      if returned : bool then t ← orderPlan c id t; mret (false, t) else mret (false, t)
  | planNothing => mret (false, t)
  end.

(** One host of a plan that comes with the order. *)
Definition plan_from_order (names : string → option string) (c : Campaign) (id : string) (t : Target) : C (bool * Target) :=
  if Finished (t_State t) then mret (true, t)
  else if negb (bool_decide (t_State t ∈ [TargetPending; TargetQueuedOffline])) then mret (false, t)
  else match names (t_HostID t) with
  | None => t ← finishTarget campaignID c id t TargetIneligible "no_hostname_for_host" "the order names no new hostname for this host"; mret (true, t)
  | Some hash =>
      t ← startStep campaignID id t (mkStart StepPlan None "" None TargetPlanning "the name comes with the order" None [] false "");
      t ← acceptPlan campaignID id t hash ("plan " +:+ shortHash hash);
      mret (true, t)
  end.

Fixpoint plan_all (body : string → Target → C (bool * Target)) (ts : list (string * Target)) : C (bool * list (string * Target)) :=
  match ts with
  | [] => mret (true, [])
  | (id, t) :: ts =>
      '(settled, t) ← body id t;
      '(all, rest) ← plan_all body ts;
      mret (settled && all, (id, t) :: rest)
  end.

(** [plan] and [planFromOrder]. *)
Definition plan (c : Campaign) (ts : list (string * Target)) : C unit :=
  let run body := '(all, ts) ← plan_all body ts; if all : bool then finishPlanning c ts else mret tt in
  if PanelPlanned (c_ActionType c) then
    match mapping with
    | None => failPlanning c ts "the order carries no usable mapping"
    | Some names => run (plan_from_order names c)
    end
  else if bool_decide (PlanningAction (c_ActionType c) = "") then failPlanning c ts "the operation cannot be planned on the hosts"
  else run (plan_target c).

(** ** Stopped campaigns *)

(** [expire]. *)
Definition expire (c : Campaign) : C unit :=
  ts ← gets Targets;
  finish_open c TargetSkipped "plan_stale" "the plan expired" ts ;;
  move c StateExpired "the plan expired".

(** [drain] and [settle]. *)
Definition drain (c : Campaign) (ts : list (string * Target)) : C unit :=
  holdCapacity w ts ;;
  ts ← each_target (progressTarget w campaignID c) ts;
  if cancelSettled (snd <$> ts) then move c StateCanceled "" else mret tt.
Definition settle (c : Campaign) (ts : list (string * Target)) : C unit :=
  holdCapacity w ts ;;
  ts ← each_target (progressTarget w campaignID c) ts;
  if bool_decide (c_State c = StatePausing) && cancelSettled (snd <$> ts)
  then move c StatePaused (default "" (c_PauseReason c)) else mret tt.

(** ** The running campaign *)

(** What a pass decides once the hosts at work are settled. *)
Inductive decision :=
| PauseWindowClosed | PauseThreshold (why : stop_reason) | PauseConnectivity | Complete.
Definition window_closed (before now : list (string * Target)) : bool :=
  existsb (λ p : (string * Target) * (string * Target), negb (Finished (t_State p.1.2)) && RebootWindowClosed p.2.2) (zip before now).
Definition decide_stop (c : Campaign) (before ts : list (string * Target)) : option decision :=
  let counts := tallyTargets (snd <$> ts) in
  if window_closed before ts then Some PauseWindowClosed
  else match ThresholdExceeded (tally_Failed counts) (tally_Finished counts) (c_FailureThresholdPercent c) (c_FailureThresholdAbsolute c) with
  | Some why => Some (PauseThreshold why)
  | None =>
      if bool_decide (0 < c_ConnectivityLostAbsolute c) && bool_decide (c_ConnectivityLostAbsolute c ≤ Lost counts) then Some PauseConnectivity
      else if allFinished (snd <$> ts) then Some Complete else None
  end.
Definition pause_reason (why : decision) : string :=
  match why with
  | PauseWindowClosed => "maintenance_window_closed_mid_reboot" | PauseConnectivity => "connectivity_lost" | _ => "threshold"
  end.

(** Where the rollout stands: nothing to start, the gate, or a wave with the
    phase it belongs to. *)
Inductive rollout := RolloutWaits | RolloutGate (reason : string) | RolloutWave (wave : Z) (phase : State).
Definition decide_rollout (c : Campaign) (ts : list Target) : rollout :=
  let wave := currentWave ts in
  if bool_decide (wave < 0) then RolloutWaits
  else if negb (waveFinished ts (wave - 1)) then RolloutWaits
  else if bool_decide (0 < wave) && c_ManualGate c && bool_decide (c_GateAdvancedAt c = None) then RolloutGate ""
  else if bool_decide (0 < wave) && bool_decide (c_GateAdvancedAt c = None) && canaryExercisedNothing c ts
  then RolloutGate "the canary exercised nothing"
  else RolloutWave wave (if bool_decide (wave = 0) && negb (bool_decide (c_State c = StateRunning)) then StateCanary else StateRunning).

Definition enterGate (c : Campaign) (reason : string) : C unit :=
  if bool_decide (c_State c = StateManualGate) then mret tt else move c StateManualGate reason.

Definition enter_phase (c : Campaign) (phase : State) : C Campaign :=
  if bool_decide (c_State c = phase) then mret c else SetState (w_others w) campaignID c phase "".

Definition roll_out (c : Campaign) (runner : string) (ts : list (string * Target)) : C unit :=
  match decide_rollout c (snd <$> ts) with
  | RolloutWaits => mret tt
  | RolloutGate reason => enterGate c reason
  | RolloutWave wave phase => c ← enter_phase c phase; launchWave w campaignID c runner ts wave
  end.

(** [advance] for a campaign that may start hosts. *)
Definition run_campaign (c : Campaign) (runner : string) (before : list (string * Target)) : C unit :=
  mayLaunch ← holdCapacity w before;
  ts ← each_target (progressTarget w campaignID c) before;
  match decide_stop c before ts with
  | Some Complete => complete c ts
  | Some why => pause w campaignID c ts (pause_reason why)
  | None =>
      ts ← serviceOfflineQueue w campaignID c ts;
      if negb (WithinMaintenanceWindow (w_now w) (c_MaintenanceStart c) (c_MaintenanceEnd c)) || negb mayLaunch then mret tt
      else roll_out c runner ts
  end.

(** [advance]. *)
Definition advance (c : Campaign) (runner : string) : C unit :=
  oldest ← gets (λ d, OldestPlan d campaignID);
  let waits := bool_decide (c_State c = StateAwaitingApproval) || bool_decide (c_State c = StatePlanned) && bool_decide (c_StartedAt c = None) in
  if waits && plansExpired oldest (c_StartedAt c) (w_now w) then expire c
  else if bool_decide (c_State c = StateAwaitingApproval) then mret tt
  else
    ts ← gets Targets;
    match c_State c with
    | StatePlanning => plan c ts
    | StateCanceling => drain c ts
    | StatePausing | StatePaused => settle c ts
    | _ => run_campaign c runner ts
    end.

(** One campaign of [tick]: whatever the pass ends in is only logged. *)
Definition drives (d : CDB) (c : Campaign) : bool :=
  bool_decide (c_State c ∈ DrivenStates) || bool_decide (c_State c = StatePaused) && in_flight d campaignID.
Definition tick_one (locked : bool) (runner : string) : C unit :=
  found ← gets (λ d, c ← campaigns d !! campaignID; if drives d c then Some c else None);
  match found with
  | None => mret tt
  | Some c =>
      token ← ClaimRunner locked campaignID runner;
      match token with
      | None => mret tt
      | Some token =>
          let c := { { c with c_RunnerToken := token } with c_RunnerID := Some runner } in
          (if bool_decide (c_State c = StateAwaitingApproval) then mret tt else AdoptTargets campaignID runner) ;;
          try (advance c runner) ;;
          mret tt
      end
  end.
End advance.
