(* ===== verification/CampaignSteps.v ===== *)
(** * CampaignSteps: what the writes of the campaigns may do

    A write moves hosts and campaigns along their tables of moves, under the
    revision its writer read. *)
From coqutil Require Import Datatypes.RecordSetters.
From S2P Require Import Prelude Bytes Text Actions ActionTables Registry AuthzTables Authz JobState Jobs.
From S2P Require Import CampaignStates Campaigns CampaignStore CampaignPass CampaignAdvance.

Import OCamlLikeNotations.
Open Scope Z_scope.
Open Scope list_scope.

(** ** Rows over time *)

(** A host of a campaign keeps its place, moves along the table, and its
    revision stands for its state. *)
Record target_forward (t t' : Target) : Prop := {
  tf_campaign : t_CampaignID t' = t_CampaignID t;
  tf_host : t_HostID t' = t_HostID t;
  tf_wave : t_Wave t' = t_Wave t;
  tf_position : t_Position t' = t_Position t;
  tf_path : rtc (λ s s', target_mayBecome s s' = true) (t_State t) (t_State t');
  tf_revision : t_Revision t ≤ t_Revision t';
  tf_token : t_ClaimToken t ≤ t_ClaimToken t';
  tf_same : t_Revision t' = t_Revision t →
    t_State t' = t_State t ∧ t_ClaimToken t' = t_ClaimToken t ∧ t_ErrorCode t' = t_ErrorCode t;
}.
(** And one that nobody started. *)
Definition target_calm (t t' : Target) : Prop :=
  target_forward t t' ∧ (UnderWay (t_State t') = true → UnderWay (t_State t) = true).

(** The moves of an operator and of the planning. *)
Definition operator_move (s s' : State) : Prop :=
  s = StateAwaitingApproval ∧ s' = StatePlanned
  ∨ s ∈ PausableStates ∧ s' ∈ [StatePausing; StatePaused]
  ∨ s ∈ [StatePaused; StatePausing] ∧ s' = StatePlanned
  ∨ s = StateManualGate ∧ s' = StateRunning
  ∨ s = StatePlanning ∧ s' ∈ [StatePlanned; StateAwaitingApproval]
  ∨ Terminal s = false ∧ s ≠ StateCanceling ∧ s' ∈ [StateCanceling; StateCanceled].
Definition campaign_move (s s' : State) : Prop := mayBecome s s' = true ∨ operator_move s s'.

(** What a campaign is ordered with. *)
Definition same_order (c c' : Campaign) : Prop :=
  c_ActionType c' = c_ActionType c ∧ c_MaxConcurrent c' = c_MaxConcurrent c ∧ c_CanarySize c' = c_CanarySize c
  ∧ c_FailureThresholdAbsolute c' = c_FailureThresholdAbsolute c ∧ c_FailureThresholdPercent c' = c_FailureThresholdPercent c
  ∧ c_ManualGate c' = c_ManualGate c ∧ c_ConnectivityLostAbsolute c' = c_ConnectivityLostAbsolute c.
#[export] Instance same_order_preorder : PreOrder same_order.
Proof. split; [by intros c|]. intros c1 c2 c3 A B. unfold same_order in *. naive_solver congruence. Qed.

Record campaign_forward (c c' : Campaign) : Prop := {
  cf_path : rtc campaign_move (c_State c) (c_State c');
  cf_revision : c_Revision c ≤ c_Revision c';
  cf_token : c_RunnerToken c ≤ c_RunnerToken c';
  cf_same : c_Revision c' = c_Revision c → c_State c' = c_State c;
  cf_gate : c_GateAdvancedAt c ≠ None → c_GateAdvancedAt c' ≠ None;
  cf_order : same_order c c';
}.

#[export] Instance target_forward_preorder : PreOrder target_forward.
Proof.
  split.
  - intros t. by split.
  - intros t1 t2 t3 [A1 A2 A3 A4 A5 A6 A7 A8] [B1 B2 B3 B4 B5 B6 B7 B8]. split; try congruence; try lia; [by etrans|].
    intros E. destruct A8 as (? & ? & ?); [lia|]. destruct B8 as (? & ? & ?); [lia|]. split_and!; congruence.
Qed.
#[export] Instance target_calm_preorder : PreOrder target_calm.
Proof. split; [by intros t|]. intros t1 t2 t3 [A1 A2] [B1 B2]. split; [by etrans|auto]. Qed.
#[export] Instance campaign_forward_preorder : PreOrder campaign_forward.
Proof.
  split.
  - intros c. by split.
  - intros c1 c2 c3 [A1 A2 A3 A4 A5 A6] [B1 B2 B3 B4 B5 B6]. split; try lia; [by etrans| |by auto|].
    + intros E. rewrite B4, A4 by lia. done.
    + by etrans.
Qed.

Lemma Finished_final t t' : target_forward t t' → Finished (t_State t) = true → t_State t' = t_State t.
Proof.
  intros H Hf. destruct (tf_path _ _ H) as [|s s' s'' Hm Hr]; [done|]. by rewrite (Finished_is_final _ _ Hf) in Hm.
Qed.

Lemma operator_move_open s s' : operator_move s s' → Terminal s = false.
Proof.
  intros [[-> _]|[[H _]|[[H _]|[[-> _]|[[-> _]|[? _]]]]]]; try done.
  all: repeat (apply elem_of_cons in H as [->|H]; [done|]); by apply elem_of_nil in H.
Qed.
Lemma Terminal_final c c' : campaign_forward c c' → Terminal (c_State c) = true → c_State c' = c_State c.
Proof.
  intros H Hf. destruct (cf_path _ _ H) as [|s s' s'' [Hm|Hm] Hr]; [done| |].
  - by rewrite (Terminal_is_final _ _ Hf) in Hm.
  - by rewrite (operator_move_open _ _ Hm) in Hf.
Qed.

(** ** Tables over time *)

Section evolves.
Context (RT : string → Target → Target → Prop) (RC : Campaign → Campaign → Prop).

Record evolves (d d' : CDB) : Prop := {
  ev_targets : ∀ id, option_Forall2 (RT id) (targets d !! id) (targets d' !! id);
  ev_campaigns : ∀ id, option_Forall2 RC (campaigns d !! id) (campaigns d' !! id);
}.

Context `{!∀ id, PreOrder (RT id), !PreOrder RC}.

#[export] Instance evolves_preorder : PreOrder evolves.
Proof.
  split.
  - intros d. split; intros id; [destruct (targets d !! id)|destruct (campaigns d !! id)]; by constructor.
  - intros d1 d2 d3 [A1 A2] [B1 B2]. split; intros id.
    + specialize (A1 id). specialize (B1 id). destruct A1; inversion B1; subst; constructor. by etrans.
    + specialize (A2 id). specialize (B2 id). destruct A2; inversion B2; subst; constructor. by etrans.
Qed.

Lemma evolves_same d d' : targets d' = targets d → campaigns d' = campaigns d → evolves d d'.
Proof. intros E1 E2. split; intros id; rewrite ?E1, ?E2; [destruct (targets d !! id)|destruct (campaigns d !! id)]; by constructor. Qed.

(** A program that only evolves the tables, whatever it returns. *)
Definition keeps {A} (m : C A) : Prop := ∀ d, evolves d (m d).2.

Lemma steps_bind {A B} (m : C A) (k : A → C B) : keeps m → (∀ a, keeps (k a)) → keeps (m ≫= k).
Proof.
  intros Hm Hk d. unfold mbind, M_bind. specialize (Hm d). destruct (m d) as [[a|e] d'] eqn:E; [|done].
  cbn in Hm. etrans; [exact Hm|apply Hk].
Qed.
Lemma steps_ret {A} (a : A) : keeps (mret a).
Proof. intros d. apply reflexivity. Qed.
Lemma steps_fail {A} e : keeps (fail e : C A).
Proof. intros d. apply reflexivity. Qed.
Lemma steps_gets {A} (f : CDB → A) : keeps (gets f).
Proof. intros d. apply reflexivity. Qed.
Lemma steps_modify (f : CDB → CDB) : (∀ d, evolves d (f d)) → keeps (modify f).
Proof. intros Hf d. apply Hf. Qed.
Lemma steps_try {A} (m : C A) : keeps m → keeps (try m).
Proof. intros Hm d. unfold try. specialize (Hm d). by destruct (m d) as [r d']. Qed.
Lemma keeps_ctx {A} (m : C A) : keeps m → keeps (in_ctx m).
Proof. intros Hm d. unfold in_ctx. specialize (Hm d). destruct (m d) as [[a|e] d'] eqn:E; [done|apply reflexivity]. Qed.
Lemma steps_mfor {A} (l : list A) (body : A → C unit) : (∀ x, keeps (body x)) → keeps (mfor l body).
Proof. intros Hb. induction l; cbn; [apply steps_ret|]. by apply steps_bind. Qed.
Lemma keeps_on_jobs {A} (m : Jobs.T A) : keeps (on_jobs m).
Proof. intros d. unfold on_jobs. destruct (m (job_tables d)) as [[a|e] j]; apply evolves_same; by destruct d. Qed.
Lemma keeps_set_step k s : keeps (set_step k s).
Proof. apply steps_modify. intros d. apply evolves_same; by destruct d. Qed.

Lemma keeps_RecordStep id key dep hash state job reason : keeps (RecordStep id key dep hash state job reason).
Proof.
  unfold RecordStep. destruct (_ && _); [apply steps_fail|]. apply steps_bind; [apply steps_gets|]. intros now. cbv zeta.
  apply steps_bind; [apply steps_gets|]. intros found. apply keeps_set_step.
Qed.
Lemma keeps_StartStep id key dep hash job reason : keeps (StartStep id key dep hash job reason).
Proof.
  unfold StartStep. apply steps_bind; [apply steps_gets|]. intros now. apply steps_bind; [apply steps_gets|]. intros found. apply keeps_set_step.
Qed.
Lemma keeps_FinishStep id key state reason : keeps (FinishStep id key state reason).
Proof.
  unfold FinishStep. destruct (Step_Open state); [apply steps_fail|]. destruct (_ && _); [apply steps_fail|].
  apply steps_bind; [apply steps_gets|]. intros now. apply steps_bind; [apply steps_gets|]. intros found.
  apply steps_bind; [|intros; apply steps_ret]. apply steps_modify. intros d. apply evolves_same; by destruct d.
Qed.
Lemma keeps_close_step planned id t o : keeps (close_step planned id t o).
Proof.
  unfold close_step. apply steps_bind; [apply keeps_FinishStep|]. intros []; [apply steps_ret|apply keeps_RecordStep].
Qed.
Lemma keeps_openCompensation campaignID original t hash job : keeps (openCompensation campaignID original t hash job).
Proof. unfold openCompensation. apply steps_bind; [apply steps_gets|]. intros [original'|]; [apply keeps_StartStep|apply steps_ret]. Qed.
Lemma keeps_closeCompensation campaignID c t state code message : keeps (closeCompensation campaignID c t state code message).
Proof.
  unfold closeCompensation. apply steps_bind; [apply steps_gets|]. intros [original|]; [|apply steps_ret].
  destruct (compensationOutcome _ _ _). apply steps_bind; [apply keeps_FinishStep|intros; apply steps_ret].
Qed.
Lemma keeps_savePlan campaignID host hash : keeps (savePlan campaignID host hash).
Proof.
  unfold savePlan. apply steps_bind; [apply steps_gets|]. intros now. apply steps_modify. intros d. apply evolves_same; by destruct d.
Qed.

(** One row written. *)
Lemma evolves_target d id t t' : targets d !! id = Some t → RT id t t' → evolves d { d with targets ::= <[id := t']> }.
Proof.
  intros Ht Hr. destruct d as [j c tg st p]; cbn in *. split; cbn; intros i; [|by destruct (c !! i); constructor].
  destruct (decide (i = id)) as [->|Hne]; [rewrite lookup_insert_eq, Ht; by constructor|].
  rewrite lookup_insert_ne by done. by destruct (tg !! i); constructor.
Qed.
Lemma evolves_campaign d id c c' : campaigns d !! id = Some c → RC c c' → evolves d { d with campaigns ::= <[id := c']> }.
Proof.
  intros Hc Hr. destruct d as [j cs tg st p]; cbn in *. split; cbn; intros i; [by destruct (tg !! i); constructor|].
  destruct (decide (i = id)) as [->|Hne]; [rewrite lookup_insert_eq, Hc; by constructor|].
  rewrite lookup_insert_ne by done. by destruct (cs !! i); constructor.
Qed.
Lemma keeps_update_targets P f : (∀ id t, P id t = true → RT id t (f t)) → keeps (update_targets P f).
Proof.
  intros Hf d. destruct d as [j c tg st p]. unfold update_targets. cbn. split; cbn; intros id; [|by destruct (c !! id); constructor].
  rewrite map_lookup_imap. destruct (tg !! id) as [t|] eqn:Ht; cbn; [|constructor]. constructor. destruct (P id t) eqn:Hp; [by apply (Hf id)|done].
Qed.
End evolves.

Lemma evolves_mono RT RT' RC RC' d d' :
  (∀ id t t', RT id t t' → RT' id t t') → (∀ c c', RC c c' → RC' c c') → evolves RT RC d d' → evolves RT' RC' d d'.
Proof.
  intros HT HC [A B]. split; intros id; [destruct (A id)|destruct (B id)]; constructor; auto.
Qed.

(** Over the tables, a row is known by its key. *)
Definition each_forward (_ : string) : Target → Target → Prop := target_forward.
Definition each_calm (_ : string) : Target → Target → Prop := target_calm.
#[export] Instance each_forward_preorder id : PreOrder (each_forward id) := target_forward_preorder.
#[export] Instance each_calm_preorder id : PreOrder (each_calm id) := target_calm_preorder.
(** Nothing written at all. *)
Definition each_same (_ : string) : Target → Target → Prop := eq.
#[export] Instance each_same_preorder id : PreOrder (each_same id). Proof. unfold each_same. split; congruence. Qed.
(** Calm, and one row alone written. *)
Definition calm_at (id i : string) (t t' : Target) : Prop := target_calm t t' ∧ (i ≠ id → t' = t).
#[export] Instance calm_at_preorder id i : PreOrder (calm_at id i).
Proof. split; [by intros t; split|]. intros t1 t2 t3 [A1 A2] [B1 B2]. split; [by etrans|]. intros Hi. by rewrite B2, A2. Qed.

Abbreviation calm_hosts := (evolves each_calm eq).
Abbreviation calm := (evolves each_calm campaign_forward).
Abbreviation forward := (evolves each_forward campaign_forward).

Lemma calm_hosts_calm d d' : calm_hosts d d' → calm d d'.
Proof. apply evolves_mono; [done|]. by intros c c' ->. Qed.
Lemma calm_forward d d' : calm d d' → forward d d'.
Proof. apply evolves_mono; [|done]. by intros id t t' []. Qed.
Lemma keeps_at {A} id (m : C A) : keeps (calm_at id) eq m → keeps each_calm eq m.
Proof. intros H d. eapply evolves_mono; [| |apply (H d)]; [by intros i t t' []|done]. Qed.
Lemma keeps_calm {A} (m : C A) : keeps each_calm eq m → keeps each_calm campaign_forward m.
Proof. intros H d. apply calm_hosts_calm, H. Qed.
Lemma keeps_forward {A} (m : C A) : keeps each_calm campaign_forward m → keeps each_forward campaign_forward m.
Proof. intros H d. apply calm_forward, H. Qed.

(** ** The writes of a host's row *)

Lemma write_state_forward now state code row :
  target_mayBecome (t_State row) state = true → target_forward row (write_state now state code row).
Proof.
  intros Hm. destruct row. cbn in *. split; cbn; try done; try lia. by apply rtc_once.
Qed.

Lemma matched_row_Some d id t row : matched_row d id t = Some row →
  targets d !! id = Some row ∧ t_State row = t_State t ∧ t_Revision row = t_Revision t ∧ t_ClaimToken row = t_ClaimToken t.
Proof.
  unfold matched_row, same_row. destruct (targets d !! id) as [r|]; [|done]. cbn [mbind option_bind].
  destruct (_ && _) eqn:E; [|done]. intros [= ->]. apply andb_true_iff in E as [E _]. apply andb_true_iff in E as [E E3].
  apply andb_true_iff in E as [E1 E2]. apply bool_decide_eq_true in E1, E2, E3. done.
Qed.

Lemma updateTarget_run id t state code d :
  (∃ e, updateTarget id t state code d = (Err e, d))
  ∨ target_mayBecome (t_State t) state = true ∧ ∃ row, targets d !! id = Some row ∧ t_State row = t_State t
      ∧ t_Revision row = t_Revision t ∧ t_ClaimToken row = t_ClaimToken t
      ∧ updateTarget id t state code d
        = (Ok (t_Revision row + 1), { d with targets ::= <[id := write_state (clock d) state code row]> }).
Proof.
  unfold updateTarget. destruct (target_mayBecome _ _) eqn:Hm; cbn [negb]; [|left; by exists ErrIllegalTransition].
  unfold mbind, M_bind, gets. destruct (matched_row d id t) as [row|] eqn:Hr; [|left; by exists ErrConcurrentTransition].
  right. split; [done|]. exists row. by destruct (matched_row_Some _ _ _ _ Hr) as (? & ? & ? & ?).
Qed.

(** A row written in place is calm when it starts nobody. *)
Lemma calm_here id t t' : target_forward t t' → (UnderWay (t_State t') = true → UnderWay (t_State t) = true) → calm_at id id t t'.
Proof. intros Hf Hu. by split; [split|]. Qed.

Lemma keeps_updateTarget id t state code :
  (UnderWay state = true → UnderWay (t_State t) = true) → keeps (calm_at id) eq (updateTarget id t state code).
Proof.
  intros Hu d. destruct (updateTarget_run id t state code d) as [[e ->]|(Hm & row & Hr & Hs & _ & _ & ->)]; [apply reflexivity|].
  cbn [snd]. apply (evolves_target (calm_at id) eq _ _ row); [exact Hr|]. rewrite <- Hs in Hm, Hu.
  apply calm_here; [by apply write_state_forward|destruct row; cbn in *; exact Hu].
Qed.
(** One row alone written, along the table. *)
Definition start_at (id i : string) (t t' : Target) : Prop := target_forward t t' ∧ (i ≠ id → t' = t).
#[export] Instance start_at_preorder id i : PreOrder (start_at id i).
Proof. split; [by intros t; split|]. intros t1 t2 t3 [A1 A2] [B1 B2]. split; [by etrans|]. intros Hi. by rewrite B2, A2. Qed.
Lemma keeps_start_at {A} id (m : C A) : keeps (calm_at id) eq m → keeps (start_at id) eq m.
Proof. intros H d. eapply evolves_mono; [| |apply (H d)]; [by intros i t t' [[] ?]|done]. Qed.

Lemma starts_updateTarget id t state code : keeps (start_at id) eq (updateTarget id t state code).
Proof.
  intros d. destruct (updateTarget_run id t state code d) as [[e ->]|(Hm & row & Hr & Hs & _ & _ & ->)]; [apply reflexivity|].
  cbn [snd]. apply (evolves_target (start_at id) eq _ _ row); [exact Hr|]. rewrite <- Hs in Hm. by split; [apply write_state_forward|].
Qed.

Lemma keeps_FollowTask id t state blocker :
  (UnderWay state = true → UnderWay (t_State t) = true) → keeps (calm_at id) eq (FollowTask id t state blocker).
Proof.
  intros Hu d. unfold FollowTask. destruct (target_mayBecome _ _) eqn:Hm; cbn [negb]; [|apply reflexivity].
  unfold mbind, M_bind, gets. destruct (matched_row d id t) as [row|] eqn:Hr; [|apply reflexivity].
  destruct (matched_row_Some _ _ _ _ Hr) as (Ht & Hs & _). cbn [snd]. apply (evolves_target (calm_at id) eq _ _ row); [exact Ht|].
  rewrite <- Hs in Hm, Hu. destruct row; cbn in *. apply calm_here; [|done]. split; cbn; try done; try lia. by apply rtc_once.
Qed.

Lemma claimed_row_Some d id t row : claimed_row d id t = Some row → targets d !! id = Some row.
Proof. unfold claimed_row. destruct (targets d !! id) as [r|]; [|done]. cbn [mbind option_bind]. by destruct (_ && _); [intros [= ->]|]. Qed.
Lemma keeps_attachJob id t column job : keeps (calm_at id) eq (attachJob id t column job).
Proof.
  intros d. unfold attachJob, mbind, M_bind, gets. destruct (claimed_row d id t) as [row|] eqn:Hr; [|apply reflexivity].
  cbn [snd]. apply (evolves_target (calm_at id) eq _ _ row); [by eapply claimed_row_Some|].
  apply calm_here; destruct row, column; cbn; [by split..|done|done|done|done].
Qed.
Lemma keeps_setBootIDBefore id t boot : keeps (calm_at id) eq (setBootIDBefore id t boot).
Proof.
  intros d. unfold setBootIDBefore, mbind, M_bind, gets. destruct (claimed_row d id t) as [row|] eqn:Hr; [|apply reflexivity].
  cbn [snd]. apply (evolves_target (calm_at id) eq _ _ row); [by eapply claimed_row_Some|].
  apply calm_here; destruct row; cbn; [by split|done].
Qed.

(** ** Automation: a program keeps what its parts keep *)

Create HintDb keeps.
#[export] Hint Resolve steps_bind steps_ret steps_fail steps_gets steps_try keeps_ctx steps_mfor keeps_on_jobs keeps_RecordStep
  keeps_StartStep keeps_FinishStep keeps_close_step keeps_openCompensation keeps_closeCompensation keeps_savePlan
  keeps_attachJob keeps_setBootIDBefore keeps_updateTarget keeps_FollowTask : keeps.

Ltac keeps_step :=
  lazymatch goal with
  | |- keeps _ _ (mbind _ _) => apply steps_bind; [typeclasses eauto|typeclasses eauto| |intros ?]
  | |- keeps _ _ (match ?x with _ => _ end) => destruct x eqn:?
  | |- keeps _ _ (let '_ := ?x in _) => destruct x eqn:?
  | |- keeps _ _ (mret _) => apply steps_ret; typeclasses eauto
  | |- keeps _ _ (fail _) => apply steps_fail; typeclasses eauto
  | |- keeps _ _ (gets _) => apply steps_gets; typeclasses eauto
  | |- keeps _ _ (try _) => apply steps_try
  | |- keeps _ _ (in_ctx _) => apply keeps_ctx; [typeclasses eauto..|]
  | |- keeps _ _ (mfor _ _) => apply steps_mfor; [typeclasses eauto..|intros ?]
  | |- _ => solve [eauto with keeps typeclass_instances]
  end; cbv beta.
Ltac keeps_tac := repeat keeps_step.

(** ** The transactions *)

Lemma keeps_settleTarget campaignID c id t state code message outcomes :
  Finished state = true → keeps (calm_at id) eq (settleTarget campaignID c id t state code message outcomes).
Proof.
  intros Hf. unfold settleTarget. assert (UnderWay state = true → UnderWay (t_State t) = true) by by destruct state. keeps_tac.
Qed.
#[export] Hint Resolve keeps_settleTarget : keeps.

Lemma keeps_startStepTx campaignID id t start :
  (UnderWay (ss_State start) = true → UnderWay (t_State t) = true) → keeps (calm_at id) eq (startStepTx campaignID id t start).
Proof. intros Hu. unfold startStepTx. keeps_tac. Qed.
Lemma starts_startStepTx campaignID id t start : keeps (start_at id) eq (startStepTx campaignID id t start).
Proof.
  unfold startStepTx. pose proof (λ column job, keeps_start_at id _ (keeps_attachJob id t column job)) as Ha.
  pose proof (λ boot, keeps_start_at id _ (keeps_setBootIDBefore id t boot)) as Hb.
  pose proof (starts_updateTarget id t (ss_State start) "") as Hu. keeps_tac.
Qed.
Lemma keeps_startStep campaignID id t start :
  (UnderWay (ss_State start) = true → UnderWay (t_State t) = true) → keeps (calm_at id) eq (startStep campaignID id t start).
Proof. intros Hu. unfold startStep. pose proof (keeps_startStepTx campaignID id t start Hu). keeps_tac. Qed.
Lemma keeps_acceptPlan campaignID id t hash reason : keeps (calm_at id) eq (acceptPlan campaignID id t hash reason).
Proof. unfold acceptPlan. assert (UnderWay TargetPending = true → UnderWay (t_State t) = true) by done. keeps_tac. Qed.
Lemma keeps_UpdateTarget id t state code : UnderWay state = false → keeps (calm_at id) eq (UpdateTarget id t state code).
Proof. intros Hu. unfold UpdateTarget. assert (UnderWay state = true → UnderWay (t_State t) = true) by (by rewrite Hu). keeps_tac. Qed.
Lemma keeps_finishTargetSteps campaignID c id t state code message outcomes :
  Finished state = true → keeps (calm_at id) eq (finishTargetSteps campaignID c id t state code message outcomes).
Proof. intros Hf. unfold finishTargetSteps. keeps_tac. Qed.
Lemma keeps_finishTarget campaignID c id t state code message :
  Finished state = true → keeps (calm_at id) eq (finishTarget campaignID c id t state code message).
Proof. intros Hf. by apply keeps_finishTargetSteps. Qed.
#[export] Hint Resolve keeps_startStep keeps_acceptPlan keeps_UpdateTarget keeps_finishTargetSteps keeps_finishTarget : keeps.

Lemma keeps_LockForLaunch RT RC `{!∀ i, PreOrder (RT i), !PreOrder RC} id c : keeps RT RC (LockForLaunch id c).
Proof. unfold LockForLaunch. keeps_tac. Qed.
#[export] Hint Resolve keeps_LockForLaunch : keeps.

(** A launch is what its start is. *)
Lemma launch_run campaignID c id t create step d :
  (∃ e, launch campaignID c id t create step d = (Err e, d))
  ∨ (∃ e, launch campaignID c id t create step d = (Ok (Refused e), d))
  ∨ ∃ job revision d2 d3, (LockForLaunch campaignID c d).1 = Ok tt ∧ create d = (Ok job, d2)
      ∧ startStepTx campaignID id t (step job) d2 = (Ok revision, d3)
      ∧ launch campaignID c id t create step d = (Ok (Launched (applyStart t (step job) revision)), d3).
Proof.
  unfold launch. assert (Hd : (LockForLaunch campaignID c d).2 = d).
  { unfold LockForLaunch, mbind, M_bind, gets. destruct (campaigns d !! campaignID); [|done]. by destruct (_ || _); [|destruct (negb _)]. }
  destruct (LockForLaunch campaignID c d) as [[[]|e] d1]; cbn in Hd; subst d1; [|left; by exists e].
  destruct (create d) as [[job|e] d2] eqn:Hc; [|right; left; by exists e].
  destruct (startStepTx campaignID id t (step job) d2) as [[revision|e] d3] eqn:Hs; [|left; by exists e].
  right; right. by exists job, revision, d2, d3.
Qed.
Lemma keeps_launch campaignID c id t create step :
  keeps (calm_at id) eq create → (∀ job, UnderWay (ss_State (step job)) = true → UnderWay (t_State t) = true) →
  keeps (calm_at id) eq (launch campaignID c id t create step).
Proof.
  intros Hc Hu d. destruct (launch_run campaignID c id t create step d) as [[e ->]|[[e ->]|(job & rev & d2 & d3 & _ & Hj & Hs & ->)]];
    [apply reflexivity..|]. cbn. specialize (Hc d). rewrite Hj in Hc. cbn in Hc. etrans; [exact Hc|].
  pose proof (keeps_startStepTx campaignID id t (step job) (Hu job) d2) as H. by rewrite Hs in H.
Qed.

(** ** The hosts at work *)

Section pass.
Context `{MapOrder} {RJ : ResultJson} {OR : Orders}.
Context (w : world) (campaignID : string).

Lemma keeps_submitJobTx RT RC `{!∀ i, PreOrder (RT i), !PreOrder RC} c host action key : keeps RT RC (submitJobTx w campaignID c host action key).
Proof. unfold submitJobTx. apply keeps_on_jobs; typeclasses eauto. Qed.
Hint Resolve keeps_submitJobTx : keeps.
Lemma keeps_submitJob RT RC `{!∀ i, PreOrder (RT i), !PreOrder RC} c host action key : keeps RT RC (submitJob w campaignID c host action key).
Proof. unfold submitJob. keeps_tac. Qed.
Hint Resolve keeps_submitJob : keeps.

Lemma keeps_known_job RT RC `{!∀ i, PreOrder (RT i), !PreOrder RC} id : keeps RT RC (known_job id).
Proof. unfold known_job. keeps_tac. Qed.
Lemma keeps_known_host RT RC `{!∀ i, PreOrder (RT i), !PreOrder RC} id : keeps RT RC (known_host w id).
Proof. unfold known_host. keeps_tac. Qed.
Hint Resolve keeps_known_job keeps_known_host : keeps.

Lemma keeps_orderHealthCheck c id t host after_ closes :
  UnderWay (t_State t) = true → keeps (calm_at id) eq (orderHealthCheck w campaignID c id t host after_ closes).
Proof. intros Hu. unfold orderHealthCheck. keeps_tac. Qed.
Hint Resolve keeps_orderHealthCheck : keeps.
Lemma keeps_orderReboot c id t changed : UnderWay (t_State t) = true → keeps (calm_at id) eq (orderReboot w campaignID c id t changed).
Proof. intros Hu. unfold orderReboot. keeps_tac. Qed.
Lemma keeps_withoutReboot c id t changed : UnderWay (t_State t) = true → keeps (calm_at id) eq (withoutReboot w campaignID c id t changed).
Proof. intros Hu. unfold withoutReboot. cbv zeta. keeps_tac. Qed.
Hint Resolve keeps_orderReboot keeps_withoutReboot : keeps.

Lemma targetOutcome_Finished v : Finished (targetOutcome v).1 = true.
Proof. unfold targetOutcome. by repeat match goal with |- context [if ?b then _ else _] => destruct b end. Qed.

Lemma keeps_followJob id t j : UnderWay (t_State t) = true → keeps (calm_at id) eq (followJob id t j).
Proof. intros Hu. unfold followJob. keeps_tac. Qed.
Hint Resolve keeps_followJob : keeps.
Lemma keeps_connectivityLost RT RC `{!∀ i, PreOrder (RT i), !PreOrder RC} j id t : keeps RT RC (connectivityLost w j id t).
Proof. unfold connectivityLost. keeps_tac. Qed.
Hint Resolve keeps_connectivityLost : keeps.
Lemma keeps_afterRemediation c id t : keeps (calm_at id) eq (afterRemediation w campaignID c id t).
Proof. unfold afterRemediation. keeps_tac. Qed.
Hint Resolve keeps_afterRemediation : keeps.

Lemma keeps_afterMainJob c id t : UnderWay (t_State t) = true → keeps (calm_at id) eq (afterMainJob w campaignID c id t).
Proof.
  intros Hu. unfold afterMainJob. destruct (bool_decide _); [eauto with keeps|]. destruct (t_JobID t) as [job|]; [|keeps_tac].
  keeps_step; [keeps_step|]. destruct (negb (JobState.Terminal _)); [eauto with keeps|]. destruct (negb _).
  - keeps_step; [keeps_step|]. pose proof (targetOutcome_Finished (mkVerdict (j_state a) (default "" (j_result_error_code a)) a0 false)) as Hf.
    destruct (targetOutcome _) as [state code]. keeps_tac.
  - keeps_step; [keeps_step|]. cbv zeta. keeps_tac.
Qed.
Lemma keeps_reboot_failed RT RC `{!∀ i, PreOrder (RT i), !PreOrder RC} t : keeps RT RC (reboot_failed t).
Proof. unfold reboot_failed. keeps_tac. Qed.
Hint Resolve keeps_reboot_failed : keeps.
Lemma keeps_afterReboot c id t : UnderWay (t_State t) = true → keeps (calm_at id) eq (afterReboot w campaignID c id t).
Proof. intros Hu. unfold afterReboot. cbv zeta. keeps_tac. Qed.
Lemma keeps_afterHealthCheck c id t : keeps (calm_at id) eq (afterHealthCheck campaignID c id t).
Proof.
  unfold afterHealthCheck. destruct (t_HealthJobID t); [|keeps_tac]. keeps_step; [keeps_step|].
  destruct (negb _); [keeps_tac|]. destruct (negb _); [|keeps_tac]. cbv zeta. destruct (bool_decide _); keeps_tac.
Qed.
Lemma keeps_settleNoChange c id t hash : keeps (calm_at id) eq (settleNoChange campaignID c id t hash).
Proof. unfold settleNoChange. keeps_tac. Qed.
Hint Resolve keeps_afterMainJob keeps_afterReboot keeps_afterHealthCheck keeps_settleNoChange : keeps.
Lemma keeps_afterReplan c id t : keeps (calm_at id) eq (afterReplan campaignID c id t).
Proof. unfold afterReplan. cbv zeta. keeps_tac. Qed.
Hint Resolve keeps_afterReplan : keeps.

Lemma keeps_progressTarget c id t : keeps (calm_at id) eq (progressTarget w campaignID c id t).
Proof. unfold progressTarget. destruct (t_State t) eqn:Hs; try (keeps_step; fail); eauto with keeps; by (apply keeps_afterMainJob || apply keeps_afterReboot); rewrite Hs. Qed.
Hint Resolve keeps_progressTarget : keeps.
End pass.
