(* ===== verification/CampaignMemory.v ===== *)
(** * CampaignMemory: the hosts a pass holds are the rows

    A pass reads the hosts of its campaign once and works on from memory. While
    it settles the hosts at work and serves the queue, what it holds of a host
    is the row of that host: a write that failed changed neither. *)
From coqutil Require Import Datatypes.RecordSetters.
From S2P Require Import Prelude Bytes Text Actions ActionTables Registry AuthzTables Authz JobState Jobs.
From S2P Require Import CampaignStates Campaigns CampaignStore CampaignPass CampaignAdvance CampaignSteps.

Import OCamlLikeNotations.
Open Scope Z_scope.
Open Scope list_scope.

(** What decides a pass agrees. *)
Record agree (t row : Target) : Prop := {
  ag_campaign : t_CampaignID row = t_CampaignID t;
  ag_host : t_HostID row = t_HostID t;
  ag_wave : t_Wave row = t_Wave t;
  ag_position : t_Position row = t_Position t;
  ag_state : t_State row = t_State t;
  ag_code : t_ErrorCode row = t_ErrorCode t;
  ag_revision : t_Revision row = t_Revision t;
}.
Definition synced (id : string) (t : Target) (d : CDB) : Prop := ∃ row, targets d !! id = Some row ∧ agree t row.

(** A program that writes nothing the memory holds. *)
Definition each_agree (_ : string) : Target → Target → Prop := agree.
#[export] Instance each_agree_preorder id : PreOrder (each_agree id).
Proof. split; [by intros t|]. intros t1 t2 t3 [] []. split; congruence. Qed.
Abbreviation untouched := (keeps each_agree eq).

Lemma untouched_row {A} (m : C A) d id row :
  untouched m → targets d !! id = Some row → ∃ row', targets (m d).2 !! id = Some row' ∧ agree row row'.
Proof. intros H Hr. destruct (ev_targets _ _ _ _ (H d) id) as [t t' E|]; [|done]. injection Hr as ->. eauto. Qed.
Lemma untouched_synced {A} (m : C A) d id t : untouched m → synced id t d → synced id t (m d).2.
Proof.
  intros H (row & Hr & Ha). destruct (untouched_row m d id row H Hr) as (row' & Hr' & Ha'). exists row'. split; [done|].
  exact (transitivity (R := each_agree id) Ha Ha').
Qed.
Lemma untouched_attachJob id t column job : untouched (attachJob id t column job).
Proof.
  intros d. unfold attachJob, mbind, M_bind, gets. destruct (claimed_row d id t) as [row|] eqn:Hr; [|apply reflexivity].
  apply (evolves_target each_agree eq _ _ row); [by eapply claimed_row_Some|]. by destruct row, column.
Qed.
Lemma untouched_setBootIDBefore id t boot : untouched (setBootIDBefore id t boot).
Proof.
  intros d. unfold setBootIDBefore, mbind, M_bind, gets. destruct (claimed_row d id t) as [row|] eqn:Hr; [|apply reflexivity].
  apply (evolves_target each_agree eq _ _ row); [by eapply claimed_row_Some|]. by destruct row.
Qed.
#[export] Hint Resolve untouched_attachJob untouched_setBootIDBefore : keeps.

(** A program that leaves memory and row alike. *)
Definition follows (id : string) (t : Target) (m : C Target) : Prop := ∀ d, synced id t d →
  match m d with (Ok t', d') => synced id t' d' | (Err _, d') => synced id t d' end.

Lemma follows_ret id t : follows id t (mret t).
Proof. by intros d Hs. Qed.
Lemma follows_fail id t e : follows id t (fail e).
Proof. by intros d Hs. Qed.
Lemma follows_bind {A} id t (m : C A) k : untouched m → (∀ a, follows id t (k a)) → follows id t (m ≫= k).
Proof.
  intros Hm Hk d Hs. unfold mbind, M_bind. pose proof (untouched_synced m d id t Hm Hs) as H2.
  destruct (m d) as [[a|e] d'] eqn:E; cbn in H2; [by apply Hk|done].
Qed.

(** ** The writes of a row *)

(** The row as a write leaves it. *)
Definition written (id : string) (t : Target) (state : TargetState) (code : string) (revision : Z) (d : CDB) : Prop :=
  ∃ row, targets d !! id = Some row ∧ t_State row = state ∧ t_ErrorCode row = code ∧ t_Revision row = revision
    ∧ t_CampaignID row = t_CampaignID t ∧ t_HostID row = t_HostID t ∧ t_Wave row = t_Wave t ∧ t_Position row = t_Position t.

(** A program that ends in a write, or leaves the row as it was. *)
Definition writes (id : string) (t : Target) (state : TargetState) (code : string) (m : C Z) : Prop := ∀ d, synced id t d →
  match m d with (Ok revision, d') => written id t state code revision d' | (Err _, _) => True end.

Lemma writes_updateTarget id t state code : writes id t state code (updateTarget id t state code).
Proof.
  intros d (row & Hr & Ha). destruct (updateTarget_run id t state code d) as [[e ->]|(Hm & row' & Hr' & Hs & _ & _ & ->)]; [done|].
  rewrite Hr in Hr'. injection Hr' as <-. exists (write_state (clock d) state code row). destruct d as [j c tg st p]; cbn in *.
  rewrite lookup_insert_eq. destruct Ha. destruct row; cbn in *. done.
Qed.
(** What comes after a write, and what came before. *)
Definition gives (r : Z) (m : C Z) : Prop := untouched m ∧ ∀ d a d', m d = (Ok a, d') → a = r.
Lemma gives_ret r : gives r (mret r).
Proof. split; [apply steps_ret; typeclasses eauto|]. by intros d a d' [= <- _]. Qed.
Lemma gives_bind {A} r (m : C A) k : untouched m → (∀ a, gives r (k a)) → gives r (m ≫= k).
Proof.
  intros Hm Hk. split; [apply steps_bind; [typeclasses eauto..|done|intros a; apply Hk]|].
  intros d a d'. unfold mbind, M_bind. destruct (m d) as [[x|e] d1]; [|done]. apply Hk.
Qed.
Lemma writes_then id t state code (m : C Z) k :
  writes id t state code m → (∀ r, gives r (k r)) → writes id t state code (m ≫= k).
Proof.
  intros Hm Hk d Hs. specialize (Hm d Hs). unfold mbind, M_bind. destruct (m d) as [[r|e] d'] eqn:E; [|done].
  destruct (Hk r) as [Hu Hg]. destruct Hm as (row & Hr & Hx). specialize (Hg d').
  destruct (untouched_row (k r) d' id row Hu Hr) as (row' & Hr' & Ha). destruct (k r d') as [[a|e] d2]; [|done]. cbn in Hr'.
  rewrite (Hg a d2 eq_refl). exists row'. destruct Ha. split; [done|]. naive_solver congruence.
Qed.
Lemma writes_ctx id t state code m : writes id t state code m → writes id t state code (in_ctx m).
Proof. intros Hm d Hs. specialize (Hm d Hs). unfold in_ctx. by destruct (m d) as [[]]. Qed.
Lemma writes_bind {A} id t state code (m : C A) k :
  untouched m → (∀ a, writes id t state code (k a)) → writes id t state code (m ≫= k).
Proof.
  intros Hm Hk d Hs. unfold mbind, M_bind. pose proof (untouched_synced m d id t Hm Hs) as H2.
  destruct (m d) as [[a|e] d'] eqn:E; cbn in H2; [by apply Hk|done].
Qed.

Ltac gives_tac := repeat first [apply gives_ret | apply gives_bind; [keeps_tac|intros ?]].

Lemma writes_settleTarget campaignID c id t state code message outcomes :
  writes id t state code (settleTarget campaignID c id t state code message outcomes).
Proof. unfold settleTarget. apply writes_ctx, writes_then; [apply writes_updateTarget|]. intros r. gives_tac. Qed.

Lemma writes_startStepTx campaignID id t start : writes id t (ss_State start) "" (startStepTx campaignID id t start).
Proof.
  unfold startStepTx. do 3 (apply writes_bind; [keeps_tac|intros []]).
  apply writes_then; [apply writes_updateTarget|]. intros r. gives_tac.
Qed.

(** ** What follows *)

(** A target of memory taken from a write. *)
Lemma follows_write id t state code (m : C Z) (f : Z → Target) :
  writes id t state code m →
  (∀ r, t_CampaignID (f r) = t_CampaignID t ∧ t_HostID (f r) = t_HostID t ∧ t_Wave (f r) = t_Wave t ∧ t_Position (f r) = t_Position t
    ∧ t_State (f r) = state ∧ t_ErrorCode (f r) = code ∧ t_Revision (f r) = r) →
  (∀ d e d', m d = (Err e, d') → synced id t d → synced id t d') →
  follows id t (r ← m; mret (f r)).
Proof.
  intros Hw Hf He d Hs. specialize (Hw d Hs). specialize (He d). unfold mbind, M_bind.
  destruct (m d) as [[r|e] d']; [|by apply (He e)]. destruct Hw as (row & Hr & Hx). exists row. split; [done|].
  specialize (Hf r). destruct Hf as (?&?&?&?&?&?&?). destruct Hx as (?&?&?&?&?&?&?). split; congruence.
Qed.
Lemma in_ctx_Err {A} (m : C A) d e d' : in_ctx m d = (Err e, d') → d' = d.
Proof. unfold in_ctx. destruct (m d) as [[a|x] d1]; [done|]. by intros [= _ <-]. Qed.

Lemma follows_startStep campaignID id t start : follows id t (startStep campaignID id t start).
Proof.
  unfold startStep. apply (follows_write id t (ss_State start) ""); [apply writes_ctx, writes_startStepTx| |].
  - intros r. unfold applyStart. by destruct t, (ss_Job start) as [[[] ?]|], (ss_BootID start).
  - by intros d e d' ->%in_ctx_Err.
Qed.
Lemma follows_UpdateTarget id t state code : follows id t (UpdateTarget id t state code).
Proof.
  unfold UpdateTarget. apply (follows_write id t state code); [apply writes_updateTarget|by intros r; destruct t|].
  intros d e d'. by destruct (updateTarget_run id t state code d) as [[e' ->]|(_ & row & _ & _ & _ & _ & ->)]; [intros [= _ ->]|].
Qed.
Lemma follows_acceptPlan campaignID id t hash reason : follows id t (acceptPlan campaignID id t hash reason).
Proof.
  unfold acceptPlan. apply (follows_write id t TargetPending "").
  - apply writes_ctx, writes_bind; [keeps_tac|]. intros []. apply writes_then; [apply writes_updateTarget|]. intros r. gives_tac.
  - by intros r; destruct t.
  - by intros d e d' ->%in_ctx_Err.
Qed.
Lemma follows_finishTargetSteps campaignID c id t state code message outcomes :
  follows id t (finishTargetSteps campaignID c id t state code message outcomes).
Proof.
  intros d Hs. pose proof (writes_settleTarget campaignID c id t state code message outcomes d Hs) as Hw.
  unfold finishTargetSteps, try, mbind, M_bind, mret, M_ret. destruct (settleTarget _ _ _ _ _ _ _ _ d) as [[r|e] d'] eqn:E.
  - destruct Hw as (row & Hr & ?&?&?&?&?&?&?). exists row. split; [done|]. destruct t; cbn in *. by split.
  - unfold settleTarget in E. by apply in_ctx_Err in E as ->.
Qed.
Lemma follows_FollowTask id t state blocker : follows id t (FollowTask id t state blocker).
Proof.
  intros d (row & Hr & Ha). unfold FollowTask. destruct (negb _); [by exists row|]. unfold mbind, M_bind, gets.
  destruct (matched_row d id t) as [row'|] eqn:Hm; [|by exists row]. apply matched_row_Some in Hm as (Hr' & ? & ? & _).
  rewrite Hr in Hr'. injection Hr' as <-. destruct d as [j c tg st p]; cbn in *. eexists. split; [apply lookup_insert_eq|].
  destruct Ha. destruct row, t; cbn in *. by split.
Qed.
Lemma follows_launch campaignID c id t create step m :
  untouched create → follows id t m →
  follows id t (r ← launch campaignID c id t create step; match r with Refused _ => m | Launched t' => mret t' end).
Proof.
  intros Hc Hr d Hs. unfold mbind, M_bind.
  destruct (launch_run campaignID c id t create step d) as [[e ->]|[[e ->]|(job & rev & d2 & d3 & _ & Hj & Hst & ->)]]; [done|by apply Hr|].
  pose proof (untouched_synced create d id t Hc Hs) as H2. rewrite Hj in H2. cbn in H2.
  pose proof (follows_startStep campaignID id t (step job) d2 H2) as Hw. unfold startStep, in_ctx, mbind, M_bind in Hw.
  by rewrite Hst in Hw.
Qed.

Create HintDb follows.
#[export] Hint Resolve follows_ret follows_fail follows_startStep follows_UpdateTarget follows_acceptPlan follows_finishTargetSteps
  follows_FollowTask : follows.
Ltac follows_step :=
  lazymatch goal with
  | |- follows _ _ (launch _ _ _ _ _ _ ≫= _) => apply follows_launch; [keeps_tac|]
  | |- follows _ _ (mbind _ _) => apply follows_bind; [solve [keeps_tac]|intros ?]
  | |- follows _ _ (match ?x with _ => _ end) => destruct x eqn:?
  | |- follows _ _ (let '_ := ?x in _) => destruct x eqn:?
  | |- _ => solve [eauto with follows]
  end; cbv beta.
Ltac follows_tac := repeat follows_step.

(** ** The hosts at work, and the queue *)

Section pass.
Context `{MapOrder} {RJ : ResultJson} {OR : Orders}.
Context (w : world) (campaignID : string).
Hint Resolve keeps_submitJob keeps_submitJobTx keeps_known_job keeps_known_host keeps_connectivityLost keeps_reboot_failed : keeps.

Lemma follows_finishTarget c id t state code message : follows id t (finishTarget campaignID c id t state code message).
Proof. apply follows_finishTargetSteps. Qed.
Hint Resolve follows_finishTarget : follows.
Lemma follows_orderHealthCheck c id t host after_ closes : follows id t (orderHealthCheck w campaignID c id t host after_ closes).
Proof. unfold orderHealthCheck. follows_tac. Qed.
Hint Resolve follows_orderHealthCheck : follows.
Lemma follows_orderReboot c id t changed : follows id t (orderReboot w campaignID c id t changed).
Proof. unfold orderReboot. follows_tac. Qed.
Lemma follows_withoutReboot c id t changed : follows id t (withoutReboot w campaignID c id t changed).
Proof. unfold withoutReboot. cbv zeta. follows_tac. Qed.
Lemma follows_afterRemediation c id t : follows id t (afterRemediation w campaignID c id t).
Proof. unfold afterRemediation. follows_tac. Qed.
Lemma follows_followJob id t j : follows id t (followJob id t j).
Proof. unfold followJob. follows_tac. Qed.
Hint Resolve follows_orderReboot follows_withoutReboot follows_afterRemediation follows_followJob : follows.
Lemma follows_afterMainJob c id t : follows id t (afterMainJob w campaignID c id t).
Proof. unfold afterMainJob. cbv zeta. follows_tac. Qed.
Lemma follows_afterReboot c id t : follows id t (afterReboot w campaignID c id t).
Proof. unfold afterReboot. cbv zeta. follows_tac. Qed.
Lemma follows_afterHealthCheck c id t : follows id t (afterHealthCheck campaignID c id t).
Proof. unfold afterHealthCheck. cbv zeta. follows_tac. Qed.
Lemma follows_settleNoChange c id t hash : follows id t (settleNoChange campaignID c id t hash).
Proof. apply follows_finishTargetSteps. Qed.
Hint Resolve follows_settleNoChange : follows.
Lemma follows_afterReplan c id t : follows id t (afterReplan campaignID c id t).
Proof. unfold afterReplan. cbv zeta. follows_tac. Qed.
Hint Resolve follows_afterMainJob follows_afterReboot follows_afterHealthCheck follows_afterReplan : follows.

Lemma follows_progressTarget c id t : follows id t (progressTarget w campaignID c id t).
Proof. unfold progressTarget. follows_tac. Qed.
Lemma follows_holdOffline c id t : follows id t (holdOffline w campaignID c id t).
Proof. unfold holdOffline. follows_tac. Qed.
Lemma follows_replanTarget c id t : follows id t (replanTarget w campaignID c id t).
Proof. unfold replanTarget. follows_tac. Qed.
Hint Resolve follows_replanTarget : follows.
Lemma follows_service_offline c id t : follows id t (service_offline w campaignID c id t).
Proof. unfold service_offline. follows_tac. Qed.
End pass.
