(* ===== verification/CampaignRuns.v ===== *)
(** * CampaignRuns: what a whole pass may do

    A pass writes hosts and campaign along their tables, starts a host only in
    its turn, and never more at a time than the order allows. *)
From coqutil Require Import Datatypes.RecordSetters.
From S2P Require Import Prelude Bytes Text Actions ActionTables Registry AuthzTables Authz JobState Jobs CampaignStates Campaigns.
From S2P Require Import CampaignStore CampaignPass CampaignAdvance CampaignSteps CampaignMemory.

Import OCamlLikeNotations.
Open Scope Z_scope.
Open Scope list_scope.

(** ** When a host starts

    The pass as a whole: what it settles, what it waits for, and the turn of a
    host, under the lease of the runner. *)

#[export] Hint Resolve keeps_submitJob keeps_submitJobTx keeps_known_job keeps_known_host keeps_connectivityLost keeps_reboot_failed
  keeps_progressTarget : keeps.

(** ** Loops over the hosts of memory *)

Section loops.
Context (body : string → Target → C Target).
Context (Hcalm : ∀ id t, keeps (calm_at id) eq (body id t)) (Hfollows : ∀ id t, follows id t (body id t)).

Definition all_synced (ts : list (string * Target)) (d : CDB) : Prop := Forall (λ it, synced it.1 it.2 d) ts.

Lemma synced_elsewhere id i t d d' : evolves (calm_at id) eq d d' → i ≠ id → synced i t d → synced i t d'.
Proof.
  intros Hev Hi (row & Hr & Ha). pose proof (ev_targets _ _ _ _ Hev i) as Ho. rewrite Hr in Ho. inversion Ho as [? row' [_ E] E1 E2|]; subst.
  exists row'. split; [done|]. by rewrite E by done.
Qed.
Lemma all_synced_elsewhere id ts d d' : evolves (calm_at id) eq d d' → id ∉ ts.*1 → all_synced ts d → all_synced ts d'.
Proof.
  intros Hev Hn Hs. unfold all_synced in *. rewrite Forall_forall in *. intros [i t] Hi. cbn.
  apply (synced_elsewhere id i t d); [done| |by apply (Hs (i, t))]. intros ->. apply Hn, list_elem_of_fmap. by exists (id, t).
Qed.

Lemma calm_at_hosts id d d' : evolves (calm_at id) eq d d' → calm_hosts d d'.
Proof. apply evolves_mono; [by intros i t t' []|done]. Qed.

(** What a loop that goes on, or that ends, leaves behind. *)
Definition looped (ts ts' : list (string * Target)) (d d' : CDB) : Prop :=
  ts'.*1 = ts.*1 ∧ all_synced ts' d' ∧ calm_hosts d d' ∧ ∀ i, i ∉ ts.*1 → targets d' !! i = targets d !! i.

Lemma looped_cons id t t' ts ts' d d1 d' :
  id ∉ ts.*1 → evolves (calm_at id) eq d d1 → synced id t' d1 → looped ts ts' d1 d' → looped ((id, t) :: ts) ((id, t') :: ts') d d'.
Proof.
  intros Hn Hc Hs (Hk & Hs' & Hc' & Hout). split_and!; [cbn; by rewrite Hk| | |].
  - constructor; [|done]. cbn. destruct Hs as (row & Hr & Ha). exists row. by rewrite Hout.
  - etrans; [by apply calm_at_hosts in Hc|done].
  - cbn. intros i Hi. apply not_elem_of_cons in Hi as [Hi Hi']. rewrite Hout by done.
    pose proof (ev_targets _ _ _ _ Hc i) as Ho. by inversion Ho as [? row' [_ E] E1 E2|]; subst; [rewrite E|].
Qed.
Lemma looped_nil d : looped [] [] d d.
Proof. split_and!; [done|by constructor|apply reflexivity|done]. Qed.

Lemma each_target_run ts d : NoDup ts.*1 → all_synced ts d → ∃ ts' d', each_target body ts d = (Ok ts', d') ∧ looped ts ts' d d'.
Proof.
  revert d. induction ts as [|[id t] ts IH]; intros d Hnd Hs; [exists [], d; split; [done|apply looped_nil]|].
  apply NoDup_cons in Hnd as [Hn Hnd]. inversion Hs as [|? ? Hid Hrest]; subst. cbn in Hid.
  pose proof (Hcalm id t d) as Hc. pose proof (Hfollows id t d Hid) as Hf. cbn [each_target]. unfold try, mbind, M_bind.
  destruct (body id t d) as [r d1]. cbn in Hc.
  destruct (IH d1 Hnd (all_synced_elsewhere id ts d d1 Hc Hn Hrest)) as (ts' & d' & E & Hl).
  rewrite E. eexists _, d'. split; [done|]. apply (looped_cons id t _ ts ts' d d1); try done. by destruct r.
Qed.
Lemma every_target_run ts d : NoDup ts.*1 → all_synced ts d →
  match every_target body ts d with (Ok ts', d') => looped ts ts' d d' | (Err _, d') => calm_hosts d d' end.
Proof.
  revert d. induction ts as [|[id t] ts IH]; intros d Hnd Hs; [apply looped_nil|].
  apply NoDup_cons in Hnd as [Hn Hnd]. inversion Hs as [|? ? Hid Hrest]; subst. cbn in Hid.
  pose proof (Hcalm id t d) as Hc. pose proof (Hfollows id t d Hid) as Hf. cbn [every_target]. unfold mbind, M_bind.
  destruct (body id t d) as [[t'|e] d1]; cbn in Hc; [|by apply calm_at_hosts in Hc].
  specialize (IH d1 Hnd (all_synced_elsewhere id ts d d1 Hc Hn Hrest)).
  destruct (every_target body ts d1) as [[ts'|e] d']; cbn; [by apply (looped_cons id t _ ts ts' d d1)|].
  etrans; [by apply calm_at_hosts in Hc|done].
Qed.
End loops.

(** ** The rest of a pass starts nobody *)

Section pass.
Context `{MapOrder} {RJ : ResultJson} {OR : Orders}.
Context (w : world) (campaignID : string).

Lemma keeps_replanTarget c id t : keeps (calm_at id) eq (replanTarget w campaignID c id t).
Proof.
  unfold replanTarget. cbv zeta. destruct (bool_decide _); [keeps_tac|]. apply steps_bind; [typeclasses eauto..| |intros []; keeps_tac].
  apply keeps_launch; [keeps_tac|done].
Qed.
Lemma keeps_holdOffline c id t : keeps (calm_at id) eq (holdOffline w campaignID c id t).
Proof. unfold holdOffline. keeps_tac. Qed.
Lemma keeps_takeCapacity id t : keeps (calm_at id) eq (takeCapacity w id t).
Proof. unfold takeCapacity. cbv zeta. keeps_tac. Qed.
Hint Resolve keeps_replanTarget keeps_holdOffline keeps_takeCapacity : keeps.
Lemma keeps_service_offline c id t : keeps (calm_at id) eq (service_offline w campaignID c id t).
Proof. unfold service_offline. keeps_tac. Qed.
Hint Resolve keeps_service_offline : keeps.
Lemma keeps_holdCapacity RT RC `{!∀ i, PreOrder (RT i), !PreOrder RC} ts : keeps RT RC (holdCapacity w ts).
Proof. unfold holdCapacity. keeps_tac. Qed.

(** ** The turn of a host *)

(** The campaign may start a host now, and its runner holds the lease. *)
Definition may_launch (c : Campaign) (d : CDB) : Prop := ∃ row, campaigns d !! campaignID = Some row
  ∧ default "" (c_RunnerID row) = default "" (c_RunnerID c) ∧ c_RunnerToken row = c_RunnerToken c ∧ Launching (c_State row) = true.
(** And the host is one that may start. *)
Record ready (c : Campaign) (id : string) (t : Target) (host : Host) (d : CDB) : Prop := {
  re_host : w_host w (t_HostID t) = Some host;
  re_online : h_Online host = true;
  re_rights : creatorMayDispatch w c host = RightsHeld;
  re_maintenance : h_Maintenance host = false;
  re_capacity : w_capacity w id = CapacityFree;
  re_launch : may_launch c d;
}.

Lemma LockForLaunch_run c d : (LockForLaunch campaignID c d).2 = d ∧ ((LockForLaunch campaignID c d).1 = Ok tt → may_launch c d).
Proof.
  unfold LockForLaunch, mbind, M_bind, gets. destruct (campaigns d !! campaignID) as [row|] eqn:Hr; [|done].
  destruct (negb _ || negb _) eqn:E1; [done|]. destruct (Launching (c_State row)) eqn:E2; cbn [negb]; [|done].
  apply orb_false_iff in E1 as [Ea Eb]. apply negb_false_iff, bool_decide_eq_true in Ea, Eb. split; [done|]. intros _. by exists row.
Qed.

(** A turn passes, or it starts its host where [P] holds. *)
Definition turns (P : CDB → Prop) (id : string) (m : C (turn * Target)) : Prop := ∀ d, let '(r, d') := m d in
  (evolves (calm_at id) eq d d' ∧ ∀ t', r ≠ Ok (TurnStarted, t'))
  ∨ (∃ t', r = Ok (TurnStarted, t')) ∧ P d ∧ evolves (start_at id) eq d d'.

Lemma turns_passed P id (m : C Target) : keeps (calm_at id) eq m → turns P id (t ← m; mret (TurnPassed, t)).
Proof. intros Hk d. specialize (Hk d). unfold mbind, M_bind. destruct (m d) as [[t|e] d']; by left. Qed.
Lemma turns_still P id r : (∀ t', r ≠ Ok (TurnStarted, t')) → turns P id (λ d, (r, d)).
Proof. intros Hr d. left. split; [apply reflexivity|done]. Qed.
Lemma turns_gets {A} P id (f : CDB → A) k : (∀ a, turns P id (k a)) → turns P id (gets f ≫= k).
Proof. intros Hk d. apply Hk. Qed.
Lemma turns_mono (P Q : CDB → Prop) id m : (∀ d, P d → Q d) → turns P id m → turns Q id m.
Proof. intros HPQ Hm d. specialize (Hm d). destruct (m d). naive_solver. Qed.
Lemma turns_lock P id c k : turns P id k → turns (may_launch c) id (LockForLaunch campaignID c ;; k).
Proof.
  intros Hk d. destruct (LockForLaunch_run c d) as [Hd Hl]. unfold mbind, M_bind.
  destruct (LockForLaunch campaignID c d) as [[[]|e] d1]; cbn in Hd, Hl; subst d1; [|left; split; [apply reflexivity|done]].
  specialize (Hk d). destruct (k d) as [r d']. naive_solver.
Qed.
Lemma turns_start id t start : turns (λ _, True) id (t ← startStep campaignID id t start; mret (TurnStarted, t)).
Proof.
  intros d. unfold startStep, in_ctx, mbind, M_bind, mret, M_ret. pose proof (starts_startStepTx campaignID id t start d) as Hk.
  destruct (startStepTx _ _ _ _ d) as [[rev|e] d2]; [|left; split; [apply reflexivity|done]].
  right. split; [by eexists|done].
Qed.

Lemma turns_launch_target c id t host : turns (may_launch c) id (launch_target w campaignID c id t host).
Proof.
  unfold launch_target. apply turns_gets. intros code. apply turns_gets. intros hash d. unfold mbind, M_bind.
  destruct (launch_run campaignID c id t (createJob w campaignID c t) (main_start c host hash) d)
    as [[e ->]|[[e ->]|(job & rev & d2 & d3 & Hl & Hj & Hst & ->)]].
  - left. split; [apply reflexivity|done].
  - apply (turns_passed (may_launch c) id (finishTarget campaignID c id t TargetFailed code "the task was not created")). keeps_tac.
  - right. split; [by eexists|]. split; [by apply LockForLaunch_run|].
    assert (Hk : keeps (start_at id) eq (createJob w campaignID c t)) by (unfold createJob; keeps_tac).
    specialize (Hk d). rewrite Hj in Hk. etrans; [exact Hk|].
    pose proof (starts_startStepTx campaignID id t (main_start c host hash job) d2) as H2. by rewrite Hst in H2.
Qed.

Lemma turns_startRemediation c id t host : turns (may_launch c) id (startRemediation w campaignID c id t host).
Proof.
  unfold startRemediation. cbv zeta. apply turns_gets. intros plan.
  repeat case_match; try (apply turns_passed; keeps_tac); try (by apply turns_still).
  all: apply (turns_lock (λ _, True)); first [apply turns_start|apply turns_passed; keeps_tac|by apply turns_still].
Qed.

Lemma turns_take_turn c id t : turns (λ d, ∃ host, ready c id t host d) id (take_turn w campaignID c id t).
Proof.
  unfold take_turn. cbv zeta. destruct (w_host w (t_HostID t)) as [host|] eqn:Hh; [|apply turns_passed; keeps_tac].
  destruct (h_Online host) eqn:Ho; cbn [negb]; [|apply turns_passed; keeps_tac].
  destruct (creatorMayDispatch w c host) eqn:Hr; [|apply turns_passed; keeps_tac|by apply turns_still].
  destruct (h_Maintenance host) eqn:Hm; [apply turns_passed; keeps_tac|].
  unfold takeCapacity. cbv zeta. destruct (w_capacity w id) as [|reason|] eqn:Hc; [| |by apply turns_still].
  - apply (turns_mono (may_launch c)); [intros d Hd; by exists host|]. unfold mbind at 1, M_bind at 1. cbn [mret M_ret negb].
    destruct (bool_decide _); [apply turns_startRemediation|apply turns_launch_target].
  - destruct (negb _ || negb _); [|by apply turns_still]. intros d. pose proof (keeps_UpdateTarget id t TargetAwaitingBudget ("budget_" +:+ reason) eq_refl d) as Hk.
    unfold mbind, M_bind. destruct (UpdateTarget _ _ _ _ d) as [[t'|e] d']; by left.
Qed.
End pass.

(** ** Other writers *)

(** Nobody but the runner of a campaign starts its hosts: what the others do
    between two statements of a pass is calm. *)
Definition calm_others (others : list (CDB → CDB)) : Prop := Forall (λ f, ∀ d, calm d (f d)) others.

(** ** The row of the campaign *)

Section campaign.
Context (campaignID : string).

(** What a pass holds of its campaign stands behind the row. *)
Definition known (c : Campaign) (d : CDB) : Prop := ∀ row, campaigns d !! campaignID = Some row →
  c_Revision c ≤ c_Revision row ∧ (c_Revision row = c_Revision c → c_State row = c_State c) ∧ same_order c row.

Lemma known_evolves RT c d d' : evolves RT campaign_forward d d' → known c d → known c d'.
Proof.
  intros Hev Hk row' Hr'. pose proof (ev_campaigns _ _ _ _ Hev campaignID) as Ho. rewrite Hr' in Ho.
  inversion Ho as [row ? Hf E1 E2|]; subst. destruct (Hk row) as (Hrev & Hst & Hord); [done|]. destruct Hf as [_ Hr _ Hs _ Ho2].
  split_and!; [lia| |by etrans]. intros E. rewrite Hs by lia. apply Hst. lia.
Qed.
Lemma known_row c d : campaigns d !! campaignID = Some c → known c d.
Proof. intros Hr row Hr'. rewrite Hr in Hr'. injection Hr' as <-. by split_and!. Qed.

Lemma write_campaign_forward now state reason row : mayBecome (c_State row) state = true →
  campaign_forward row (write_campaign now state reason row).
Proof. intros Hm. destruct row. cbn in *. split; cbn; try done; try lia. by apply rtc_once; left. Qed.

(** What [SetState] gives back. *)
Definition moved (c c' : Campaign) (state : State) : Prop :=
  c_State c' = state ∧ same_order c c' ∧ (c_RunnerID c ≠ None → c_RunnerID c' = c_RunnerID c ∧ c_RunnerToken c' = c_RunnerToken c).

Lemma SetState_from_run tries others c state reason d : calm_others others → known c d →
  let run := SetState_from tries others campaignID c state reason d in
  calm d run.2 ∧ ∀ c', run.1 = Ok c' → known c' run.2 ∧ moved c c' state.
Proof.
  cbv zeta. revert others c d. induction tries as [|tries IH]; intros others c d Ho Hk; cbn [SetState_from]; [by split; [apply reflexivity|]|].
  destruct (mayBecome (c_State c) state) eqn:Hm; cbn [negb]; [|by split; [apply reflexivity|]].
  match goal with |- context [(modify ?f ≫= ?k) d] => change ((modify f ≫= k) d) with (k tt (f d)) end. cbv beta. set (d1 := default _ (head others) d).
  assert (H1 : calm d d1) by (destruct Ho; [apply reflexivity|cbn; auto]). assert (Hk1 := known_evolves _ _ _ _ H1 Hk).
  assert (Ht : calm_others (tail others)) by (destruct Ho; [constructor|done]).
  unfold try_state, gets, mbind, M_bind. destruct (campaigns d1 !! campaignID) as [row|] eqn:Hr.
  - destruct (Hk1 row Hr) as (Hrev & Hst & Hord).
    destruct (bool_decide (c_Revision row = c_Revision c) && lease_matches c row) eqn:Hb.
    + apply andb_true_iff in Hb as [Hb _]. apply bool_decide_eq_true in Hb. cbn.
      rewrite <- (Hst Hb) in Hm.
      assert (H2 : calm d1 { d1 with campaigns ::= <[campaignID := write_campaign (clock d1) state reason row]> }).
      { apply (evolves_campaign _ _ _ _ row); [done|]. by apply write_campaign_forward. }
      split; [by etrans|]. intros c' [= <-]. split; [|by destruct c; split_and!].
      intros row' Hr'. destruct d1 as [j cs tg st p]; cbn in *. rewrite lookup_insert_eq in Hr'. injection Hr' as <-.
      destruct c, row; cbn in *. by split_and!.
    + cbn. unfold read_again, gets, mbind, M_bind. rewrite Hr.
      destruct (negb _ && (negb _ || negb _)) eqn:Hl; [by split|]. destruct (bool_decide (c_State row = c_State c)) eqn:Hs; cbn [negb]; [|by split].
      destruct (IH (tail others) row d1 Ht (known_row row d1 Hr)) as [Hc Hres]. cbn. split; [by etrans|]. intros c' Hc'.
      destruct (Hres c' Hc') as [Hk' (Hs' & Ho' & Hrun')]. split; [done|]. split_and!; [done|by etrans|]. intros Hn.
      assert (c_RunnerID row = c_RunnerID c ∧ c_RunnerToken row = c_RunnerToken c) as [E1 E2].
      { apply andb_false_iff in Hl as [Hl|Hl]; [by apply negb_false_iff, bool_decide_eq_true in Hl|].
        apply orb_false_iff in Hl as [? ?]. by rewrite !negb_false_iff, !bool_decide_eq_true in *. }
      destruct Hrun' as [-> ->]; [by rewrite E1|done].
  - cbn. unfold read_again, gets, mbind, M_bind. rewrite Hr. by split.
Qed.
Lemma SetState_run others c state reason d : calm_others others → known c d →
  let run := SetState others campaignID c state reason d in
  calm d run.2 ∧ ∀ c', run.1 = Ok c' → known c' run.2 ∧ moved c c' state.
Proof. apply SetState_from_run. Qed.
End campaign.

(** ** The lease and the claims *)

Lemma keeps_set_campaign id (f : Campaign → Campaign) RT `{!∀ i, PreOrder (RT i)} d c :
  campaigns d !! id = Some c → campaign_forward c (f c) → evolves RT campaign_forward d (set_campaign id (f c) d).2.
Proof. intros Hc Hf. by apply (evolves_campaign _ _ _ _ c). Qed.

Lemma ClaimRunner_calm locked id runner : keeps each_calm campaign_forward (ClaimRunner locked id runner).
Proof.
  intros d. unfold ClaimRunner, gets, mbind, M_bind. destruct (campaigns d !! id) as [c|] eqn:Hc; [|apply reflexivity].
  destruct (_ && _); [apply reflexivity|]. destruct locked; [apply reflexivity|]. destruct (_ || _); [|apply reflexivity].
  cbv zeta. apply (evolves_campaign each_calm campaign_forward _ _ c); [done|]. destruct c; cbn. split; cbn; try done.
  case_bool_decide; lia.
Qed.
(** The token of a claim is the row's. *)
Lemma ClaimRunner_Some locked id runner d token d' : ClaimRunner locked id runner d = (Ok (Some token), d') →
  ∃ c row, campaigns d !! id = Some c ∧ campaigns d' !! id = Some row ∧ c_RunnerToken row = token ∧ c_RunnerID row = Some runner
    ∧ targets d' = targets d ∧ c_State row = c_State c ∧ c_Revision row = c_Revision c ∧ same_order c row
    ∧ clock d' = clock d.
Proof.
  unfold ClaimRunner, gets, mbind, M_bind. destruct (campaigns d !! id) as [c|] eqn:Hc; [|done].
  destruct (_ && _) eqn:E.
  - intros [= <- <-]. apply andb_true_iff in E as [E _]. apply bool_decide_eq_true in E. by exists c, c.
  - destruct locked; [done|]. destruct (_ || _); [|done]. cbv zeta. intros [= <- <-]. destruct d as [j cs tg st p]; cbn in *.
    exists c. eexists. split; [done|]. split; [apply lookup_insert_eq|]. by destruct c.
Qed.

Lemma AdoptTargets_calm id runner : keeps each_calm campaign_forward (AdoptTargets id runner).
Proof.
  unfold AdoptTargets. apply steps_bind; [typeclasses eauto..|apply steps_gets; typeclasses eauto|]. intros now.
  apply steps_bind; [typeclasses eauto..| |intros []]; apply keeps_update_targets; try typeclasses eauto.
  - intros i t _. destruct t; cbn. split; [|done]. split; cbn; try done; lia.
  - intros i t _. by destruct t.
Qed.

(** Rows written one after the other. *)
Lemma mfor_set_targets (l : list (string * Target)) d : NoDup l.*1 →
  Forall (λ it, ∃ row, targets d !! it.1 = Some row ∧ target_calm row it.2) l →
  let run := mfor l (λ it, set_target it.1 it.2) d in run.1 = Ok tt ∧ calm_hosts d run.2.
Proof.
  cbv zeta. revert d. induction l as [|[id t] l IH]; intros d Hnd Hall; [by split; [|apply reflexivity]|].
  apply NoDup_cons in Hnd as [Hn Hnd]. inversion Hall as [|? ? (row & Hr & Hc) Hrest]; subst. cbn in Hr, Hc.
  change (mfor _ _ d) with (mfor l (λ it, set_target it.1 it.2) { d with targets ::= <[id := t]> }).
  set (d1 := { d with targets ::= <[id := t]> }).
  assert (Hat : evolves (calm_at id) eq d d1) by (apply (evolves_target (calm_at id) eq _ _ row); [done|by split]).
  destruct (IH d1 Hnd) as (E & Hcalm); [|by split; [|etrans; [by apply calm_at_hosts in Hat|]]].
  rewrite Forall_forall in *. intros [i t'] Hi. destruct (Hrest (i, t') Hi) as (row' & Hr' & Hc'). exists row'. split; [|done].
  assert (Hne : id ≠ i) by (intros ->; apply Hn, list_elem_of_fmap; by exists (i, t')).
  unfold d1. destruct d as [j cs tg st p]; cbn in *. by rewrite lookup_insert_ne.
Qed.

Lemma claim_calm now runner t : target_calm t (claim now runner t).
Proof. destruct t. cbn. split; [|done]. split; cbn; try done; lia. Qed.

(** The rows of a wave are claimed once each, from the queue. *)
Lemma ClaimWaveTargets_run locked id wave runner limit d :
  let run := ClaimWaveTargets locked id wave runner limit d in
  calm_hosts d run.2 ∧ ∃ claimed, run.1 = Ok claimed ∧ NoDup claimed.*1
    ∧ Forall (λ it, ∃ row, targets d !! it.1 = Some row ∧ t_CampaignID row = id ∧ t_Wave row = wave
                ∧ t_State row ∈ [TargetPending; TargetAwaitingBudget] ∧ it.2 = claim (clock d) runner row) claimed.
Proof.
  cbv zeta. unfold ClaimWaveTargets. case_bool_decide.
  { split; [apply reflexivity|]. exists []. split_and!; [done|by constructor|by constructor]. }
  unfold gets, mbind, M_bind. set (found := take _ _). set (claimed := _ <$> found).
  assert (Hkeys : claimed.*1 = found.*1) by (unfold claimed; by rewrite <- list_fmap_compose).
  assert (Hsub : found.*1 ⊆+ (map_to_list (targets d)).*1).
  { apply fmap_submseteq. unfold found. etrans; [apply submseteq_take|]. rewrite sort_stable_perm.
    apply sublist_submseteq, sublist_filter. }
  assert (Hnd : NoDup claimed.*1).
  { rewrite Hkeys. apply submseteq_Permutation in Hsub as [k Hk].
    pose proof (NoDup_fst_map_to_list (targets d)) as Hd. rewrite Hk in Hd. by apply NoDup_app in Hd as [? _]. }
  assert (Hall : Forall (λ it : string * Target, ∃ row, targets d !! it.1 = Some row ∧ t_CampaignID row = id ∧ t_Wave row = wave
                ∧ t_State row ∈ [TargetPending; TargetAwaitingBudget] ∧ it.2 = claim (clock d) runner row) claimed).
  { apply Forall_forall. intros it (it0 & -> & Hi)%list_elem_of_fmap. exists it0.2. unfold found in Hi.
    apply elem_of_take in Hi as (i & Hi & _). apply list_elem_of_lookup_2 in Hi. rewrite sort_stable_perm in Hi.
    apply list_elem_of_filter in Hi as [Hc Hi]. destruct it0 as [i0 row]. apply elem_of_map_to_list in Hi. cbn in *.
    unfold claimable in Hc. rewrite !andb_true_iff in Hc. destruct Hc as ((((Ha & Hb) & Hd) & _) & _).
    apply bool_decide_eq_true in Ha, Hb, Hd. done. }
  destruct (mfor_set_targets claimed d Hnd) as [E Hcalm].
  { eapply Forall_impl; [exact Hall|]. intros it (row & Hr & _ & _ & _ & ->). exists row. split; [done|]. apply claim_calm. }
  unfold mret, M_ret. destruct (mfor claimed _ d) as [r d']. cbn in E, Hcalm. subst r. split; [done|]. by exists claimed.
Qed.

(** ** The statements of the operators *)

Lemma operator_update_calm id from f :
  (∀ now d c, c_State c ∈ from → let c' := f now d c in operator_move (c_State c) (c_State c') ∧ c_RunnerToken c' = c_RunnerToken c
     ∧ (c_GateAdvancedAt c ≠ None → c_GateAdvancedAt c' ≠ None) ∧ same_order c c') →
  keeps each_calm campaign_forward (operator_update id from f).
Proof.
  intros Hf d. unfold operator_update, gets, mbind, M_bind. destruct (campaigns d !! id) as [c|] eqn:Hc; [|apply reflexivity].
  case_bool_decide as Hs; [|apply reflexivity]. destruct (Hf (clock d) d c Hs) as (Hm & Ht & Hg & Ho).
  destruct d as [j cs tg st p]; cbn in *. split; cbn; intros i; [by destruct (tg !! i); constructor|].
  destruct (decide (i = id)) as [->|Hne].
  - rewrite lookup_alter_eq, Hc. constructor. revert Hm Ht Hg Ho. destruct (f _ _ c). cbn. intros. split; cbn; try done; try lia.
    by apply rtc_once; right.
  - rewrite lookup_alter_ne by done. by destruct (cs !! i); constructor.
Qed.

Ltac operator_tac := intros now d c Hs; destruct c; cbn in *.
Lemma Approve_calm id by_ : keeps each_calm campaign_forward (Approve id by_).
Proof. apply operator_update_calm. operator_tac. apply list_elem_of_singleton in Hs. split_and!; try done. by left. Qed.
Lemma Pause_calm id actor reason : keeps each_calm campaign_forward (Pause id actor reason).
Proof.
  apply operator_update_calm. operator_tac. split_and!; try done. right; left. split; [done|].
  destruct (in_flight d id); [by left|by right; left].
Qed.
Lemma Resume_calm id : keeps each_calm campaign_forward (Resume id).
Proof. apply operator_update_calm. operator_tac. split_and!; try done. by right; right; left. Qed.
Lemma Advance_calm id actor : keeps each_calm campaign_forward (Advance id actor).
Proof. apply operator_update_calm. operator_tac. apply list_elem_of_singleton in Hs. split_and!; try done. by right; right; right; left. Qed.
Lemma FinishPlanning_calm id set fp next : next ∈ [StatePlanned; StateAwaitingApproval] →
  keeps each_calm campaign_forward (FinishPlanning id set fp next).
Proof.
  intros Hn. apply operator_update_calm. operator_tac. apply list_elem_of_singleton in Hs. split_and!; try done.
  by right; right; right; right; left.
Qed.
