(* ===== verification/CampaignRollout.v ===== *)
(** * CampaignRollout: the hosts of a wave

    How many hosts are at work while the hosts of a wave take their turns, and
    what stood when each of them started. *)
From coqutil Require Import Datatypes.RecordSetters.
From S2P Require Import Prelude Bytes Text Actions ActionTables Registry AuthzTables Authz JobState Jobs CampaignStates Campaigns.
From S2P Require Import CampaignStore CampaignPass CampaignAdvance CampaignSteps CampaignMemory CampaignRuns.

Import OCamlLikeNotations.
Open Scope Z_scope.
Open Scope list_scope.

Section rollout.
Context `{MapOrder} {RJ : ResultJson} {OR : Orders}.
Context (w : world) (campaignID : string).
Context (Hothers : calm_others (w_others w)).

(** ** The hosts at work *)

Definition at_work (it : string * Target) : Prop := t_CampaignID it.2 = campaignID ∧ UnderWay (t_State it.2) = true.
#[export] Instance at_work_dec it : Decision (at_work it). Proof. apply _. Defined.
Definition working (d : CDB) : gset string := dom (filter at_work (targets d)).
Definition under_way (d : CDB) : Z := Z.of_nat (size (working d)).

Lemma elem_of_working d id : id ∈ working d ↔ ∃ t, targets d !! id = Some t ∧ t_CampaignID t = campaignID ∧ UnderWay (t_State t) = true.
Proof.
  unfold working. rewrite elem_of_dom. unfold is_Some. setoid_rewrite map_lookup_filter_Some. unfold at_work. naive_solver.
Qed.

Lemma evolves_back {RT RC} d d' id t' : evolves RT RC d d' → targets d' !! id = Some t' →
  ∃ t, targets d !! id = Some t ∧ RT id t t'.
Proof. intros Hev Ht. pose proof (ev_targets _ _ _ _ Hev id) as Ho. rewrite Ht in Ho. inversion Ho; subst. eauto. Qed.

Lemma evolves_on {RT RC} d d' id t : evolves RT RC d d' → targets d !! id = Some t →
  ∃ t', targets d' !! id = Some t' ∧ RT id t t'.
Proof. intros Hev Ht. pose proof (ev_targets _ _ _ _ Hev id) as Ho. rewrite Ht in Ho. inversion Ho; subst. eauto. Qed.

Lemma calm_working d d' : calm d d' → working d' ⊆ working d.
Proof.
  intros Hev id. rewrite !elem_of_working. intros (t' & Ht & Hc & Hu). destruct (evolves_back _ _ _ _ Hev Ht) as (t & Ht' & [Hf Hcalm]).
  exists t. split_and!; [done| |by apply Hcalm]. rewrite <- Hc. symmetry. apply Hf.
Qed.
Lemma start_working id d d' : evolves (start_at id) eq d d' → working d' ⊆ working d ∪ {[id]}.
Proof.
  intros Hev i. rewrite elem_of_union, elem_of_singleton, !elem_of_working. intros (t' & Ht & Hc & Hu).
  destruct (evolves_back _ _ _ _ Hev Ht) as (t & Ht' & [Hf Hi]). destruct (decide (i = id)) as [?|Hne]; [by right|left].
  exists t. by rewrite <- Hi in * by done.
Qed.
Lemma calm_under_way d d' : calm d d' → under_way d' ≤ under_way d.
Proof. intros Hc%calm_working%subseteq_size. unfold under_way. lia. Qed.
Lemma start_under_way id d d' : evolves (start_at id) eq d d' → under_way d' ≤ under_way d + 1.
Proof.
  intros Hc%start_working%subseteq_size. unfold under_way. rewrite size_union_alt in Hc.
  pose proof (subseteq_size ({[id]} ∖ working d) {[id]} ltac:(set_solver)) as H1. rewrite size_singleton in H1. lia.
Qed.

(** ** A path of calm writes and starts *)

Definition starting (P : string → CDB → Prop) (d d' : CDB) : Prop := calm d d' ∨ ∃ id, P id d ∧ evolves (start_at id) eq d d'.
Definition rolling (P : string → CDB → Prop) : CDB → CDB → Prop := rtc (starting P).

Lemma start_forward id d d' : evolves (start_at id) eq d d' → forward d d'.
Proof. apply evolves_mono; [by intros i t t' []|by intros c c' ->]. Qed.
Lemma rolling_forward P d d' : rolling P d d' → forward d d'.
Proof.
  induction 1 as [|d d1 d' [Hc|(id & _ & Hs)] _ IH]; [apply reflexivity| |].
  - etrans; [by apply calm_forward|done].
  - etrans; [by apply start_forward in Hs|done].
Qed.
Lemma rolling_calm P d d' : calm d d' → rolling P d d'.
Proof. intros Hc. by apply rtc_once; left. Qed.

(** A host that came to be at work started on the way. *)
Lemma rolling_started P d d' id : rolling P d d' → id ∈ working d' → id ∉ working d →
  ∃ d1, rolling P d d1 ∧ P id d1 ∧ rolling P d1 d'.
Proof.
  intros Hr Hw Hn. revert Hn. induction Hr as [d|d d1 d' Hs Hr IH]; [done|]. intros Hn.
  destruct (decide (id ∈ working d1)) as [Hin|Hout].
  - destruct Hs as [Hc|(i & HP & Hs)]; [by apply calm_working in Hc; apply Hc in Hin|].
    assert (i = id) as ->.
    { apply (start_working i d d1) in Hin; [|done]. apply elem_of_union in Hin as [?|?%elem_of_singleton]; [done|done]. }
    exists d. split; [by apply rtc_refl|]. split; [done|]. eapply rtc_l; [right; by exists id|done].
  - destruct (IH Hw Hout) as (d2 & H1 & HP & H2). exists d2. split; [|done]. by eapply rtc_l.
Qed.

(** ** The turns of a wave *)

(** What stood when a host started: it waited in this wave, and it was ready. *)
Definition its_turn (c : Campaign) (wave : Z) (ts : list (string * Target)) (id : string) (d : CDB) : Prop :=
  ∃ t host, (id, t) ∈ ts ∧ t_State t ∈ [TargetPending; TargetAwaitingBudget]
    ∧ (∃ row, targets d !! id = Some row ∧ t_Wave row = wave ∧ t_CampaignID row = campaignID)
    ∧ ready w campaignID c id t host d.

Lemma ready_same c id t t' host d : t_HostID t' = t_HostID t → ready w campaignID c id t host d → ready w campaignID c id t' host d.
Proof. intros E []. split; try done. by rewrite E. Qed.

Lemma find_target_elem id ts t : find_target id ts = Some t → (id, t) ∈ ts.
Proof.
  unfold find_target. intros ([i t'] & Hf & ->)%fmap_Some. apply head_Some_elem_of in Hf.
  apply list_elem_of_filter in Hf as [Hi Hf]. cbn in Hi. by subst.
Qed.
Lemma find_with_target id i t ts : i ≠ id → find_target i (with_target id t ts) = find_target i ts.
Proof.
  intros Hne. unfold find_target, with_target. f_equal. induction ts as [|[j tj] ts IH]; [done|]. cbn [fmap list_fmap].
  rewrite !filter_cons. cbn. case_bool_decide as Hj; cbn; [subst; by rewrite !decide_False by congruence|].
  destruct (decide (j = i)); [done|exact IH].
Qed.
Lemma Waiting_queue t : Waiting t = true → t ≠ TargetQueuedOffline → t ∈ [TargetPending; TargetAwaitingBudget].
Proof. destruct t; try done; intros _ _; repeat first [by left|right]. Qed.

Lemma pause_calm c ts reason d : known campaignID c d → calm d (pause w campaignID c ts reason d).2.
Proof.
  intros Hk. unfold pause, mbind, M_bind.
  destruct (SetState_run campaignID (w_others w) c (pauseState (snd <$> ts)) reason d Hothers Hk) as [Hc _].
  by destruct (SetState _ _ _ _ _ d) as [[]].
Qed.

Context (wave : Z) (ts0 : list (string * Target)).

(** The claimed hosts that still wait for their turn are as the pass read them. *)
Definition queued (claimed ts : list (string * Target)) (d : CDB) : Prop := ∀ id, id ∈ claimed.*1 →
  find_target id ts = find_target id ts0 ∧ ∃ row, targets d !! id = Some row ∧ t_Wave row = wave ∧ t_CampaignID row = campaignID.

Lemma calm_at_start id d d' : evolves (calm_at id) eq d d' → evolves (start_at id) eq d d'.
Proof. apply evolves_mono; [by intros i t t' [[] ?]|done]. Qed.
Lemma queued_tail it claimed ts d : queued (it :: claimed) ts d → queued claimed ts d.
Proof. intros Hq id Hi. apply Hq. by right. Qed.
Lemma queued_next id row claimed ts d t' d1 : id ∉ claimed.*1 → evolves (start_at id) eq d d1 →
  queued ((id, row) :: claimed) ts d → queued claimed (with_target id t' ts) d1.
Proof.
  intros Hn Hst Hq i Hi. destruct (queued_tail _ _ _ _ Hq i Hi) as (Hfi & r & Hr & Hwv & Hc).
  assert (Hne : i ≠ id) by (intros ->; done). rewrite find_with_target by done. split; [done|].
  pose proof (ev_targets _ _ _ _ Hst i) as Ho. rewrite Hr in Ho. inversion Ho as [? r' [_ E]|]; subst. exists r'. by rewrite E.
Qed.

Lemma launch_claimed_run c claimed running ts d :
  NoDup claimed.*1 → known campaignID c d → under_way d ≤ running → queued claimed ts d →
  let d' := (launch_claimed w campaignID c claimed running ts d).2 in
  rolling (its_turn c wave ts0) d d' ∧ under_way d' ≤ running `max` c_MaxConcurrent c.
Proof.
  cbv zeta. revert running ts d. induction claimed as [|[id row] claimed IH]; intros running ts d Hnd Hk Hu Hq;
    [split; [by apply rtc_refl|cbn; lia]|].
  apply NoDup_cons in Hnd as [Hn Hnd]. change (id ∉ claimed.*1) in Hn. change (NoDup claimed.*1) in Hnd. cbn [launch_claimed].
  destruct (Hq id ltac:(by left)) as [Hfind Hrow]. pose proof (queued_tail _ _ _ _ Hq) as Hrest.
  destruct (find_target id ts) as [t|] eqn:Ht; [|by apply IH].
  destruct (negb (Waiting (t_State t)) || bool_decide (t_State t = TargetQueuedOffline)) eqn:Hw; [by apply IH|].
  destruct (decide (c_MaxConcurrent c ≤ running)) as [Hmax|Hmax];
    [rewrite bool_decide_true by done; split; [by apply rtc_refl|cbn; lia]|rewrite bool_decide_false by done].
  set (t1 := { { t with t_ClaimToken := t_ClaimToken row } with t_Revision := t_Revision row }).
  pose proof (turns_take_turn w campaignID c id t1 d) as Hturn. unfold mbind, M_bind.
  destruct (take_turn w campaignID c id t1 d) as [r d1]. destruct Hturn as [[Hcalm Hr]|((t' & ->) & (host & Hready) & Hst)].
  - pose proof (calm_hosts_calm _ _ (calm_at_hosts _ _ _ Hcalm)) as Hc. pose proof (calm_under_way _ _ Hc) as Hu1.
    pose proof (known_evolves _ _ _ _ _ Hc Hk) as Hk1.
    destruct r as [[[| |] t']|e]; [by destruct (Hr t')| | |].
    + destruct (IH running (with_target id t' ts) d1) as [Hroll Hle]; [done..|lia| |].
      { by apply (queued_next id row _ _ d); [|apply calm_at_start|]. }
      split; [|done]. etrans; [by apply rolling_calm|done].
    + cbn [fst snd]. pose proof (pause_calm c (with_target id t' ts) "creator_rights_unconfirmed" d1 Hk1) as Hp.
      split; [apply rolling_calm; by etrans|]. apply calm_under_way in Hp. lia.
    + split; [by apply rolling_calm|cbn; lia].
  - pose proof (start_under_way _ _ _ Hst) as Hu1. pose proof (known_evolves _ _ _ _ _ (start_forward _ _ _ Hst) Hk) as Hk1.
    destruct (IH (running + 1) (with_target id t' ts) d1) as [Hroll Hle]; [done|done|lia|by apply (queued_next id row _ _ d)|].
    split; [|lia]. eapply rtc_l; [right; exists id; split; [|done]|done].
    apply orb_false_iff in Hw as [Hw1 Hw2]. apply negb_false_iff in Hw1. apply bool_decide_eq_false in Hw2.
    exists t, host. split_and!; [apply find_target_elem; by rewrite <- Hfind|by apply Waiting_queue|done|].
    by apply (ready_same c id t1).
Qed.
End rollout.

(** ** What a pass reads and decides

    The hosts of a pass against the rows, the wave a pass serves, and the
    passes that start nobody. *)

(** ** The wave a pass serves *)

Definition waves (ts : list (string * Target)) : list Z := (λ it, t_Wave it.2) <$> ts.

(** Over hosts in the order of their waves, the current one is the first that
    is still held. *)
Lemma currentWave_from_held wave ts : 0 ≤ wave → Forall (λ t, wave ≤ t_Wave t) ts → currentWave_from wave ts = wave.
Proof.
  intros Hw Hall. induction Hall as [|t ts Ht _ IH]; [done|]. cbn. destruct (negb (HoldsWave t)); [done|].
  by rewrite (bool_decide_false (wave < 0)), (bool_decide_false (t_Wave t < wave)) by lia.
Qed.
Lemma currentWave_least wave ts : wave < 0 → StronglySorted Z.le (t_Wave <$> ts) →
  ∀ t, t ∈ ts → HoldsWave t = true → 0 ≤ t_Wave t → 0 ≤ currentWave_from wave ts ≤ t_Wave t.
Proof.
  revert wave. induction ts as [|t0 ts IH]; intros wave Hw Hs t Hin Hh Ht; [by apply elem_of_nil in Hin|].
  cbn in Hs. apply StronglySorted_inv in Hs as [Hs Hall]. rewrite Forall_fmap in Hall. cbn.
  destruct (HoldsWave t0) eqn:Hh0; cbn [negb].
  - rewrite (bool_decide_true (wave < 0)) by done. cbn [orb]. destruct (decide (0 ≤ t_Wave t0)) as [H0|H0].
    + rewrite currentWave_from_held by done. apply elem_of_cons in Hin as [->|Hin]; [lia|].
      rewrite Forall_forall in Hall. specialize (Hall t Hin). cbn in Hall. lia.
    + apply elem_of_cons in Hin as [->|Hin]; [lia|]. apply IH; [lia|done..].
  - apply elem_of_cons in Hin as [->|Hin]; [congruence|]. by apply IH.
Qed.
Lemma decide_rollout_wave c ts wave phase : decide_rollout c ts = RolloutWave wave phase → StronglySorted Z.le (t_Wave <$> ts) →
  0 ≤ wave ∧ (0 < wave → c_ManualGate c = true → c_GateAdvancedAt c ≠ None)
  ∧ ∀ t, t ∈ ts → 0 ≤ t_Wave t < wave → HoldsWave t = false.
Proof.
  unfold decide_rollout. case_bool_decide as Hw; [done|]. destruct (waveFinished _ _); [|done]. cbn [negb].
  intros Hd Hs. assert (E : currentWave ts = wave).
  { revert Hd. by repeat case_match; intros [= <- _]. }
  rewrite E in *. split_and!; [lia| |].
  - intros Hpos Hg Hn. rewrite Hn, Hg in Hd. by rewrite !bool_decide_true in Hd by done.
  - intros t Hin [H0 Hlt]. destruct (HoldsWave t) eqn:Hh; [|done]. 
    destruct (currentWave_least (-1) ts ltac:(lia) Hs t Hin Hh H0). unfold currentWave in E. lia.
Qed.

(** ** What a pass read *)

Section reads.
Context `{MapOrder}.
Context (campaignID : string).

(** The hosts of memory are the rows of the campaign, each once, wave after
    wave. *)
Record reads (ts : list (string * Target)) (d : CDB) : Prop := {
  rd_once : NoDup ts.*1;
  rd_rows : ∀ id row, targets d !! id = Some row → t_CampaignID row = campaignID → id ∈ ts.*1;
  rd_synced : all_synced ts d;
  rd_mine : Forall (λ it, t_CampaignID it.2 = campaignID) ts;
  rd_sorted : StronglySorted Z.le (waves ts);
}.

Lemma reads_row ts d id row : reads ts d → targets d !! id = Some row → t_CampaignID row = campaignID →
  ∃ t, (id, t) ∈ ts ∧ agree t row.
Proof.
  intros Hrd Hr Hc. destruct (list_elem_of_fmap_1 _ _ _ (rd_rows _ _ Hrd id row Hr Hc)) as ([i t] & -> & Hin). cbn in *.
  exists t. split; [done|]. destruct (proj1 (Forall_forall _ _) (rd_synced _ _ Hrd) _ Hin) as (row' & Hr' & Ha). cbn in *.
  rewrite Hr in Hr'. by injection Hr' as ->.
Qed.
Lemma reads_elem ts d id t : reads ts d → (id, t) ∈ ts → ∃ row, targets d !! id = Some row ∧ agree t row ∧ t_CampaignID row = campaignID.
Proof.
  intros Hrd Hin. destruct (proj1 (Forall_forall _ _) (rd_synced _ _ Hrd) _ Hin) as (row & Hr & Ha). exists row. split_and!; [done..|].
  rewrite (ag_campaign _ _ Ha). exact (proj1 (Forall_forall _ _) (rd_mine _ _ Hrd) _ Hin).
Qed.

(** The rows, read. *)
Lemma Targets_sorted d : StronglySorted Z.le (waves (Targets campaignID d)).
Proof.
  assert (Hs : StronglySorted (not_after target_before) (Targets campaignID d)).
  { apply sort_stable_sorted; intros a b; unfold target_before.
    - rewrite orb_true_iff, orb_false_iff, andb_true_iff, andb_false_iff, !bool_decide_eq_true, !bool_decide_eq_false. lia.
    - intros e. rewrite !orb_false_iff, !andb_false_iff, !bool_decide_eq_false. lia. }
  unfold waves. induction Hs as [|a l _ IH Hall]; [constructor|]. constructor; [done|]. apply Forall_fmap.
  eapply Forall_impl; [exact Hall|]. intros b Hb. cbn. unfold not_after, target_before in Hb.
  apply orb_false_iff in Hb as [Hb _]. apply bool_decide_eq_false in Hb. lia.
Qed.
Lemma reads_Targets d : reads (Targets campaignID d) d.
Proof.
  assert (Hp : Targets campaignID d ≡ₚ targets_of d campaignID) by apply sort_stable_perm.
  assert (Hin : ∀ it, it ∈ Targets campaignID d ↔ targets d !! it.1 = Some it.2 ∧ t_CampaignID it.2 = campaignID).
  { intros [id t]. rewrite Hp. unfold targets_of. rewrite list_elem_of_filter, elem_of_map_to_list. naive_solver. }
  split.
  - rewrite Hp. unfold targets_of. eapply sublist_NoDup; [|apply fmap_sublist, sublist_filter]. apply NoDup_fst_map_to_list.
  - intros id row Hr Hc. apply list_elem_of_fmap. exists (id, row). by rewrite Hin.
  - apply Forall_forall. intros [id t] [Hr _]%Hin. by exists t.
  - apply Forall_forall. by intros [id t] [_ Hc]%Hin.
  - apply Targets_sorted.
Qed.

(** What a loop leaves of it. *)
Lemma looped_waves ts ts' d d' : all_synced ts d → looped ts ts' d d' → waves ts' = waves ts ∧
  (Forall (λ it, t_CampaignID it.2 = campaignID) ts → Forall (λ it, t_CampaignID it.2 = campaignID) ts').
Proof.
  intros Hs (Hk & Hs' & Hc & _). revert ts' Hk Hs'. induction Hs as [|[id t] ts (row & Hr & Ha) Hs IH]; intros [|[id' t'] ts'] Hk Hs'; try done.
  cbn in Hk. injection Hk as -> Hk. inversion Hs' as [|? ? (row' & Hr' & Ha') Hs'']; subst. cbn in *.
  destruct (IH ts' Hk Hs'') as [E1 E2]. destruct (evolves_back _ _ _ _ Hc Hr') as (r & Hr0 & [Hf _]). rewrite Hr in Hr0. injection Hr0 as <-.
  assert (Ew : t_Wave t' = t_Wave t) by (rewrite <- (ag_wave _ _ Ha'), <- (ag_wave _ _ Ha); apply Hf).
  assert (Ec : t_CampaignID t' = t_CampaignID t) by (rewrite <- (ag_campaign _ _ Ha'), <- (ag_campaign _ _ Ha); apply Hf).
  split; [cbn; by rewrite Ew; f_equal|]. inversion 1; subst. constructor; [cbn in *; congruence|auto].
Qed.
Lemma reads_looped ts ts' d d' : reads ts d → looped ts ts' d d' → reads ts' d'.
Proof.
  intros [] Hl. destruct (looped_waves ts ts' d d' rd_synced0 Hl) as [Ew Em]. destruct Hl as (Hk & Hs' & Hc & _).
  split; [by rewrite Hk| |done|auto|by rewrite Ew].
  intros id row' Hr' Hcid. destruct (evolves_back _ _ _ _ Hc Hr') as (row & Hr & [Hf _]). rewrite Hk. apply (rd_rows0 id row Hr).
  rewrite <- Hcid. symmetry. apply Hf.
Qed.
End reads.
