(* ===== verification/CampaignTicks.v ===== *)
(** * CampaignTicks: a pass over a campaign

    Every pass, whatever state the campaign is in: what it starts, how many it
    leaves at work, and that all it writes goes along the tables. *)
From coqutil Require Import Datatypes.RecordSetters.
From S2P Require Import Prelude Bytes Text Actions ActionTables Registry AuthzTables Authz JobState Jobs.
From S2P Require Import CampaignStates Campaigns CampaignStore CampaignPass CampaignAdvance CampaignSteps CampaignMemory CampaignRuns CampaignRollout.

Import OCamlLikeNotations.
Open Scope Z_scope.
Open Scope list_scope.

Section ticks.
Context `{MapOrder} {RJ : ResultJson} {OR : Orders}.
Context (PlanSetFingerprint : list (string * string) → string) (FingerprintWithPlans : string → string → string).
Context (mapping : option (string → option string)).
Context (w : world) (campaignID : string).
Context (Hothers : calm_others (w_others w)).

(** ** Passes that start nobody *)

(** Calm, for a pass that knows its campaign. *)
Definition calmly {A} (c : Campaign) (m : C A) : Prop := ∀ d, known campaignID c d → calm d (m d).2.

Lemma calmly_keeps {A} c (m : C A) : keeps each_calm campaign_forward m → calmly c m.
Proof. intros Hm d _. apply Hm. Qed.
Lemma calmly_hosts {A} c (m : C A) : keeps each_calm eq m → calmly c m.
Proof. intros Hm. by apply calmly_keeps, keeps_calm. Qed.
Lemma calmly_bind {A B} c (m : C A) (k : A → C B) : calmly c m → (∀ a, calmly c (k a)) → calmly c (m ≫= k).
Proof.
  intros Hm Hk d Hd. specialize (Hm d Hd). unfold mbind, M_bind. destruct (m d) as [[a|e] d1] eqn:E; [|done]. cbn in Hm.
  etrans; [exact Hm|]. by apply Hk, (known_evolves _ _ _ _ _ Hm).
Qed.
Lemma calmly_move c state reason : calmly c (move w campaignID c state reason).
Proof.
  intros d Hd. unfold move, mbind, M_bind. destruct (SetState_run campaignID (w_others w) c state reason d Hothers Hd) as [Hc _].
  by destruct (SetState _ _ _ _ _ d) as [[]].
Qed.
Lemma keeps_every_target RT RC `{!∀ i, PreOrder (RT i), !PreOrder RC} body ts :
  (∀ id t, keeps RT RC (body id t)) → keeps RT RC (every_target body ts).
Proof. intros Hb. induction ts as [|[id t] ts IH]; cbn [every_target]; keeps_tac. Qed.
Lemma keeps_each_target RT RC `{!∀ i, PreOrder (RT i), !PreOrder RC} body ts :
  (∀ id t, keeps RT RC (body id t)) → keeps RT RC (each_target body ts).
Proof. intros Hb. induction ts as [|[id t] ts IH]; cbn [each_target]; keeps_tac. Qed.
Lemma keeps_plan_all RT RC `{!∀ i, PreOrder (RT i), !PreOrder RC} body ts :
  (∀ id t, keeps RT RC (body id t)) → keeps RT RC (plan_all body ts).
Proof. intros Hb. induction ts as [|[id t] ts IH]; cbn [plan_all]; keeps_tac. Qed.

(** One host at a time is every host. *)
Ltac at_tac id := apply (keeps_at id); keeps_tac.

Lemma keeps_finish_open c state code message ts : Finished state = true →
  keeps each_calm eq (finish_open campaignID c state code message ts).
Proof. intros Hf. unfold finish_open. apply keeps_every_target; [typeclasses eauto..|]. intros id t. at_tac id. Qed.
Lemma calmly_failPlanning c ts reason : calmly c (failPlanning w campaignID c ts reason).
Proof. unfold failPlanning. apply calmly_bind; [apply calmly_hosts, keeps_finish_open; done|]. intros _. apply calmly_move. Qed.
Lemma calmly_complete c ts : calmly c (complete w campaignID c ts).
Proof. apply calmly_move. Qed.

Lemma calmly_finishPlanning c ts : calmly c (finishPlanning PlanSetFingerprint FingerprintWithPlans w campaignID c ts).
Proof.
  unfold finishPlanning. destruct (allFinished _); [destruct (bool_decide _); [apply calmly_failPlanning|apply calmly_complete]|].
  apply calmly_bind; [apply calmly_hosts, steps_gets; typeclasses eauto|]. intros plans.
  destruct (bool_decide _); [apply calmly_failPlanning|]. cbv zeta.
  destruct (bool_decide _); [apply calmly_hosts, steps_fail; typeclasses eauto|]. apply calmly_keeps, FinishPlanning_calm.
  destruct (c_RequiresApproval c); [by right; left|by left].
Qed.

Lemma keeps_orderPlan c id t : keeps (calm_at id) eq (orderPlan w campaignID c id t).
Proof.
  unfold orderPlan. destruct (w_host _ _) as [host|]; [|keeps_tac]. destruct (negb _); [apply keeps_holdOffline|].
  apply steps_bind; [typeclasses eauto..| |intros []; keeps_tac]. apply keeps_launch; [keeps_tac|done].
Qed.
Hint Resolve keeps_orderPlan keeps_settleNoChange : keeps.
Lemma keeps_collectPlan c id t : keeps (calm_at id) eq (collectPlan campaignID c id t).
Proof. unfold collectPlan. cbv zeta. keeps_tac. Qed.
Lemma keeps_recheckOfflinePlanning c id t : keeps (calm_at id) eq (recheckOfflinePlanning w campaignID c id t).
Proof. unfold recheckOfflinePlanning. keeps_tac. Qed.
Hint Resolve keeps_collectPlan keeps_recheckOfflinePlanning : keeps.
Lemma keeps_plan_target c id t : keeps (calm_at id) eq (plan_target w campaignID c id t).
Proof. unfold plan_target. keeps_tac. Qed.
Lemma keeps_plan_from_order names c id t : keeps (calm_at id) eq (plan_from_order campaignID names c id t).
Proof.
  unfold plan_from_order. destruct (Finished _); [keeps_tac|]. destruct (negb _); [keeps_tac|]. destruct (names _) as [hash|]; [|keeps_tac].
  apply steps_bind; [typeclasses eauto..|by apply keeps_startStep|]. intros t'. keeps_tac.
Qed.

Lemma calmly_plan c ts : calmly c (plan PlanSetFingerprint FingerprintWithPlans mapping w campaignID c ts).
Proof.
  assert (Hrun : ∀ body, (∀ id t, keeps (calm_at id) eq (body id t)) →
    calmly c ('(all, ts) ← plan_all body ts; if all : bool then finishPlanning PlanSetFingerprint FingerprintWithPlans w campaignID c ts else mret tt)).
  { intros body Hb. apply calmly_bind; [apply calmly_hosts, keeps_plan_all; [typeclasses eauto..|intros id t; by apply (keeps_at id)]|].
    intros [[] ts']; [apply calmly_finishPlanning|apply calmly_hosts, steps_ret; typeclasses eauto]. }
  unfold plan. cbv zeta. destruct (PanelPlanned _); [destruct mapping as [names|]|destruct (bool_decide _)]; try apply calmly_failPlanning; apply Hrun;
    intros id t; [apply keeps_plan_from_order|apply keeps_plan_target].
Qed.

Lemma calmly_expire c : calmly c (expire w campaignID c).
Proof.
  unfold expire. apply calmly_bind; [apply calmly_hosts, steps_gets; typeclasses eauto|]. intros ts.
  apply calmly_bind; [by apply calmly_hosts, keeps_finish_open|]. intros _. apply calmly_move.
Qed.
Lemma calmly_progress c ts : calmly c (each_target (progressTarget w campaignID c) ts).
Proof. apply calmly_hosts, keeps_each_target; [typeclasses eauto..|]. intros id t. apply (keeps_at id), keeps_progressTarget. Qed.
Lemma calmly_drain c ts : calmly c (drain w campaignID c ts).
Proof.
  unfold drain. apply calmly_bind; [apply calmly_hosts, keeps_holdCapacity; typeclasses eauto|]. intros _.
  apply calmly_bind; [apply calmly_progress|]. intros ts'. destruct (cancelSettled _); [apply calmly_move|].
  apply calmly_hosts, steps_ret; typeclasses eauto.
Qed.
Lemma calmly_settle c ts : calmly c (settle w campaignID c ts).
Proof.
  unfold settle. apply calmly_bind; [apply calmly_hosts, keeps_holdCapacity; typeclasses eauto|]. intros _.
  apply calmly_bind; [apply calmly_progress|]. intros ts'. destruct (_ && _); [apply calmly_move|].
  apply calmly_hosts, steps_ret; typeclasses eauto.
Qed.
Lemma calmly_pause c ts reason : calmly c (pause w campaignID c ts reason).
Proof. intros d Hd. by apply pause_calm. Qed.

(** ** The pass that starts hosts *)

(** Rows among the hosts of memory are no more than those. *)
Lemma filter_snd (P : Target → Prop) `{!∀ t, Decision (P t)} (ts : list (string * Target)) :
  len (filter P (snd <$> ts)) = len (filter (λ it : string * Target, P it.2) ts).
Proof. unfold len. f_equal. induction ts as [|it ts IH]; [done|]. cbn [fmap list_fmap]. rewrite !filter_cons. by case_decide; cbn; rewrite IH. Qed.
Lemma listed_size (P : Target → Prop) `{!∀ t, Decision (P t)} (ts : list (string * Target)) (rows : gset string) :
  NoDup ts.*1 → (∀ id, id ∈ rows → ∃ t, (id, t) ∈ ts ∧ P t) → Z.of_nat (size rows) ≤ len (filter P (snd <$> ts)).
Proof.
  intros Hnd Hin. rewrite filter_snd. unfold len.
  assert (Hsub : rows ⊆ list_to_set (filter (λ it : string * Target, P it.2) ts).*1).
  { intros id Hid. destruct (Hin id Hid) as (t & Ht & Hp). apply elem_of_list_to_set, list_elem_of_fmap. exists (id, t).
    split; [done|]. by apply list_elem_of_filter. }
  apply subseteq_size in Hsub. rewrite size_list_to_set in Hsub; [rewrite length_fmap in Hsub; lia|].
  eapply sublist_NoDup; [exact Hnd|]. apply fmap_sublist, sublist_filter.
Qed.

(** Every host at work counts against the limit. *)
Lemma working_active ts d : reads campaignID ts d → under_way campaignID d ≤ activeTargets (snd <$> ts).
Proof.
  intros Hrd. unfold under_way, activeTargets. apply listed_size; [apply (rd_once _ _ _ Hrd)|].
  intros id (row & Hr & Hc & Hu)%elem_of_working. destruct (reads_row _ _ _ _ _ Hrd Hr Hc) as (t & Hin & Ha).
  exists t. split; [done|]. rewrite <- (ag_state _ _ Ha). by destruct (t_State row).
Qed.

(** What a pass decided before a wave takes its turns. *)
Record decided (c : Campaign) (d d1 : CDB) (wave : Z) (ts : list (string * Target)) : Prop := {
  de_calm : calm_hosts d d1;
  de_reads : reads campaignID ts d1;
  de_window : WithinMaintenanceWindow (w_now w) (c_MaintenanceStart c) (c_MaintenanceEnd c) = true;
  de_stop : ∃ before settled dm, reads campaignID before d ∧ reads campaignID settled dm ∧ calm_hosts d dm ∧ calm_hosts dm d1
    ∧ decide_stop c before settled = None;
  de_wave : ∃ phase, decide_rollout c (snd <$> ts) = RolloutWave wave phase;
}.
(** The campaign of memory from then on. *)
Definition same_run (c c' : Campaign) : Prop :=
  same_order c c' ∧ (c_RunnerID c ≠ None → c_RunnerID c' = c_RunnerID c ∧ c_RunnerToken c' = c_RunnerToken c).

(** A program that leaves no more hosts at work than there were, or the order
    allows. *)
Definition bounded (c : Campaign) (d d' : CDB) : Prop := under_way campaignID d' ≤ under_way campaignID d `max` c_MaxConcurrent c.
Lemma calm_bounded c d d' : calm d d' → bounded c d d'.
Proof. intros Hc%(calm_under_way campaignID). unfold bounded. lia. Qed.

Lemma launchWave_run c runner ts wave d d1 : known campaignID c d → reads campaignID ts d1 → calm d1 d →
  let d' := (launchWave w campaignID c runner ts wave d).2 in
  rolling (its_turn w campaignID c wave ts) d d' ∧ bounded c d d'.
Proof.
  cbv zeta. intros Hk Hrd Hc1. unfold launchWave. cbv zeta. case_bool_decide as Hm; [split; [by apply rtc_refl|by apply calm_bounded]|].
  destruct (ClaimWaveTargets_run (w_locked w) campaignID wave runner (c_MaxConcurrent c - activeTargets (snd <$> ts)) d)
    as (Hc & claimed & E & Hnd & Hall).
  unfold mbind, M_bind. destruct (ClaimWaveTargets _ _ _ _ _ d) as [r d2]. cbn in E, Hc. subst r.
  pose proof (calm_hosts_calm _ _ Hc) as Hc2. pose proof (calm_under_way campaignID _ _ Hc1). pose proof (calm_under_way campaignID _ _ Hc2).
  pose proof (working_active ts d1 Hrd).
  destruct (launch_claimed_run w campaignID Hothers wave ts c claimed (activeTargets (snd <$> ts)) ts d2) as [Hroll Hle]; try done; try lia.
  - by apply (known_evolves _ _ _ _ _ Hc2).
  - intros id (it & -> & Hin)%list_elem_of_fmap. split; [done|].
    rewrite Forall_forall in Hall. destruct (Hall it Hin) as (row & Hr & Hcid & Hwv & _).
    destruct (evolves_on _ _ _ _ Hc Hr) as (row' & Hr' & [Hf _]). exists row'. rewrite (tf_wave _ _ Hf), (tf_campaign _ _ Hf). done.
  - split; [etrans; [by apply rolling_calm|done]|unfold bounded; lia].
Qed.

Lemma roll_out_run c runner ts d : known campaignID c d → reads campaignID ts d →
  let d' := (roll_out w campaignID c runner ts d).2 in
  bounded c d d' ∧ (calm d d' ∨ ∃ wave phase c', decide_rollout c (snd <$> ts) = RolloutWave wave phase ∧ same_run c c'
    ∧ rolling (its_turn w campaignID c' wave ts) d d').
Proof.
  cbv zeta. intros Hk Hrd. unfold roll_out. destruct (decide_rollout c (snd <$> ts)) as [|reason|wave phase] eqn:Hd.
  - split; [by apply calm_bounded|by left].
  - assert (Hc : calm d (enterGate w campaignID c reason d).2).
    { unfold enterGate. case_bool_decide; [apply reflexivity|by apply calmly_move]. }
    split; [by apply calm_bounded|by left].
  - assert (He : calm d (enter_phase w campaignID c phase d).2 ∧ ∀ c', (enter_phase w campaignID c phase d).1 = Ok c' →
      known campaignID c' (enter_phase w campaignID c phase d).2 ∧ same_run c c').
    { unfold enter_phase. case_bool_decide; [split; [apply reflexivity|intros c' [= <-]; by split; [|split]]|].
      destruct (SetState_run campaignID (w_others w) c phase "" d Hothers Hk) as [Hc Hr]. split; [done|]. intros c' E.
      by destruct (Hr c' E) as (? & _ & ? & ?). }
    destruct He as [Hc Hr]. unfold mbind, M_bind. destruct (enter_phase w campaignID c phase d) as [[c'|e] d1]; cbn in Hc, Hr;
      [|split; [by apply calm_bounded|by left]].
    destruct (Hr c' eq_refl) as [Hk' Hsr]. destruct (launchWave_run c' runner ts wave d1 d Hk' Hrd Hc) as [Hroll Hb].
    split; [|right; exists wave, phase, c'; split_and!; [done..|etrans; [by apply rolling_calm|done]]].
    destruct Hsr as [(_ & Em & _) _]. apply (calm_under_way campaignID) in Hc. unfold bounded in *. rewrite Em in Hb. lia.
Qed.

Lemma bindE {S E A B} (m : M S E A) (k : A → M S E B) s :
  (m ≫= k) s = match m s with (Ok a, s') => k a s' | (Err e, s') => (Err e, s') end.
Proof. done. Qed.

Lemma holdCapacity_run ts d : (holdCapacity w ts d).2 = d.
Proof. unfold holdCapacity. destruct (negb _); [done|]. by destruct (w_renewal w). Qed.

(** What a pass did, when it did more than wait. *)
Definition rolled (c : Campaign) (d d' : CDB) : Prop := ∃ d1 wave ts c', decided c d d1 wave ts ∧ same_run c c'
  ∧ rolling (its_turn w campaignID c' wave ts) d1 d'.

Lemma run_campaign_run c runner before d : known campaignID c d → reads campaignID before d →
  let d' := (run_campaign w campaignID c runner before d).2 in bounded c d d' ∧ (calm d d' ∨ rolled c d d').
Proof.
  cbv zeta. intros Hk Hrd. unfold run_campaign.
  assert (Hcalm : ∀ d', calm d d' → bounded c d d' ∧ (calm d d' ∨ rolled c d d')) by (intros d' Hc; split; [by apply calm_bounded|by left]).
  pose proof (holdCapacity_run before d) as Hh. rewrite bindE. destruct (holdCapacity w before d) as [[mayLaunch|e] d0];
    cbn in Hh; subst d0; [|by apply Hcalm; apply reflexivity].
  destruct (each_target_run (progressTarget w campaignID c) (keeps_progressTarget w campaignID c) (follows_progressTarget w campaignID c)
    before d (rd_once _ _ _ Hrd) (rd_synced _ _ _ Hrd)) as (settled & dm & E & Hl).
  rewrite bindE. rewrite E. pose proof (reads_looped _ _ _ _ _ Hrd Hl) as Hrm. destruct Hl as (_ & _ & Hcm & _).
  pose proof (calm_hosts_calm _ _ Hcm) as Hcm'. pose proof (known_evolves _ _ _ _ _ Hcm' Hk) as Hkm.
  destruct (decide_stop c before settled) as [[|why| |]|] eqn:Hstop;
    [apply Hcalm; etrans; [done|]; by first [apply calmly_pause|apply calmly_complete]..|].
  pose proof (every_target_run (service_offline w campaignID c) (keeps_service_offline w campaignID c) (follows_service_offline w campaignID c)
    settled dm (rd_once _ _ _ Hrm) (rd_synced _ _ _ Hrm)) as Hs. unfold serviceOfflineQueue.
  rewrite bindE. destruct (every_target _ settled dm) as [[ts|e] d1]; [|apply Hcalm; etrans; [done|by apply calm_hosts_calm]].
  pose proof (reads_looped _ _ _ _ _ Hrm Hs) as Hr1. destruct Hs as (_ & _ & Hc1 & _). pose proof (calm_hosts_calm _ _ Hc1) as Hc1'.
  destruct (negb _ || negb mayLaunch) eqn:Hw; [apply Hcalm; by etrans|]. apply orb_false_iff in Hw as [Hw _]. apply negb_false_iff in Hw.
  assert (Hcd : calm_hosts d d1) by by etrans. assert (Hcd' : calm d d1) by by etrans.
  destruct (roll_out_run c runner ts d1 (known_evolves _ _ _ _ _ Hcd' Hk) Hr1) as [Hb Hroll]. split.
  { apply (calm_under_way campaignID) in Hcd'. unfold bounded in *. lia. }
  destruct Hroll as [Hc|(wave & phase & c' & Hdec & Hsr & Hroll)]; [left; by etrans|right]. exists d1, wave, ts, c'. split_and!; [|done..].
  split; [done|done|done| |by exists phase]. exists before, settled, dm. by split_and!.
Qed.

Lemma advance_run c runner d : known campaignID c d →
  let d' := (advance PlanSetFingerprint FingerprintWithPlans mapping w campaignID c runner d).2 in bounded c d d' ∧ (calm d d' ∨ rolled c d d').
Proof.
  cbv zeta. intros Hk. unfold advance. cbv zeta.
  assert (Hcalm : ∀ d', calm d d' → bounded c d d' ∧ (calm d d' ∨ rolled c d d')) by (intros d' Hc; split; [by apply calm_bounded|by left]).
  rewrite (bind_Ok _ _ _ _ _ (gets_run _ _)). destruct (_ && plansExpired _ _ _); [by apply Hcalm, calmly_expire|].
  destruct (bool_decide (c_State c = StateAwaitingApproval)); [apply Hcalm; apply reflexivity|].
  rewrite (bind_Ok _ _ _ _ _ (gets_run _ _)). pose proof (reads_Targets campaignID d) as Hrd.
  destruct (c_State c); try (by apply run_campaign_run); apply Hcalm; by first [apply calmly_plan|apply calmly_settle|apply calmly_drain].
Qed.

(** A campaign whose row keeps its state. *)
Definition state_kept (d d' : CDB) : Prop := ∀ row, campaigns d !! campaignID = Some row →
  ∃ row', campaigns d' !! campaignID = Some row' ∧ c_State row' = c_State row.
Lemma state_kept_refl d : state_kept d d.
Proof. intros row Hr. eauto. Qed.
Lemma AdoptTargets_hosts runner : keeps each_calm eq (AdoptTargets campaignID runner).
Proof.
  unfold AdoptTargets. apply steps_bind; [typeclasses eauto..|apply steps_gets; typeclasses eauto|]. intros now.
  apply steps_bind; [typeclasses eauto..| |intros []]; apply keeps_update_targets; try typeclasses eauto.
  - intros i t _. destruct t; cbn. split; [|done]. split; cbn; try done; lia.
  - intros i t _. by destruct t.
Qed.
Lemma ClaimRunner_state locked runner d : state_kept d (ClaimRunner locked campaignID runner d).2.
Proof.
  intros row Hr. unfold ClaimRunner. rewrite (bind_Ok _ _ _ _ _ (gets_run _ _)), (bind_Ok _ _ _ _ _ (gets_run _ _)), Hr.
  destruct (_ && _); [cbn; eauto|]. destruct locked; [cbn; eauto|]. destruct (_ || _); [|cbn; eauto].
  cbn. eexists. split; [apply lookup_insert_eq|]. by destruct row.
Qed.

(** A tick claims the campaign and adopts its hosts before the pass, or leaves
    it alone. *)
Definition taken (row : Campaign) (token : Z) (runner : string) : Campaign := { { row with c_RunnerToken := token } with c_RunnerID := Some runner }.
Lemma tick_one_pass locked runner d :
  let d' := (tick_one PlanSetFingerprint FingerprintWithPlans mapping w campaignID locked runner d).2 in
  calm d d' ∧ state_kept d d'
  ∨ ∃ row token d0, campaigns d !! campaignID = Some row ∧ drives campaignID d row = true ∧ calm d d0 ∧ state_kept d d0
      ∧ known campaignID (taken row token runner) d0
      ∧ d' = (advance PlanSetFingerprint FingerprintWithPlans mapping w campaignID (taken row token runner) runner d0).2.
Proof.
  cbv zeta. unfold tick_one. rewrite (bind_Ok _ _ _ _ _ (gets_run _ _)).
  destruct (campaigns d !! campaignID) as [row|] eqn:Hrow; [|left; split; [apply reflexivity|apply state_kept_refl]]. cbn [mbind option_bind].
  destruct (drives campaignID d row) eqn:Hdr; [|left; split; [apply reflexivity|apply state_kept_refl]].
  pose proof (ClaimRunner_calm locked campaignID runner d) as Hc1. pose proof (ClaimRunner_state locked runner d) as Hs1. rewrite bindE.
  destruct (ClaimRunner locked campaignID runner d) as [[[token|]|e] d1] eqn:Hcl; cbn in Hc1, Hs1; [|by left|by left].
  apply ClaimRunner_Some in Hcl as (r & row1 & Hr & Hrow1 & Htok & Hrun & _ & Hst & Hrev & Hord & _). rewrite Hrow in Hr. injection Hr as <-.
  cbv zeta. change { { row with c_RunnerToken := token } with c_RunnerID := Some runner } with (taken row token runner).
  assert (Hk1 : known campaignID (taken row token runner) d1).
  { intros r Hr. rewrite Hrow1 in Hr. injection Hr as <-. unfold taken. destruct row; cbn in *. split_and!; [lia|done|done]. }
  assert (Ha : keeps each_calm eq (if bool_decide (c_State (taken row token runner) = StateAwaitingApproval) then mret tt else AdoptTargets campaignID runner)).
  { destruct (bool_decide _); [apply steps_ret; typeclasses eauto|apply AdoptTargets_hosts]. }
  specialize (Ha d1). rewrite bindE. revert Ha.
  generalize (if bool_decide (c_State (taken row token runner) = StateAwaitingApproval) then mret tt else AdoptTargets campaignID runner). intros m Ha.
  assert (Hs2 : state_kept d (m d1).2).
  { intros r Hr. destruct (Hs1 r Hr) as (r1 & Hr1 & E). exists r1. split; [|done]. pose proof (ev_campaigns _ _ _ _ Ha campaignID) as Ho.
    rewrite Hr1 in Ho. by inversion Ho; subst. }
  pose proof (calm_hosts_calm _ _ Ha) as Hc2. destruct (m d1) as [[[]|e] d2]; cbn in Hs2, Hc2; [|left; split; [by etrans|done]].
  right. exists row, token, d2. split_and!; [done|done|by etrans|done|by apply (known_evolves _ _ _ _ _ Hc2)|].
  rewrite bindE. unfold try. by destruct (advance _ _ _ _ _ _ runner d2) as [r d'].
Qed.

Lemma tick_one_run locked runner d :
  let d' := (tick_one PlanSetFingerprint FingerprintWithPlans mapping w campaignID locked runner d).2 in
  calm d d' ∨ ∃ c row d0, campaigns d !! campaignID = Some row ∧ drives campaignID d row = true ∧ same_order row c ∧ c_RunnerID c = Some runner
    ∧ c_State c = c_State row ∧ calm d d0 ∧ bounded c d0 d' ∧ (calm d0 d' ∨ rolled c d0 d').
Proof.
  cbv zeta. destruct (tick_one_pass locked runner d) as [[Hc _]|(row & token & d0 & Hrow & Hdr & Hc & _ & Hk & E)]; [by left|right].
  exists (taken row token runner), row, d0. do 2 (split; [done|]). do 3 (split; [by destruct row|]). split; [done|]. rewrite E. by apply advance_run.
Qed.
End ticks.
