(* ===== verification/CampaignStops.v ===== *)
(** * CampaignStops: campaigns that stop

    The threshold of failures, the cancel of an operator, and a runner whose
    lease went to another. *)
From coqutil Require Import Datatypes.RecordSetters.
From S2P Require Import Prelude Bytes Text Actions ActionTables Registry AuthzTables Authz JobState Jobs CampaignStates Campaigns.
From S2P Require Import CampaignStore CampaignPass CampaignAdvance CampaignSteps CampaignMemory CampaignRuns CampaignRollout CampaignTicks.

Open Scope Z_scope.
Open Scope list_scope.
Import OCamlLikeNotations.

(** ** The waves of a rollout

    Where the hosts of an order are placed, and what stops a rollout. *)

(** ** The waves *)

Section waves.
Context (canarySize waveSize : Z) (Hcanary : 0 ≤ canarySize) (Hwave : 0 < waveSize).

(** A wave takes the ready hosts from [wave_start] on, [wave_size] of them. *)
Definition wave_start (wave : Z) : Z := if bool_decide (wave = 0) then 0 else canarySize + (wave - 1) * waveSize.
Definition wave_size (wave : Z) : Z := if bool_decide (wave = 0) then canarySize else waveSize.

Lemma AssignWave_spec index : 0 ≤ index →
  let '(wave, position) := AssignWave index canarySize waveSize in
  0 ≤ wave ∧ 0 ≤ position < wave_size wave ∧ index = wave_start wave + position.
Proof.
  intros Hi. unfold AssignWave. case_bool_decide as Hc; [unfold wave_start, wave_size; rewrite !bool_decide_true by done; lia|].
  rewrite Z.quot_div_nonneg, Z.rem_mod_nonneg by lia. set (r := index - canarySize).
  pose proof (Z.mod_pos_bound r waveSize Hwave). pose proof (Z.div_mod r waveSize ltac:(lia)).
  assert (0 ≤ r `div` waveSize) by (apply Z.div_pos; lia).
  unfold wave_start, wave_size. rewrite !bool_decide_false by lia. split_and!; nia.
Qed.
Lemma AssignWave_inj i j : 0 ≤ i → 0 ≤ j → AssignWave i canarySize waveSize = AssignWave j canarySize waveSize → i = j.
Proof.
  intros Hi Hj E. pose proof (AssignWave_spec i Hi) as Si. pose proof (AssignWave_spec j Hj) as Sj. rewrite E in Si.
  destruct (AssignWave j canarySize waveSize). lia.
Qed.
Lemma AssignWave_wave index wave : 0 ≤ index → 0 ≤ wave →
  (AssignWave index canarySize waveSize).1 = wave ↔ wave_start wave ≤ index < wave_start wave + wave_size wave.
Proof.
  intros Hi Hw. pose proof (AssignWave_spec index Hi) as S. destruct (AssignWave index canarySize waveSize) as [k p]. cbn.
  destruct S as (Hk & Hp & E). split; [intros ->; lia|]. intros Hin. revert Hp E Hin. unfold wave_start, wave_size.
  repeat case_bool_decide; intros; subst; try nia.
Qed.

(** ** The placement *)

Definition ready (host : TargetHost) : bool := bool_decide (default TargetPending (th_State host) = TargetPending).
Definition ready_count (hosts : list TargetHost) : Z := len (filter (λ h, ready h = true) hosts).
Definition in_wave (wave : Z) (p : targetPlacement) : bool := bool_decide (pl_State p = TargetPending) && bool_decide (pl_Wave p = wave).
Definition wave_count (wave : Z) (ps : list targetPlacement) : Z := len (filter (λ p, in_wave wave p = true) ps).

Lemma len_filter_cons {A} (f : A → bool) x l : len (filter (λ x, f x = true) (x :: l)) = b1 (f x) + len (filter (λ x, f x = true) l).
Proof. unfold len. rewrite filter_cons. destruct (f x); cbn [b1]; [rewrite decide_True by done; cbn; lia|by rewrite decide_False]. Qed.

Lemma place_from_hosts hosts r aside : pl_Host <$> place_from hosts canarySize waveSize r aside = hosts.
Proof.
  revert r aside. induction hosts as [|h hosts IH]; intros r aside; [done|]. cbn. case_bool_decide.
  - destruct (AssignWave _ _ _). cbn. by rewrite IH.
  - cbn. by rewrite IH.
Qed.
Lemma place_from_count wave hosts r aside : 0 ≤ r → 0 ≤ wave →
  wave_count wave (place_from hosts canarySize waveSize r aside)
  = 0 `max` ((wave_start wave + wave_size wave) `min` (r + ready_count hosts) - wave_start wave `max` r).
Proof.
  unfold wave_count, ready_count. revert r aside. induction hosts as [|h hosts IH]; intros r aside Hr Hw; [unfold len; cbn; lia|].
  rewrite len_filter_cons. cbn [place_from]. unfold ready at 1. pose proof (AssignWave_wave r wave Hr Hw) as HA.
  assert (Hn : 0 ≤ len (filter (λ h, ready h = true) hosts)) by (unfold len; lia).
  assert (Hz : 0 ≤ wave_size wave) by (unfold wave_size; case_bool_decide; lia).
  case_bool_decide as Hs; cbn [b1].
  - destruct (AssignWave r canarySize waveSize) as [k p]. cbn in HA. rewrite len_filter_cons, IH by lia. unfold in_wave. cbn.
    rewrite (bool_decide_true (default TargetPending (th_State h) = TargetPending)) by done. cbn. case_bool_decide as Hk; cbn [b1].
    all: lia.
  - rewrite len_filter_cons, IH by lia. unfold in_wave. cbn. rewrite (bool_decide_false (default TargetPending (th_State h) = TargetPending)) by done.
    cbn. lia.
Qed.

(** What is placed from an index on stands at that index or after it. *)
Definition place (p : targetPlacement) : Z * Z := (pl_Wave p, pl_Position p).
Lemma place_from_later hosts r aside p : p ∈ place_from hosts canarySize waveSize r aside →
  (∃ i, r ≤ i ∧ place p = AssignWave i canarySize waveSize) ∨ (∃ a, aside ≤ a ∧ place p = (WaveNone, a)).
Proof.
  revert r aside. induction hosts as [|h hosts IH]; intros r aside Hin; [by apply elem_of_nil in Hin|]. cbn in Hin. case_bool_decide.
  - destruct (AssignWave r canarySize waveSize) as [k q] eqn:E. apply elem_of_cons in Hin as [->|Hin]; [left; exists r; split; [lia|by rewrite E]|].
    destruct (IH _ _ Hin) as [(i & ? & ?)|?]; [left; exists i; split; [lia|done]|by right].
  - apply elem_of_cons in Hin as [->|Hin]; [right; exists aside; split; [lia|done]|].
    destruct (IH _ _ Hin) as [?|(a & ? & ?)]; [by left|right; exists a; split; [lia|done]].
Qed.
Lemma AssignWave_placed i : 0 ≤ i → (AssignWave i canarySize waveSize).1 ≠ WaveNone.
Proof. intros Hi. pose proof (AssignWave_spec i Hi). destruct (AssignWave _ _ _). cbn. unfold WaveNone. lia. Qed.
Lemma place_from_NoDup hosts r aside : 0 ≤ r → NoDup (place <$> place_from hosts canarySize waveSize r aside).
Proof.
  revert r aside. induction hosts as [|h hosts IH]; intros r aside Hr; [constructor|]. cbn [place_from]. case_bool_decide.
  - destruct (AssignWave r canarySize waveSize) as [k q] eqn:E. cbn. constructor; [|apply IH; lia].
    intros (p & Ep & Hin)%list_elem_of_fmap. assert (Ep' : (k, q) = place p) by exact Ep. destruct (place_from_later _ _ _ _ Hin) as [(i & Hi & Ei)|(a & _ & Ea)].
    + assert (r = i) by (apply AssignWave_inj; [lia|lia|congruence]). lia.
    + apply (AssignWave_placed r Hr). rewrite E. cbn. congruence.
  - cbn. constructor; [|by apply IH]. intros (p & Ep & Hin)%list_elem_of_fmap. assert (Ep' : (WaveNone, aside) = place p) by exact Ep.
    destruct (place_from_later _ _ _ _ Hin) as [(i & Hi & Ei)|(a & Ha & Ea)].
    + apply (AssignWave_placed i); [lia|]. by rewrite <- Ei, <- Ep'.
    + assert (aside = a) by congruence. lia.
Qed.
End waves.

Lemma Spec_Validate_sizes s : Spec_Validate s = true → 0 ≤ sp_CanarySize s ∧ 0 < sp_WaveSize s ∧ 0 < sp_MaxConcurrent s.
Proof.
  unfold Spec_Validate. rewrite !andb_true_iff. intros H. destruct H as [[[[[[[[[[[_ H1] H2] H3] _] _] _] _] _] _] _] _].
  by apply bool_decide_eq_true in H1, H2, H3.
Qed.
Lemma place_from_states hosts canarySize waveSize r aside p : p ∈ place_from hosts canarySize waveSize r aside →
  pl_State p = default TargetPending (th_State (pl_Host p)) ∧ (pl_State p ≠ TargetPending → pl_Wave p = WaveNone).
Proof.
  revert r aside. induction hosts as [|h hosts IH]; intros r aside Hin; [by apply elem_of_nil in Hin|]. cbn in Hin. case_bool_decide.
  - destruct (AssignWave _ _ _). apply elem_of_cons in Hin as [->|Hin]; [done|eauto].
  - apply elem_of_cons in Hin as [->|Hin]; [done|eauto].
Qed.

(** C19: An order that passes its check places every host once, at a place of
    its own: the hosts that may run fill the canary and then wave after wave,
    each to its size before the next one begins, and the others stand beside the
    waves in the state they were given. *)
Theorem an_order_fills_its_waves s hosts : Spec_Validate s = true →
  let ps := placeTargets hosts (sp_CanarySize s) (sp_WaveSize s) in
  pl_Host <$> ps = hosts ∧ NoDup (place <$> ps)
  ∧ (∀ p, p ∈ ps → pl_State p = default TargetPending (th_State (pl_Host p)) ∧ (pl_State p ≠ TargetPending → pl_Wave p = WaveNone))
  ∧ wave_count 0 ps = sp_CanarySize s `min` ready_count hosts
  ∧ ∀ wave, 0 < wave → wave_count wave ps = 0 `max` (sp_WaveSize s `min` (ready_count hosts - sp_CanarySize s - (wave - 1) * sp_WaveSize s)).
Proof.
  intros Hv. destruct (Spec_Validate_sizes s Hv) as (Hc & Hw & _). cbv zeta. unfold placeTargets.
  assert (Hn : 0 ≤ ready_count hosts) by (unfold ready_count, len; lia).
  split_and!; [apply place_from_hosts|by apply place_from_NoDup|intros p; apply place_from_states| |].
  - rewrite place_from_count by lia. unfold wave_start, wave_size. rewrite !bool_decide_true by done. lia.
  - intros wave Hwv. rewrite place_from_count by lia. unfold wave_start, wave_size. rewrite !bool_decide_false by lia. nia.
Qed.

(** ** What the threshold counts *)

Lemma tally_Failed_from counts ts :
  tally_Failed (fold_left tally_one ts counts)
  = tally_Failed counts + len (filter (λ t, Participates t && bool_decide (t_State t ∈ [TargetFailed; TargetUnknown]) = true) ts).
Proof.
  revert counts. induction ts as [|t ts IH]; intros counts; [cbn; unfold len; cbn; lia|]. cbn [fold_left]. rewrite IH, len_filter_cons.
  unfold tally_one. destruct (Participates t); cbn -[len]; [|lia].
  destruct (t_State t); cbn -[len]; repeat case_bool_decide; cbn -[len]; first [lia|set_solver|idtac].
Qed.
Lemma tally_Failed_count ts :
  tally_Failed (tallyTargets ts) = len (filter (λ t, Participates t && bool_decide (t_State t ∈ [TargetFailed; TargetUnknown]) = true) ts).
Proof. unfold tallyTargets. rewrite tally_Failed_from. cbn. lia. Qed.

(** ** The threshold *)

(** The state a campaign is left in is the one it had, or one of those. *)
Definition left_in (id : string) (states : list State) (d d' : CDB) : Prop := ∀ row, campaigns d !! id = Some row →
  ∃ row', campaigns d' !! id = Some row' ∧ (c_State row' = c_State row ∨ c_State row' ∈ states).

Lemma left_in_refl id states d : left_in id states d d.
Proof. intros row Hr. eauto. Qed.
Lemma left_in_hosts {RT} id states d d1 d' : evolves RT eq d d1 → left_in id states d1 d' → left_in id states d d'.
Proof. intros Hev Hl row Hr. apply Hl. pose proof (ev_campaigns _ _ _ _ Hev id) as Ho. rewrite Hr in Ho. by inversion Ho; subst. Qed.

(** [SetState] with nobody in between. *)
Lemma SetState_from_alone tries id c state reason d : left_in id [state] d (SetState_from tries [] id c state reason d).2.
Proof.
  revert c d. induction tries as [|tries IH]; intros c d row Hr; cbn [SetState_from]; [eauto|].
  destruct (negb (mayBecome _ _)); [eauto|]. match goal with |- context [(modify ?f ≫= ?k) d] => change ((modify f ≫= k) d) with (k tt d) end.
  cbv beta. unfold try_state. rewrite bindE, (bind_Ok _ _ _ _ _ (gets_run _ _)), (bind_Ok _ _ _ _ _ (gets_run _ _)), Hr.
  destruct (_ && _).
  - cbn. eexists. split; [apply lookup_insert_eq|]. right. apply list_elem_of_singleton. by destruct row.
  - cbn. unfold read_again. rewrite bindE, (bind_Ok _ _ _ _ _ (gets_run _ _)), Hr.
    destruct (negb _ && _); [cbn; eauto|]. destruct (bool_decide (c_State row = c_State c)); cbn; [|eauto]. by apply IH.
Qed.

Section threshold.
Context `{MapOrder} {RJ : ResultJson} {OR : Orders}.
Context (PlanSetFingerprint : list (string * string) → string) (FingerprintWithPlans : string → string → string).
Context (mapping : option (string → option string)).
Context (w : world) (campaignID : string) (Hothers : w_others w = []).

Lemma move_alone c state reason d : left_in campaignID [state] d (move w campaignID c state reason d).2.
Proof.
  intros row Hr. destruct (SetState_from_alone 3 campaignID c state reason d row Hr) as (row' & Hr' & Hs). unfold move, SetState. rewrite Hothers, bindE.
  destruct (SetState_from _ _ _ _ _ _ d) as [[]]; eauto.
Qed.

(** The hosts a stop rule counts as failed. *)
Definition failed (it : string * Target) : Prop :=
  t_CampaignID it.2 = campaignID ∧ Participates it.2 && bool_decide (t_State it.2 ∈ [TargetFailed; TargetUnknown]) = true.
#[export] Instance failed_dec it : Decision (failed it). Proof. apply _. Defined.
Definition failed_hosts (d : CDB) : gset string := dom (filter failed (targets d)).
Definition failed_count (d : CDB) : Z := Z.of_nat (size (failed_hosts d)).

Lemma elem_of_failed d id : id ∈ failed_hosts d ↔ ∃ t, targets d !! id = Some t ∧ failed (id, t).
Proof. unfold failed_hosts. rewrite elem_of_dom. unfold is_Some. setoid_rewrite map_lookup_filter_Some. done. Qed.
Lemma failed_forward d d' : forward d d' → failed_count d ≤ failed_count d'.
Proof.
  intros Hf. unfold failed_count. assert (failed_hosts d ⊆ failed_hosts d') as Hs%subseteq_size; [|lia].
  intros id. rewrite !elem_of_failed. intros (t & Ht & Hc & Hp). destruct (evolves_on _ _ _ _ Hf Ht) as (t' & Ht' & F). exists t'. split; [done|].
  apply andb_true_iff in Hp as [Hp Hs]. unfold failed, Participates in *. cbn in *. rewrite (tf_campaign _ _ F), (tf_wave _ _ F).
  assert (E : t_State t' = t_State t).
  { apply (Finished_final _ _ F). apply bool_decide_eq_true in Hs. by repeat (apply elem_of_cons in Hs as [->|Hs]; [done|]); apply elem_of_nil in Hs. }
  by rewrite E, Hs, Hp.
Qed.
Lemma failed_tally ts d : reads campaignID ts d → failed_count d ≤ tally_Failed (tallyTargets (snd <$> ts)).
Proof.
  intros Hrd. rewrite tally_Failed_count. apply listed_size; [apply (rd_once _ _ _ Hrd)|].
  intros id (row & Hr & Hc & Hp)%elem_of_failed. destruct (reads_row _ _ _ _ _ Hrd Hr Hc) as (t & Hin & Ha).
  exists t. split; [done|]. unfold Participates in *. cbn in *. by rewrite <- (ag_state _ _ Ha), <- (ag_wave _ _ Ha).
Qed.

(** Once the failures reach the threshold, a pass only pauses. *)
Definition over_threshold (c : Campaign) (d : CDB) : Prop :=
  0 < c_FailureThresholdAbsolute c ∧ c_FailureThresholdAbsolute c ≤ failed_count d.

Lemma over_stops c before ts d : over_threshold c d → reads campaignID ts d → ∃ why, decide_stop c before ts = Some why ∧ why ≠ Complete.
Proof.
  intros [Hpos Hle] Hrd. pose proof (failed_tally ts d Hrd) as Ht. unfold decide_stop. cbv zeta. destruct (window_closed _ _); [by eexists|].
  unfold ThresholdExceeded. rewrite (bool_decide_true (0 < _)), (bool_decide_true (_ ≤ _)) by lia. cbn. by eexists.
Qed.
Lemma pause_alone c ts reason d : left_in campaignID [StatePausing; StatePaused] d (pause w campaignID c ts reason d).2.
Proof.
  intros row Hr. unfold pause, SetState. rewrite Hothers, bindE.
  destruct (SetState_from_alone 3 campaignID c (pauseState (snd <$> ts)) reason d row Hr) as (row' & Hr' & Hs).
  assert (Hp : pauseState (snd <$> ts) ∈ [StatePausing; StatePaused]) by (unfold pauseState; destruct (cancelSettled _); [by right; left|by left]).
  destruct (SetState_from _ _ _ _ _ _ d) as [[]]; exists row'; (split; [done|]);
    (destruct Hs as [?|Hs]; [by left|right]; apply list_elem_of_singleton in Hs; by rewrite Hs).
Qed.

Lemma calm_others_nil : calm_others (w_others w).
Proof. rewrite Hothers. constructor. Qed.
Lemma run_campaign_over c runner before d : known campaignID c d → reads campaignID before d → over_threshold c d →
  let d' := (run_campaign w campaignID c runner before d).2 in calm d d' ∧ left_in campaignID [StatePausing; StatePaused] d d'.
Proof.
  cbv zeta. intros Hk Hrd [Hpos Hle]. unfold run_campaign. pose proof (holdCapacity_run w before d) as Hh.
  rewrite bindE. destruct (holdCapacity w before d) as [[mayLaunch|e] d0]; cbn in Hh; subst d0; [|split; [apply reflexivity|apply left_in_refl]].
  destruct (each_target_run (progressTarget w campaignID c) (keeps_progressTarget w campaignID c) (follows_progressTarget w campaignID c)
    before d (rd_once _ _ _ Hrd) (rd_synced _ _ _ Hrd)) as (settled & dm & E & Hl).
  rewrite bindE, E. pose proof (reads_looped _ _ _ _ _ Hrd Hl) as Hrm. destruct Hl as (_ & _ & Hcm & _).
  pose proof (calm_hosts_calm _ _ Hcm) as Hcm'. pose proof (known_evolves _ _ _ _ _ Hcm' Hk) as Hkm.
  pose proof (failed_forward _ _ (calm_forward _ _ Hcm')) as Hfm.
  destruct (over_stops c before settled dm) as (why & Hwhy & Hne); [split; lia|done|]. rewrite Hwhy.
  assert (Hp : ∀ reason, calm d (pause w campaignID c settled reason dm).2 ∧ left_in campaignID [StatePausing; StatePaused] d (pause w campaignID c settled reason dm).2).
  { intros reason. split; [etrans; [done|]; apply (calmly_pause w campaignID calm_others_nil), Hkm|].
    eapply left_in_hosts; [exact Hcm|apply pause_alone]. }
  destruct why; [apply Hp..|done].
Qed.
Lemma settle_alone c ts d : known campaignID c d →
  let d' := (settle w campaignID c ts d).2 in calm d d' ∧ left_in campaignID [StatePausing; StatePaused] d d'.
Proof.
  cbv zeta. intros Hk. split; [by apply (calmly_settle w campaignID calm_others_nil)|]. unfold settle. pose proof (holdCapacity_run w ts d) as Hh.
  rewrite bindE. destruct (holdCapacity w ts d) as [[mayLaunch|e] d0]; cbn in Hh; subst d0; [|apply left_in_refl].
  pose proof (keeps_each_target each_calm eq (progressTarget w campaignID c) ts (λ id t, keeps_at id _ (keeps_progressTarget w campaignID c id t)) d) as Hc.
  rewrite bindE. destruct (each_target _ ts d) as [[ts'|e] dm]; cbn in Hc; [|eapply left_in_hosts; [exact Hc|apply left_in_refl]].
  eapply left_in_hosts; [exact Hc|]. destruct (_ && _); [|apply left_in_refl]. intros row Hr.
  destruct (move_alone c StatePaused (default "" (c_PauseReason c)) dm row Hr) as (row' & Hr' & Hs). exists row'. split; [done|].
  destruct Hs as [?|Hs]; [by left|right]. apply list_elem_of_singleton in Hs. rewrite Hs. by right; left.
Qed.

(** C18: Once as many hosts failed or went unknown as the order tolerates, a
    started campaign starts no further host and does not end by itself either,
    however often an operator resumes it and even when every host is settled:
    every pass leaves it where it stands, pausing or paused. *)
Theorem over_the_threshold_nothing_starts_or_ends locked runner d row :
  campaigns d !! campaignID = Some row → c_StartedAt row ≠ None →
  c_State row ∈ [StatePlanned; StateCanary; StateManualGate; StateRunning; StatePausing; StatePaused] →
  0 < c_FailureThresholdAbsolute row ≤ failed_count d →
  let d' := (tick_one PlanSetFingerprint FingerprintWithPlans mapping w campaignID locked runner d).2 in
  (∀ id t', targets d' !! id = Some t' → UnderWay (t_State t') = true → ∃ t, targets d !! id = Some t ∧ UnderWay (t_State t) = true)
  ∧ ∃ row', campaigns d' !! campaignID = Some row' ∧ (c_State row' = c_State row ∨ c_State row' ∈ [StatePausing; StatePaused]).
Proof.
  intros Hrow Hst Hs Hover. cbv zeta.
  assert (Hgoal : ∀ d', calm d d' ∧ left_in campaignID [StatePausing; StatePaused] d d' →
    (∀ id t', targets d' !! id = Some t' → UnderWay (t_State t') = true → ∃ t, targets d !! id = Some t ∧ UnderWay (t_State t) = true)
    ∧ ∃ row', campaigns d' !! campaignID = Some row' ∧ (c_State row' = c_State row ∨ c_State row' ∈ [StatePausing; StatePaused])).
  { intros d' [Hc Hl]. split; [|by apply Hl]. intros id t' Ht Hu. destruct (evolves_back _ _ _ _ Hc Ht) as (t & Ht0 & [_ Hcalm]). eauto. }
  apply Hgoal. destruct (tick_one_pass PlanSetFingerprint FingerprintWithPlans mapping w campaignID locked runner d)
    as [[Hc Hk]|(r & token & d0 & Hr & _ & Hc & Hk & Hkn & ->)].
  { split; [done|]. intros r Hr. destruct (Hk r Hr) as (r' & ? & ?). eauto. }
  rewrite Hrow in Hr. injection Hr as <-. set (c := taken row token runner) in *.
  assert (Hrun : let d' := (advance PlanSetFingerprint FingerprintWithPlans mapping w campaignID c runner d0).2 in
    calm d0 d' ∧ left_in campaignID [StatePausing; StatePaused] d0 d').
  { cbv zeta. unfold advance. cbv zeta. rewrite (bind_Ok _ _ _ _ _ (gets_run _ _)).
    change (c_State c) with (c_State row). change (c_StartedAt c) with (c_StartedAt row).
    rewrite (bool_decide_false (c_StartedAt row = None)), andb_false_r, orb_false_r by done.
    assert (Hover0 : over_threshold c d0).
    { pose proof (failed_forward _ _ (calm_forward _ _ Hc)). unfold over_threshold. change (c_FailureThresholdAbsolute c) with (c_FailureThresholdAbsolute row). lia. }
    repeat (apply elem_of_cons in Hs as [Es|Hs]; [rewrite Es; cbn [bool_decide]; rewrite bool_decide_false by done; cbn [andb]; rewrite (bind_Ok _ _ _ _ _ (gets_run _ _));
      first [apply run_campaign_over; [done|apply reads_Targets|done]|by apply settle_alone]|]).
    by apply elem_of_nil in Hs. }
  destruct Hrun as [Hc1 Hl1]. split; [by etrans|]. intros r Hr. destruct (Hk r Hr) as (r1 & Hr1 & E1).
  destruct (Hl1 r1 Hr1) as (r' & Hr' & Hs'). exists r'. split; [done|]. by rewrite <- E1.
Qed.
End threshold.

(** ** An operator ends a campaign *)

(** ** Bulk updates *)

Lemma update_targets_lookup P f (d : CDB) i : targets (update_targets P f d).2 !! i = (λ t, if P i t then f t else t) <$> targets d !! i.
Proof. destruct d as [j c tg st p]. cbn. rewrite map_lookup_imap. by destruct (tg !! i). Qed.
Lemma update_targets_campaigns P f (d : CDB) : campaigns (update_targets P f d).2 = campaigns d.
Proof. by destruct d. Qed.
Lemma update_targets_run P f (d : CDB) : update_targets P f d = (Ok tt, (update_targets P f d).2).
Proof. done. Qed.

Lemma in_flight_spec d id : in_flight d id = true ↔ ∃ i t, targets d !! i = Some t ∧ t_CampaignID t = id ∧ UnderWay (t_State t) = true.
Proof.
  unfold in_flight, targets_of. rewrite existsb_exists. split.
  - intros ([i t] & Hin%list_elem_of_In & Hs). apply list_elem_of_filter in Hin as [Hc Hin]. apply elem_of_map_to_list in Hin.
    apply bool_decide_eq_true, InFlight_spec in Hs. eauto.
  - intros (i & t & Ht & Hc & Hu). exists (i, t). split; [|by apply bool_decide_eq_true, InFlight_spec].
    apply list_elem_of_In, list_elem_of_filter. split; [done|]. by apply elem_of_map_to_list.
Qed.

(** ** Cancel *)

Lemma canceled_not_taken : bool_decide (TargetCanceled ∈ [TargetDispatched; TargetAwaitingLock; TargetRunning]) = false.
Proof. by vm_compute. Qed.
Lemma canceled_not_in_flight : bool_decide (TargetCanceled ∈ InFlightTargetStates) = false.
Proof. by vm_compute. Qed.

(** What a cancel makes of a host of the campaign. *)
Definition cancel_target (now : time) (id : string) (takenBack : list string) (t : Target) : Target :=
  let mine t := bool_decide (t_CampaignID t = id) in
  let t := if mine t && bool_decide (t_State t ∈ UnstartedTargetStates) then cancel_waiting now t else t in
  let t := if mine t && match t_JobID t with Some job => bool_decide (job ∈ takenBack) | None => false end
              && bool_decide (t_State t ∈ [TargetDispatched; TargetAwaitingLock; TargetRunning]) then cancel_taken_back now t else t in
  if mine t && bool_decide (t_State t ∈ InFlightTargetStates)
  then { { t with t_CancelRequestedAt := coalesce (t_CancelRequestedAt t) (Some now) } with t_Revision := t_Revision t + 1 } else t.

Definition request_cancel (now : time) (t : Target) : Target :=
  { { t with t_CancelRequestedAt := coalesce (t_CancelRequestedAt t) (Some now) } with t_Revision := t_Revision t + 1 }.
Lemma cancel_waiting_fields now t : t_State (cancel_waiting now t) = TargetCanceled ∧ t_CampaignID (cancel_waiting now t) = t_CampaignID t.
Proof. by destruct t. Qed.
Lemma cancel_taken_back_fields now t :
  t_State (cancel_taken_back now t) = TargetCanceled ∧ t_CampaignID (cancel_taken_back now t) = t_CampaignID t.
Proof. by destruct t. Qed.
Lemma request_cancel_fields now t : t_State (request_cancel now t) = t_State t ∧ t_CampaignID (request_cancel now t) = t_CampaignID t
  ∧ t_CancelRequestedAt (request_cancel now t) ≠ None.
Proof. destruct t as [? ? ? ? ? ? ? ? ? ? ? ? ? ? ? ? ? ? ? []]; by split_and!. Qed.

(** The three updates of a cancel, one host at a time. *)
Lemma cancel_target_cases now id takenBack t : t_CampaignID t = id →
  (t_State t ∈ UnstartedTargetStates ∧ cancel_target now id takenBack t = cancel_waiting now t)
  ∨ (UnderWay (t_State t) = true ∧ cancel_target now id takenBack t = cancel_taken_back now t)
  ∨ (UnderWay (t_State t) = true ∧ cancel_target now id takenBack t = request_cancel now t)
  ∨ (Finished (t_State t) = true ∧ cancel_target now id takenBack t = t).
Proof.
  intros Hid. unfold cancel_target. cbv zeta. rewrite (bool_decide_true (t_CampaignID t = id)) by done. cbn [andb].
  destruct (cancel_waiting_fields now t) as [W1 W2]. destruct (cancel_taken_back_fields now t) as [B1 B2].
  destruct (decide (t_State t ∈ UnstartedTargetStates)) as [Hs|Hs].
  { left. split; [done|]. rewrite (bool_decide_true _ Hs), W1, canceled_not_taken, andb_false_r, W1, canceled_not_in_flight, andb_false_r. done. }
  rewrite (bool_decide_false _ Hs), (bool_decide_true (t_CampaignID t = id)) by done. cbn [andb].
  destruct (match t_JobID t with Some job => bool_decide (job ∈ takenBack) | None => false end
    && bool_decide (t_State t ∈ [TargetDispatched; TargetAwaitingLock; TargetRunning])) eqn:Hb.
  { right; left. apply andb_true_iff in Hb as [_ Hb]. apply bool_decide_eq_true in Hb. split.
    - repeat (apply elem_of_cons in Hb as [->|Hb]; [done|]). by apply elem_of_nil in Hb.
    - by rewrite B1, canceled_not_in_flight, andb_false_r. }
  rewrite (bool_decide_true (t_CampaignID t = id)) by done. cbn [andb]. right; right.
  destruct (UnderWay (t_State t)) eqn:Hu; [left|right].
  - split; [done|]. by rewrite bool_decide_true by (by apply InFlight_spec).
  - split; [by destruct (t_State t); try done; destruct Hs; repeat first [by left|right]|].
    rewrite bool_decide_false; [done|]. rewrite InFlight_spec. by rewrite Hu.
Qed.

Lemma cancel_target_mine now id takenBack t : t_CampaignID (cancel_target now id takenBack t) = id → t_CampaignID t = id.
Proof.
  intros H. destruct (decide (t_CampaignID t = id)) as [|Hne]; [done|]. revert H. unfold cancel_target. cbv zeta.
  by rewrite !(bool_decide_false (t_CampaignID t = id)).
Qed.
Lemma cancel_target_left now id takenBack t (t' := cancel_target now id takenBack t) : t_CampaignID t' = id →
  (t_State t' ∉ UnstartedTargetStates)
  ∧ (UnderWay (t_State t') = true → t_State t' = t_State t ∧ t_CancelRequestedAt t' ≠ None)
  ∧ (UnderWay (t_State t') = false → t_State t' = TargetCanceled ∨ t' = t).
Proof.
  intros Hid0. pose proof (cancel_target_mine _ _ _ _ Hid0) as Hid. clear Hid0. subst t'.
  assert (Hopen : ∀ s, UnderWay s = true ∨ Finished s = true → s ∉ UnstartedTargetStates).
  { intros s Hs Hin. pose proof (Unstarted_not_UnderWay s Hin). assert (Finished s = false) by (apply Unstarted_or_UnderWay; by left).
    destruct Hs; congruence. }
  destruct (cancel_target_cases now id takenBack t Hid) as [[Hs ->]|[[Hs ->]|[[Hs ->]|[Hs ->]]]].
  - destruct (cancel_waiting_fields now t) as [-> _]. split_and!; [by apply Hopen; right|done|by left].
  - destruct (cancel_taken_back_fields now t) as [-> _]. split_and!; [by apply Hopen; right|done|by left].
  - destruct (request_cancel_fields now t) as (-> & _ & ?). split_and!; [by apply Hopen; left|done|congruence].
  - split_and!; [by apply Hopen; right| |by right]. intros Hu. by destruct (t_State t).
Qed.

Section cancel.
Context `{MapOrder}.

Lemma on_jobs_tables {A} (m : Jobs.T A) d a d' : on_jobs m d = (Ok a, d') → targets d' = targets d ∧ campaigns d' = campaigns d.
Proof. unfold on_jobs. destruct (m (job_tables d)) as [[x|e] j]; [|done]. intros [= _ <-]. by destruct d. Qed.

Lemma Cancel_run id actor reason d d' : Cancel id actor reason d = (Ok tt, d') → ∃ c takenBack now row,
  campaigns d !! id = Some c ∧ Terminal (c_State c) = false ∧ c_State c ≠ StateCanceling
  ∧ (∀ i, targets d' !! i = cancel_target now id takenBack <$> targets d !! i)
  ∧ campaigns d' = <[id := row]> (campaigns d) ∧ c_State row = (if in_flight d' id then StateCanceling else StateCanceled)
  ∧ campaign_forward c row.
Proof.
  unfold Cancel, in_ctx. rewrite !(bind_Ok _ _ _ _ _ (gets_run _ _)).
  destruct (campaigns d !! id) as [c|] eqn:Hc; [|done]. destruct (Terminal (c_State c) || bool_decide (c_State c = StateCanceling)) eqn:Hs; [done|].
  apply orb_false_iff in Hs as [Hterm Hcan]. apply bool_decide_eq_false in Hcan. cbv zeta.
  rewrite (bind_Ok _ _ _ _ _ (update_targets_run _ _ _)), (bind_Ok _ _ _ _ _ (gets_run _ _)).
  set (d1 := (update_targets _ _ d).2). rewrite bindE. destruct (on_jobs _ d1) as [[takenBack|e] d2] eqn:H2; [|done].
  rewrite bindE. destruct (on_jobs _ d2) as [[requested|e] d3] eqn:H3; [|done].
  rewrite (bind_Ok _ _ _ _ _ (update_targets_run _ _ _)), (bind_Ok _ _ _ _ _ (update_targets_run _ _ _)).
  set (d4 := (update_targets _ _ d3).2). set (d5 := (update_targets _ _ d4).2).
  apply on_jobs_tables in H2 as [T2 C2]. apply on_jobs_tables in H3 as [T3 C3].
  assert (Ht : ∀ i, targets d5 !! i = cancel_target (clock d) id takenBack <$> targets d !! i).
  { intros i. unfold d5. rewrite update_targets_lookup. unfold d4. rewrite update_targets_lookup, T3, T2. unfold d1. rewrite update_targets_lookup.
    by destruct (targets d !! i). }
  assert (Hcs : campaigns d5 = campaigns d) by (unfold d5, d4; by rewrite !update_targets_campaigns, C3, C2; unfold d1; rewrite update_targets_campaigns).
  clearbody d5. unfold gets, modify, set_campaign, mbind, M_bind. cbv beta iota. intros E.
  set (d6 := { d5 with steps ::= _ }) in E. set (d7 := { d6 with steps ::= _ }) in E.
  assert (T7 : targets d7 = targets d5) by by destruct d5. assert (C7 : campaigns d7 = campaigns d5) by by destruct d5.
  clearbody d7. destruct d7 as [j7 c7 t7 s7 p7]. cbn in T7, C7. subst t7 c7. injection E as <-. eexists c, takenBack, (clock d), _.
  split; [done|]. split; [done|]. split; [done|]. split; [exact Ht|]. split; [by cbn; rewrite Hcs|]. split; [by destruct c|].
  destruct c as []; cbn in *. split; cbn; try done; try lia. apply rtc_once. right. right; right; right; right; right.
  split_and!; [done..|]. destruct (in_flight _ _); [by left|by right; left].
Qed.

(** C17: A canceled campaign starts nothing more. After a cancel no host of the
    campaign waits for its turn, its plan or its connection; a host still at
    work was at work before and carries the request to stop; the others are as
    they were, or canceled; and the campaign is canceled when nobody is at work
    any more, and waits in canceling while somebody is. *)
Theorem a_cancel_leaves_nothing_to_start id actor reason d d' : Cancel id actor reason d = (Ok tt, d') →
  (∀ i t', targets d' !! i = Some t' → t_CampaignID t' = id → ∃ t, targets d !! i = Some t
     ∧ (t_State t' ∉ UnstartedTargetStates)
     ∧ (UnderWay (t_State t') = true → t_State t' = t_State t ∧ t_CancelRequestedAt t' ≠ None)
     ∧ (UnderWay (t_State t') = false → t_State t' = TargetCanceled ∨ t' = t))
  ∧ ∃ row, campaigns d' !! id = Some row
     ∧ ((∃ i t', targets d' !! i = Some t' ∧ t_CampaignID t' = id ∧ UnderWay (t_State t') = true) ∧ c_State row = StateCanceling
        ∨ (∀ i t', targets d' !! i = Some t' → t_CampaignID t' = id → UnderWay (t_State t') = false) ∧ c_State row = StateCanceled).
Proof.
  intros (c & takenBack & now & row & Hc & Hterm & Hcan & Ht & Hcs & Hst & _)%Cancel_run. split.
  - intros i t' Hi Hid. rewrite Ht in Hi. destruct (targets d !! i) as [t|]; [|done]. exists t. split; [done|].
    cbn in Hi. apply (inj Some) in Hi as <-. by apply cancel_target_left.
  - exists row. rewrite Hcs, lookup_insert_eq. split; [done|]. destruct (in_flight d' id) eqn:Hf.
    + left. split; [by apply in_flight_spec|done].
    + right. split; [|done]. intros i t' Hi Hid. destruct (UnderWay (t_State t')) eqn:Hu; [|done].
      assert (in_flight d' id = true) by (apply in_flight_spec; eauto). congruence.
Qed.
End cancel.
