(* ===== verification/CampaignProps.v ===== *)
(** * CampaignProps: what a pass over a campaign promises *)
From coqutil Require Import Datatypes.RecordSetters.
From S2P Require Import Prelude Bytes Text Actions ActionTables Registry AuthzTables Authz JobState Jobs CampaignStates Campaigns.
From S2P Require Import CampaignStore CampaignPass CampaignAdvance CampaignSteps CampaignMemory CampaignRuns CampaignRollout CampaignTicks.

Import OCamlLikeNotations.
Open Scope Z_scope.
Open Scope list_scope.

(** ** A runner whose lease went to another

    What the runner that lost a campaign holds in memory is behind the rows from
    then on, so none of its writes matches. *)

Section fence.
Context `{MapOrder}.

(** ** Behind the rows *)

Lemma evolves_on_campaign {RT RC} d d' id c : evolves RT RC d d' → campaigns d !! id = Some c → ∃ c', campaigns d' !! id = Some c' ∧ RC c c'.
Proof. intros Hev Hc. pose proof (ev_campaigns _ _ _ _ Hev id) as Ho. rewrite Hc in Ho. inversion Ho; subst. eauto. Qed.

Lemma behind_host i t d row : targets d !! i = Some row → t_Revision t < t_Revision row →
  (∀ state code, ∃ e, updateTarget i t state code d = (Err e, d)) ∧ (∀ state blocker, ∃ e, FollowTask i t state blocker d = (Err e, d))
  ∧ (∀ column job, attachJob i t column job d = (Err ErrConcurrentTransition, d))
  ∧ (∀ boot, setBootIDBefore i t boot d = (Err ErrConcurrentTransition, d)).
Proof.
  intros Hr Hlt.
  assert (Hm : matched_row d i t = None).
  { unfold matched_row, same_row. rewrite Hr. cbn [mbind option_bind]. by rewrite bool_decide_false by lia. }
  assert (Hc : claimed_row d i t = None).
  { unfold claimed_row. rewrite Hr. cbn [mbind option_bind]. by rewrite bool_decide_false by lia. }
  split_and!.
  - intros state code. unfold updateTarget. destruct (negb _); [by eexists|]. rewrite !(bind_Ok _ _ _ _ _ (gets_run _ _)), Hm. by eexists.
  - intros state blocker. unfold FollowTask. destruct (negb _); [by eexists|]. rewrite !(bind_Ok _ _ _ _ _ (gets_run _ _)), Hm. by eexists.
  - intros column job. unfold attachJob. by rewrite (bind_Ok _ _ _ _ _ (gets_run _ _)), Hc.
  - intros boot. unfold setBootIDBefore. by rewrite (bind_Ok _ _ _ _ _ (gets_run _ _)), Hc.
Qed.
Lemma behind_campaign id c d row : campaigns d !! id = Some row → c_RunnerID c ≠ None → c_RunnerToken c < c_RunnerToken row →
  (∀ state reason, ∃ e, SetState [] id c state reason d = (Err e, d)) ∧ ∃ e, LockForLaunch id c d = (Err e, d).
Proof.
  intros Hr Hn Hlt. split.
  - intros state reason. unfold SetState. cbn [SetState_from]. destruct (negb (mayBecome _ _)); [by eexists|].
    match goal with |- context [(modify ?f ≫= ?k) d] => change ((modify f ≫= k) d) with (k tt d) end. cbv beta.
    unfold try_state. rewrite bindE, !(bind_Ok _ _ _ _ _ (gets_run _ _)), Hr.
    assert (Hl : lease_matches c row = false).
    { unfold lease_matches. destruct (c_RunnerID c); [|done]. rewrite (bool_decide_false (c_RunnerToken row = _)) by lia. by rewrite andb_false_r. }
    rewrite Hl, andb_false_r. cbn [mret M_ret]. unfold read_again. rewrite bindE, (bind_Ok _ _ _ _ _ (gets_run _ _)), Hr.
    rewrite (bool_decide_false (c_RunnerID c = None)), (bool_decide_false (c_RunnerToken row = _)) by first [done|lia]. rewrite orb_true_r. by eexists.
  - unfold LockForLaunch. rewrite (bind_Ok _ _ _ _ _ (gets_run _ _)), Hr. rewrite (bool_decide_false (c_RunnerToken row = _)) by lia.
    rewrite orb_true_r. by eexists.
Qed.

(** ** Taken over *)

Lemma ClaimRunner_other locked id runner runner' row d token d1 :
  campaigns d !! id = Some row → c_RunnerID row = Some runner → runner' ≠ runner → ClaimRunner locked id runner' d = (Ok (Some token), d1) →
  token = c_RunnerToken row + 1 ∧ targets d1 = targets d ∧ ∃ row1, campaigns d1 !! id = Some row1 ∧ c_RunnerToken row1 = token.
Proof.
  intros Hr Hid Hne. unfold ClaimRunner. rewrite !(bind_Ok _ _ _ _ _ (gets_run _ _)), Hr, Hid.
  rewrite !(bool_decide_false (Some runner = Some runner')) by congruence. cbn [andb]. destruct locked; [done|].
  destruct (_ || _); [|done]. cbv zeta. destruct d as [j cs tg st p]. cbn. intros [= <- <-]. split_and!; [done..|].
  eexists. split; [apply lookup_insert_eq|]. by destruct row.
Qed.
Lemma AdoptTargets_row id runner' d1 i row : targets d1 !! i = Some row → t_CampaignID row = id → Finished (t_State row) = false →
  t_ClaimedBy row ≠ Some runner' →
  ∃ row2, targets (AdoptTargets id runner' d1).2 !! i = Some row2 ∧ t_Revision row2 = t_Revision row + 1.
Proof.
  intros Hr Hid Hf Hcl. unfold AdoptTargets. rewrite (bind_Ok _ _ _ _ _ (gets_run _ _)). cbv zeta.
  match goal with |- context [update_targets ?P ?f ≫= ?k] => change ((update_targets P f ≫= k) d1) with (k tt (update_targets P f d1).2) end. cbv beta.
  unfold update_targets, modify. cbn [snd targets]. destruct d1 as [j cs tg st p]; cbn in *. rewrite !map_lookup_imap, Hr. cbn [mbind option_bind].
  rewrite (bool_decide_true (t_CampaignID row = id)), (bool_decide_false (t_ClaimedBy row = _)) by done.
  rewrite (bool_decide_true (t_State row ∈ OpenTargetStates)) by (by apply Open_spec). cbn [negb andb].
  eexists. split; [reflexivity|]. by destruct row, (_ && _).
Qed.

(** C16: A runner that lost its lease writes nothing more. Once another runner
    claimed the campaign and adopted its hosts, whatever happens then, what the
    first runner still holds of the campaign and of its open hosts matches no
    row: it can neither move them, nor follow their tasks, nor order a task, nor
    pass the lock of a launch. *)
Theorem a_runner_that_lost_its_lease_writes_nothing locked id runner runner' row c ts token d d1 d3 :
  campaigns d !! id = Some row → c_RunnerID row = Some runner → c_RunnerID c = Some runner → c_RunnerToken c = c_RunnerToken row →
  runner' ≠ runner → reads id ts d →
  (∀ i r, targets d !! i = Some r → t_CampaignID r = id → Finished (t_State r) = false → t_ClaimedBy r ≠ Some runner') →
  ClaimRunner locked id runner' d = (Ok (Some token), d1) → forward (AdoptTargets id runner' d1).2 d3 →
  (∀ state reason, ∃ e, SetState [] id c state reason d3 = (Err e, d3)) ∧ (∃ e, LockForLaunch id c d3 = (Err e, d3))
  ∧ ∀ i t, (i, t) ∈ ts → Finished (t_State t) = false →
      (∀ state code, ∃ e, updateTarget i t state code d3 = (Err e, d3)) ∧ (∀ state blocker, ∃ e, FollowTask i t state blocker d3 = (Err e, d3))
      ∧ (∀ column job, attachJob i t column job d3 = (Err ErrConcurrentTransition, d3))
      ∧ (∀ boot, setBootIDBefore i t boot d3 = (Err ErrConcurrentTransition, d3)).
Proof.
  intros Hrow Hrun Hcr Htok Hne Hrd Hcl Hclaim Hf.
  destruct (ClaimRunner_other locked id runner runner' row d token d1 Hrow Hrun Hne Hclaim) as (Et & Etg & row1 & Hr1 & Er1).
  assert (Hc : ∃ row3, campaigns d3 !! id = Some row3 ∧ c_RunnerToken c < c_RunnerToken row3).
  { destruct (evolves_on_campaign _ _ _ _ (AdoptTargets_hosts id runner' d1) Hr1) as (r2 & Hr2 & <-).
    destruct (evolves_on_campaign _ _ _ _ Hf Hr2) as (r3 & Hr3 & F3). exists r3. split; [done|]. pose proof (cf_token _ _ F3). lia. }
  destruct Hc as (row3 & Hr3 & Hlt). destruct (behind_campaign id c d3 row3 Hr3) as [HA HB]; [by rewrite Hcr|done|].
  split_and!; [done..|]. intros i t Hin Hopen.
  destruct (reads_elem _ _ _ _ _ Hrd Hin) as (r & Hr & Ha & Hid). rewrite <- Etg in Hr.
  assert (Hro : Finished (t_State r) = false) by by rewrite (ag_state _ _ Ha).
  destruct (AdoptTargets_row id runner' d1 i r Hr Hid Hro) as (r2 & Hr2 & E2); [rewrite Etg in Hr; by apply (Hcl i r)|].
  destruct (evolves_on _ _ _ _ Hf Hr2) as (r3 & Hr3' & F). apply (behind_host i t d3 r3 Hr3').
  pose proof (tf_revision _ _ F). pose proof (ag_revision _ _ Ha). lia.
Qed.
End fence.

Section props.
Context `{MapOrder} {RJ : ResultJson} {OR : Orders}.
Context (PlanSetFingerprint : list (string * string) → string) (FingerprintWithPlans : string → string → string).
Context (mapping : option (string → option string)).
Context (w : world) (campaignID : string).

Abbreviation tick := (tick_one PlanSetFingerprint FingerprintWithPlans mapping w campaignID).


(** Where a host that started stands. *)
Lemma its_place ts d1 d2 d' id t row2 t' : reads campaignID ts d1 → (id, t) ∈ ts → forward d1 d2 → targets d2 !! id = Some row2 →
  forward d2 d' → targets d' !! id = Some t' → t_HostID t' = t_HostID t ∧ t_Wave t' = t_Wave row2.
Proof.
  intros Hrd Hin Hf1 Hr2 Hf2 Ht'. destruct (reads_elem _ _ _ _ _ Hrd Hin) as (row & Hr & Ha & _).
  destruct (evolves_on _ _ _ _ Hf1 Hr) as (r & Hr' & F1). rewrite Hr2 in Hr'. injection Hr' as <-.
  destruct (evolves_on _ _ _ _ Hf2 Hr2) as (r & Hr' & F2). rewrite Ht' in Hr'. injection Hr' as <-.
  split; [|apply F2]. rewrite (tf_host _ _ F2), (tf_host _ _ F1). apply Ha.
Qed.
(** What choosing a wave says of the rows. *)
Lemma wave_chosen c d d1 wave ts : decided w campaignID c d d1 wave ts →
  (0 < wave → c_ManualGate c = true → c_GateAdvancedAt c ≠ None)
  ∧ ∀ i row, targets d1 !! i = Some row → t_CampaignID row = campaignID → 0 ≤ t_Wave row < wave → HoldsWave row = false.
Proof.
  intros [_ Hrd _ _ [phase Hd]]. apply decide_rollout_wave in Hd as (_ & Hgate & Hheld);
    [|rewrite <- list_fmap_compose; apply (rd_sorted _ _ _ Hrd)].
  split; [done|]. intros i row Hr Hc Hw. destruct (reads_row _ _ _ _ _ Hrd Hr Hc) as (t & Hin & Ha).
  assert (E : HoldsWave row = HoldsWave t) by (unfold HoldsWave; by rewrite (ag_state _ _ Ha), (ag_wave _ _ Ha)).
  rewrite E. apply Hheld; [apply list_elem_of_fmap; by exists (i, t)|]. by rewrite <- (ag_wave _ _ Ha).
Qed.
(** What a turn says of the campaign that the pass took over. *)
Lemma ready_for c c' id t host runner d : c_RunnerID c = Some runner → same_run c c' → ready w campaignID c' id t host d →
  (∃ row, campaigns d !! campaignID = Some row ∧ default "" (c_RunnerID row) = runner ∧ c_RunnerToken row = c_RunnerToken c
     ∧ Launching (c_State row) = true)
  ∧ w_host w (t_HostID t) = Some host ∧ h_Online host = true ∧ h_Maintenance host = false ∧ w_capacity w id = CapacityFree
  ∧ judgeRights (w_now w) (w_lookup w).1 (w_lookup w).2 (h_Scope host) [PermCampaignCreate; Registry.Permission (c_ActionType c)] = RightsHeld.
Proof.
  intros Hrun [(Ea & _) Hsr] [Hh Ho Hr Hm Hcap (row & Hrow & Hid & Htok & Hl)]. destruct Hsr as [Eid Etok]; [by rewrite Hrun|].
  split_and!; try done.
  - exists row. rewrite Hid, Eid, Hrun, Htok, Etok. done.
  - unfold creatorMayDispatch in Hr. by rewrite Ea in Hr.
Qed.


(** C13: A host starts only in its turn. When a pass finds a host waiting and
    leaves it at work, the pass ran the campaign under its own lease, inside the
    maintenance window; nothing it had settled until then stopped the campaign;
    no host of an earlier wave was still held when the wave was chosen, and the
    manual gate had been passed; and at its start the campaign was still
    launching under that lease, the host was connected and not in maintenance,
    its capacity was free and the author of the campaign still had the rights. *)
Theorem a_host_starts_in_its_turn locked runner d id t' : calm_others (w_others w) →
  let d' := (tick locked runner d).2 in
  targets d' !! id = Some t' → t_CampaignID t' = campaignID → UnderWay (t_State t') = true →
  (∀ t, targets d !! id = Some t → UnderWay (t_State t) = false) →
  ∃ c d0 d1 d2 host,
    (∃ row, campaigns d !! campaignID = Some row ∧ drives campaignID d row = true ∧ c_State c = c_State row) ∧ c_RunnerID c = Some runner
    ∧ calm d d0 ∧ calm d0 d1 ∧ forward d1 d2 ∧ forward d2 d'
    ∧ (∃ before settled dm, reads campaignID before d0 ∧ reads campaignID settled dm ∧ calm d0 dm ∧ calm dm d1
        ∧ decide_stop c before settled = None)
    ∧ WithinMaintenanceWindow (w_now w) (c_MaintenanceStart c) (c_MaintenanceEnd c) = true
    ∧ (∀ i row, targets d1 !! i = Some row → t_CampaignID row = campaignID → 0 ≤ t_Wave row < t_Wave t' → HoldsWave row = false)
    ∧ (0 < t_Wave t' → c_ManualGate c = true → c_GateAdvancedAt c ≠ None)
    ∧ (∃ row, campaigns d2 !! campaignID = Some row ∧ default "" (c_RunnerID row) = runner ∧ c_RunnerToken row = c_RunnerToken c
        ∧ Launching (c_State row) = true)
    ∧ w_host w (t_HostID t') = Some host ∧ h_Online host = true ∧ h_Maintenance host = false
    ∧ w_capacity w id = CapacityFree
    ∧ judgeRights (w_now w) (w_lookup w).1 (w_lookup w).2 (h_Scope host) [PermCampaignCreate; Registry.Permission (c_ActionType c)] = RightsHeld.
Proof.
  intros Ho. cbv zeta. intros Ht' Hcid Hu Hn.
  assert (Hin : id ∈ working campaignID (tick locked runner d).2) by (apply elem_of_working; eauto).
  assert (Hout : ∀ dx, calm d dx → id ∉ working campaignID dx).
  { intros dx Hc Hx. apply (calm_working campaignID d dx) in Hx; [|done]. apply elem_of_working in Hx as (t & Ht & _ & Hut).
    by rewrite (Hn t Ht) in Hut. }
  destruct (tick_one_run PlanSetFingerprint FingerprintWithPlans mapping w campaignID Ho locked runner d)
    as [Hc|(c & row & d0 & Hrow & Hdr & _ & Hrun & Hst & Hc & _ & [Hc'|(d1 & wave & ts & c' & Hdec & Hsr & Hroll)])];
    [by destruct (Hout _ Hc)|destruct (Hout (tick locked runner d).2); [by etrans|done]|].
  pose proof (calm_hosts_calm _ _ (de_calm _ _ _ _ _ _ _ Hdec)) as Hc1.
  destruct (rolling_started _ _ _ _ id Hroll Hin) as (d2 & Hr1 & (t & host & Hti & _ & (row2 & Hrow2 & Hwave & _) & Hready) & Hr2);
    [apply Hout; by etrans|].
  pose proof (rolling_forward _ _ _ Hr1) as Hf1. pose proof (rolling_forward _ _ _ Hr2) as Hf2.
  exists c, d0, d1, d2, host. destruct (its_place ts d1 d2 _ id t row2 t' (de_reads _ _ _ _ _ _ _ Hdec) Hti Hf1 Hrow2 Hf2 Ht') as [Ehost Ewave].
  rewrite Ehost, Ewave, Hwave. destruct (wave_chosen _ _ _ _ _ Hdec) as [Hgate Hheld]. destruct Hdec as [_ _ Hwin Hstop _].
  destruct (ready_for c c' id t host runner d2 Hrun Hsr Hready) as (?&?&?&?&?&?).
  destruct Hstop as (before & settled & dm & Hb & Hs & Hcb & Hcs & Hstop).
  split_and!; try done; [by exists row|]. exists before, settled, dm. split_and!; try done; by apply calm_hosts_calm.
Qed.


(** ** Plans that never grow old *)

(** A host whose plan is accepted goes back to the queue with its plan task
    still attached, and that is what the next pass takes for a plan nobody
    collected: it accepts the plan again, and the plan counts as computed then. *)
Lemma an_accepted_plan_is_collected_again id t hash reason d t' d' : t_PlanJobID t ≠ None →
  acceptPlan campaignID id t hash reason d = (Ok t', d') →
  planStepFor t' = planCollectUnmoved ∧ plans d' !! (campaignID, t_HostID t) = Some (hash, clock d).
Proof.
  intros Hj. unfold acceptPlan, in_ctx. rewrite bindE. rewrite (bind_Ok _ _ d tt { d with plans ::= <[(campaignID, t_HostID t) := (hash, clock d)]> }) by done.
  set (d1 := { d with plans ::= _ }). rewrite bindE.
  destruct (updateTarget_run id t TargetPending "" d1) as [[e ->]|(_ & row & _ & _ & _ & _ & ->)]; [done|].
  set (d2 := { d1 with targets ::= _ }).
  assert (Hp : plans d2 = <[(campaignID, t_HostID t) := (hash, clock d)]> (plans d)) by by destruct d.
  rewrite bindE. unfold FinishStep. change (Step_Open StepSucceeded) with false. change (needs_reason StepSucceeded) with false.
  rewrite andb_false_r.
  rewrite !(bind_Ok _ _ _ _ _ (gets_run _ _)). intros E. assert (E2 : d' = { d2 with steps := steps d' } ∧ t' = { { { t with t_ErrorCode := "" } with t_Revision := t_Revision row + 1 } with t_State := TargetPending }).
  { revert E. unfold modify, mret, M_ret. clearbody d2. destruct d2. cbn. by intros [= <- <-]. }
  destruct E2 as [-> ->]. split.
  - unfold planStepFor. destruct t; cbn in *. by rewrite bool_decide_true, bool_decide_false by done.
  - clearbody d2. destruct d2; cbn in *. rewrite Hp. apply lookup_insert_eq.
Qed.
End props.
