(* ===== verification/CampaignDemo.v ===== *)
(** * CampaignDemo: a campaign over three hosts

    The theorems of the campaigns at one campaign that restarts a unit: the
    canary is done, and a pass starts the next host. *)
From coqutil Require Import Datatypes.RecordSetters.
From S2P Require Import Prelude Bytes Text Actions ActionTables Registry AuthzTables Authz JobState Jobs.
From S2P Require Import CampaignStates Campaigns CampaignStore CampaignPass CampaignAdvance CampaignSteps CampaignMemory CampaignRuns.
From S2P Require Import CampaignRollout CampaignTicks CampaignProps CampaignStops.

Import OCamlLikeNotations.
Open Scope Z_scope.
Open Scope list_scope.

Section demo.
#[local] Existing Instance identity_order.
#[local] Instance demo_json : ResultJson :=
  {| resultNoChange := λ _, false; reboot_required := λ _, false; verification_refusal := λ _, None; fingerprint := λ _, "";
     planRefusal := λ _, ""; planNoChange := λ _, false |}.
#[local] Instance demo_orders : Orders :=
  {| order_valid := λ _, true; default_timeout := λ _, 600; destructive := λ _, false; payload_hash := λ _ _, [] |}.

(** ** The campaign *)

Definition demo_spec : Campaigns.Spec :=
  Campaigns.mkSpec "restart" ActionUnitRestart 1 1 1 0 1 None None RebootNever [] 600 0 false OfflineWait 0 false 0 "ann" "key" "".
Definition demo_hosts : list TargetHost :=
  [mkTargetHost "h1" "b1" None ""; mkTargetHost "h0" "b0" (Some TargetIneligible) "no systemd"; mkTargetHost "h2" "b2" None "";
   mkTargetHost "h3" "b3" None ""].

Lemma an_order_fills_its_waves_witness :
  Spec_Validate demo_spec = true
  ∧ let ps := placeTargets demo_hosts (sp_CanarySize demo_spec) (sp_WaveSize demo_spec) in
    pl_Host <$> ps = demo_hosts ∧ NoDup (place <$> ps)
    ∧ (∀ p, p ∈ ps → pl_State p = default TargetPending (th_State (pl_Host p)) ∧ (pl_State p ≠ TargetPending → pl_Wave p = WaveNone))
    ∧ wave_count 0 ps = sp_CanarySize demo_spec `min` ready_count demo_hosts
    ∧ ∀ wave, 0 < wave → wave_count wave ps = 0 `max` (sp_WaveSize demo_spec `min` (ready_count demo_hosts - sp_CanarySize demo_spec - (wave - 1) * sp_WaveSize demo_spec)).
Proof. assert (Hv : Spec_Validate demo_spec = true) by (vm_compute; reflexivity). split; [exact Hv|exact (an_order_fills_its_waves demo_spec demo_hosts Hv)]. Defined.

Definition demo_campaign : Campaign :=
  mkCampaign ActionUnitRestart CampaignStates.StateRunning 1 1 1 0 1 None None RebootNever [] 600 0 false OfflineWait None false "" None 0 "" "" "ann" None
    None None None "" None "ann" "" (Some 0) None 4 None 0 None.
Definition demo_target (host : string) (wave position : Z) (state : TargetState) (code : string) : Target :=
  mkTarget "C" host wave position state None None None None "" code "" None None None 1 None 0 None None.
Definition demo_rows : gmap string Target :=
  {["t1" := demo_target "h1" 0 0 TargetSucceeded ""; "t2" := demo_target "h2" 1 0 TargetPending ""; "t3" := demo_target "h3" 2 0 TargetPending ""]}.
Definition demo_tables (rows : gmap string Target) (c : Campaign) : CDB := mkCDB (mkDB 0 ∅ ∅ ∅ ∅ ∅ ∅ []) {["C" := c]} rows ∅ ∅.
Definition demo_d : CDB := demo_tables demo_rows demo_campaign.
Definition everywhere : Scope := mkScope Wildcard Wildcard "" true [Wildcard] [Wildcard].
Definition demo_world : world :=
  mkWorld (hour) (λ _, Some (mkHost true false "boot" (mkScope "site" "prod" "" false [] [])))
    (Some [mkBinding "operator" everywhere None []], None) RenewalLive (λ _, CapacityFree) (λ _, None) (λ _, None) (λ _, PlanCreateFailed) ∅ []
    (λ key, key).
Abbreviation demo_tick := (tick_one (λ _, "") (λ _ _, "") None demo_world "C" false "runner").
Definition demo_after : CDB := (demo_tick demo_d).2.

Lemma demo_started : t_State <$> (targets demo_after !! "t2"%string) = Some TargetDispatched ∧ t_State <$> (targets demo_after !! "t3"%string) = Some TargetPending.
Proof. vm_compute. done. Qed.

Lemma demo_alone : calm_others (w_others demo_world).
Proof. constructor. Qed.


Lemma demo_t2 : ∃ t', targets demo_after !! "t2"%string = Some t' ∧ t_CampaignID t' = "C" ∧ UnderWay (t_State t') = true ∧ t_Wave t' = 1 ∧ t_HostID t' = "h2".
Proof. eexists. split; [vm_compute; reflexivity|]. by vm_compute. Qed.
Lemma demo_t2_waits t : targets demo_d !! "t2"%string = Some t → UnderWay (t_State t) = false.
Proof. intros E. vm_compute in E. by injection E as <-. Qed.

Lemma a_host_starts_in_its_turn_witness :
  calm_others (w_others demo_world)
  ∧ (∃ t', targets demo_after !! "t2"%string = Some t' ∧ UnderWay (t_State t') = true)
  ∧ ∃ host, w_host demo_world "h2" = Some host ∧ h_Online host = true ∧ h_Maintenance host = false ∧ w_capacity demo_world "t2" = CapacityFree.
Proof.
  split; [exact demo_alone|]. destruct demo_t2 as (t' & Ht & Hc & Hu & _ & Hh). split; [exists t'; split; [exact Ht|exact Hu]|].
  destruct (a_host_starts_in_its_turn (λ _, "") (λ _ _, "") None demo_world "C" false "runner" demo_d "t2" t' demo_alone Ht Hc Hu demo_t2_waits)
    as (c & d0 & d1 & d2 & host & _ & _ & _ & _ & _ & _ & _ & _ & _ & _ & _ & H1 & H2 & H3 & H4 & _).
  rewrite Hh in H1. exists host. split; [exact H1|]. split; [exact H2|]. split; [exact H3|exact H4].
Defined.

Lemma demo_under_way : under_way "C" demo_after = 1 ∧ under_way "C" demo_d = 0.
Proof. vm_compute. done. Qed.

(** ** The threshold *)

(** Every host settled, one of them failed, and the order tolerates none. *)
Definition demo_failed : CDB :=
  demo_tables {["t1" := demo_target "h1" 0 0 TargetSucceeded ""; "t2" := demo_target "h2" 1 0 TargetFailed "x"; "t3" := demo_target "h3" 2 0 TargetSucceeded ""]}
    demo_campaign.

Lemma over_the_threshold_nothing_starts_or_ends_witness :
  campaigns demo_failed !! "C"%string = Some demo_campaign ∧ 0 < c_FailureThresholdAbsolute demo_campaign ≤ failed_count "C" demo_failed
  ∧ ∃ row', campaigns (demo_tick demo_failed).2 !! "C"%string = Some row'
      ∧ (c_State row' = c_State demo_campaign ∨ c_State row' ∈ [CampaignStates.StatePausing; CampaignStates.StatePaused]).
Proof.
  assert (Hrow : campaigns demo_failed !! "C"%string = Some demo_campaign) by (vm_compute; reflexivity).
  assert (Hst : c_StartedAt demo_campaign ≠ None) by discriminate.
  assert (Hs : c_State demo_campaign ∈ [CampaignStates.StatePlanned; StateCanary; StateManualGate; CampaignStates.StateRunning; CampaignStates.StatePausing; CampaignStates.StatePaused]).
  { right; right; right; left. }
  assert (Hov : 0 < c_FailureThresholdAbsolute demo_campaign ≤ failed_count "C" demo_failed) by (vm_compute; done).
  split; [exact Hrow|]. split; [exact Hov|].
  exact (proj2 (over_the_threshold_nothing_starts_or_ends (λ _, "") (λ _ _, "") None demo_world "C" eq_refl false "runner" demo_failed demo_campaign Hrow Hst Hs Hov)).
Defined.

(** ** The cancel *)

Definition demo_canceled : CDB := (Cancel "C" "bob" "" demo_after).2.
Lemma demo_cancel : Cancel "C" "bob" "" demo_after = (Ok tt, demo_canceled).
Proof. vm_compute. reflexivity. Qed.

Lemma a_cancel_leaves_nothing_to_start_witness :
  Cancel "C" "bob" "" demo_after = (Ok tt, demo_canceled)
  ∧ (∀ i t', targets demo_canceled !! i = Some t' → t_CampaignID t' = "C" → ∃ t, targets demo_after !! i = Some t
     ∧ (t_State t' ∉ UnstartedTargetStates)
     ∧ (UnderWay (t_State t') = true → t_State t' = t_State t ∧ t_CancelRequestedAt t' ≠ None)
     ∧ (UnderWay (t_State t') = false → t_State t' = TargetCanceled ∨ t' = t)).
Proof. split; [exact demo_cancel|]. exact (proj1 (a_cancel_leaves_nothing_to_start "C" "bob" "" demo_after demo_canceled demo_cancel)). Defined.

(** The task in the hands of a gateway that has not delivered it yet. *)
Definition demo_gateway : CDB :=
  { demo_after with job_tables := { job_tables demo_after with jobs ::= alter (λ j, { j with j_state := JobState.StateLeased }) "campaign:C:main:h2" } }.
(** A cancel neither takes such a task back nor asks anybody to stop it: it is
    delivered and carried out after the cancel. *)
Lemma a_cancel_leaves_a_leased_task_alone :
  let d' := (Cancel "C" "bob" "" demo_gateway).2 in
  (Cancel "C" "bob" "" demo_gateway).1 = Ok tt
  ∧ j_state <$> (jobs (job_tables demo_gateway) !! "campaign:C:main:h2"%string) = Some JobState.StateLeased
  ∧ jobs (job_tables d') !! "campaign:C:main:h2"%string = jobs (job_tables demo_gateway) !! "campaign:C:main:h2"%string
  ∧ t_State <$> (targets d' !! "t2"%string) = Some TargetDispatched
  ∧ c_State <$> (campaigns d' !! "C"%string) = Some StateCanceling.
Proof. vm_compute. done. Qed.

(** ** A lease that went to another *)

(** The first runner stopped answering; its lease ran out an hour ago. *)
Definition demo_late : CDB := { demo_after with job_tables := { job_tables demo_after with Jobs.now := hour } }.
Definition demo_row : Campaign := default demo_campaign (campaigns demo_late !! "C"%string).
Definition demo_claimed : CDB := (ClaimRunner false "C" "other" demo_late).2.
Definition demo_taken : CDB := (AdoptTargets "C" "other" demo_claimed).2.

Lemma demo_claim : ClaimRunner false "C" "other" demo_late = (Ok (Some 2), demo_claimed).
Proof. vm_compute. reflexivity. Qed.
Lemma demo_not_other i r : targets demo_late !! i = Some r → t_CampaignID r = "C" → Finished (t_State r) = false → t_ClaimedBy r ≠ Some "other".
Proof.
  intros Hr _ _. assert (Hall : map_Forall (λ _ r, t_ClaimedBy r ≠ Some "other") (targets demo_late)) by (apply (bool_decide_unpack _); vm_compute; exact I).
  exact (Hall i r Hr).
Qed.

Lemma a_runner_that_lost_its_lease_writes_nothing_witness :
  ClaimRunner false "C" "other" demo_late = (Ok (Some 2), demo_claimed) ∧ c_RunnerID demo_row = Some "runner"
  ∧ (∀ state reason, ∃ e, SetState [] "C" demo_row state reason demo_taken = (Err e, demo_taken))
  ∧ (∃ e, LockForLaunch "C" demo_row demo_taken = (Err e, demo_taken)).
Proof.
  assert (Hrow : campaigns demo_late !! "C"%string = Some demo_row) by (vm_compute; reflexivity).
  assert (Hrun : c_RunnerID demo_row = Some "runner") by (vm_compute; reflexivity).
  assert (Hne : "other" ≠ "runner") by discriminate.
  destruct (a_runner_that_lost_its_lease_writes_nothing false "C" "runner" "other" demo_row demo_row (Targets "C" demo_late) 2 demo_late demo_claimed demo_taken
    Hrow Hrun Hrun eq_refl Hne (reads_Targets "C" demo_late) demo_not_other demo_claim (reflexivity demo_taken)) as (H1 & H2 & _).
  split; [exact demo_claim|]. split; [exact Hrun|]. split; [exact H1|exact H2].
Defined.
End demo.
